(* ===== verification/_CoqProject ===== *)
-Q . S2P
Prelude.v
Bits.v
Float32.v
FloatRound.v
FloatConv.v
Machine.v
Mmu.v
Exec.v
Run.v
Alu.v
Memory.v
Csr.v
Privilege.v
PageTable.v
Reach.v
Raises.v
PyStr.v
Asm.v
Disasm.v
PyText.v
PosixPath.v
Argparse.v
AsmText.v
Roundtrip.v
AsmLink.v
AsmImage.v
MemFile.v
Fdt.v
FdtRead.v
FdtCore.v
ElfImage.v
BootImage.v
RandGen.v
Forward.v
Interrupted.v
Translated.v
RandLines.v
RandItems.v
RandLabels.v
RandRun.v
RandProgram.v
RandInterrupt.v
RandConst.v
RandTranslated.v
FloatExec.v
AsmExec.v
Debugger.v
DebugRun.v
Testbench.v
DebugSession.v
ByteOrder.v
CrossCheck.v
AsmConcat.v
Bench.v
Profiler.v
Coverage.v
Trace.v
EncodingCheck.v
CBench.v
CommandLine.v
KernelBoot.v
