(* ===== verification/Prelude.v ===== *)
(** * Verification of the software tool chain of the 5-stage RISC-V core

    The repository holds a pipelined RV32IM/RV64 core in Verilog and, under
    [src/sim/tools/], the Python programs around it.  This library models the
    Python programs that define what an instruction means, and proves them
    correct: the instruction-set simulator [iss.py], the golden model every RTL
    test is compared with; the assembler [asm.py]; the disassembler [disasm.py];
    the [.mem] text format that carries programs between them; the random program
    generator [random_gen.py]; the debugger [debugger.py] on the simulator; the
    device-tree writer [gen_dtb.py]; and the tools that put these together: the
    image converter [elf2mem.py], the firmware and Linux image builders, the random
    cross-check, the benchmark and compiled-C runners, the profiler, the coverage
    report, the trace converter, the dump reader and the kernel boot model builder,
    each with its command line.

    ** How the parts interact

    [asm.assemble] turns source lines into 32-bit words, [asm.write_mem] lays them
    out as bytes and prints one byte per line; [load_words] (three copies, in the
    random tests, the benchmark runner and the debugger) reads such a file into
    the word list that [ISS.run] executes; [disasm] prints words for people and
    for traces.  [ISS.run] fetches through the MMU, injects the scheduled
    interrupt, and calls [ISS.step], which reads and writes registers, data memory
    (through the MMU), CSRs and float registers, and enters traps.
    [random_gen.gen_program] writes assembler source, which the random tests pass
    through [assemble], [write_mem], [load_words] and [run], and compare with what
    the Verilog core dumps.  [gen_dtb] builds the device tree blob with [FdtBuilder]
    and checks it with [parse_and_validate].  The image builders compile with an
    external compiler, convert with [elf2mem], and lay firmware, kernel, initramfs
    and device tree out in the two memories.  The runners fill a Verilog template,
    run it, and read decimal dumps back.  What a tool runs as a process is the
    Rocq definition of it when it is one of these programs (an exception becomes a
    failed command), and a parameter when it is not: [run_tool] for the compiler
    and the binary utilities, [simulate] for the Verilog simulator.

    ** Files, and what of [src/sim/tools/] each one is

    - [Prelude.v]: Python's integer operators, exceptions as a [result] type with
      a bind notation, list indexing, tactics ([py_bool], [split_ifs], [fields])
      and lemmas on bits;
    - [Bits.v]: [s32], [u32], [sXLEN], [uXLEN], [sext] of [iss.py];
    - [Float32.v]: the float section of [iss.py], [f32_decode] to
      [f_cvt_from_int]; a [fractions.Fraction] is a reduced [Q];
    - [Machine.v]: class [ISS]: the state as a record, [__init__], [wr],
      [csr_read], [csr_write], [trap], [mret], [sret], the data memory;
    - [Mmu.v]: [translate] and the Sv32 and Sv39 walks;
    - [Exec.v]: [step], one definition per arm of its dispatch;
    - [Run.v]: [run], one definition for a round of its loop and one for the loop;
    - [PyStr.v]: the string methods, [int(_, 0)] and format specifiers used below;
    - [Asm.v]: [asm.py]: tables, operand readers, encoders, both
      passes of [assemble], the bytes of [write_mem];
    - [Disasm.v]: [disasm.py];
    - [MemFile.v]: the text side of [write_mem], [load_words], [read_mem] of
      [build_linux_boot.py], [swap_instruction_words] of [elf2mem.py];
    - [Fdt.v]: [gen_dtb.py]: [FdtBuilder], [build_this_core_dtb],
      [parse_and_validate];
    - [RandGen.v]: [random_gen.py]: the constant sequences and
      [gen_program] in its plain, interrupt and translated modes;
    - [Debugger.v]: class [Debugger] of [debugger.py] and every command of [repl]
      with what it prints; [DebugSession.v]: [assemble_if_needed] and [main];
    - [PyText.v]: Python's indexing, slices, slice assignment, [split], [splitlines],
      [replace], [int(_, 10)], [int(_, 16)], [repr] and paths, shared by the tools;
    - [ElfImage.v]: [elf2mem.py]; [BootImage.v]: [build_sbi_firmware.py],
      [build_linux_boot.py] and the [main] of [gen_dtb.py];
    - [Testbench.v]: filling templates, [asm.py] as a process, decimal dumps, and
      [read_dump.py]; [CrossCheck.v]: [run_random_tests.py]; [Bench.v]:
      [bench_runner.py] and the kernels of [src/sim/benchmarks/]; [CBench.v]:
      [build_c_bench.py]; [Profiler.v]: [profiler.py]; [Coverage.v]:
      [coverage_report.py] and the counter dump of [src/design/riscvpipeline.v];
      [Trace.v]: [gen_trace.py], [build_viewer.py] and the table of
      [src/sim/tb/gen_trace.v]; [EncodingCheck.v]:
      [test_branch_encoding_roundtrip.py];
    - [Argparse.v]: the part of Python's [argparse] the tools use: option strings,
      abbreviations, clusters of short options, negative numbers, types, choices,
      lists, exclusive groups, the errors that end the program with status 2;
    - [CommandLine.v]: the parser of each tool ([asm_parser], [run_random_parser],
      ...), the programs from their command line on ([asm_main], [random_gen_main],
      [elf2mem_main], ...), and the command lines one tool writes for another
      ([asm_argv], [gen_dtb_linux_argv], ...);
    - [PosixPath.v]: [normpath], [join], [abspath], [relpath] and [dirname] of
      [os.path]; [KernelBoot.v]: [build_kernel_boot.py].

    The other files hold specifications and theorems only.

    ** What the theorems show

    - [Alu.v]: multiplication, division and [ctz] against [Z]'s own
      operations at both widths, overflow and division by zero included; the
      ["w"] instructions against the 32-bit ones.
    - [Memory.v] (C5): little-endian accesses, proved once against the interface
      [ByteStore] and instantiated at the simulator's memory and at a bytearray.
    - [Csr.v] (C6, C8, C9): read after write and frame of the CSR file, trap entry
      field by field, [mret] and [sret] undo it.
    - [Privilege.v] (C11, C12): what a U-mode and an S-mode instruction can never
      change.
    - [PageTable.v] (C13): both unrolled walks refine one inductive specification of
      radix page tables; the page offset never changes.
    - [Reach.v] (C15 to C17): invariants of the states reachable from [__init__],
      by induction on the rounds of [run]; when [run] ends, and a program for
      which it does not.
    - [Raises.v] (C20): exactly when [step] raises; a program that makes it.
    - [FloatRound.v] (C22, C23): sums, fused multiply-adds, products, quotients
      and square roots are correctly rounded in each of the five modes, with
      overflow, flush to zero and the flags.
    - [FloatConv.v] (C10): conversions to and from integers are correctly rounded,
      saturate and raise the flags they should; comparisons, minimum and maximum
      follow the order of the values.
    - [AsmText.v], [Roundtrip.v] (C4): [assemble] undoes [disasm] on every
      encoding both know ([canonical]).
    - [AsmLink.v] (C26): a branch or jump to a label takes the simulator to
      the label; offsets are never truncated.
    - [AsmImage.v] (C29): the image holds the program, little-endian and padded.
    - [AsmConcat.v]: sources that are complete by themselves assemble to the same
      words wherever they stand.
    - [MemFile.v] (C30): the text format is lossless; [load_words] reads the
      bytes of each word in the opposite order to the one [write_mem] uses.
    - [FdtRead.v] (C32, C33): a reader written from the format alone gets back the
      calls a blob was built from; [parse_and_validate] accepts exactly the
      well-nested ones.
    - [FdtCore.v] (C34): the blob of this core is always valid and has the intended
      contents.
    - [Forward.v]: words that in M-mode fall through or go forward, and that a
      program made of them halts.  [RandLines.v], [RandItems.v]: every instruction
      the generator can draw is such a word.  [RandLabels.v], [RandRun.v]: its
      labels stand behind their references, so the whole program goes forward.
      [RandProgram.v] (C2, C36): a generated program halts, stays in its memory
      window, and is one word longer than the budget that was checked.
    - [Interrupted.v], [RandInterrupt.v] (C7): states that differ only in the CSRs of
      the trap mechanism execute alike, a handler that disarms and returns leads to
      such a state, and so the interrupt of a generated program leaves no trace in
      the state that is compared.
    - [Translated.v], [RandTranslated.v] (C24): behind tables that map its page to
      itself an unprivileged program does in U-mode what it does in M-mode, and a
      program generated for translation is one; one that is longer than the page
      faults and starts again until the steps run out.
    - [RandConst.v] (C38): the constant sequences compute the constant.
    - [FloatExec.v], [AsmExec.v] (C1): what the integer, load and store mnemonics mean,
      in plain arithmetic, and which routine and rounding mode a float line names, is
      what the simulator does with the words the assembler writes for them.
    - [DebugRun.v] (C39, C40): the debugger's [continue] refines [ISS.run] up to a
      breakpoint, and its history always replays to the state it shows.
    - [DebugSession.v]: which words a session works on; on a source file, because
      of [load_words], they are the assembled ones with their bytes reversed.
    - [ElfImage.v] (C14), [BootImage.v] (C19): the images are exactly the parts at
      the addresses the tools report, nothing overlaps, and the builders raise
      exactly on what does not fit.
    - [Testbench.v] (C21): a dump is read back as the program's own loads see it.
    - [ByteOrder.v]: what the simulator does with words whose bytes are reversed.
      [CrossCheck.v] (C27, C37): the cross-check passes exactly on agreement, and at
      this commit, because of [load_words], it never does.
    - [Bench.v] (C3): the kernels compute what the runner expects; a comparison
      varies one axis only; at this commit the runner fails, for the same reason.
      [CBench.v]: what is returned is the final state of a core given the images of
      the linked program.
    - [Profiler.v] (C18): the profiled programs are the kernel's words with only the
      counter instructions added; the instruction mix counts every word once.
    - [Coverage.v] (C31): the report is that of the summed counters; four of its
      branch names are not the assembler's.
    - [Trace.v]: the rows shown are the cycles sampled, without the idle end.
      [EncodingCheck.v]: the script passes, and on no other table.
    - [Argparse.v], [CommandLine.v] (C25, C28): an accepted command line gives every
      attribute a value of its type and choices, at most one option of an exclusive
      group is given, and the tools read each other's command lines as they are meant.
    - [PosixPath.v], [KernelBoot.v] (C35): [relpath] resolves to the path it was made
      from, so that the boot model is built from the images named, wherever the tool
      is started.

    ** Bounds and fuel

    Python integers are [Z]; every width is written out by the code's own masks.
    Registers and addresses are unsigned numbers, as the code keeps them.  The
    exponent-adjusting loops of the float section run with fuel [loop_fuel] = 4;
    [FloatRound.normalize_exponent] and [FloatRound.sqrt_exponent] prove that their
    guards are false on exit, so the fuel never cuts a loop.  [run] takes fuel;
    [Reach.run_terminates] and [Reach.run_terminates_64] prove that
    [2 * max_steps + 4] rounds are enough under their hypotheses, and
    [Reach.fetch_fault_livelock] that without them no fuel is.  [show_base] uses
    one digit per bit, enough in any base.  The token loop of [parse_and_validate]
    has one round for each byte of the structure block, and
    [FdtRead.walk_loop_total] proves that this is enough for any input.  The draws
    of [random.Random] are a list of integers, each reduced to the range of the
    call that takes it: a statement for all lists covers every seed.

    ** What is not modelled

    Strings are ASCII: Python's [\d], [\w], [\s], [strip] and [lower] are taken on
    that range.  Exceptions are kept as their class, without the message.
    What most tools print is not modelled, nor the text of usage messages, and of
    [argparse] the argument [--] by itself is not ([OutsideModel]); the Verilog is
    not, but for the two tasks that write the files [Coverage.v] and [Trace.v] read.
    Paths are POSIX ones.  The CSV reader is modelled for fields
    without quotes, and ratios are exact rationals where Python has floats.  The
    simulator has no peripherals: as in [load_mem_byte] and
    [store_mem_byte], an access at [0x10000000] or above reads 0 and writes nothing,
    and a lower address is masked into the memory.

    ** Further work

    A simulation between the 64-bit and the 32-bit simulator on programs both can
    run; the meanings of the CSR mnemonics, as those of the others are stated in
    [AsmExec.v]. *)

From Stdlib Require Export ZArith Lia.
From stdpp Require Export base tactics numbers list gmap option strings.

#[global] Open Scope Z_scope.

(** ** Python's integer operators

    Python's integers are unbounded and its bitwise operators work on infinite
    two's complement, which is what [Z.land], [Z.lor], [Z.lxor], [Z.shiftl] and
    [Z.shiftr] compute; [//] and [%] are [Z.div] and [Z.modulo] (floor division).
    stdpp's [≪] and [≫] are the shifts. *)

Declare Scope py_scope.
Delimit Scope py_scope with py.
Notation "a .& b" := (Z.land a b) (at level 37, left associativity) : py_scope.
Notation "a .^ b" := (Z.lxor a b) (at level 38, left associativity) : py_scope.
Notation "a .| b" := (Z.lor a b) (at level 39, left associativity) : py_scope.
#[global] Open Scope py_scope.

(** The truth value of an integer in a Python condition. *)
Definition truthy (z : Z) : bool := negb (z =? 0).

(** A Python [bool] used as an integer. *)
Definition b2z (b : bool) : Z := if b then 1 else 0.

(** ** Exceptions

    A Python function that can raise returns a [result]; the exception is kept
    as its class, without the message ([StructError] is [struct.error],
    [CalledProcessError] is [subprocess]'s, and a [UnicodeEncodeError] is a
    [ValueError]). *)

Inductive exn : Type :=
| ValueError
| KeyError
| IndexError
| AttributeError
| AssertionError
| TypeError
| ZeroDivisionError
| RuntimeError
| CalledProcessError
| StructError.

Inductive result (A : Type) : Type :=
| Ok (a : A)
| Err (e : exn).
Arguments Ok {A} a.
Arguments Err {A} e.

Definition rbind {A B} (m : result A) (k : A -> result B) : result B :=
  match m with Ok a => k a | Err e => Err e end.

Notation "'let!' x := m 'in' k" := (rbind m (fun x => k))
  (at level 10, x pattern, m at level 100, k at level 200) : py_scope.

#[global] Instance exn_eq_dec : EqDecision exn.
Proof. solve_decision. Defined.

(** ** Indexing a list with a Python integer

    The tools only index with masked, hence non-negative, integers; [zget] and
    [zset] are used where the index is in range (the invariants of the
    components prove it), so the default and the silent no-op of stdpp's
    insertion are never observed. *)

Definition zget (l : list Z) (i : Z) : Z := default 0 (l !! Z.to_nat i).
Definition zset (l : list Z) (i v : Z) : list Z := <[Z.to_nat i := v]> l.

(** ** Tactics *)

(** Turns boolean comparisons of the context and the goal into propositions. *)
Ltac py_bool :=
  repeat match goal with
  | H : (_ =? _) = true |- _ => apply Z.eqb_eq in H
  | H : (_ =? _) = false |- _ => apply Z.eqb_neq in H
  | H : (_ <? _) = true |- _ => apply Z.ltb_lt in H
  | H : (_ <? _) = false |- _ => apply Z.ltb_ge in H
  | H : (_ <=? _) = true |- _ => apply Z.leb_le in H
  | H : (_ <=? _) = false |- _ => apply Z.leb_gt in H
  | H : negb _ = true |- _ => apply negb_true_iff in H
  | H : negb _ = false |- _ => apply negb_false_iff in H
  | H : andb _ _ = true |- _ => apply andb_true_iff in H; destruct H
  | H : orb _ _ = false |- _ => apply orb_false_iff in H; destruct H
  end.

(** Splits on every [if] of the goal, keeping the equation. *)
Ltac split_ifs :=
  repeat match goal with
  | |- context [if ?b then _ else _] =>
      lazymatch b with
      | context [if _ then _ else _] => fail
      | _ => let E := fresh "E" in destruct b eqn:E
      end
  end.

(** ** Bits and powers of two *)

Lemma pow2_pos n : 0 <= n -> 0 < 2 ^ n.
Proof. intros; apply Z.pow_pos_nonneg; lia. Qed.

Lemma ones_minus_1 n : (1 ≪ n) - 1 = Z.ones n.
Proof. unfold Z.ones. lia. Qed.

Lemma land_ones_mod v n : 0 <= n -> v .& ((1 ≪ n) - 1) = v mod 2 ^ n.
Proof. intros. rewrite ones_minus_1. by apply Z.land_ones. Qed.

Lemma shiftl_1 n : 0 <= n -> 1 ≪ n = 2 ^ n.
Proof. intros. rewrite Z.shiftl_mul_pow2 by lia. lia. Qed.

(** [(v >> k) & 1] is bit [k] of [v]. *)
Lemma bit_at v k : 0 <= k -> (v ≫ k) .& 1 = Z.b2z (Z.testbit v k).
Proof.
  intros. rewrite Z.testbit_spec' by lia.
  rewrite Z.shiftr_div_pow2 by lia. change 1 with (Z.ones 1).
  by rewrite Z.land_ones by lia.
Qed.

Lemma b2z_truthy b : truthy (Z.b2z b) = b.
Proof. by destruct b. Qed.

(** [v & (1 << k)] is nonzero exactly when bit [k] of [v] is set. *)
Lemma land_pow2_truthy v k : 0 <= k -> truthy (v .& (1 ≪ k)) = Z.testbit v k.
Proof.
  intros. unfold truthy. rewrite shiftl_1 by lia.
  destruct (Z.testbit v k) eqn:E.
  - apply negb_true_iff, Z.eqb_neq. intros H0.
    assert (Z.testbit (v .& 2 ^ k) k = true) as HT
      by (by rewrite Z.land_spec, E, Z.pow2_bits_true by lia).
    rewrite H0, Z.testbit_0_l in HT. done.
  - apply negb_false_iff, Z.eqb_eq. apply Z.bits_inj'. intros i Hi.
    rewrite Z.land_spec, Z.testbit_0_l, Z.pow2_bits_eqb by lia.
    destruct (Z.eqb_spec k i) as [->|]; by rewrite ?E, ?andb_false_r.
Qed.

(** A disjunction of fields that do not overlap is their sum. *)
Lemma land_low_0 n a b :
  0 <= n -> a mod 2 ^ n = 0 -> 0 <= b < 2 ^ n -> a .& b = 0.
Proof.
  intros Hn Ha Hb. apply Z.bits_inj'; intros i Hi.
  rewrite Z.land_spec, Z.testbit_0_l. destruct (Z.lt_ge_cases i n).
  - by rewrite <- (Z.mod_pow2_bits_low a n i), Ha, Z.testbit_0_l by lia.
  - by rewrite <- (Z.mod_small b (2 ^ n)), Z.mod_pow2_bits_high, andb_false_r by lia.
Qed.

Lemma lor_low n a b :
  0 <= n -> a mod 2 ^ n = 0 -> 0 <= b < 2 ^ n -> a .| b = a + b.
Proof.
  intros Hn Ha Hb. pose proof (land_low_0 n a b Hn Ha Hb) as H0.
  rewrite <- Z.lxor_lor by done. symmetry. by apply Z.add_nocarry_lxor.
Qed.

Lemma lor_low' n a b :
  0 <= n -> b mod 2 ^ n = 0 -> 0 <= a < 2 ^ n -> a .| b = a + b.
Proof. intros. rewrite Z.lor_comm, Z.add_comm. by apply (lor_low n). Qed.

Lemma land_lit x c k : c = Z.ones k -> 0 <= k -> x .& c = x mod 2 ^ k.
Proof. intros -> ?. by apply Z.land_ones. Qed.

(** *** Field arithmetic

    [fields] proves goals about shifts, masks and disjunctions of disjoint
    fields at literal positions: it rewrites them to division, remainder and
    addition and calls [lia]. *)

Ltac is_pos_lit p :=
  lazymatch p with
  | xH => idtac | xO ?q => is_pos_lit q | xI ?q => is_pos_lit q
  end.
Ltac is_Z_lit c :=
  lazymatch c with
  | Z0 => idtac | Zpos ?p => is_pos_lit p | Zneg ?p => is_pos_lit p
  end.

Ltac masks_to_mod :=
  repeat match goal with
  | |- context [Z.land ?x ?c] =>
      is_Z_lit c;
      let k := eval vm_compute in (Z.log2 (c + 1)) in
      rewrite (land_lit x c k) by (reflexivity || lia)
  end.

(** [lia] with quotients and remainders by literal powers of two. *)
Ltac pow_lits :=
  repeat match goal with
  | |- context [2 ^ ?n] =>
      is_Z_lit n; let v := eval vm_compute in (2 ^ n) in change (2 ^ n) with v
  | H : context [2 ^ ?n] |- _ =>
      is_Z_lit n; let v := eval vm_compute in (2 ^ n) in change (2 ^ n) with v in H
  end.
Ltac dlia := pow_lits; Z.to_euclidean_division_equations; lia.

Ltac low_zeros t :=
  lazymatch t with
  | ?a + ?b =>
      let i := low_zeros a in let j := low_zeros b in
      eval vm_compute in (Z.min i j)
  | _ * 2 ^ ?n => n
  | _ => constr:(0)
  end.

Ltac lors_to_add :=
  repeat match goal with
  | |- context [Z.lor ?a ?b] =>
      lazymatch a with context [Z.lor _ _] => fail | _ => idtac end;
      lazymatch b with context [Z.lor _ _] => fail | _ => idtac end;
      let i := low_zeros a in let j := low_zeros b in
      first [ rewrite (lor_low i a b) by dlia | rewrite (lor_low' j a b) by dlia ]
  end.

Ltac fields_norm :=
  rewrite ?Z.shiftr_div_pow2, ?Z.shiftl_mul_pow2 by lia;
  masks_to_mod; lors_to_add.

Ltac fields := fields_norm; dlia.

Example fields_demo rd rs1 :
  0 <= rd < 32 -> 0 <= rs1 < 32 ->
  ((((rs1 ≪ 15) .| (rd ≪ 7) .| 0x13) ≫ 15) .& 0x1F) = rs1.
Proof. intros. fields. Qed.

Lemma lor_swap a b c : (a .| b) .| c = (a .| c) .| b.
Proof. by rewrite <- !Z.lor_assoc, (Z.lor_comm b c). Qed.

(** ** Lists indexed by integers *)

Section ZLists.
  Implicit Types l : list Z.

Lemma zget_zset_eq l i v :
  0 <= i < Z.of_nat (length l) -> zget (zset l i v) i = v.
Proof. intros. unfold zget, zset. by rewrite list_lookup_insert_eq by lia. Qed.

Lemma zget_zset_ne l i j v :
  0 <= i -> 0 <= j -> i <> j -> zget (zset l i v) j = zget l j.
Proof. intros. unfold zget, zset. rewrite list_lookup_insert_ne by lia. done. Qed.

Lemma zget_zset l i j v :
  0 <= i < Z.of_nat (length l) -> 0 <= j ->
  zget (zset l i v) j = if i =? j then v else zget l j.
Proof.
  intros. destruct (Z.eqb_spec i j) as [->|].
  - by apply zget_zset_eq.
  - by apply zget_zset_ne; lia.
Qed.

Lemma length_zset l i v : length (zset l i v) = length l.
Proof. apply length_insert. Qed.

Lemma zget_Forall (P : Z -> Prop) l i : P 0 -> Forall P l -> P (zget l i).
Proof.
  intros H0 Hl. unfold zget. destruct (l !! Z.to_nat i) eqn:E; [|done].
  by eapply Forall_lookup_1 in E.
Qed.

Lemma zset_Forall (P : Z -> Prop) l i v : P v -> Forall P l -> Forall P (zset l i v).
Proof. intros. by apply Forall_insert. Qed.

Lemma zget_replicate n i : zget (replicate n 0) i = 0.
Proof.
  unfold zget. destruct (replicate n 0 !! Z.to_nat i) eqn:E; [|done].
  apply lookup_replicate in E as [-> _]. done.
Qed.

End ZLists.
