(* ===== verification/Bits.v ===== *)
(** * Fixed-width views of Python integers

    The helpers at the top of [src/sim/tools/iss.py]: [s32]/[u32], the
    register-width [sXLEN]/[uXLEN], and [sext], which reads a [bits]-wide field
    as a signed number.  The lemmas say that each computes the one number of
    the width's range congruent to its argument, which is what the rest of the
    development uses of them. *)

From S2P Require Import Prelude.
Open Scope Z_scope.

Definition s32 (v : Z) : Z :=
  let v := v .& 0xFFFFFFFF in
  if truthy (v .& 0x80000000) then v - (1 ≪ 32) else v.

Definition u32 (v : Z) : Z := v .& 0xFFFFFFFF.

Definition sXLEN (v xlen : Z) : Z :=
  let v := v .& ((1 ≪ xlen) - 1) in
  if truthy (v .& (1 ≪ (xlen - 1))) then v - (1 ≪ xlen) else v.

Definition uXLEN (v xlen : Z) : Z := v .& ((1 ≪ xlen) - 1).

Definition sext (v bits : Z) : Z :=
  let v := v .& ((1 ≪ bits) - 1) in
  if truthy (v .& (1 ≪ (bits - 1))) then v - (1 ≪ bits) else v.

(** Ranges of bytes and of 32-bit words. *)
Definition is_byte (b : Z) : Prop := 0 <= b < 256.
Definition is_u32 (v : Z) : Prop := 0 <= v < 2 ^ 32.

(** ** Unsigned views *)

Lemma land_range v n : 0 <= n -> 0 <= v .& Z.ones n < 2 ^ n.
Proof. intros. rewrite Z.land_ones by lia. apply Z.mod_pos_bound, pow2_pos; lia. Qed.

Lemma uXLEN_mod v xlen : 0 <= xlen -> uXLEN v xlen = v mod 2 ^ xlen.
Proof. apply land_ones_mod. Qed.

Lemma u32_mod v : u32 v = v mod 2 ^ 32.
Proof. unfold u32. by apply land_lit. Qed.

Lemma u32_uXLEN v : u32 v = uXLEN v 32.
Proof. by rewrite u32_mod, uXLEN_mod. Qed.

Lemma uXLEN_range v xlen : 0 <= xlen -> 0 <= uXLEN v xlen < 2 ^ xlen.
Proof. intros. rewrite uXLEN_mod by done. apply Z.mod_pos_bound, pow2_pos; lia. Qed.

Lemma uXLEN_id v xlen : 0 <= xlen -> 0 <= v < 2 ^ xlen -> uXLEN v xlen = v.
Proof. intros. rewrite uXLEN_mod by done. by apply Z.mod_small. Qed.

Lemma u32_range v : 0 <= u32 v < 2 ^ 32.
Proof. rewrite u32_uXLEN. by apply uXLEN_range. Qed.

Lemma u32_is_u32 v : is_u32 (u32 v).
Proof. apply u32_range. Qed.

Lemma u32_id v : 0 <= v < 2 ^ 32 -> u32 v = v.
Proof. intros. rewrite u32_uXLEN. by apply uXLEN_id. Qed.

(** ** Signed views *)

(** The value of a two's complement field, with no bit operation. *)
Definition signed (v w : Z) : Z := (v + 2 ^ (w - 1)) mod 2 ^ w - 2 ^ (w - 1).

Lemma pow2_double w : 0 < w -> 2 ^ w = 2 * 2 ^ (w - 1).
Proof. intros. rewrite <- Z.pow_succ_r by lia. f_equal. lia. Qed.

Lemma signed_unfold v w :
  0 < w ->
  signed v w = if v mod 2 ^ w <? 2 ^ (w - 1) then v mod 2 ^ w else v mod 2 ^ w - 2 ^ w.
Proof.
  intros. unfold signed. pose proof (pow2_double w ltac:(lia)) as E.
  pose proof (pow2_pos (w - 1) ltac:(lia)).
  pose proof (Z.mod_pos_bound v (2 ^ w) ltac:(lia)).
  rewrite <- Z.add_mod_idemp_l by lia.
  destruct (Z.ltb_spec (v mod 2 ^ w) (2 ^ (w - 1))).
  - rewrite Z.mod_small by lia. lia.
  - rewrite <- (Z.mod_unique_pos _ (2 ^ w) 1 (v mod 2 ^ w - 2 ^ (w - 1))); lia.
Qed.

Lemma sign_bit v w :
  0 < w -> truthy ((v mod 2 ^ w) .& (1 ≪ (w - 1))) = negb (v mod 2 ^ w <? 2 ^ (w - 1)).
Proof.
  intros. rewrite land_pow2_truthy by lia.
  pose proof (pow2_pos (w - 1) ltac:(lia)). pose proof (pow2_double w ltac:(lia)).
  pose proof (Z.mod_pos_bound v (2 ^ w) ltac:(lia)) as Hb.
  set (x := v mod 2 ^ w) in *.
  pose proof (Z.div_mod x (2 ^ (w - 1)) ltac:(lia)) as D.
  pose proof (Z.mod_pos_bound x (2 ^ (w - 1)) ltac:(lia)) as B.
  rewrite Z.testbit_eqb by lia.
  assert (x / 2 ^ (w - 1) = 0 \/ x / 2 ^ (w - 1) = 1) as [E|E] by nia; rewrite E;
    destruct (Z.ltb_spec x (2 ^ (w - 1))); simpl; (done || nia).
Qed.

Lemma sXLEN_signed v xlen : 0 < xlen -> sXLEN v xlen = signed v xlen.
Proof.
  intros. unfold sXLEN. rewrite land_ones_mod, sign_bit, signed_unfold by lia.
  rewrite shiftl_1 by lia. by destruct (_ <? _).
Qed.

Lemma sext_signed v w : 0 < w -> sext v w = signed v w.
Proof. apply sXLEN_signed. Qed.

Lemma s32_signed v : s32 v = signed v 32.
Proof. by rewrite <- sXLEN_signed. Qed.

Lemma signed_range v w : 0 < w -> - 2 ^ (w - 1) <= signed v w < 2 ^ (w - 1).
Proof.
  intros. unfold signed. pose proof (pow2_double w ltac:(lia)).
  pose proof (pow2_pos (w - 1) ltac:(lia)).
  pose proof (Z.mod_pos_bound (v + 2 ^ (w - 1)) (2 ^ w) ltac:(lia)). lia.
Qed.

Lemma signed_mod v w : 0 < w -> (signed v w) mod 2 ^ w = v mod 2 ^ w.
Proof.
  intros. unfold signed. rewrite Zminus_mod_idemp_l. f_equal. lia.
Qed.

Lemma signed_of_mod v w : 0 < w -> signed (v mod 2 ^ w) w = signed v w.
Proof. intros. unfold signed. by rewrite Zplus_mod_idemp_l. Qed.

Lemma signed_id v w : 0 < w -> - 2 ^ (w - 1) <= v < 2 ^ (w - 1) -> signed v w = v.
Proof.
  intros. unfold signed. pose proof (pow2_double w ltac:(lia)).
  rewrite Z.mod_small; lia.
Qed.

Lemma signed_unique v w x :
  0 < w -> - 2 ^ (w - 1) <= x < 2 ^ (w - 1) -> x mod 2 ^ w = v mod 2 ^ w ->
  signed v w = x.
Proof.
  intros ? ? E. rewrite <- signed_of_mod, <- E, signed_of_mod by lia.
  by apply signed_id.
Qed.

Lemma signed_nonneg v w : 0 < w -> 0 <= v < 2 ^ (w - 1) -> signed v w = v.
Proof. intros. apply signed_id; lia. Qed.

Create HintDb bits.
#[export] Hint Resolve uXLEN_range u32_range signed_range : bits.
