(* ===== verification/Float32.v ===== *)
(** * RV32F arithmetic of the simulator

    The float section of [src/sim/tools/iss.py]: every operation is computed on
    exact rationals ([fractions.Fraction]) and rounded once.  A [Fraction] is a
    [Q] kept in lowest terms by [Qred], as Python keeps it. *)

From Stdlib Require Import QArith Qabs Qreduction Qpower.
From S2P Require Import Prelude Bits.
Open Scope Z_scope.

Definition RM_RNE := 0.
Definition RM_RTZ := 1.
Definition RM_RDN := 2.
Definition RM_RUP := 3.
Definition RM_RMM := 4.

Definition CANONICAL_NAN := 0x7FC00000.

Definition F_NV := 16.
Definition F_DZ := 8.
Definition F_OF := 4.
Definition F_UF := 2.
Definition F_NX := 1.

(** ** [fractions.Fraction] *)

Definition Fraction (num : Z) (den : positive) : Q := Qred (num # den).
Definition Qfrac_of_Z (n : Z) : Q := Fraction n 1.
Definition frac_mul (x y : Q) : Q := Qred (x * y).
Definition frac_div (x y : Q) : Q := Qred (x / y).
Definition frac_add (x y : Q) : Q := Qred (x + y).
Definition frac_sub (x y : Q) : Q := Qred (x - y).
Definition frac_neg (x : Q) : Q := Qred (- x).
Definition frac_abs (x : Q) : Q := Qred (Qabs x).
(** [Fraction(2) ** e], for an exponent of either sign. *)
Definition two_pow (e : Z) : Q := Qred (Qpower 2 e).
Definition frac_ltb (x y : Q) : bool := negb (Qle_bool y x).
(** [int.bit_length] *)
Definition bit_length (z : Z) : Z := if z =? 0 then 0 else Z.log2 (Z.abs z) + 1.

(** ** Decoding *)

Record decoded : Type := mkDecoded {
  d_sign : Z; d_zero : bool; d_inf : bool; d_nan : bool; d_snan : bool;
  d_mag : option Q
}.

(** The magnitude of a number already known to be finite. *)
Definition mag (d : decoded) : Q := default 0%Q (d_mag d).

Definition f32_decode (bits : Z) : decoded :=
  let bits := bits .& 0xFFFFFFFF in
  let sign := (bits ≫ 31) .& 1 in
  let exp := (bits ≫ 23) .& 0xFF in
  let mant := bits .& 0x7FFFFF in
  if exp =? 0xFF then
    if mant =? 0 then mkDecoded sign false true false false None
    else
      let is_snan := ((mant ≫ 22) .& 1) =? 0 in
      mkDecoded sign false false true is_snan None
  else if exp =? 0 then mkDecoded sign true false false false (Some (Qfrac_of_Z 0))
  else
    let magnitude :=
      frac_mul (Fraction ((1 ≪ 23) .| mant) (2 ^ 23)) (two_pow (exp - 127)) in
    mkDecoded sign false false false false (Some magnitude).

Definition f32_is_zero_arith (bits : Z) : bool := ((bits ≫ 23) .& 0xFF) =? 0.
Definition f32_pack_zero (sign : Z) : Z := (sign .& 1) ≪ 31.
Definition f32_pack_inf (sign : Z) : Z := ((sign .& 1) ≪ 31) .| (0xFF ≪ 23).

(** ** Rounding *)

(** The remainder classification: the strings ["exact"], ["below"], ["tie"],
    ["above"]. *)
Inductive rem_class : Type := Exact | Below | Tie | Above.

#[global] Instance rem_class_eq_dec : EqDecision rem_class.
Proof. solve_decision. Defined.

Definition rem_class_eqb (a b : rem_class) : bool := bool_decide (a = b).

Definition f32_round_up_decision (cls : rem_class) (sig_floor sign rm : Z) : bool * bool :=
  if rem_class_eqb cls Exact then (false, false)
  else if rm =? RM_RTZ then (false, true)
  else if rm =? RM_RDN then (sign =? 1, true)
  else if rm =? RM_RUP then (sign =? 0, true)
  else if rm =? RM_RMM then (negb (rem_class_eqb cls Below), true)
  else if rem_class_eqb cls Above then (true, true)
  else if rem_class_eqb cls Below then (false, true)
  else (truthy (sig_floor .& 1), true).

Definition f32_pack_rounded (sign e sig_floor : Z) (cls : rem_class) (rm : Z) : Z * Z :=
  let '(round_up, inexact) := f32_round_up_decision cls sig_floor sign rm in
  let '(sig_floor, e) :=
    if round_up then
      if sig_floor + 1 =? (1 ≪ 24) then ((sig_floor + 1) ≫ 1, e + 1)
      else (sig_floor + 1, e)
    else (sig_floor, e) in
  if 127 <? e then
    let bits :=
      if (rm =? RM_RTZ) || ((rm =? RM_RDN) && (sign =? 0)) || ((rm =? RM_RUP) && (sign =? 1))
      then (sign ≪ 31) .| (0xFE ≪ 23) .| 0x7FFFFF
      else (sign ≪ 31) .| (0xFF ≪ 23) in
    (bits, F_OF .| F_NX)
  else if e <? -126 then (f32_pack_zero sign, F_UF .| F_NX)
  else
    let exp_biased := e + 127 in
    let bits := (sign ≪ 31) .| (exp_biased ≪ 23) .| (sig_floor .& 0x7FFFFF) in
    (bits, if inexact then F_NX else 0).

(** The two [while] loops that settle the exponent.  They are given fuel; the
    starting exponent is at most one below the right one, so two rounds are
    enough ([normalize_exponent] of [FloatRound.v] proves the guards are false on exit). *)
Fixpoint exp_up (fuel : nat) (bound : Z -> Q) (m : Q) (e : Z) : Z :=
  match fuel with
  | O => e
  | S n => if Qle_bool (bound (e + 1)) m then exp_up n bound m (e + 1) else e
  end.

Fixpoint exp_down (fuel : nat) (bound : Z -> Q) (m : Q) (e : Z) : Z :=
  match fuel with
  | O => e
  | S n => if frac_ltb m (bound e) then exp_down n bound m (e - 1) else e
  end.

Definition loop_fuel : nat := 4.

Definition classify (remainder : Q) : rem_class :=
  let half := Fraction 1 2 in
  if Qeq_bool remainder 0 then Exact
  else if frac_ltb remainder half then Below
  else if frac_ltb half remainder then Above
  else Tie.

Definition f32_normalize_fraction (magnitude : Q) : Z * Z * rem_class :=
  let e := bit_length (Qnum magnitude) - bit_length (Zpos (Qden magnitude)) - 1 in
  let e := exp_up loop_fuel two_pow magnitude e in
  let e := exp_down loop_fuel two_pow magnitude e in
  let sig_exact := frac_mul magnitude (two_pow (23 - e)) in
  let sig_floor := Qnum sig_exact / Zpos (Qden sig_exact) in
  let remainder := frac_sub sig_exact (inject_Z sig_floor) in
  (e, sig_floor, classify remainder).

(** [assert scaled.denominator == 1] holds on every decoded operand
    ([sqrt_scaled_integer] of [FloatRound.v]); the model takes the numerator. *)
Definition f32_sqrt_normalize (magnitude : Q) : Z * Z * rem_class :=
  let e := (bit_length (Qnum magnitude) - bit_length (Zpos (Qden magnitude))) / 2 - 1 in
  let bound := fun e => two_pow (2 * e) in
  let e := exp_up loop_fuel bound magnitude e in
  let e := exp_down loop_fuel bound magnitude e in
  let scaled := frac_mul magnitude (two_pow (2 * (23 - e))) in
  let n := Qnum scaled in
  let sig_floor := Z.sqrt n in
  let cls :=
    if sig_floor * sig_floor =? n then Exact
    else
      let mid_sq := (2 * sig_floor + 1) * (2 * sig_floor + 1) in
      let four_n := 4 * n in
      if four_n <? mid_sq then Below else if mid_sq <? four_n then Above else Tie in
  (e, sig_floor, cls).

Definition f32_round_from_fraction (sign : Z) (magnitude : Q) (rm : Z) : Z * Z :=
  let '(e, sig_floor, cls) := f32_normalize_fraction magnitude in
  f32_pack_rounded sign e sig_floor cls rm.

Definition f32_round_from_sqrt (sign : Z) (magnitude : Q) (rm : Z) : Z * Z :=
  let '(e, sig_floor, cls) := f32_sqrt_normalize magnitude in
  f32_pack_rounded sign e sig_floor cls rm.

(** ** Operations: each returns the result bits and the exception flags *)

Definition nv_if (b : bool) : Z := if b then F_NV else 0.

Definition f_add (a_bits b_bits rm : Z) (is_sub : bool) : Z * Z :=
  let a := f32_decode a_bits in
  let b := f32_decode b_bits in
  let eff_sb := d_sign b .^ (if is_sub then 1 else 0) in
  if d_nan a || d_nan b then (CANONICAL_NAN, nv_if (d_snan a || d_snan b))
  else if d_inf a && d_inf b && negb (d_sign a =? eff_sb) then (CANONICAL_NAN, F_NV)
  else if d_inf a then (f32_pack_inf (d_sign a), 0)
  else if d_inf b then (f32_pack_inf eff_sb, 0)
  else if d_zero a && d_zero b then
    if d_sign a =? eff_sb then (f32_pack_zero (d_sign a), 0)
    else (f32_pack_zero (if rm =? RM_RDN then 1 else 0), 0)
  else if d_zero a then ((eff_sb ≪ 31) .| (b_bits .& 0x7FFFFFFF), 0)
  else if d_zero b then (a_bits, 0)
  else
    let va := if d_sign a =? 0 then mag a else frac_neg (mag a) in
    let vb := if eff_sb =? 0 then mag b else frac_neg (mag b) in
    let total := frac_add va vb in
    if Qeq_bool total 0 then (f32_pack_zero (if rm =? RM_RDN then 1 else 0), 0)
    else
      let sign := if frac_ltb total 0 then 1 else 0 in
      f32_round_from_fraction sign (frac_abs total) rm.

Definition f_mul (a_bits b_bits rm : Z) : Z * Z :=
  let a := f32_decode a_bits in
  let b := f32_decode b_bits in
  let s := d_sign a .^ d_sign b in
  if d_nan a || d_nan b then (CANONICAL_NAN, nv_if (d_snan a || d_snan b))
  else if (d_inf a && d_zero b) || (d_zero a && d_inf b) then (CANONICAL_NAN, F_NV)
  else if d_inf a || d_inf b then (f32_pack_inf s, 0)
  else if d_zero a || d_zero b then (f32_pack_zero s, 0)
  else f32_round_from_fraction s (frac_mul (mag a) (mag b)) rm.

Definition f_div (a_bits b_bits rm : Z) : Z * Z :=
  let a := f32_decode a_bits in
  let b := f32_decode b_bits in
  let s := d_sign a .^ d_sign b in
  if d_nan a || d_nan b then (CANONICAL_NAN, nv_if (d_snan a || d_snan b))
  else if d_inf a && d_inf b then (CANONICAL_NAN, F_NV)
  else if d_zero a && d_zero b then (CANONICAL_NAN, F_NV)
  else if d_inf a then (f32_pack_inf s, 0)
  else if d_inf b then (f32_pack_zero s, 0)
  else if d_zero b then (f32_pack_inf s, F_DZ)
  else if d_zero a then (f32_pack_zero s, 0)
  else f32_round_from_fraction s (frac_div (mag a) (mag b)) rm.

Definition f_sqrt (a_bits rm : Z) : Z * Z :=
  let a := f32_decode a_bits in
  if d_nan a then (CANONICAL_NAN, nv_if (d_snan a))
  else if d_zero a then (a_bits, 0)
  else if truthy (d_sign a) then (CANONICAL_NAN, F_NV)
  else if d_inf a then (a_bits, 0)
  else f32_round_from_sqrt 0 (mag a) rm.

Definition f_madd (a_bits b_bits c_bits rm : Z) (neg_prod neg_addend : bool) : Z * Z :=
  let a := f32_decode a_bits in
  let b := f32_decode b_bits in
  let c := f32_decode c_bits in
  let prod_sign := d_sign a .^ d_sign b .^ (if neg_prod then 1 else 0) in
  let prod_inf := d_inf a || d_inf b in
  let eff_sc := d_sign c .^ (if neg_addend then 1 else 0) in
  if d_nan a || d_nan b || d_nan c then
    (CANONICAL_NAN, nv_if (d_snan a || d_snan b || d_snan c))
  else if (d_inf a && d_zero b) || (d_zero a && d_inf b) then (CANONICAL_NAN, F_NV)
  else if prod_inf && d_inf c && negb (prod_sign =? eff_sc) then (CANONICAL_NAN, F_NV)
  else if prod_inf then (f32_pack_inf prod_sign, 0)
  else if d_inf c then (f32_pack_inf eff_sc, 0)
  else if d_zero a || d_zero b then
    if d_zero c then
      if prod_sign =? eff_sc then (f32_pack_zero prod_sign, 0)
      else (f32_pack_zero (if rm =? RM_RDN then 1 else 0), 0)
    else ((eff_sc ≪ 31) .| (c_bits .& 0x7FFFFFFF), 0)
  else
    let prod_val := frac_mul (mag a) (mag b) in
    let prod_signed := if prod_sign =? 0 then prod_val else frac_neg prod_val in
    let addend_signed := if eff_sc =? 0 then mag c else frac_neg (mag c) in
    let total := frac_add prod_signed addend_signed in
    if Qeq_bool total 0 then (f32_pack_zero (if rm =? RM_RDN then 1 else 0), 0)
    else
      let sign := if frac_ltb total 0 then 1 else 0 in
      f32_round_from_fraction sign (frac_abs total) rm.

Definition f_sgnj (a_bits b_bits funct3 : Z) : Z * Z :=
  let sa := (a_bits ≫ 31) .& 1 in
  let sb := (b_bits ≫ 31) .& 1 in
  let sign := if funct3 =? 0 then sb else if funct3 =? 1 then sb .^ 1 else sa .^ sb in
  ((sign ≪ 31) .| (a_bits .& 0x7FFFFFFF), 0).

(** The sign-and-magnitude comparison [f_minmax] and [f_cmp] share. *)
Definition mag_lt (sa sb a_bits b_bits : Z) : bool :=
  if negb (sa =? sb) then truthy sa
  else if truthy sa then (b_bits .& 0x7FFFFFFF) <? (a_bits .& 0x7FFFFFFF)
  else (a_bits .& 0x7FFFFFFF) <? (b_bits .& 0x7FFFFFFF).

Definition f_minmax (a_bits b_bits funct3 : Z) : Z * Z :=
  let a := f32_decode a_bits in
  let b := f32_decode b_bits in
  if d_nan a && d_nan b then (CANONICAL_NAN, nv_if (d_snan a || d_snan b))
  else if d_nan a then (b_bits, nv_if (d_snan a))
  else if d_nan b then (a_bits, nv_if (d_snan b))
  else
    let a_ez := f32_is_zero_arith a_bits in
    let b_ez := f32_is_zero_arith b_bits in
    let a_nz := a_ez && truthy ((a_bits ≫ 31) .& 1) in
    let b_nz := b_ez && truthy ((b_bits ≫ 31) .& 1) in
    let a_lt_b :=
      if a_ez && b_ez then a_nz && negb b_nz
      else mag_lt (d_sign a) (d_sign b) a_bits b_bits in
    let is_min := funct3 =? 0 in
    if is_min then (if a_lt_b then a_bits else b_bits, 0)
    else (if a_lt_b then b_bits else a_bits, 0).

Definition f_cmp (a_bits b_bits funct3 : Z) : Z * Z :=
  let a := f32_decode a_bits in
  let b := f32_decode b_bits in
  if d_nan a || d_nan b then
    (0, if funct3 =? 2 then nv_if (d_snan a || d_snan b) else F_NV)
  else
    let a_ez := f32_is_zero_arith a_bits in
    let b_ez := f32_is_zero_arith b_bits in
    let both_zero := a_ez && b_ez in
    let eq := if both_zero then true else a_bits =? b_bits in
    let lt := if both_zero then false else mag_lt (d_sign a) (d_sign b) a_bits b_bits in
    let res :=
      if funct3 =? 2 then b2z eq
      else if funct3 =? 1 then b2z lt
      else b2z (lt || eq) in
    (res, 0).

Definition f_class (a_bits : Z) : Z :=
  let sa := truthy ((a_bits ≫ 31) .& 1) in
  let exp := (a_bits ≫ 23) .& 0xFF in
  let frac := a_bits .& 0x7FFFFF in
  if (exp =? 0xFF) && (frac =? 0) && sa then 1 ≪ 0
  else if negb ((exp =? 0) || (exp =? 0xFF)) && sa then 1 ≪ 1
  else if (exp =? 0) && negb (frac =? 0) && sa then 1 ≪ 2
  else if (exp =? 0) && (frac =? 0) && sa then 1 ≪ 3
  else if (exp =? 0) && (frac =? 0) && negb sa then 1 ≪ 4
  else if (exp =? 0) && negb (frac =? 0) && negb sa then 1 ≪ 5
  else if negb ((exp =? 0) || (exp =? 0xFF)) && negb sa then 1 ≪ 6
  else if (exp =? 0xFF) && (frac =? 0) && negb sa then 1 ≪ 7
  else if (exp =? 0xFF) && negb (frac =? 0) && negb (truthy ((frac ≫ 22) .& 1)) then 1 ≪ 8
  else 1 ≪ 9.

Definition f_cvt_to_int (a_bits rm : Z) (unsigned : bool) : Z * Z :=
  let a := f32_decode a_bits in
  let sa := truthy (d_sign a) in
  let saturated :=
    if unsigned then (if sa then 0 else 0xFFFFFFFF)
    else (if sa then 0x80000000 else 0x7FFFFFFF) in
  if d_nan a then (if unsigned then 0xFFFFFFFF else 0x7FFFFFFF, F_NV)
  else if d_zero a then (0, 0)
  else if d_inf a then (saturated, F_NV)
  else
    let ma := mag a in
    let floor_mag := Qnum ma / Zpos (Qden ma) in
    let remainder := frac_sub ma (inject_Z floor_mag) in
    let cls := classify remainder in
    let '(round_up, inexact) := f32_round_up_decision cls floor_mag (d_sign a) rm in
    let magnitude := floor_mag + (if round_up then 1 else 0) in
    let out_of_range :=
      if unsigned then (sa && negb (magnitude =? 0)) || (0xFFFFFFFF <? magnitude)
      else (negb sa && (0x7FFFFFFF <? magnitude)) || (sa && (0x80000000 <? magnitude)) in
    if out_of_range then (saturated, F_NV)
    else
      let res := if negb sa then magnitude .& 0xFFFFFFFF else (- magnitude) .& 0xFFFFFFFF in
      (res, if inexact then F_NX else 0).

Definition f_cvt_from_int (a_bits rm : Z) (unsigned : bool) : Z * Z :=
  if a_bits =? 0 then (0, 0)
  else
    let '(sign, magnitude) :=
      if unsigned then (0, a_bits .& 0xFFFFFFFF)
      else
        let sign := (a_bits ≫ 31) .& 1 in
        (sign, if truthy sign then (Z.lnot a_bits + 1) .& 0xFFFFFFFF else a_bits) in
    f32_round_from_fraction sign (Qfrac_of_Z magnitude) rm.

(** ** Every result is a 32-bit pattern *)

Definition is_bit (s : Z) : Prop := s = 0 \/ s = 1.

Lemma bit_range v k : 0 <= k -> is_bit ((v ≫ k) .& 1).
Proof. intros. rewrite bit_at by done. destruct (Z.testbit v k); [by right | by left]. Qed.

Lemma is_bit_xor s t : is_bit s -> is_bit t -> is_bit (s .^ t).
Proof. intros [->| ->] [->| ->]; (by left) || (by right). Qed.

Lemma d_sign_bit bits : is_bit (d_sign (f32_decode bits)).
Proof. unfold f32_decode. cbv zeta. repeat case_match; by apply bit_range. Qed.

(** Sign, exponent and fraction fields put side by side. *)
Definition pack (sign ex frac : Z) : Z := sign * 2 ^ 31 + ex * 2 ^ 23 + frac.

Lemma pack_lor sign ex frac :
  is_bit sign -> 0 <= ex < 256 -> 0 <= frac < 2 ^ 23 ->
  (sign ≪ 31) .| (ex ≪ 23) .| frac = pack sign ex frac.
Proof. unfold pack. intros [->| ->] ? ?; fields_norm; lia. Qed.

Lemma pack_u32 sign ex frac :
  is_bit sign -> 0 <= ex < 256 -> 0 <= frac < 2 ^ 23 -> is_u32 (pack sign ex frac).
Proof. unfold pack, is_u32. intros [->| ->] ? ?; lia. Qed.

Lemma pack_zero_u32 s : is_u32 (f32_pack_zero s).
Proof.
  unfold f32_pack_zero, is_u32. destruct (bit_range s 0 ltac:(lia)) as [E|E];
    rewrite Z.shiftr_0_r in E; rewrite E; done.
Qed.

Lemma pack_inf_u32 s : is_u32 (f32_pack_inf s).
Proof.
  unfold f32_pack_inf, is_u32. destruct (bit_range s 0 ltac:(lia)) as [E|E];
    rewrite Z.shiftr_0_r in E; rewrite E; done.
Qed.

Lemma sign_over_u32 s x : is_bit s -> is_u32 ((s ≪ 31) .| (x .& 0x7FFFFFFF)).
Proof.
  intros Hs. assert (0 <= x .& 0x7FFFFFFF < 2 ^ 31) by by apply (land_range x 31).
  unfold is_u32. set (y := x .& 0x7FFFFFFF) in *.
  destruct Hs as [->| ->]; rewrite (lor_low 31) by done;
    [change (0 ≪ 31) with 0 | change (1 ≪ 31) with (2 ^ 31)]; lia.
Qed.

Lemma pack_rounded_u32 sign e sig cls rm :
  is_bit sign -> is_u32 (fst (f32_pack_rounded sign e sig cls rm)).
Proof.
  intros Hs. unfold f32_pack_rounded.
  destruct (f32_round_up_decision cls sig sign rm) as [up inexact].
  destruct (if up then _ else _) as [sig' e'].
  destruct (127 <? e') eqn:E1; [|destruct (e' <? -126) eqn:E2]; py_bool; cbn [fst].
  - case_match.
    + rewrite pack_lor by (done || lia). apply pack_u32; (done || lia).
    + rewrite <- (Z.lor_0_r (_ .| _)), pack_lor by (done || lia).
      apply pack_u32; (done || lia).
  - apply pack_zero_u32.
  - assert (0 <= sig' .& 0x7FFFFF < 2 ^ 23) by by apply (land_range sig' 23).
    rewrite pack_lor by (done || lia). apply pack_u32; (done || lia).
Qed.

Lemma round_from_fraction_u32 sign m rm :
  is_bit sign -> is_u32 (fst (f32_round_from_fraction sign m rm)).
Proof.
  intros. unfold f32_round_from_fraction. destruct (f32_normalize_fraction m) as [[e s] c].
  by apply pack_rounded_u32.
Qed.

Lemma round_from_sqrt_u32 sign m rm :
  is_bit sign -> is_u32 (fst (f32_round_from_sqrt sign m rm)).
Proof.
  intros. unfold f32_round_from_sqrt. destruct (f32_sqrt_normalize m) as [[e s] c].
  by apply pack_rounded_u32.
Qed.

Create HintDb f32.
#[export] Hint Resolve d_sign_bit is_bit_xor pack_zero_u32 pack_inf_u32 sign_over_u32
  pack_rounded_u32 round_from_fraction_u32 round_from_sqrt_u32 : f32.

Lemma bool_bit (b : bool) : is_bit (if b then 1 else 0).
Proof. destruct b; [by right | by left]. Qed.
Lemma nan_u32 : is_u32 CANONICAL_NAN.
Proof. done. Qed.
Lemma bit_0 : is_bit 0.
Proof. by left. Qed.
Lemma bit_1 : is_bit 1.
Proof. by right. Qed.
#[export] Hint Resolve bool_bit nan_u32 bit_0 bit_1 : f32.

Ltac f32_cases :=
  cbv zeta; repeat (case_match; try (cbn [fst]; by eauto with f32)); cbn [fst]; eauto with f32.

Section Ranges.
  Context (a b c rm : Z) (Ha : is_u32 a) (Hb : is_u32 b).

Lemma f_add_u32 is_sub : is_u32 (fst (f_add a b rm is_sub)).
Proof. unfold f_add. f32_cases. Qed.

Lemma f_mul_u32 : is_u32 (fst (f_mul a b rm)).
Proof. unfold f_mul. f32_cases. Qed.

Lemma f_div_u32 : is_u32 (fst (f_div a b rm)).
Proof. unfold f_div. f32_cases. Qed.

Lemma f_sqrt_u32 : is_u32 (fst (f_sqrt a rm)).
Proof. unfold f_sqrt. f32_cases. Qed.

Lemma f_madd_u32 np na : is_u32 (fst (f_madd a b c rm np na)).
Proof. unfold f_madd. f32_cases. Qed.

Lemma f_sgnj_u32 f3 : is_u32 (fst (f_sgnj a b f3)).
Proof.
  unfold f_sgnj. cbv zeta. cbn [fst]. apply sign_over_u32.
  pose proof (bit_range a 31 ltac:(lia)). pose proof (bit_range b 31 ltac:(lia)).
  assert (is_bit 1) by by right.
  repeat case_match; auto with f32.
Qed.

Lemma f_minmax_u32 f3 : is_u32 (fst (f_minmax a b f3)).
Proof. unfold f_minmax. f32_cases. Qed.

Lemma f_cvt_from_int_u32 u : is_u32 (fst (f_cvt_from_int a rm u)).
Proof.
  unfold f_cvt_from_int. case_match; [done|]. destruct u.
  - apply round_from_fraction_u32. by left.
  - apply round_from_fraction_u32, bit_range. lia.
Qed.

End Ranges.
