(* ===== verification/FloatRound.v ===== *)
(** * Correct rounding

    The simulator computes a float operation exactly and rounds once.  This file
    says what rounding to a 24-bit significand means, for a number given only by
    how it compares with rationals (so that square roots are covered as well as
    quotients), and proves that [_f32_normalize_fraction], [_f32_sqrt_normalize]
    and [_f32_pack_rounded] do it in every rounding mode, with overflow, flush to
    zero and the flags. *)

From Stdlib Require Import QArith Qabs Qreduction Qpower Qround Lqa.
From S2P Require Import Prelude Bits Float32.
Open Scope Z_scope.
Open Scope Q_scope.

(** ** Powers of two *)

Definition p2 (e : Z) : Q := Qpower 2 e.

Lemma p2_pos e : 0 < p2 e.
Proof. apply Qpower_0_lt. reflexivity. Qed.

Lemma p2_add a b : p2 (a + b) == p2 a * p2 b.
Proof. apply Qpower_plus. discriminate. Qed.

Lemma p2_succ e : p2 (e + 1) == 2 * p2 e.
Proof. rewrite p2_add. change (p2 1) with 2. ring. Qed.

Lemma p2_le a b : (a <= b)%Z -> p2 a <= p2 b.
Proof. intros. apply Qpower_le_compat_l; [done | discriminate]. Qed.

Lemma p2_lt a b : (a < b)%Z -> p2 a < p2 b.
Proof. intros. apply Qpower_lt_compat_l; done. Qed.

Lemma p2_Z n : (0 <= n)%Z -> p2 n == inject_Z (2 ^ n).
Proof. intros. unfold p2. by rewrite Zpower_Qpower. Qed.

Lemma two_pow_p2 e : two_pow e == p2 e.
Proof. apply Qred_correct. Qed.

Lemma inject_le a b : (a <= b)%Z -> inject_Z a <= inject_Z b.
Proof. by rewrite Zle_Qle. Qed.

Lemma inject_lt a b : (a < b)%Z -> inject_Z a < inject_Z b.
Proof. by rewrite Zlt_Qlt. Qed.

(** ** Numbers by comparison *)

(** A nonnegative number, known by which rationals are below and above it. *)
Record cut := {
  lo : Q -> Prop;   (* q <= x *)
  hi : Q -> Prop;   (* x <= q *)
  lo_down : forall p q, p <= q -> lo q -> lo p;
  hi_up : forall p q, p <= q -> hi p -> hi q;
  lo_hi : forall p q, lo p -> hi q -> p <= q
}.

Program Definition rational (m : Q) : cut := {| lo q := q <= m; hi q := m <= q |}.
Next Obligation. intros. simpl in *. lra. Qed.
Next Obligation. intros. simpl in *. lra. Qed.
Next Obligation. intros. simpl in *. lra. Qed.

(** The square root of [m]. *)
Program Definition root (m : Q) : cut := {|
  lo q := q <= 0 \/ q * q <= m;
  hi q := 0 <= q /\ m <= q * q
|}.
Next Obligation. intros m p q H [Hq|Hq]; [left; lra|].
  destruct (Qlt_le_dec 0 p); [right; nra | by left]. Qed.
Next Obligation. intros m p q H [Hp Hm]. split; [lra | nra]. Qed.
Next Obligation. intros m p q [Hp|Hp] [Hq Hm]; [lra|]. simpl in *.
  destruct (Qlt_le_dec q p); [nra | done]. Qed.

(** ** Specification of rounding *)

(** Magnitudes with a 24-bit significand and an unbounded exponent. *)
Definition F24 (w : Q) : Prop :=
  exists k j : Z, (2 ^ 23 <= k < 2 ^ 24)%Z /\ w == inject_Z k * p2 (j - 23).
Definition even24 (w : Q) : Prop :=
  exists k j : Z, (2 ^ 23 <= k < 2 ^ 24)%Z /\ Z.even k = true /\ w == inject_Z k * p2 (j - 23).

Definition toward_zero (x : cut) (v : Q) : Prop :=
  F24 v /\ lo x v /\ forall w, F24 w -> lo x w -> w <= v.
Definition away_from_zero (x : cut) (v : Q) : Prop :=
  F24 v /\ hi x v /\ forall w, F24 w -> hi x w -> v <= w.

Definition midpoint (p q : Q) : Q := (p + q) * (1 # 2).

(** No other value is closer: the midpoints are on the far side. *)
Definition nearest (x : cut) (v : Q) : Prop :=
  F24 v /\ forall w, F24 w ->
    (w < v -> lo x (midpoint w v)) /\ (v < w -> hi x (midpoint v w)).
(** [w] is another value at the same distance. *)
Definition tied (x : cut) (v w : Q) : Prop :=
  ~ v == w /\ lo x (midpoint v w) /\ hi x (midpoint v w).

(** The rounded magnitude of a number of the given sign. *)
Definition rounds (rm sign : Z) (x : cut) (v : Q) : Prop :=
  if (rm =? RM_RTZ)%Z then toward_zero x v
  else if (rm =? RM_RDN)%Z then (if (sign =? 1)%Z then away_from_zero x v else toward_zero x v)
  else if (rm =? RM_RUP)%Z then (if (sign =? 0)%Z then away_from_zero x v else toward_zero x v)
  else if (rm =? RM_RMM)%Z then nearest x v /\ forall w, F24 w -> tied x v w -> w < v
  else nearest x v /\ forall w, F24 w -> tied x v w -> even24 v.

(** Overflow goes to infinity, or to the largest finite value where rounding
    points back towards zero. *)
Definition overflow_bits (rm sign : Z) : Z :=
  if ((rm =? RM_RTZ) || ((rm =? RM_RDN) && (sign =? 0)) || ((rm =? RM_RUP) && (sign =? 1)))%Z
  then pack sign 0xFE 0x7FFFFF else pack sign 0xFF 0.

(** What an operation with exact result [x] and sign [sign] must return: the
    rounded value if it is in range, with the inexact flag when it differs from
    [x]; the overflow result with OF and NX; a zero with UF and NX when it is
    below the normal range, since subnormals are flushed. *)
Definition correctly_rounded (rm sign : Z) (x : cut) (r : Z * Z) : Prop :=
  exists v, rounds rm sign x v /\
    (v < p2 (-126) -> r = (pack sign 0 0, (F_UF .| F_NX)%Z)) /\
    (p2 128 <= v -> r = (overflow_bits rm sign, (F_OF .| F_NX)%Z)) /\
    (p2 (-126) <= v -> v < p2 128 ->
      d_sign (f32_decode (fst r)) = sign /\ mag (f32_decode (fst r)) == v /\
      is_Some (d_mag (f32_decode (fst r))) /\
      ((hi x v /\ lo x v /\ snd r = 0%Z) \/ (~ (hi x v /\ lo x v) /\ snd r = F_NX))).

(** ** From a located number to a rounded one *)

(** [x] lies in the [s]-th step of size [2^(e-23)], and [cls] says where. *)
Definition located (x : cut) (e s : Z) (cls : rem_class) : Prop :=
  let u := p2 (e - 23) in
  let mid := (inject_Z s + (1 # 2)) * u in
  (2 ^ 23 <= s < 2 ^ 24)%Z /\ lo x (inject_Z s * u) /\
  hi x ((inject_Z s + 1) * u) /\ ~ lo x ((inject_Z s + 1) * u) /\
  match cls with
  | Exact => hi x (inject_Z s * u)
  | Below => ~ hi x (inject_Z s * u) /\ hi x mid /\ ~ lo x mid
  | Tie => lo x mid /\ hi x mid
  | Above => lo x mid /\ ~ hi x mid
  end.

(** There is no representable magnitude strictly inside a step. *)
Lemma F24_gap e s w :
  (2 ^ 23 <= s)%Z -> F24 w ->
  w <= inject_Z s * p2 (e - 23) \/ (inject_Z s + 1) * p2 (e - 23) <= w.
Proof.
  intros Hs (k & j & Hk & Hw). pose proof (p2_pos (e - 23)) as Hu.
  destruct (Z.lt_ge_cases j e) as [Hj|Hj].
  - left. apply Qle_trans with (inject_Z (2 ^ 23) * p2 (e - 23)).
    2:{ apply Qmult_le_compat_r; [apply inject_le; lia | lra]. }
    rewrite Hw. apply Qle_trans with (inject_Z (2 ^ 24) * p2 (j - 23)).
    + apply Qmult_le_compat_r; [apply inject_le; lia | pose proof (p2_pos (j - 23)); lra].
    + pose proof (p2_le (j - 23 + 1) (e - 23) ltac:(lia)) as H. rewrite p2_succ in H.
      change (inject_Z (2 ^ 24)) with (inject_Z (2 ^ 23) * 2).
      assert (0 < inject_Z (2 ^ 23)) by reflexivity. nra.
  - set (n := (k * 2 ^ (j - e))%Z).
    assert (Hn : w == inject_Z n * p2 (e - 23)).
    { rewrite Hw. unfold n. rewrite inject_Z_mult, <- p2_Z by lia. rewrite <- Qmult_assoc, <- p2_add.
      by replace (j - e + (e - 23))%Z with (j - 23)%Z by lia. }
    destruct (Z.le_gt_cases n s) as [H|H].
    + left. rewrite Hn. apply Qmult_le_compat_r; [apply inject_le; lia | lra].
    + right. rewrite Hn. apply Qmult_le_compat_r; [|lra].
      change 1 with (inject_Z 1). rewrite <- inject_Z_plus. apply inject_le. lia.
Qed.

(** The two neighbours are representable. *)
Lemma F24_floor e s : (2 ^ 23 <= s < 2 ^ 24)%Z -> F24 (inject_Z s * p2 (e - 23)).
Proof. intros. by exists s, e. Qed.

(** The upper neighbour, renormalised on carry out as the code does. *)
Definition carry (e s : Z) : Z * Z :=
  if (s + 1 =? 1 ≪ 24)%Z then (((s + 1) ≫ 1)%Z, (e + 1)%Z) else ((s + 1)%Z, e).

Lemma carry_spec e s :
  (2 ^ 23 <= s < 2 ^ 24)%Z ->
  let '(s', e') := carry e s in
  (2 ^ 23 <= s' < 2 ^ 24)%Z /\ inject_Z s' * p2 (e' - 23) == (inject_Z s + 1) * p2 (e - 23) /\
  (Z.odd s = true -> Z.even s' = true).
Proof.
  intros Hs. unfold carry. destruct (Z.eqb_spec (s + 1) (1 ≪ 24)) as [E|E].
  - rewrite E. change (1 ≪ 24) with (2 ^ 24)%Z in E. split; [done|]. split; [|done].
    replace (e + 1 - 23)%Z with (e - 23 + 1)%Z by lia. rewrite p2_succ.
    replace s with (2 ^ 24 - 1)%Z by lia. change ((1 ≪ 24) ≫ 1) with (2 ^ 23)%Z.
    assert (inject_Z (2 ^ 24 - 1) + 1 == inject_Z (2 ^ 23) * 2) as -> by reflexivity. ring.
  - change (1 ≪ 24) with (2 ^ 24)%Z in E. split; [lia|]. split.
    + rewrite inject_Z_plus. reflexivity.
    + intros Ho. by rewrite Z.add_1_r, Z.even_succ.
Qed.

Section Neighbours.
  Context (x : cut) (e s : Z).
Let u := p2 (e - 23).
Let below := inject_Z s * u.
Let above := (inject_Z s + 1) * u.
Let mid := (inject_Z s + (1 # 2)) * u.
  Context (Hs : (2 ^ 23 <= s < 2 ^ 24)%Z) (Hlo : lo x below) (Hhi : hi x above).

Lemma u_pos : 0 < u.
Proof. apply p2_pos. Qed.

Lemma F24_above : F24 above.
Proof.
  pose proof (carry_spec e s Hs) as H. destruct (carry e s) as [s' e'].
  destruct H as (? & E & _). exists s', e'. by rewrite E.
Qed.

Ltac gap w Hw := destruct (F24_gap e s w ltac:(lia) Hw) as [Hg|Hg]; fold u in Hg;
  fold below in Hg || fold above in Hg.

Lemma spacing : above == below + u /\ mid == below + (1 # 2) * u.
Proof. unfold above, below, mid. split; ring. Qed.

Lemma round_down : ~ lo x above -> toward_zero x below.
Proof.
  intros Hn. split; [by apply F24_floor|]. split; [done|].
  intros w Hw Hl. gap w Hw; [done|]. destruct Hn. by apply lo_down with w.
Qed.

Lemma round_up : ~ hi x below -> away_from_zero x above.
Proof.
  intros Hn. split; [apply F24_above|]. split; [done|].
  intros w Hw Hl. gap w Hw; [|done]. destruct Hn. by apply hi_up with w.
Qed.

Lemma exact_away : hi x below -> away_from_zero x below.
Proof.
  intros He. split; [by apply F24_floor|]. split; [done|]. intros w _ Hw. by apply (lo_hi x).
Qed.

Lemma nearest_below : hi x mid -> nearest x below.
Proof.
  intros Hm. split; [by apply F24_floor|]. intros w Hw. pose proof u_pos. pose proof spacing as [S1 S2].
  split; intros Hlt.
  - apply lo_down with below; [|done]. unfold midpoint. lra.
  - gap w Hw; [lra|]. apply hi_up with mid; [|done]. unfold midpoint. lra.
Qed.

Lemma nearest_above : lo x mid -> nearest x above.
Proof.
  intros Hm. split; [apply F24_above|]. intros w Hw. pose proof u_pos. pose proof spacing as [S1 S2].
  split; intros Hlt.
  - gap w Hw; [|lra]. apply lo_down with mid; [|done]. unfold midpoint. lra.
  - apply hi_up with above; [|done]. unfold midpoint. lra.
Qed.

(** A tie is always between the two neighbours. *)
Lemma tied_below w : F24 w -> tied x below w -> lo x mid /\ below < w.
Proof.
  intros Hw (Hne & Hl & Hh). pose proof u_pos. pose proof spacing as [S1 S2].
  pose proof (lo_hi x _ _ Hlo Hh) as H1. unfold midpoint in *.
  assert (below < w) by lra. split; [|done]. gap w Hw; [lra|].
  apply lo_down with ((below + w) * (1 # 2)); [lra | done].
Qed.

Lemma tied_above w : F24 w -> tied x above w -> hi x mid /\ w < above.
Proof.
  intros Hw (Hne & Hl & Hh). pose proof u_pos. pose proof spacing as [S1 S2].
  pose proof (lo_hi x _ _ Hl Hhi) as H1. unfold midpoint in *.
  assert (w < above) by lra. split; [|done]. gap w Hw; [|lra].
  apply hi_up with ((above + w) * (1 # 2)); [lra | done].
Qed.

End Neighbours.

(** What [located] says of the three points, whatever the class. *)
Lemma located_order x e s cls :
  located x e s cls ->
  let u := p2 (e - 23) in
  let below := inject_Z s * u in
  let mid := (inject_Z s + (1 # 2)) * u in
  (lo x mid -> hi x below -> False) /\ (hi x below -> hi x mid).
Proof.
  intros (Hs & Hlo & _). cbv zeta. pose proof (p2_pos (e - 23)). split.
  - intros L H'. pose proof (lo_hi x _ _ L H'). lra.
  - apply hi_up. lra.
Qed.

Lemma even24_below e s :
  (2 ^ 23 <= s < 2 ^ 24)%Z -> Z.even s = true -> even24 (inject_Z s * p2 (e - 23)).
Proof. intros. by exists s, e. Qed.

Lemma even24_above e s :
  (2 ^ 23 <= s < 2 ^ 24)%Z -> Z.odd s = true -> even24 ((inject_Z s + 1) * p2 (e - 23)).
Proof.
  intros Hs Ho. pose proof (carry_spec e s Hs) as H. destruct (carry e s) as [s' e'].
  destruct H as (? & E & Ev). exists s', e'. split; [done|]. split; [auto | by rewrite E].
Qed.

Lemma low_bit s : truthy (s .& 1) = Z.odd s.
Proof. by rewrite <- (Z.shiftr_0_r s), bit_at, b2z_truthy, Z.shiftr_0_r, <- Z.bit0_odd. Qed.

(** The decision table of [_f32_round_up_decision] picks the right neighbour. *)
Lemma decision_rounds x e s cls rm sign :
  located x e s cls ->
  let v := if fst (f32_round_up_decision cls s sign rm)
           then (inject_Z s + 1) * p2 (e - 23) else inject_Z s * p2 (e - 23) in
  rounds rm sign x v.
Proof.
  intros L. pose proof (located_order x e s cls L) as [O1 O2].
  destruct L as (Hs & Hlo & Hhi & Hn & Hc).
  pose proof (round_down x e s Hs Hlo Hn) as D.
  pose proof (round_up x e s Hs Hhi) as U. pose proof (exact_away x e s Hs Hlo) as X.
  pose proof (nearest_below x e s Hs Hlo) as NB. pose proof (nearest_above x e s Hs Hhi) as NA.
  pose proof (tied_below x e s Hs Hlo) as TB. pose proof (tied_above x e s Hs Hhi) as TA.
  unfold rounds, f32_round_up_decision.
  destruct cls; cbv zeta; simpl rem_class_eqb; cbv iota; cbn [fst].
  - destruct (rm =? RM_RTZ)%Z; [done|].
    destruct (rm =? RM_RDN)%Z; [destruct (sign =? 1)%Z; auto|].
    destruct (rm =? RM_RUP)%Z; [destruct (sign =? 0)%Z; auto|].
    destruct (rm =? RM_RMM)%Z; (split; [auto|]; intros w Hw T; destruct (TB w Hw T); tauto).
  - destruct Hc as (? & ? & ?). destruct (rm =? RM_RTZ)%Z; [done|].
    destruct (rm =? RM_RDN)%Z; [cbn [fst]; destruct (sign =? 1)%Z; auto|].
    destruct (rm =? RM_RUP)%Z; [cbn [fst]; destruct (sign =? 0)%Z; auto|].
    destruct (rm =? RM_RMM)%Z; (split; [auto|]; intros w Hw T; destruct (TB w Hw T); tauto).
  - destruct Hc as (? & ?). assert (~ hi x (inject_Z s * p2 (e - 23))) by tauto.
    destruct (rm =? RM_RTZ)%Z; [done|].
    destruct (rm =? RM_RDN)%Z; [cbn [fst]; destruct (sign =? 1)%Z; auto|].
    destruct (rm =? RM_RUP)%Z; [cbn [fst]; destruct (sign =? 0)%Z; auto|].
    destruct (rm =? RM_RMM)%Z; [split; [auto|]; intros w Hw T; apply (TA w Hw T)|].
    cbn [fst]. rewrite low_bit. destruct (Z.odd s) eqn:Od; (split; [auto|]; intros w Hw T).
    + by apply even24_above.
    + apply even24_below; [done|]. by rewrite <- Z.negb_odd, Od.
  - destruct Hc as (? & ?). assert (~ hi x (inject_Z s * p2 (e - 23))) by tauto.
    destruct (rm =? RM_RTZ)%Z; [done|].
    destruct (rm =? RM_RDN)%Z; [cbn [fst]; destruct (sign =? 1)%Z; auto|].
    destruct (rm =? RM_RUP)%Z; [cbn [fst]; destruct (sign =? 0)%Z; auto|].
    destruct (rm =? RM_RMM)%Z; (split; [auto|]; intros w Hw T; destruct (TA w Hw T); tauto).
Qed.

(** ** Packing *)

Lemma binade e s :
  (2 ^ 23 <= s < 2 ^ 24)%Z -> p2 e <= inject_Z s * p2 (e - 23) /\ inject_Z s * p2 (e - 23) < p2 (e + 1).
Proof.
  intros Hs. pose proof (p2_pos (e - 23)).
  assert (p2 e == inject_Z (2 ^ 23) * p2 (e - 23)) as E.
  { rewrite <- p2_Z, <- p2_add by done. by replace (23 + (e - 23))%Z with e by lia. }
  split.
  - rewrite E. apply Qmult_le_compat_r; [apply inject_le; lia | lra].
  - rewrite p2_succ, E. assert (inject_Z s < inject_Z (2 ^ 24)) by (apply inject_lt; lia).
    change (inject_Z (2 ^ 24)) with (2 * inject_Z (2 ^ 23)) in *. nra.
Qed.

Lemma decode_pack sign ex frac :
  is_bit sign -> (0 < ex < 255)%Z -> (0 <= frac < 2 ^ 23)%Z ->
  let d := f32_decode (pack sign ex frac) in
  d_sign d = sign /\ (d_nan d = false /\ d_inf d = false /\ d_zero d = false) /\
  is_Some (d_mag d) /\
  mag d == inject_Z (2 ^ 23 + frac) * p2 (ex - 127 - 23).
Proof.
  intros Hs He Hf. unfold f32_decode.
  assert (Hb : (pack sign ex frac .& 0xFFFFFFFF)%Z = pack sign ex frac).
  { pose proof (pack_u32 sign ex frac Hs ltac:(lia) Hf) as R. unfold is_u32 in R.
    rewrite (land_lit _ 0xFFFFFFFF 32) by done. by apply Z.mod_small. }
  rewrite Hb.
  assert (((pack sign ex frac ≫ 31) .& 1)%Z = sign) as ->
    by (unfold pack; destruct Hs as [-> | ->]; fields).
  assert (((pack sign ex frac ≫ 23) .& 0xFF)%Z = ex) as ->
    by (unfold pack; destruct Hs as [-> | ->]; fields).
  assert ((pack sign ex frac .& 0x7FFFFF)%Z = frac) as ->
    by (unfold pack; destruct Hs as [-> | ->]; fields).
  destruct (Z.eqb_spec ex 0xFF); [lia|]. destruct (Z.eqb_spec ex 0); [lia|].
  cbv zeta. cbn [d_sign d_mag mag]. split; [done|]. split; [done|]. split; [by eexists|].
  unfold mag, default. cbn [d_mag]. unfold frac_mul, Fraction. rewrite !Qred_correct, two_pow_p2.
  replace (ex - 127 - 23)%Z with (-23 + (ex - 127))%Z by lia. rewrite p2_add.
  assert (((1 ≪ 23) .| frac)%Z = (2 ^ 23 + frac)%Z) as ->
    by (apply (lor_low 23); [done | done | done]).
  change (p2 (-23)) with (1 # 2 ^ 23). rewrite Qmult_assoc. apply Qmult_comp; [|reflexivity].
  unfold inject_Z, Qeq, Qmult. simpl. lia.
Qed.

Lemma pack_in_range sign e s :
  is_bit sign -> (2 ^ 23 <= s < 2 ^ 24)%Z -> (-126 <= e <= 127)%Z ->
  let d := f32_decode ((sign ≪ 31) .| ((e + 127) ≪ 23) .| (s .& 0x7FFFFF)) in
  d_sign d = sign /\ is_Some (d_mag d) /\ mag d == inject_Z s * p2 (e - 23).
Proof.
  intros Hb Hs He. cbv zeta.
  assert ((s .& 0x7FFFFF)%Z = (s - 2 ^ 23)%Z) as ->.
  { rewrite (land_lit _ 0x7FFFFF 23) by done. symmetry.
    apply (Z.mod_unique_pos _ _ 1); [lia | lia]. }
  rewrite pack_lor by (done || lia).
  destruct (decode_pack sign (e + 127) (s - 2 ^ 23) Hb ltac:(lia) ltac:(lia)) as (A & _ & B & C).
  split; [done|]. split; [done|]. rewrite C.
  replace (2 ^ 23 + (s - 2 ^ 23))%Z with s by lia.
  by replace (e + 127 - 127 - 23)%Z with (e - 23)%Z by lia.
Qed.

Lemma eqb_Exact cls : rem_class_eqb cls Exact = match cls with Exact => true | _ => false end.
Proof. by destruct cls. Qed.

(** [inexact] is raised exactly when the number is not at the lower neighbour. *)
Lemma inexact_spec cls s sign rm :
  snd (f32_round_up_decision cls s sign rm) = negb (rem_class_eqb cls Exact) /\
  (cls = Exact -> fst (f32_round_up_decision cls s sign rm) = false).
Proof.
  unfold f32_round_up_decision. destruct (rem_class_eqb cls Exact) eqn:E.
  - done.
  - split; [repeat case_match; done | by intros ->].
Qed.

Lemma exact_iff x e s cls rm sign :
  located x e s cls ->
  let v := if fst (f32_round_up_decision cls s sign rm)
           then (inject_Z s + 1) * p2 (e - 23) else inject_Z s * p2 (e - 23) in
  if rem_class_eqb cls Exact then hi x v /\ lo x v else ~ (hi x v /\ lo x v).
Proof.
  intros L. pose proof (located_order x e s cls L) as [O1 O2].
  pose proof (inexact_spec cls s sign rm) as [_ I].
  destruct L as (Hs & Hlo & Hhi & Hn & Hc). cbv zeta.
  rewrite eqb_Exact. destruct cls.
  - by rewrite I.
  - destruct (fst _); tauto.
  - destruct (fst _); tauto.
  - destruct (fst _); [tauto|]. intros [H _]. apply Hc. auto.
Qed.

Lemma located_proper_v x e s cls rm sign s' e' :
  located x e s cls ->
  (s', e') = (if fst (f32_round_up_decision cls s sign rm) then carry e s else (s, e)) ->
  (2 ^ 23 <= s' < 2 ^ 24)%Z /\
  inject_Z s' * p2 (e' - 23) ==
    (if fst (f32_round_up_decision cls s sign rm)
     then (inject_Z s + 1) * p2 (e - 23) else inject_Z s * p2 (e - 23)).
Proof.
  intros (Hs & _) E. destruct (fst _).
  - pose proof (carry_spec e s Hs) as H. rewrite <- E in H. tauto.
  - injection E as -> ->. split; [done | reflexivity].
Qed.

Lemma overflow_pack rm sign :
  is_bit sign ->
  (if ((rm =? RM_RTZ) || ((rm =? RM_RDN) && (sign =? 0)) || ((rm =? RM_RUP) && (sign =? 1)))%Z
   then (sign ≪ 31) .| (0xFE ≪ 23) .| 0x7FFFFF
   else (sign ≪ 31) .| (0xFF ≪ 23))%Z = overflow_bits rm sign.
Proof. intros [-> | ->]; unfold overflow_bits; case_match; reflexivity. Qed.

(** [_f32_pack_rounded] rounds a located number correctly. *)
Lemma pack_rounded_correct x sign e s cls rm :
  is_bit sign -> located x e s cls ->
  correctly_rounded rm sign x (f32_pack_rounded sign e s cls rm).
Proof.
  intros Hb L. unfold f32_pack_rounded.
  pose proof (decision_rounds x e s cls rm sign L) as R.
  pose proof (exact_iff x e s cls rm sign L) as X.
  pose proof (inexact_spec cls s sign rm) as [I _].
  set (v := if fst (f32_round_up_decision cls s sign rm) then _ else _) in *.
  destruct (if fst (f32_round_up_decision cls s sign rm) then carry e s else (s, e))
    as [s' e'] eqn:C. symmetry in C.
  destruct (located_proper_v x e s cls rm sign s' e' L C) as [Hs' Ev]. fold v in Ev.
  destruct (f32_round_up_decision cls s sign rm) as [up inexact]. cbn [fst snd] in *.
  unfold carry in C. rewrite <- C.
  destruct (binade e' s' Hs') as [B1 B2]. rewrite Ev in B1, B2. exists v. split; [done|].
  destruct (Z.ltb_spec 127 e') as [Ho|Ho]; [|destruct (Z.ltb_spec e' (-126)) as [Hu|Hu]].
  - rewrite overflow_pack by done. pose proof (p2_le 128 e' ltac:(lia)).
    pose proof (p2_lt (-126) 128 ltac:(lia)). split_and!; [intros; lra | done | intros; lra].
  - pose proof (p2_le (e' + 1) (-126) ltac:(lia)). pose proof (p2_lt (-126) 128 ltac:(lia)).
    split_and!; [|intros; lra | intros; lra]. intros _. destruct Hb as [-> | ->]; reflexivity.
  - pose proof (p2_le (-126) e' ltac:(lia)). pose proof (p2_le (e' + 1) 128 ltac:(lia)).
    split_and!; [intros; lra | intros; lra |]. intros _ _. cbn [fst snd].
    destruct (pack_in_range sign e' s' Hb Hs' ltac:(lia)) as (A1 & A2 & A3).
    rewrite Ev in A3. split_and!; try done. rewrite I. destruct (rem_class_eqb cls Exact); simpl; tauto.
Qed.

(** ** The exponent loops *)

Section Loops.
  Context (bound : Z -> Q) (m : Q).

(** Enough fuel leaves the first loop with its guard false. *)
Lemma exp_up_spec fuel e :
  bound e <= m -> m < bound (e + Z.of_nat fuel) ->
  bound (exp_up fuel bound m e) <= m /\ m < bound (exp_up fuel bound m e + 1).
Proof.
  revert e. induction fuel as [|n IH]; intros e Hlo Hhi.
  { rewrite Z.add_0_r in Hhi. lra. }
  cbn [exp_up]. destruct (Qle_bool (bound (e + 1)) m) eqn:E.
  - apply IH; [by apply Qle_bool_iff|]. by replace (e + 1 + Z.of_nat n)%Z with (e + Z.of_nat (S n))%Z by lia.
  - split; [done|]. apply Qnot_le_lt. intros H%Qle_bool_iff. congruence.
Qed.

(** The second loop is not entered. *)
Lemma exp_down_id fuel e : bound e <= m -> exp_down fuel bound m e = e.
Proof.
  intros H. destruct fuel as [|n]; [done|]. cbn [exp_down]. unfold frac_ltb.
  by apply Qle_bool_iff in H as ->.
Qed.

End Loops.

Lemma bit_length_spec z : (0 < z)%Z -> (2 ^ (bit_length z - 1) <= z < 2 ^ bit_length z)%Z.
Proof.
  intros Hz. unfold bit_length. destruct (Z.eqb_spec z 0); [lia|].
  rewrite Z.abs_eq by lia. pose proof (Z.log2_spec z Hz) as [? ?].
  replace (Z.log2 z + 1 - 1)%Z with (Z.log2 z) by lia. rewrite Z.add_1_r. done.
Qed.

Lemma bit_length_pos z : (0 < z)%Z -> (1 <= bit_length z)%Z.
Proof.
  intros Hz. unfold bit_length. destruct (Z.eqb_spec z 0); [lia|].
  pose proof (Z.log2_nonneg (Z.abs z)). lia.
Qed.

(** The bit lengths of numerator and denominator locate a fraction within a
    factor of four. *)
Lemma bit_length_bounds m :
  0 < m ->
  let t := (bit_length (Qnum m) - bit_length (Zpos (Qden m)))%Z in
  p2 (t - 1) <= m /\ m < p2 (t + 1).
Proof.
  intros Hm. destruct m as [n d]. unfold Qlt in Hm. simpl in Hm. cbn [Qnum Qden]. cbv zeta.
  assert (Hn : (0 < n)%Z) by lia.
  pose proof (bit_length_spec n Hn) as [N1 N2]. pose proof (bit_length_spec (Zpos d) ltac:(lia)) as [D1 D2].
  pose proof (bit_length_pos n Hn). pose proof (bit_length_pos (Zpos d) ltac:(lia)).
  set (a := bit_length n) in *. set (b := bit_length (Zpos d)) in *.
  assert (E : (n # d) * inject_Z (Zpos d) == inject_Z n) by (unfold Qeq; simpl; lia).
  apply inject_le in N1, D1. apply inject_lt in N2, D2. rewrite <- !p2_Z in * by lia.
  assert (0 < inject_Z (Zpos d)) by reflexivity. set (q := n # d) in *. set (D := inject_Z (Zpos d)) in *.
  pose proof (p2_pos (a - b - 1)). pose proof (p2_pos (a - b + 1)).
  split.
  - apply Qmult_le_r with D; [done|]. rewrite E.
    apply Qle_trans with (p2 (a - b - 1) * p2 b); [nra|]. rewrite <- p2_add.
    by replace (a - b - 1 + b)%Z with (a - 1)%Z by lia.
  - apply Qmult_lt_r with D; [done|]. rewrite E.
    apply Qlt_le_trans with (p2 (a - b + 1) * p2 (b - 1)); [|nra]. rewrite <- p2_add.
    by replace (a - b + 1 + (b - 1))%Z with a by lia.
Qed.

(** The exponent the two loops settle on, with both guards false. *)
Lemma normalize_exponent m :
  0 < m ->
  let e0 := (bit_length (Qnum m) - bit_length (Zpos (Qden m)) - 1)%Z in
  let e := exp_down loop_fuel two_pow m (exp_up loop_fuel two_pow m e0) in
  two_pow e <= m /\ m < two_pow (e + 1).
Proof.
  intros Hm. cbv zeta. pose proof (bit_length_bounds m Hm) as [B1 B2].
  set (t := (bit_length (Qnum m) - bit_length (Zpos (Qden m)))%Z) in *.
  destruct (exp_up_spec two_pow m loop_fuel (t - 1)) as [H1 H2].
  - by rewrite two_pow_p2.
  - rewrite two_pow_p2. apply Qlt_le_trans with (p2 (t + 1)); [done|]. apply p2_le.
    unfold loop_fuel. lia.
  - by rewrite exp_down_id.
Qed.

Lemma p2_cancel e : p2 (23 - e) * p2 (e - 23) == 1.
Proof. rewrite <- p2_add. by replace (23 - e + (e - 23))%Z with 0%Z by lia. Qed.

Lemma floor_div q : (Qnum q / Zpos (Qden q))%Z = Qfloor q.
Proof. by destruct q. Qed.

(** Scaling by [2^(23-e)] turns comparisons with multiples of the step into
    comparisons with integers. *)
Lemma scale_le m e q : q * p2 (e - 23) <= m <-> q <= m * p2 (23 - e).
Proof.
  rewrite <- (Qmult_le_r q _ (p2 (e - 23))) by apply p2_pos.
  by rewrite <- Qmult_assoc, p2_cancel, Qmult_1_r.
Qed.

Lemma scale_ge m e q : m <= q * p2 (e - 23) <-> m * p2 (23 - e) <= q.
Proof.
  rewrite <- (Qmult_le_r _ q (p2 (e - 23))) by apply p2_pos.
  by rewrite <- Qmult_assoc, p2_cancel, Qmult_1_r.
Qed.

Lemma classify_spec r :
  match classify r with
  | Exact => r == 0
  | Below => ~ r == 0 /\ r < 1 # 2
  | Tie => r == 1 # 2
  | Above => (1 # 2) < r
  end.
Proof.
  unfold classify, frac_ltb. change (Fraction 1 2) with (1 # 2).
  destruct (Qeq_bool r 0) eqn:E0; [by apply Qeq_bool_iff|].
  assert (~ r == 0) by (intros H%Qeq_bool_iff; congruence).
  destruct (Qle_bool (1 # 2) r) eqn:E1; simpl.
  - apply Qle_bool_iff in E1. destruct (Qle_bool r (1 # 2)) eqn:E2; simpl.
    + apply Qle_bool_iff in E2. lra.
    + apply Qnot_le_lt. intros H'%Qle_bool_iff. congruence.
  - split; [done|]. apply Qnot_le_lt. intros H'%Qle_bool_iff. congruence.
Qed.

(** [_f32_normalize_fraction] locates its argument. *)
Lemma normalize_located m :
  0 < m ->
  let '(e, s, cls) := f32_normalize_fraction m in located (rational m) e s cls.
Proof.
  intros Hm. unfold f32_normalize_fraction. pose proof (normalize_exponent m Hm) as [E1 E2].
  cbv zeta in *. set (e := exp_down _ _ _ _) in *. rewrite two_pow_p2 in E1, E2.
  rewrite floor_div. set (sig := frac_mul m (two_pow (23 - e))).
  assert (Hsig : sig == m * p2 (23 - e)) by (unfold sig, frac_mul; by rewrite Qred_correct, two_pow_p2).
  set (s := Qfloor sig). pose proof (Qfloor_le sig) as F1. pose proof (Qlt_floor sig) as F2.
  rewrite inject_Z_plus in F2. change (inject_Z 1) with 1 in F2. fold s in F1, F2.
  assert (R : (2 ^ 23 <= s < 2 ^ 24)%Z).
  { assert (p2 23 <= sig /\ sig < p2 24) as [S1 S2].
    { rewrite Hsig. pose proof (p2_pos (23 - e)).
      assert (p2 23 == p2 e * p2 (23 - e)) as -> by
        (rewrite <- p2_add; by replace (e + (23 - e))%Z with 23%Z by lia).
      assert (p2 24 == p2 (e + 1) * p2 (23 - e)) as -> by
        (rewrite <- p2_add; by replace (e + 1 + (23 - e))%Z with 24%Z by lia).
      split; nra. }
    rewrite p2_Z in S1, S2 by done. split.
    - rewrite <- (Qfloor_Z (2 ^ 23)). by apply Qfloor_resp_le.
    - rewrite Zlt_Qlt. lra. }
  unfold located. cbn [lo hi rational]. rewrite !scale_le, !scale_ge, <- Hsig.
  split; [done|]. split; [lra|]. split; [lra|]. split; [intros ?; lra|].
  pose proof (classify_spec (frac_sub sig (inject_Z s))) as C.
  assert (Hr : frac_sub sig (inject_Z s) == sig - inject_Z s) by (unfold frac_sub; apply Qred_correct).
  destruct (classify _); rewrite ?scale_le, ?scale_ge, <- ?Hsig; rewrite Hr in C;
    split_and?; (lra || (intros ?; lra)).
Qed.

(** ** Square roots *)

(** A magnitude [k * 2^(j-23)] with a 24-bit significand, as every decoded normal
    number is. *)
Lemma sqrt_exponent m :
  0 < m ->
  let e0 := ((bit_length (Qnum m) - bit_length (Zpos (Qden m))) / 2 - 1)%Z in
  let bound := fun e => two_pow (2 * e) in
  let e := exp_down loop_fuel bound m (exp_up loop_fuel bound m e0) in
  p2 (2 * e) <= m /\ m < p2 (2 * e + 2).
Proof.
  intros Hm. cbv zeta. pose proof (bit_length_bounds m Hm) as [B1 B2].
  set (t := (bit_length (Qnum m) - bit_length (Zpos (Qden m)))%Z) in *.
  pose proof (Z.div_mod t 2 ltac:(lia)) as D. pose proof (Z.mod_pos_bound t 2 ltac:(lia)).
  destruct (exp_up_spec (fun e => two_pow (2 * e)) m loop_fuel (t / 2 - 1)) as [H1 H2].
  - rewrite two_pow_p2. apply Qle_trans with (p2 (t - 1)); [apply p2_le; lia | done].
  - rewrite two_pow_p2. apply Qlt_le_trans with (p2 (t + 1)); [done|]. apply p2_le.
    unfold loop_fuel. lia.
  - rewrite exp_down_id by done. rewrite two_pow_p2 in H1, H2. split; [done|].
    by replace (2 * exp_up loop_fuel (fun e => two_pow (2 * e)) m (t / 2 - 1) + 2)%Z
      with (2 * (exp_up loop_fuel (fun e => two_pow (2 * e)) m (t / 2 - 1) + 1))%Z by lia.
Qed.

Lemma Qred_int q n : q == inject_Z n -> Qred q = inject_Z n.
Proof.
  intros E. rewrite (Qred_complete _ _ E). unfold Qred, inject_Z.
  pose proof (Z.ggcd_correct_divisors n 1) as H. pose proof (Z.ggcd_gcd n 1) as G.
  destruct (Z.ggcd n 1) as [g [a b]]. rewrite Z.gcd_1_r in G. simpl in G. subst g.
  rewrite !Z.mul_1_l in H. by destruct H as [-> <-].
Qed.

(** The [assert] of [_f32_sqrt_normalize]: scaling a decoded magnitude gives an
    integer. *)
Lemma sqrt_scaled_integer m k j e :
  (2 ^ 23 <= k < 2 ^ 24)%Z -> m == inject_Z k * p2 (j - 23) -> p2 (2 * e) <= m ->
  frac_mul m (two_pow (2 * (23 - e))) = inject_Z (k * 2 ^ (j + 23 - 2 * e)).
Proof.
  intros Hk Hm He. assert (Hj : (2 * e <= j)%Z).
  { destruct (binade j k Hk) as [_ B]. rewrite Hm in He.
    assert (L : p2 (2 * e) < p2 (j + 1)) by lra. apply Qpower_lt_compat_l_inv in L; [lia | done]. }
  unfold frac_mul. apply Qred_int.
  rewrite Hm, two_pow_p2, inject_Z_mult, <- p2_Z by lia. rewrite <- Qmult_assoc, <- p2_add.
  by replace (j - 23 + 2 * (23 - e))%Z with (j + 23 - 2 * e)%Z by lia.
Qed.

(** Comparing with a square root after scaling is comparing squares. *)
Lemma scale_root m e q N :
  0 <= q -> 0 <= N -> m * p2 (2 * (23 - e)) == N ->
  (lo (root m) (q * p2 (e - 23)) <-> q * q <= N) /\
  (hi (root m) (q * p2 (e - 23)) <-> N <= q * q).
Proof.
  intros Hq HN0 HN. cbn [lo hi root]. pose proof (p2_pos (e - 23)) as Hu. set (u := p2 (e - 23)) in *.
  assert (Hm : m == N * (u * u)).
  { rewrite <- HN. unfold u. rewrite <- p2_add, <- Qmult_assoc, <- p2_add.
    replace (2 * (23 - e) + (e - 23 + (e - 23)))%Z with 0%Z by lia. change (p2 0) with 1. ring. }
  assert (Huu : 0 < u * u) by nra.
  assert (S : q * u * (q * u) == q * q * (u * u)) by ring. rewrite S, Hm.
  rewrite !(Qmult_le_r _ _ (u * u) Huu). split; split; [|by right | tauto |].
  - intros [H|H]; [|done]. assert (q == 0) as -> by nra. nra.
  - intros H. split; [nra | done].
Qed.

Lemma root_point m e n q t :
  (0 <= n)%Z -> (0 <= t)%Z -> m * p2 (2 * (23 - e)) == inject_Z n -> q == inject_Z t * (1 # 2) ->
  (lo (root m) (q * p2 (e - 23)) <-> (t * t <= 4 * n)%Z) /\
  (hi (root m) (q * p2 (e - 23)) <-> (4 * n <= t * t)%Z).
Proof.
  intros Hn Ht Hm Hq. apply inject_le in Hn, Ht. change (inject_Z 0) with 0 in *.
  destruct (scale_root m e q (inject_Z n)) as [-> ->]; [lra | done | done |].
  rewrite !Zle_Qle, !inject_Z_mult. change (inject_Z 4) with 4.
  assert (q * q == inject_Z t * inject_Z t * (1 # 4)) as -> by (rewrite Hq; ring).
  split; split; intros; lra.
Qed.

(** [_f32_sqrt_normalize] locates the square root of a decoded magnitude. *)
Lemma sqrt_located m k j :
  (2 ^ 23 <= k < 2 ^ 24)%Z -> m == inject_Z k * p2 (j - 23) ->
  let '(e, s, cls) := f32_sqrt_normalize m in located (root m) e s cls.
Proof.
  intros Hk Hm. assert (Hpos : 0 < m).
  { rewrite Hm. pose proof (p2_pos (j - 23)).
    assert (0 < inject_Z k) by (change 0 with (inject_Z 0); apply inject_lt; lia). nra. }
  unfold f32_sqrt_normalize. pose proof (sqrt_exponent m Hpos) as [E1 E2]. cbv zeta in *.
  set (e := exp_down _ _ _ _) in *.
  rewrite (sqrt_scaled_integer m k j e Hk Hm E1). cbn [Qnum inject_Z].
  set (n := (k * 2 ^ (j + 23 - 2 * e))%Z).
  assert (Hn : m * p2 (2 * (23 - e)) == inject_Z n).
  { unfold n. rewrite <- (sqrt_scaled_integer m k j e Hk Hm E1). unfold frac_mul.
    by rewrite Qred_correct, two_pow_p2. }
  assert (Rn : (2 ^ 46 <= n < 2 ^ 48)%Z).
  { pose proof (p2_pos (2 * (23 - e))).
    assert (p2 46 == p2 (2 * e) * p2 (2 * (23 - e))) as A1 by
      (rewrite <- p2_add; by replace (2 * e + 2 * (23 - e))%Z with 46%Z by lia).
    assert (p2 48 == p2 (2 * e + 2) * p2 (2 * (23 - e))) as A2 by
      (rewrite <- p2_add; by replace (2 * e + 2 + 2 * (23 - e))%Z with 48%Z by lia).
    rewrite p2_Z in A1, A2 by done. rewrite Zle_Qle, Zlt_Qlt, A1, A2, <- Hn. split; nra. }
  pose proof (Z.sqrt_spec n ltac:(lia)) as [S1 S2]. set (s := Z.sqrt n) in *.
  assert (Rs : (2 ^ 23 <= s < 2 ^ 24)%Z) by nia.
  pose proof (root_point m e n (inject_Z s) (2 * s)) as [L0 H0];
    [lia | lia | done | rewrite inject_Z_mult; change (inject_Z 2) with 2; lra |].
  pose proof (root_point m e n (inject_Z s + 1) (2 * s + 2)) as [L1 H1];
    [lia | lia | done | rewrite inject_Z_plus, inject_Z_mult; change (inject_Z 2) with 2; lra |].
  pose proof (root_point m e n (inject_Z s + (1 # 2)) (2 * s + 1)) as [LM HM];
    [lia | lia | done | rewrite inject_Z_plus, inject_Z_mult; change (inject_Z 2) with 2;
                        change (inject_Z 1) with 1; lra |].
  unfold located. rewrite L0, H1, L1. split_and!; try nia.
  destruct (Z.eqb_spec (s * s) n); [rewrite H0; nia|].
  destruct (Z.ltb_spec (4 * n) ((2 * s + 1) * (2 * s + 1))).
  { rewrite H0, HM, LM. split_and!; nia. }
  destruct (Z.ltb_spec ((2 * s + 1) * (2 * s + 1)) (4 * n)); rewrite LM, HM; split_and!; nia.
Qed.

(** ** The operations *)

(** Numbers given by the same comparisons round the same way. *)
Lemma correctly_rounded_proper rm sign x y r :
  (forall q, lo x q <-> lo y q) -> (forall q, hi x q <-> hi y q) ->
  correctly_rounded rm sign x r -> correctly_rounded rm sign y r.
Proof.
  intros L H (v & R & U & O & I). exists v. split; [|split; [done|]; split; [done|]].
  - unfold rounds, toward_zero, away_from_zero, nearest, tied in *.
    repeat case_match; setoid_rewrite <- L || idtac; setoid_rewrite <- H || idtac; done.
  - intros. specialize (I ltac:(done) ltac:(done)). by rewrite <- L, <- H.
Qed.

Lemma rational_rounded rm sign m m' r :
  m == m' -> correctly_rounded rm sign (rational m) r -> correctly_rounded rm sign (rational m') r.
Proof. intros E. apply correctly_rounded_proper; intros q; simpl; by rewrite E. Qed.

(** The signed value of a finite number. *)
Definition value (bits : Z) : Q :=
  let d := f32_decode bits in if (d_sign d =? 0)%Z then mag d else - mag d.

(** Neither zero (subnormals included), infinite nor a NaN. *)
Definition normal (bits : Z) : Prop := (0 < (bits ≫ 23) .& 0xFF < 255)%Z /\ is_u32 bits.

Lemma normal_decode bits :
  normal bits ->
  let d := f32_decode bits in
  d_nan d = false /\ d_inf d = false /\ d_zero d = false /\ is_bit (d_sign d) /\ 0 < mag d /\
  exists k j, (2 ^ 23 <= k < 2 ^ 24)%Z /\ mag d == inject_Z k * p2 (j - 23).
Proof.
  intros [He Hb]. set (sg := ((bits ≫ 31) .& 1)%Z). set (fr := (bits .& 0x7FFFFF)%Z).
  set (ex := ((bits ≫ 23) .& 0xFF)%Z) in *.
  assert (Hsg : is_bit sg) by by apply bit_range.
  assert (Hfr : (0 <= fr < 2 ^ 23)%Z) by by apply (land_range bits 23).
  assert (E : bits = pack sg ex fr).
  { unfold is_u32 in Hb. unfold pack, sg, ex, fr. fields. }
  destruct (decode_pack sg ex fr Hsg He Hfr) as (D1 & (N & I & Z0) & _ & D3).
  cbv zeta. rewrite E. split_and!; try done; [by rewrite D1 | |].
  - rewrite D3. pose proof (p2_pos (ex - 127 - 23)).
    assert (0 < inject_Z (2 ^ 23 + fr)) by (change 0 with (inject_Z 0); apply inject_lt; lia). nra.
  - exists (2 ^ 23 + fr)%Z, (ex - 127)%Z. split; [lia | done].
Qed.

Lemma round_fraction_correct rm sign m :
  is_bit sign -> 0 < m ->
  correctly_rounded rm sign (rational m) (f32_round_from_fraction sign m rm).
Proof.
  intros Hb Hm. unfold f32_round_from_fraction. pose proof (normalize_located m Hm) as L.
  destruct (f32_normalize_fraction m) as [[e s] cls]. by apply pack_rounded_correct.
Qed.

(** An exact sum of either sign: zero has its own rule, anything else is rounded. *)
Definition sum_rounded (rm : Z) (total : Q) (r : Z * Z) : Prop :=
  (total == 0 -> r = (f32_pack_zero (if (rm =? RM_RDN)%Z then 1 else 0)%Z, 0%Z)) /\
  (0 < total -> correctly_rounded rm 0 (rational total) r) /\
  (total < 0 -> correctly_rounded rm 1 (rational (- total)) r).

Lemma round_total rm total t :
  t == total ->
  sum_rounded rm total
    (if Qeq_bool t 0 then (f32_pack_zero (if (rm =? RM_RDN)%Z then 1 else 0)%Z, 0%Z)
     else f32_round_from_fraction (if frac_ltb t 0 then 1 else 0)%Z (frac_abs t) rm).
Proof.
  intros E. unfold sum_rounded, frac_ltb.
  destruct (Qeq_bool t 0) eqn:Z0.
  { apply Qeq_bool_iff in Z0. split_and!; [done | intros; lra | intros; lra]. }
  assert (~ t == 0) by (intros H%Qeq_bool_iff; congruence).
  split_and!; [intros; lra | |]; intros Hs.
  - assert (Qle_bool 0 t = true) as -> by (apply Qle_bool_iff; lra). simpl negb. cbv iota.
    assert (A : frac_abs t == total) by (unfold frac_abs; rewrite Qred_correct, Qabs_pos; lra).
    apply (rational_rounded _ _ _ _ _ A), round_fraction_correct; [by left | lra].
  - assert (Qle_bool 0 t = false) as ->.
    { apply not_true_iff_false. intros H'%Qle_bool_iff. lra. }
    simpl negb. cbv iota.
    assert (A : frac_abs t == - total) by (unfold frac_abs; rewrite Qred_correct, Qabs_neg; lra).
    apply (rational_rounded _ _ _ _ _ A), round_fraction_correct; [by right | lra].
Qed.

Definition signed_by (s : Z) (m : Q) : Q := if (s =? 0)%Z then m else - m.
Definition flip (b : bool) (q : Q) : Q := if b then - q else q.

(** The sign bit after the optional negation of [fsub], [fmsub], [fnmadd]... *)
Lemma signed_flip s m (n : bool) (q : Q) :
  is_bit s -> q == m ->
  (if ((s .^ (if n then 1 else 0)) =? 0)%Z then q else frac_neg q) == flip n (signed_by s m).
Proof.
  intros [-> | ->] E; destruct n; unfold flip, signed_by, frac_neg; simpl; rewrite ?Qred_correct, E; ring.
Qed.

Lemma signed_neg s m : (if (s =? 0)%Z then m else frac_neg m) == signed_by s m.
Proof. unfold signed_by, frac_neg. case_match; [reflexivity | apply Qred_correct]. Qed.

Lemma signed_product sa sb p q n :
  is_bit sa -> is_bit sb ->
  flip n (signed_by (sa .^ sb)%Z (p * q)) == flip n (signed_by sa p * signed_by sb q).
Proof. intros [-> | ->] [-> | ->]; destruct n; unfold flip, signed_by; simpl; ring. Qed.

Lemma value_signed bits : value bits = signed_by (d_sign (f32_decode bits)) (mag (f32_decode bits)).
Proof. done. Qed.

(** C22: addition, subtraction and the fused multiply-adds are correctly
    rounded.  For operands in the normal range, each returns the exact sum
    [a +- b], or the exact [+-(a*b) +- c] with a single rounding, rounded in the
    rounding mode, with the overflow, underflow and inexact flags; an exact
    zero is +0, or -0 when rounding down. *)
Theorem float_sum_correct rm a b c is_sub neg_prod neg_addend :
  normal a -> normal b -> normal c ->
  sum_rounded rm (value a + flip is_sub (value b)) (f_add a b rm is_sub) /\
  sum_rounded rm (flip neg_prod (value a * value b) + flip neg_addend (value c))
    (f_madd a b c rm neg_prod neg_addend).
Proof.
  intros Ha Hb Hc. rewrite !value_signed. unfold f_add, f_madd. cbv zeta.
  destruct (normal_decode a Ha) as (Na & Ia & Za & Sa & Ma & _).
  destruct (normal_decode b Hb) as (Nb & Ib & Zb & Sb & Mb & _).
  destruct (normal_decode c Hc) as (Nc & Ic & Zc & Sc & Mc & _).
  rewrite Na, Nb, Nc, Ia, Ib, Ic, Za, Zb, Zc. cbn [orb andb]. split; apply round_total.
  - unfold frac_add. rewrite Qred_correct, signed_neg.
    by rewrite (signed_flip (d_sign (f32_decode b)) (mag (f32_decode b)) is_sub).
  - unfold frac_add. rewrite Qred_correct.
    rewrite (signed_flip (d_sign (f32_decode c)) (mag (f32_decode c)) neg_addend) by done.
    rewrite (signed_flip (Z.lxor (d_sign (f32_decode a)) (d_sign (f32_decode b)))
      (mag (f32_decode a) * mag (f32_decode b)) neg_prod);
      [| by apply is_bit_xor | unfold frac_mul; apply Qred_correct].
    by rewrite signed_product.
Qed.

(** 3.0, 0.1 and -1.5 as bit patterns. *)
Lemma float_sum_correct_witness :
  normal 0x40400000 /\ normal 0x3DCCCCCD /\ normal 0xBFC00000 /\
  sum_rounded RM_RNE (value 0x40400000 + flip true (value 0x3DCCCCCD))
    (f_add 0x40400000 0x3DCCCCCD RM_RNE true).
Proof.
  assert (normal 0x40400000) by done. assert (normal 0x3DCCCCCD) by done.
  assert (normal 0xBFC00000) by done. split_and!; try assumption.
  apply (float_sum_correct RM_RNE 0x40400000 0x3DCCCCCD 0xBFC00000 true true true); assumption.
Defined.

(** The square root of a positive normal number is correctly rounded in
    every mode, though it is irrational in general: the result is placed by
    comparing squares, and the [assert] that the scaled operand is an integer
    holds ([sqrt_scaled_integer]). *)
Lemma sqrt_correct rm a :
  normal a -> d_sign (f32_decode a) = 0%Z ->
  correctly_rounded rm 0 (root (mag (f32_decode a))) (f_sqrt a rm).
Proof.
  intros Ha Hs. unfold f_sqrt. cbv zeta.
  destruct (normal_decode a Ha) as (Na & Ia & Za & Sa & Ma & k & j & Hk & Hm).
  rewrite Na, Ia, Za, Hs. change (truthy 0) with false. cbv iota. unfold f32_round_from_sqrt.
  pose proof (sqrt_located _ k j Hk Hm) as L.
  destruct (f32_sqrt_normalize (mag (f32_decode a))) as [[e s] cls].
  apply pack_rounded_correct; [by left | done].
Qed.

(** C23: multiplication, division and square root are correctly rounded: for
    operands in the normal range the magnitude of the result is the exact product
    or quotient, rounded in the rounding mode, and its sign is the exclusive or of
    the operands' signs; for a positive operand the square root is the exact root,
    in general irrational, rounded in the mode. *)
Theorem float_product_correct rm a b :
  normal a -> normal b ->
  let da := f32_decode a in
  let db := f32_decode b in
  correctly_rounded rm (d_sign da .^ d_sign db)%Z (rational (mag da * mag db)) (f_mul a b rm) /\
  correctly_rounded rm (d_sign da .^ d_sign db)%Z (rational (mag da / mag db)) (f_div a b rm) /\
  (d_sign da = 0%Z -> correctly_rounded rm 0 (root (mag da)) (f_sqrt a rm)).
Proof.
  intros Ha Hb. cbv zeta. unfold f_mul, f_div. cbv zeta.
  destruct (normal_decode a Ha) as (Na & Ia & Za & Sa & Ma & _).
  destruct (normal_decode b Hb) as (Nb & Ib & Zb & Sb & Mb & _).
  rewrite Na, Nb, Ia, Ib, Za, Zb. cbn [orb andb]. split; [|split; [|by apply sqrt_correct]].
  - apply rational_rounded with (frac_mul (mag (f32_decode a)) (mag (f32_decode b)));
      [apply Qred_correct|].
    apply round_fraction_correct; [by apply is_bit_xor|]. unfold frac_mul. rewrite Qred_correct. nra.
  - apply rational_rounded with (frac_div (mag (f32_decode a)) (mag (f32_decode b)));
      [apply Qred_correct|].
    apply round_fraction_correct; [by apply is_bit_xor|]. unfold frac_div. rewrite Qred_correct.
    apply Qlt_shift_div_l; lra.
Qed.

Lemma float_product_correct_witness :
  correctly_rounded RM_RUP 1 (rational (3 / mag (f32_decode 0xBDCCCCCD)))
    (f_div 0x40400000 0xBDCCCCCD RM_RUP) /\
  correctly_rounded RM_RUP 0 (root 3) (f_sqrt 0x40400000 RM_RUP).
Proof.
  destruct (float_product_correct RM_RUP 0x40400000 0xBDCCCCCD) as (_ & H & S); [done | done |].
  split; [exact H | exact (S eq_refl)].
Defined.

