(* ===== verification/FloatConv.v ===== *)
(** * Conversions and comparisons of floats

    [f_cvt_to_int], [f_cvt_from_int], [f_cmp] and [f_minmax] against the rational
    values of their operands. *)

From Stdlib Require Import QArith Qabs Qreduction Qpower Qround Lqa.
From S2P Require Import Prelude Bits Float32 FloatRound.
Open Scope Z_scope.
Open Scope Q_scope.

(** ** Rounding to an integer *)

Definition int_rounded (rm : Z) (q : Q) (n : Z) : Prop :=
  if (rm =? RM_RTZ)%Z then (0 <= q -> n = Qfloor q) /\ (q <= 0 -> n = Qceiling q)
  else if (rm =? RM_RDN)%Z then n = Qfloor q
  else if (rm =? RM_RUP)%Z then n = Qceiling q
  else
    Qabs (q - inject_Z n) <= 1 # 2 /\
    (Qabs (q - inject_Z n) == 1 # 2 ->
     if (rm =? RM_RMM)%Z then Qabs q < Qabs (inject_Z n) else Z.even n = true).

Lemma floor_is q k : inject_Z k <= q -> q < inject_Z k + 1 -> Qfloor q = k.
Proof.
  intros H1 H2. pose proof (Qfloor_le q) as F1. pose proof (Qlt_floor q) as F2.
  rewrite inject_Z_plus in F2. change (inject_Z 1) with 1 in F2.
  assert (inject_Z k < inject_Z (Qfloor q + 1)) as A by (rewrite inject_Z_plus; change (inject_Z 1) with 1; lra).
  assert (inject_Z (Qfloor q) < inject_Z (k + 1)) as B by (rewrite inject_Z_plus; change (inject_Z 1) with 1; lra).
  rewrite <- Zlt_Qlt in A, B. lia.
Qed.

Lemma ceiling_is q k : inject_Z k - 1 < q -> q <= inject_Z k -> Qceiling q = k.
Proof.
  intros H1 H2. unfold Qceiling. rewrite (floor_is (- q) (- k)); [lia | |]; rewrite inject_Z_opp; lra.
Qed.

Section Decide.
Context (m : Q) (s rm : Z) (Hm : 0 <= m) (Hs : is_bit s).
Local Abbreviation f := (Qfloor m).
Local Abbreviation cls := (classify (frac_sub m (inject_Z f))).
Local Abbreviation up := (fst (f32_round_up_decision cls f s rm)).
Local Abbreviation n := (f + (if up then 1 else 0))%Z.
Local Abbreviation sn := (if (s =? 0)%Z then n else - n)%Z.

Lemma remainder_class :
  inject_Z f <= m /\ m < inject_Z f + 1 /\
  match cls with
  | Exact => m == inject_Z f
  | Below => inject_Z f < m /\ m < inject_Z f + (1 # 2)
  | Tie => m == inject_Z f + (1 # 2)
  | Above => inject_Z f + (1 # 2) < m
  end.
Proof.
  pose proof (Qfloor_le m) as F1. pose proof (Qlt_floor m) as F2.
  rewrite inject_Z_plus in F2. change (inject_Z 1) with 1 in F2.
  pose proof (classify_spec (frac_sub m (inject_Z f))) as C.
  assert (frac_sub m (inject_Z f) == m - inject_Z f) as R by apply Qred_correct.
  split; [done|]. split; [done|]. destruct cls; rewrite R in C; lra.
Qed.

Ltac inj :=
  rewrite ?inject_Z_opp, ?inject_Z_plus; change (inject_Z 1) with 1 in *; change (inject_Z 0) with 0 in *.
Ltac abs_cases :=
  repeat match goal with
  | |- context [Qabs ?x] =>
      let H := fresh in destruct (Qlt_le_dec x 0) as [H|H];
      [rewrite (Qabs_neg x) by lra | rewrite (Qabs_pos x) by lra]
  end.

Ltac eval_classes :=
  repeat match goal with
  | |- context [rem_class_eqb ?a ?b] =>
      let v := eval vm_compute in (rem_class_eqb a b) in change (rem_class_eqb a b) with v
  end.

(** The decision of the code rounds the signed number. *)
Lemma decision_int : int_rounded rm (signed_by s m) sn.
Proof.
  pose proof remainder_class as (F1 & F2 & C). pose proof (low_bit f) as LB.
  assert (0 <= inject_Z f) as F0.
  { change 0 with (inject_Z 0). apply inject_le. change 0%Z with (Qfloor 0). by apply Qfloor_resp_le. }
  unfold int_rounded, signed_by, f32_round_up_decision.
  destruct (rm =? RM_RTZ)%Z, (rm =? RM_RDN)%Z, (rm =? RM_RUP)%Z, (rm =? RM_RMM)%Z;
    destruct Hs as [-> | ->]; cbn [Z.eqb Pos.eqb]; destruct cls; eval_classes; cbv iota; cbn [fst negb].
  all: try (split; intros; symmetry; (apply floor_is || apply ceiling_is); inj; lra).
  all: try (symmetry; (apply floor_is || apply ceiling_is); inj; lra).
  all: try (rewrite LB; destruct (Z.odd f) eqn:Od).
  all: split; [inj; abs_cases; lra|].
  all: try (inj; abs_cases; intros; lra).
  all: intros _; rewrite ?Z.even_opp, Z.even_add, <- Z.negb_odd, Od; done.
Qed.
End Decide.

(** ** Float to integer *)

Definition int_lo (unsigned : bool) : Z := if unsigned then 0%Z else (- 2 ^ 31)%Z.
Definition int_hi (unsigned : bool) : Z := if unsigned then (2 ^ 32 - 1)%Z else (2 ^ 31 - 1)%Z.
(** The nearest integer the register format has, and what the flags are. *)
Definition saturate (unsigned : bool) (n : Z) : Z := Z.max (int_lo unsigned) (Z.min (int_hi unsigned) n).
Definition convert_flags (unsigned : bool) (q : Q) (n : Z) : Z :=
  if (saturate unsigned n =? n)%Z then (if Qeq_bool q (inject_Z n) then 0 else F_NX)%Z else F_NV.

Lemma mod32 z : (z .& 0xFFFFFFFF = z mod 2 ^ 32)%Z.
Proof. by apply land_lit. Qed.

Lemma in_range_value (c n fl fl' : Z) :
  c = n -> ((c mod 4294967296)%Z, if (c =? n)%Z then fl else fl') = ((n mod 4294967296)%Z, fl).
Proof. intros ->. by rewrite Z.eqb_refl. Qed.
Lemma out_of_range (c n k fl fl' : Z) :
  c = k -> n <> k -> ((c mod 4294967296)%Z, if (c =? n)%Z then fl else fl') = ((k mod 4294967296)%Z, fl').
Proof. intros -> H. by destruct (Z.eqb_spec k n). Qed.

Lemma to_int_correct rm a unsigned :
  normal a ->
  exists n, int_rounded rm (value a) n /\
    f_cvt_to_int a rm unsigned = ((saturate unsigned n mod 2 ^ 32)%Z, convert_flags unsigned (value a) n).
Proof.
  intros Ha. destruct (normal_decode a Ha) as (Na & Ia & Za & Sa & Ma & _).
  rewrite value_signed. unfold f_cvt_to_int. cbv zeta. rewrite Na, Ia, Za, floor_div.
  set (m := mag (f32_decode a)) in *. set (s := d_sign (f32_decode a)) in *. clearbody m s.
  pose proof (decision_int m s rm ltac:(lra) Sa) as R.
  pose proof (remainder_class m) as (F1 & F2 & C).
  pose proof (inexact_spec (classify (frac_sub m (inject_Z (Qfloor m)))) (Qfloor m) s rm) as [I E].
  assert (0 <= Qfloor m)%Z as F0 by (change 0%Z with (Qfloor 0); apply Qfloor_resp_le; lra).
  assert (forall (up : bool), Qeq_bool (signed_by s m) (inject_Z (if (s =? 0)%Z then (Qfloor m + (if up then 1 else 0))
     else - (Qfloor m + (if up then 1 else 0)))%Z) = Qeq_bool m (inject_Z (Qfloor m + (if up then 1 else 0)))) as S.
  { intros up. unfold signed_by. destruct (s =? 0)%Z; [done|]. apply eq_bool_prop_intro.
    rewrite !Is_true_true, !Qeq_bool_iff, inject_Z_opp. split; intros; lra. }
  set (cls := classify _) in *. destruct (f32_round_up_decision cls (Qfloor m) s rm) as [up inexact]. cbn [fst snd] in *.
  eexists. split; [exact R|]. unfold convert_flags. rewrite S.
  assert (inexact = negb (Qeq_bool m (inject_Z (Qfloor m + (if up then 1 else 0))))) as ->.
  { rewrite I, eqb_Exact. destruct cls.
    - rewrite E, Z.add_0_r by done. by rewrite (proj2 (Qeq_bool_iff _ _) C).
    - symmetry. apply negb_true_iff, not_true_iff_false. rewrite Qeq_bool_iff, inject_Z_plus.
      destruct up; [change (inject_Z 1) with 1 | change (inject_Z 0) with 0]; lra.
    - symmetry. apply negb_true_iff, not_true_iff_false. rewrite Qeq_bool_iff, inject_Z_plus.
      destruct up; [change (inject_Z 1) with 1 | change (inject_Z 0) with 0]; lra.
    - symmetry. apply negb_true_iff, not_true_iff_false. rewrite Qeq_bool_iff, inject_Z_plus.
      destruct up; [change (inject_Z 1) with 1 | change (inject_Z 0) with 0]; lra. }
  set (k := (Qfloor m + (if up then 1 else 0))%Z). assert (0 <= k)%Z by (unfold k; destruct up; lia).
  unfold saturate, int_lo, int_hi. rewrite !mod32. clearbody k. clear - Sa H.
  destruct Sa as [-> | ->]; destruct unsigned; cbn [truthy Z.eqb Pos.eqb negb andb orb]; pow_lits.
  - destruct (Z.ltb_spec 4294967295 k); [rewrite (out_of_range _ k 4294967295) by lia | rewrite (in_range_value _ k) by lia];
      by repeat case_match.
  - rewrite orb_false_r.
    destruct (Z.ltb_spec 2147483647 k); [rewrite (out_of_range _ k 2147483647) by lia | rewrite (in_range_value _ k) by lia];
      by repeat case_match.
  - destruct (Z.eqb_spec k 0) as [->|]; cbn [negb orb Z.ltb Z.compare].
    + rewrite (in_range_value _ (- 0)) by lia. by repeat case_match.
    + rewrite (out_of_range _ (- k) 0) by lia. by repeat case_match.
  - destruct (Z.ltb_spec 2147483648 k);
      [rewrite (out_of_range _ (- k) (-2147483648)) by lia | rewrite (in_range_value _ (- k)) by lia];
      by repeat case_match.
Qed.

(** ** Integer to float *)

(** The integer a 32-bit word stands for. *)
Definition word_value (unsigned : bool) (w : Z) : Z := if unsigned then w else s32 w.

(** The exact integer, rounded; 0 is exact. *)
Definition int_to_float (rm n : Z) (r : Z * Z) : Prop :=
  ((n = 0)%Z -> r = (0%Z, 0%Z)) /\
  ((0 < n)%Z -> correctly_rounded rm 0 (rational (inject_Z n)) r) /\
  ((n < 0)%Z -> correctly_rounded rm 1 (rational (inject_Z (- n))) r).

Lemma round_int_correct rm sign n :
  is_bit sign -> (0 < n)%Z ->
  correctly_rounded rm sign (rational (inject_Z n)) (f32_round_from_fraction sign (Qfrac_of_Z n) rm).
Proof.
  intros Hb Hn. assert (Qfrac_of_Z n == inject_Z n) as E by apply Qred_correct.
  apply (rational_rounded _ _ _ _ _ E), round_fraction_correct; [done|]. rewrite E.
  change 0 with (inject_Z 0). by apply inject_lt.
Qed.

Lemma from_int_correct rm w unsigned :
  is_u32 w -> int_to_float rm (word_value unsigned w) (f_cvt_from_int w rm unsigned).
Proof.
  intros Hw. unfold is_u32 in Hw. unfold f_cvt_from_int, word_value.
  destruct (Z.eqb_spec w 0) as [->|N].
  { destruct unsigned; split_and!; done. }
  destruct unsigned.
  - rewrite mod32, Z.mod_small by lia. split_and!; [lia | | lia]. intros. by apply round_int_correct; [left|].
  - rewrite s32_signed, signed_unfold, Z.mod_small by lia. change (2 ^ (32 - 1))%Z with (2 ^ 31)%Z.
    rewrite Z.shiftr_div_pow2 by lia. destruct (Z.ltb_spec w (2 ^ 31)).
    + rewrite Z.div_small by lia. change (truthy (0 .& 1)) with false. cbv iota.
      split_and!; [lia | | lia]. intros. by apply round_int_correct; [left|].
    + rewrite <- (Z.div_unique w (2 ^ 31) 1 (w - 2 ^ 31)) by lia. change (truthy (1 .& 1)) with true. cbv iota.
      replace (Z.lnot w + 1)%Z with (- w)%Z by (unfold Z.lnot; lia).
      rewrite mod32, <- (Z.mod_unique_pos (- w) (2 ^ 32) (-1) (2 ^ 32 - w)) by lia.
      split_and!; [lia | lia |]. intros. replace (- (w - 2 ^ 32))%Z with (2 ^ 32 - w)%Z by lia.
      apply round_int_correct; [by right | lia].
Qed.

(** ** There and back *)

Lemma F24_int k : (0 < k < 2 ^ 24)%Z -> F24 (inject_Z k).
Proof.
  intros Hk. set (j := Z.log2 k). pose proof (Z.log2_spec k ltac:(lia)) as [L1 L2]. fold j in L1, L2.
  pose proof (Z.log2_nonneg k). fold j in H. assert (j < 24)%Z as Hj by (apply Z.log2_lt_pow2; lia).
  exists (k * 2 ^ (23 - j))%Z, j. split.
  - replace (2 ^ 23)%Z with (2 ^ j * 2 ^ (23 - j))%Z by (rewrite <- Z.pow_add_r by lia; f_equal; lia).
    replace (2 ^ 24)%Z with (2 ^ Z.succ j * 2 ^ (23 - j))%Z by (rewrite <- Z.pow_add_r by lia; f_equal; lia).
    assert (0 < 2 ^ (23 - j))%Z by (apply Z.pow_pos_nonneg; lia). nia.
  - rewrite inject_Z_mult, <- p2_Z by lia. rewrite <- Qmult_assoc, <- p2_add.
    replace (23 - j + (j - 23))%Z with 0%Z by lia. change (p2 0) with 1. ring.
Qed.

(** A representable number rounds to itself. *)
Lemma rounds_self rm sign m v : F24 m -> rounds rm sign (rational m) v -> v == m.
Proof.
  intros Fm. assert (toward_zero (rational m) v -> v == m) as T.
  { intros (_ & L & B). cbn in L. specialize (B m Fm (Qle_refl m)). lra. }
  assert (away_from_zero (rational m) v -> v == m) as A.
  { intros (_ & L & B). cbn in L. specialize (B m Fm (Qle_refl m)). lra. }
  assert (nearest (rational m) v -> v == m) as N.
  { intros (_ & B). destruct (B m Fm) as [B1 B2]. unfold midpoint in *. cbn in B1, B2.
    destruct (Qlt_le_dec m v) as [H|H]; [specialize (B1 H); lra|].
    destruct (Qlt_le_dec v m) as [H'|H']; [specialize (B2 H'); lra | lra]. }
  unfold rounds. repeat case_match; tauto.
Qed.

Lemma int_rounded_int rm q n k : q == inject_Z k -> int_rounded rm q n -> n = k.
Proof.
  intros E. assert (Qfloor q = k) as Fl by (apply floor_is; lra). assert (Qceiling q = k) as Ce by (apply ceiling_is; lra).
  unfold int_rounded. rewrite Fl, Ce. case_match; [|case_match; [done|case_match; [done|]]].
  - intros [H1 H2]. destruct (Qlt_le_dec q 0); [apply H2; lra | by apply H1].
  - intros [H2 _]. apply Qabs_Qle_condition in H2.
    assert (inject_Z n < inject_Z (k + 1)) as A by (rewrite inject_Z_plus; change (inject_Z 1) with 1; lra).
    assert (inject_Z k < inject_Z (n + 1)) as B by (rewrite inject_Z_plus; change (inject_Z 1) with 1; lra).
    rewrite <- Zlt_Qlt in A, B. lia.
Qed.

Lemma finite_normal bits : is_u32 bits -> 0 < mag (f32_decode bits) -> normal bits.
Proof.
  intros Hb. unfold mag, f32_decode. unfold is_u32 in Hb.
  rewrite mod32, Z.mod_small by lia. cbv zeta.
  assert (0 <= (bits ≫ 23) .& 0xFF < 2 ^ 8)%Z as He by (apply (land_range _ 8); lia). unfold normal, is_u32.
  destruct (Z.eqb_spec ((bits ≫ 23) .& 0xFF) 0xFF); [destruct (_ =? 0)%Z; cbn; lra|].
  destruct (Z.eqb_spec ((bits ≫ 23) .& 0xFF) 0); [intros H; by apply Qlt_irrefl in H|]. intros _. lia.
Qed.

(** The float of an integer below 2^24 in magnitude is that integer. *)
Lemma exact_bits rm sign k r :
  is_bit sign -> (0 < k < 2 ^ 24)%Z -> is_u32 (fst r) -> correctly_rounded rm sign (rational (inject_Z k)) r ->
  normal (fst r) /\ value (fst r) == signed_by sign (inject_Z k) /\ snd r = 0%Z.
Proof.
  intros Hs Hk Hu (v & R & _ & _ & I). apply (rounds_self _ _ _ _ (F24_int k Hk)) in R.
  assert (1 <= inject_Z k) as K1 by (change 1 with (inject_Z 1); apply inject_le; lia).
  assert (inject_Z k < p2 24) as K2 by (rewrite p2_Z by lia; apply inject_lt; lia).
  pose proof (p2_lt 24 128 ltac:(lia)). pose proof (p2_le (-126) 0 ltac:(lia)) as P. change (p2 0) with 1 in P.
  destruct I as (S & M & _ & Fl); [lra | lra|]. cbn [hi lo rational] in Fl.
  split; [apply finite_normal; [done | lra]|]. split.
  - rewrite value_signed, S. unfold signed_by. destruct (sign =? 0)%Z; lra.
  - destruct Fl as [(_ & _ & ->)|[N _]]; [done|]. destruct N. lra.
Qed.

(** ** The conversions *)

(** Special operands: a NaN converts like the largest integer, an infinity like a
    number beyond the range of its sign, and a zero or subnormal to 0. *)
Lemma to_int_special rm a unsigned :
  let d := f32_decode a in
  (d_nan d = true -> f_cvt_to_int a rm unsigned = (int_hi unsigned, F_NV)) /\
  (d_nan d = false -> d_zero d = true -> f_cvt_to_int a rm unsigned = (0%Z, 0%Z)) /\
  (d_nan d = false -> d_zero d = false -> d_inf d = true ->
   f_cvt_to_int a rm unsigned =
   (((if truthy (d_sign d) then int_lo unsigned else int_hi unsigned) mod 2 ^ 32)%Z, F_NV)).
Proof.
  cbv zeta. unfold f_cvt_to_int. cbv zeta. split_and!.
  - intros ->. by destruct unsigned.
  - by intros -> ->.
  - intros -> -> ->. by destruct unsigned, (truthy _).
Qed.

(** A float that is an integer of the format converts to it. *)
Lemma to_int_exact rm r n unsigned :
  normal r -> value r == inject_Z n -> (int_lo unsigned <= n <= int_hi unsigned)%Z ->
  f_cvt_to_int r rm unsigned = ((n mod 2 ^ 32)%Z, 0%Z).
Proof.
  intros Hr E Hn. destruct (to_int_correct rm r unsigned Hr) as (k & R & ->).
  apply (int_rounded_int rm _ k n E) in R as ->. unfold convert_flags, saturate.
  rewrite Z.min_r, Z.max_r, Z.eqb_refl by lia. by rewrite (proj2 (Qeq_bool_iff _ _) E).
Qed.

Lemma word_value_mod unsigned w : is_u32 w -> (word_value unsigned w mod 2 ^ 32 = w)%Z.
Proof.
  unfold is_u32, word_value. intros H. destruct unsigned; [apply Z.mod_small; lia|].
  rewrite s32_signed, signed_mod by lia. apply Z.mod_small. lia.
Qed.

Lemma int_float_int rm rm' w unsigned :
  is_u32 w -> (Z.abs (word_value unsigned w) < 2 ^ 24)%Z ->
  snd (f_cvt_from_int w rm unsigned) = 0%Z /\
  f_cvt_to_int (fst (f_cvt_from_int w rm unsigned)) rm' unsigned = (w, 0%Z).
Proof.
  intros Hw Hs. pose proof (from_int_correct rm w unsigned Hw) as (Z0 & P & N).
  pose proof (f_cvt_from_int_u32 w rm unsigned) as U.
  assert (int_lo unsigned <= word_value unsigned w <= int_hi unsigned)%Z as Hr.
  { unfold int_lo, int_hi, word_value, is_u32 in *. destruct unsigned; pow_lits; lia. }
  pose proof (word_value_mod unsigned w Hw) as M. set (n := word_value unsigned w) in *.
  destruct (Z.lt_trichotomy n 0) as [Hn|[Hn|Hn]].
  - destruct (exact_bits rm 1 (- n) _ ltac:(by right) ltac:(lia) U (N Hn)) as (Nr & V & ->). split; [done|].
    rewrite (to_int_exact rm' _ n); [by rewrite M | done | | done]. rewrite V. unfold signed_by. cbn [Z.eqb].
    rewrite inject_Z_opp. ring.
  - rewrite (Z0 Hn). rewrite Hn, Z.mod_0_l in M by done. subst w. split; [done|]. by apply to_int_special.
  - destruct (exact_bits rm 0 n _ ltac:(by left) ltac:(lia) U (P Hn)) as (Nr & V & ->). split; [done|].
    rewrite (to_int_exact rm' _ n); [by rewrite M | done..].
Qed.

(** C10: conversions between floats and integers are correctly rounded.  For every
    operand in the normal range, rounding mode and signedness, [fcvt.w.s] and
    [fcvt.wu.s] round the exact value to an integer in the mode and return it,
    saturated to the format, with NV when it was out of range and otherwise NX
    exactly when it is not the value; [fcvt.s.w] and [fcvt.s.wu] round the exact
    integer; and an integer below 2^24 in magnitude comes back unchanged and
    without flags, whatever the two modes. *)
Theorem float_conversion_correct rm rm' a w unsigned :
  normal a -> is_u32 w ->
  (exists n, int_rounded rm (value a) n /\
     f_cvt_to_int a rm unsigned = ((saturate unsigned n mod 2 ^ 32)%Z, convert_flags unsigned (value a) n)) /\
  int_to_float rm (word_value unsigned w) (f_cvt_from_int w rm unsigned) /\
  ((Z.abs (word_value unsigned w) < 2 ^ 24)%Z ->
   snd (f_cvt_from_int w rm unsigned) = 0%Z /\
   f_cvt_to_int (fst (f_cvt_from_int w rm unsigned)) rm' unsigned = (w, 0%Z)).
Proof.
  intros Ha Hw. split; [by apply to_int_correct|]. split; [by apply from_int_correct|]. by apply int_float_int.
Qed.

(** 2.5, and -3 there and back. *)
Lemma float_conversion_correct_witness :
  f_cvt_to_int (fst (f_cvt_from_int 0xFFFFFFFD RM_RUP false)) RM_RTZ false = (0xFFFFFFFD%Z, 0%Z) /\
  exists n, int_rounded RM_RUP (value 0x40200000) n /\ n = 3%Z.
Proof.
  destruct (float_conversion_correct RM_RUP RM_RTZ 0x40200000 0xFFFFFFFD false) as ((n & R & _) & _ & T); [done | done|].
  split; [by apply T|]. exists n. split; [exact R|]. rewrite R. reflexivity.
Defined.

(** ** Comparisons *)

(** Not infinite and not a NaN. *)
Definition finite (bits : Z) : Prop := is_u32 bits /\ ((bits ≫ 23) .& 0xFF < 255)%Z.
(** The bits below the sign, read as a number. *)
Definition low31 (bits : Z) : Z := (bits .& 0x7FFFFFFF)%Z.

Inductive parts_spec (bits : Z) : Prop :=
  parts_intro sg ex fr : is_bit sg -> (0 <= ex < 255)%Z -> (0 <= fr < 2 ^ 23)%Z -> bits = pack sg ex fr ->
    d_sign (f32_decode bits) = sg -> d_nan (f32_decode bits) = false -> f32_is_zero_arith bits = (ex =? 0)%Z ->
    ((bits ≫ 31) .& 1)%Z = sg -> low31 bits = (ex * 2 ^ 23 + fr)%Z ->
    mag (f32_decode bits) == (if (ex =? 0)%Z then 0 else inject_Z (2 ^ 23 + fr) * p2 (ex - 127 - 23)) ->
    parts_spec bits.

Lemma finite_parts bits : finite bits -> parts_spec bits.
Proof.
  intros [Hb He]. unfold is_u32 in Hb. set (sg := ((bits ≫ 31) .& 1)%Z). set (fr := (bits .& 0x7FFFFF)%Z).
  set (ex := ((bits ≫ 23) .& 0xFF)%Z) in *.
  assert (Hsg : is_bit sg) by by apply bit_range.
  assert (Hfr : (0 <= fr < 2 ^ 23)%Z) by by apply (land_range bits 23).
  assert (Hex : (0 <= ex < 2 ^ 8)%Z) by by apply (land_range _ 8).
  assert (E : bits = pack sg ex fr) by (unfold pack, sg, ex, fr; fields).
  assert (low31 bits = (ex * 2 ^ 23 + fr)%Z) as L by (unfold low31, ex, fr; fields).
  destruct (Z.eqb_spec ex 0) as [Z0|N0].
  - assert (f32_decode bits = mkDecoded sg true false false false (Some (Qfrac_of_Z 0))) as D.
    { unfold f32_decode. rewrite mod32, Z.mod_small by lia. fold sg ex. by rewrite Z0. }
    apply (parts_intro _ sg ex fr); try done; try lia; rewrite ?D; try done. by rewrite Z0.
  - destruct (decode_pack sg ex fr Hsg ltac:(lia) Hfr) as (D1 & (N & I & Z1) & _ & D3).
    apply (parts_intro _ sg ex fr); rewrite <- ?E in *; try done; try lia.
    by destruct (Z.eqb_spec ex 0).
Qed.

(** The magnitudes of two numbers, not both zero, are ordered as their bits. *)
Lemma mag_mono a b :
  finite a -> finite b -> f32_is_zero_arith b = false -> (low31 a < low31 b)%Z ->
  mag (f32_decode a) < mag (f32_decode b).
Proof.
  intros Fa Fb. destruct (finite_parts a Fa) as [sa ea fa _ Ea Ra _ _ _ Za _ La ->].
  destruct (finite_parts b Fb) as [sb eb fb _ Eb Rb _ _ _ Zb _ Lb ->].
  rewrite Zb, La, Lb. intros N L. rewrite N. apply Z.eqb_neq in N.
  pose proof (binade (eb - 127) (2 ^ 23 + fb) ltac:(lia)) as [Bb _]. pose proof (p2_pos (eb - 127)).
  destruct (Z.eqb_spec ea 0); [lra|].
  destruct (Z.eq_dec ea eb) as [->|D].
  - apply Qmult_lt_r; [apply p2_pos|]. apply inject_lt. lia.
  - pose proof (binade (ea - 127) (2 ^ 23 + fa) ltac:(lia)) as [_ Ba].
    pose proof (p2_le (ea - 127 + 1) (eb - 127) ltac:(nia)). lra.
Qed.

Lemma mag_order a b :
  finite a -> finite b -> f32_is_zero_arith a && f32_is_zero_arith b = false ->
  ((low31 a < low31 b)%Z <-> mag (f32_decode a) < mag (f32_decode b)) /\
  (low31 a = low31 b <-> mag (f32_decode a) == mag (f32_decode b)).
Proof.
  intros Fa Fb Z. 
  assert (forall a b, finite a -> finite b -> f32_is_zero_arith a && f32_is_zero_arith b = false ->
    (low31 a < low31 b)%Z -> mag (f32_decode a) < mag (f32_decode b)) as S.
  { clear. intros a b Fa Fb Z L. apply mag_mono; try done.
    destruct (f32_is_zero_arith b) eqn:Zb; [|done]. rewrite andb_true_r in Z.
    destruct (finite_parts a Fa) as [sa ea fa _ Ea Ra _ _ _ Za _ La _].
    destruct (finite_parts b Fb) as [sb eb fb _ Eb Rb _ _ _ Zb' _ Lb _].
    rewrite Za in Z. rewrite Zb' in Zb. apply Z.eqb_neq in Z. apply Z.eqb_eq in Zb. lia. }
  assert (low31 a = low31 b -> mag (f32_decode a) == mag (f32_decode b)) as Q.
  { destruct (finite_parts a Fa) as [sa ea fa _ Ea Ra _ _ _ Za _ La ->].
    destruct (finite_parts b Fb) as [sb eb fb _ Eb Rb _ _ _ Zb _ Lb ->].
    rewrite La, Lb. intros E. assert (ea = eb) as -> by lia. assert (fa = fb) as -> by lia. reflexivity. }
  pose proof (S a b Fa Fb Z) as S1. rewrite andb_comm in Z. pose proof (S b a Fb Fa Z) as S2.
  split; split; try done.
  - intros H. destruct (Z.lt_trichotomy (low31 a) (low31 b)) as [|[E|E]]; [done | specialize (Q E); lra | specialize (S2 E); lra].
  - intros H. destruct (Z.lt_trichotomy (low31 a) (low31 b)) as [E|[E|E]]; [specialize (S1 E); lra | done | specialize (S2 E); lra].
Qed.

Lemma mag_zero a : finite a -> 0 <= mag (f32_decode a) /\ (f32_is_zero_arith a = true <-> mag (f32_decode a) == 0).
Proof.
  intros Fa. destruct (finite_parts a Fa) as [sg ex fr _ He Hf _ _ _ -> _ _ ->].
  destruct (Z.eqb_spec ex 0); [split; [lra|]; split; intros; done|].
  pose proof (p2_pos (ex - 127 - 23)). assert (0 < inject_Z (2 ^ 23 + fr)) by (change 0 with (inject_Z 0); apply inject_lt; lia).
  assert (0 < inject_Z (2 ^ 23 + fr) * p2 (ex - 127 - 23)) by nra. split; [lra|]. split; [done | intros; lra].
Qed.

Lemma bits_low31 a b :
  finite a -> finite b -> d_sign (f32_decode a) = d_sign (f32_decode b) -> a = b <-> low31 a = low31 b.
Proof.
  intros Fa Fb. destruct (finite_parts a Fa) as [sa ea fa _ Ha Ra Ea -> _ _ _ La _].
  destruct (finite_parts b Fb) as [sb eb fb _ Hb Rb Eb -> _ _ _ Lb _]. intros ->. rewrite La, Lb, Ea, Eb.
  unfold pack. lia.
Qed.

(** The comparison of bits is the comparison of values. *)
Lemma value_order a b :
  finite a -> finite b -> f32_is_zero_arith a && f32_is_zero_arith b = false ->
  (mag_lt (d_sign (f32_decode a)) (d_sign (f32_decode b)) a b = true <-> value a < value b) /\
  (a = b <-> value a == value b).
Proof.
  intros Fa Fb Z0. destruct (mag_order a b Fa Fb Z0) as [ML ME]. rewrite andb_comm in Z0.
  destruct (mag_order b a Fb Fa Z0) as [ML' _]. rewrite andb_comm in Z0.
  pose proof (mag_zero a Fa) as [Pa Qa]. pose proof (mag_zero b Fb) as [Pb Qb].
  pose proof (bits_low31 a b Fa Fb) as BL. rewrite !value_signed. unfold mag_lt.
  fold (low31 a) (low31 b).
  assert (~ (mag (f32_decode a) == 0 /\ mag (f32_decode b) == 0)) as NZ.
  { rewrite <- Qa, <- Qb. intros [Ea Eb]. by rewrite Ea, Eb in Z0. }
  set (ma := mag (f32_decode a)) in *. set (mb := mag (f32_decode b)) in *.
  destruct (d_sign_bit a) as [Sa|Sa], (d_sign_bit b) as [Sb|Sb]; rewrite Sa, Sb in *;
    unfold signed_by; cbn [Z.eqb Pos.eqb negb truthy].
  - rewrite Z.ltb_lt, BL by done. tauto.
  - split; [split; [done|]; intros; lra|]. split; [intros ->; congruence | intros; exfalso; apply NZ; split; lra].
  - split; [split; [intros _|done]|].
    + destruct (Qlt_le_dec (- ma) mb); [done|]. exfalso. apply NZ. split; lra.
    + split; [intros ->; congruence | intros; exfalso; apply NZ; split; lra].
  - rewrite Z.ltb_lt, BL by done. rewrite ML', ME. split; split; intros; lra.
Qed.

Lemma value_zero a : finite a -> f32_is_zero_arith a = true -> value a == 0.
Proof.
  intros Fa Hz. apply (mag_zero a Fa) in Hz. rewrite value_signed. unfold signed_by. case_match; lra.
Qed.

Definition Qlt_bool (p q : Q) : bool := negb (Qle_bool q p).
Lemma Qlt_bool_iff p q : Qlt_bool p q = true <-> p < q.
Proof.
  unfold Qlt_bool. rewrite negb_true_iff, <- not_true_iff_false, Qle_bool_iff.
  split; [apply Qnot_le_lt | intros; lra].
Qed.

Lemma cmp_correct a b :
  finite a -> finite b ->
  f_cmp a b 2 = (b2z (Qeq_bool (value a) (value b)), 0%Z) /\
  f_cmp a b 1 = (b2z (Qlt_bool (value a) (value b)), 0%Z) /\
  f_cmp a b 0 = (b2z (Qle_bool (value a) (value b)), 0%Z).
Proof.
  intros Fa Fb. unfold f_cmp. cbv zeta.
  destruct (finite_parts a Fa) as [_ _ _ _ _ _ _ _ Na _ _ _ _].
  destruct (finite_parts b Fb) as [_ _ _ _ _ _ _ _ Nb _ _ _ _]. rewrite Na, Nb. cbn [orb Z.eqb Pos.eqb].
  assert ((if f32_is_zero_arith a && f32_is_zero_arith b then true else (a =? b)%Z) = Qeq_bool (value a) (value b) /\
    (if f32_is_zero_arith a && f32_is_zero_arith b then false
     else mag_lt (d_sign (f32_decode a)) (d_sign (f32_decode b)) a b) = Qlt_bool (value a) (value b)) as [-> ->].
  { destruct (f32_is_zero_arith a && f32_is_zero_arith b) eqn:Z0.
    - apply andb_prop in Z0 as [Za Zb]. pose proof (value_zero a Fa Za). pose proof (value_zero b Fb Zb).
      split; symmetry; [apply Qeq_bool_iff; lra|]. apply not_true_iff_false. rewrite Qlt_bool_iff. lra.
    - destruct (value_order a b Fa Fb Z0) as [L E]. split; apply eq_bool_prop_intro;
        rewrite !Is_true_true, ?Qlt_bool_iff, ?Qeq_bool_iff; [by rewrite Z.eqb_eq | done]. }
  split_and!; try done. do 2 f_equal. apply eq_bool_prop_intro. rewrite !Is_true_true, orb_true_iff.
  rewrite Qlt_bool_iff, Qeq_bool_iff, Qle_bool_iff. split; [intros [|]; lra|]. intros.
  destruct (Qlt_le_dec (value a) (value b)); [by left | right; lra].
Qed.

(** Minimum and maximum are the two operands, the smaller one first; of two zeros
    the negative one is the smaller. *)
Lemma minmax_correct a b :
  finite a -> finite b ->
  exists lo hi, f_minmax a b 0 = (lo, 0%Z) /\ f_minmax a b 1 = (hi, 0%Z) /\
    ((lo = a /\ hi = b) \/ (lo = b /\ hi = a)) /\ value lo <= value hi /\
    (f32_is_zero_arith a && f32_is_zero_arith b = true -> (d_sign (f32_decode hi) <= d_sign (f32_decode lo))%Z).
Proof.
  intros Fa Fb. unfold f_minmax. cbv zeta. cbn [Z.eqb].
  destruct (finite_parts a Fa) as [sa _ _ Ba _ _ _ Sa Na _ Ta _ _].
  destruct (finite_parts b Fb) as [sb _ _ Bb _ _ _ Sb Nb _ Tb _ _]. rewrite Na, Nb, Ta, Tb. cbn [andb].
  destruct (f32_is_zero_arith a && f32_is_zero_arith b) eqn:Z0.
  - apply andb_prop in Z0 as [Za Zb]. rewrite Za, Zb. pose proof (value_zero a Fa Za). pose proof (value_zero b Fb Zb).
    cbn [andb]. destruct Ba as [-> | ->], Bb as [-> | ->]; cbn [truthy Z.eqb Pos.eqb negb andb]; eexists _, _;
      (split; [reflexivity|]); (split; [reflexivity|]); rewrite ?Sa, ?Sb; split_and!; try lra; tauto || lia.
  - destruct (value_order a b Fa Fb Z0) as [L _].
    destruct (mag_lt (d_sign (f32_decode a)) (d_sign (f32_decode b)) a b); eexists _, _;
      (split; [reflexivity|]); (split; [reflexivity|]); split_and!; try done; try tauto.
    + apply Qlt_le_weak. by apply L.
    + destruct (Qlt_le_dec (value a) (value b)) as [H|H]; [apply L in H; done | done].
Qed.
