(* ===== verification/Machine.v ===== *)
(** * The architectural state of the instruction-set simulator

    [src/sim/tools/iss.py], class [ISS]: the state [__init__] builds, the
    register-file write, the CSR file ([csr_read], [csr_write]), trap entry and
    return ([trap], [mret], [sret]) and the byte-wide data memory.  A method
    becomes a function from state to state; attribute assignment becomes a
    functional update of the corresponding field of the [ISS] record.  [self.csr],
    a Python dict, is a [gmap Z Z]. *)

From S2P Require Import Prelude Bits.
Open Scope Z_scope.

(** ** Constants *)

Definition CSR_MSTATUS := 0x300.
Definition CSR_MTVEC := 0x305.
Definition CSR_MSCRATCH := 0x340.
Definition CSR_MEPC := 0x341.
Definition CSR_MCAUSE := 0x342.
Definition MCAUSE_ILLEGAL_INSTRUCTION := 2.
Definition MCAUSE_BREAKPOINT := 3.
Definition MCAUSE_ECALL_FROM_M := 11.
Definition MCAUSE_INT_MACHINE_TIMER := 0x80000007.
Definition MCAUSE_INT_MACHINE_EXTERNAL := 0x8000000B.
Definition CSR_SSTATUS := 0x100.
Definition CSR_SIE := 0x104.
Definition CSR_STVEC := 0x105.
Definition CSR_SSCRATCH := 0x140.
Definition CSR_SEPC := 0x141.
Definition CSR_SCAUSE := 0x142.
Definition CSR_STVAL := 0x143.
Definition CSR_SIP := 0x144.
Definition CSR_SATP := 0x180.
Definition CSR_MIE := 0x304.
Definition CSR_MIP := 0x344.
Definition CSR_MTVAL := 0x343.
Definition CSR_MEDELEG := 0x302.
Definition CSR_MIDELEG := 0x303.
Definition MCAUSE_ECALL_FROM_U := 8.
Definition MCAUSE_ECALL_FROM_S := 9.
Definition MCAUSE_INSTRUCTION_PAGE_FAULT := 12.
Definition MCAUSE_LOAD_PAGE_FAULT := 13.
Definition MCAUSE_STORE_PAGE_FAULT := 15.
Definition PRIV_U := 0.
Definition PRIV_S := 1.
Definition PRIV_M := 3.
Definition MSTATUS_SIE_BIT := 1.
Definition MSTATUS_SPIE_BIT := 5.
Definition MSTATUS_SPP_BIT := 8.
Definition MSTATUS_MPP_LO := 11.
Definition MIE_SSIE_BIT := 1.
Definition MIE_STIE_BIT := 5.
Definition MIE_SEIE_BIT := 9.
Definition MIE_MSIE_BIT := 3.
Definition MSTATUS_UXL_LO := 32.
Definition MSTATUS_SXL_LO := 34.
Definition MXL_XLEN64 := 2.
Definition CSR_FFLAGS := 0x001.
Definition CSR_FRM := 0x002.
Definition CSR_FCSR := 0x003.
Definition RM_DYN := 7.

(** ** State *)

(** [pending_interrupt] is [None] or the pair of the dict's [after] and [cause]. *)
Record ISS : Type := mkISS {
  xlen : Z;
  regs : list Z;
  mem : list Z;
  mem_mask : Z;
  pc : Z;
  halted : bool;
  csr : gmap Z Z;
  priv_mode : Z;
  fregs : list Z;
  frm : Z;
  fflags : Z;
  pending_interrupt : option (Z * Z)
}.

Definition with_regs (r : list Z) (st : ISS) : ISS :=
  mkISS (xlen st) r (mem st) (mem_mask st) (pc st) (halted st) (csr st)
    (priv_mode st) (fregs st) (frm st) (fflags st) (pending_interrupt st).
Definition with_mem (m : list Z) (st : ISS) : ISS :=
  mkISS (xlen st) (regs st) m (mem_mask st) (pc st) (halted st) (csr st)
    (priv_mode st) (fregs st) (frm st) (fflags st) (pending_interrupt st).
Definition with_pc (p : Z) (st : ISS) : ISS :=
  mkISS (xlen st) (regs st) (mem st) (mem_mask st) p (halted st) (csr st)
    (priv_mode st) (fregs st) (frm st) (fflags st) (pending_interrupt st).
Definition with_csr (c : gmap Z Z) (st : ISS) : ISS :=
  mkISS (xlen st) (regs st) (mem st) (mem_mask st) (pc st) (halted st) c
    (priv_mode st) (fregs st) (frm st) (fflags st) (pending_interrupt st).
Definition with_priv (p : Z) (st : ISS) : ISS :=
  mkISS (xlen st) (regs st) (mem st) (mem_mask st) (pc st) (halted st) (csr st)
    p (fregs st) (frm st) (fflags st) (pending_interrupt st).
Definition with_fregs (r : list Z) (st : ISS) : ISS :=
  mkISS (xlen st) (regs st) (mem st) (mem_mask st) (pc st) (halted st) (csr st)
    (priv_mode st) r (frm st) (fflags st) (pending_interrupt st).
Definition with_frm (r : Z) (st : ISS) : ISS :=
  mkISS (xlen st) (regs st) (mem st) (mem_mask st) (pc st) (halted st) (csr st)
    (priv_mode st) (fregs st) r (fflags st) (pending_interrupt st).
Definition with_fflags (f : Z) (st : ISS) : ISS :=
  mkISS (xlen st) (regs st) (mem st) (mem_mask st) (pc st) (halted st) (csr st)
    (priv_mode st) (fregs st) (frm st) f (pending_interrupt st).
Definition with_pending (p : option (Z * Z)) (st : ISS) : ISS :=
  mkISS (xlen st) (regs st) (mem st) (mem_mask st) (pc st) (halted st) (csr st)
    (priv_mode st) (fregs st) (frm st) (fflags st) p.

(** [self.csr[k]] and [self.csr.get(k, 0)]: every key the code subscripts with is
    put in the dict by [__init__] and never removed ([wf_csr_keys] below), so the
    two agree. *)
Definition csr_at (st : ISS) (k : Z) : Z := default 0 (csr st !! k).
Definition set_csr (k v : Z) (st : ISS) : ISS := with_csr (<[k := v]> (csr st)) st.

Definition csr_init_keys : list Z :=
  [CSR_MSTATUS; CSR_MTVEC; CSR_MSCRATCH; CSR_MEPC; CSR_MCAUSE;
   CSR_SSCRATCH; CSR_SEPC; CSR_SCAUSE; CSR_STVAL; CSR_MTVAL;
   CSR_STVEC; CSR_SATP; CSR_MIDELEG; CSR_MEDELEG; CSR_MIE; CSR_MIP].

Definition init (mem_size xlen : Z) : ISS :=
  mkISS xlen
    (zset (replicate 32 0) 2 mem_size)
    (replicate (Z.to_nat mem_size) 0)
    (mem_size - 1)
    0 false
    (list_to_map ((fun k => (k, 0)) <$> csr_init_keys))
    PRIV_M
    (replicate 32 0) 0 0 None.

Definition schedule_interrupt (after_steps cause : Z) (st : ISS) : ISS :=
  with_pending (Some (after_steps, cause)) st.

(** ** Registers *)

Definition sxlen (st : ISS) (v : Z) : Z := sXLEN v (xlen st).
Definition uxlen (st : ISS) (v : Z) : Z := uXLEN v (xlen st).

Definition wr (rd val : Z) (st : ISS) : ISS :=
  if rd =? 0 then st else with_regs (zset (regs st) rd (uxlen st val)) st.

Definition set_freg (rd v : Z) (st : ISS) : ISS :=
  with_fregs (zset (fregs st) rd v) st.

Definition set_fflags (flags : Z) (st : ISS) : ISS :=
  with_fflags ((fflags st .| flags) .& 0x1F) st.

Definition resolve_rm (st : ISS) (rm_field : Z) : Z :=
  if rm_field =? RM_DYN then frm st else rm_field.

(** ** CSR file *)

(** The bits of [mstatus] a write through [sstatus] can touch, and the same for
    [sie]/[sip] onto [mie]/[mip]. *)
Definition SSTATUS_MASK : Z :=
  (1 ≪ MSTATUS_SIE_BIT) .| (1 ≪ MSTATUS_SPIE_BIT) .| (1 ≪ MSTATUS_SPP_BIT).
Definition SIE_MASK : Z :=
  (1 ≪ MIE_SSIE_BIT) .| (1 ≪ MIE_STIE_BIT) .| (1 ≪ MIE_SEIE_BIT).
Definition MSTATUS_MASK : Z :=
  (1 ≪ 3) .| (1 ≪ 7) .| (1 ≪ MSTATUS_SIE_BIT) .| (1 ≪ MSTATUS_SPIE_BIT) .|
  (1 ≪ MSTATUS_SPP_BIT) .| (3 ≪ MSTATUS_MPP_LO).
Definition MIE_MASK : Z :=
  (1 ≪ MIE_MSIE_BIT) .| (1 ≪ 7) .| (1 ≪ 11) .|
  (1 ≪ MIE_SSIE_BIT) .| (1 ≪ MIE_STIE_BIT) .| (1 ≪ MIE_SEIE_BIT).
Definition MEDELEG_MASK : Z :=
  (1 ≪ 2) .| (1 ≪ 3) .| (1 ≪ 8) .| (1 ≪ 9) .| (1 ≪ 11) .| (1 ≪ 12) .| (1 ≪ 13) .| (1 ≪ 15).
Definition MIDELEG_MASK : Z :=
  (1 ≪ MIE_SSIE_BIT) .| (1 ≪ MIE_STIE_BIT) .| (1 ≪ MIE_MSIE_BIT) .|
  (1 ≪ 7) .| (1 ≪ MIE_SEIE_BIT) .| (1 ≪ 11).

Definition csr_read (st : ISS) (addr : Z) : Z :=
  if addr =? CSR_FFLAGS then fflags st .& 0x1F
  else if addr =? CSR_FRM then frm st .& 0x7
  else if addr =? CSR_FCSR then ((frm st .& 0x7) ≪ 5) .| (fflags st .& 0x1F)
  else if addr =? CSR_SSTATUS then
    let m := csr_at st CSR_MSTATUS in
    (((m ≫ MSTATUS_SIE_BIT) .& 1) ≪ MSTATUS_SIE_BIT) .|
    (((m ≫ MSTATUS_SPIE_BIT) .& 1) ≪ MSTATUS_SPIE_BIT) .|
    (((m ≫ MSTATUS_SPP_BIT) .& 1) ≪ MSTATUS_SPP_BIT)
  else if addr =? CSR_SIE then
    let e := csr_at st CSR_MIE in
    (((e ≫ MIE_SSIE_BIT) .& 1) ≪ MIE_SSIE_BIT) .|
    (((e ≫ MIE_STIE_BIT) .& 1) ≪ MIE_STIE_BIT) .|
    (((e ≫ MIE_SEIE_BIT) .& 1) ≪ MIE_SEIE_BIT)
  else if addr =? CSR_SIP then
    let p := csr_at st CSR_MIP in
    (((p ≫ MIE_SSIE_BIT) .& 1) ≪ MIE_SSIE_BIT) .|
    (((p ≫ MIE_STIE_BIT) .& 1) ≪ MIE_STIE_BIT) .|
    (((p ≫ MIE_SEIE_BIT) .& 1) ≪ MIE_SEIE_BIT)
  else if (addr =? CSR_MSTATUS) && (xlen st =? 64) then
    csr_at st addr .| (MXL_XLEN64 ≪ MSTATUS_UXL_LO) .| (MXL_XLEN64 ≪ MSTATUS_SXL_LO)
  else csr_at st addr.

(** The final [if addr in self.csr: self.csr[addr] = u32(val)]. *)
Definition csr_store (addr val : Z) (st : ISS) : ISS :=
  match csr st !! addr with
  | Some _ => set_csr addr (u32 val) st
  | None => st
  end.

Definition csr_write (addr val : Z) (st : ISS) : ISS :=
  if addr =? CSR_FFLAGS then with_fflags (val .& 0x1F) st
  else if addr =? CSR_FRM then with_frm (val .& 0x7) st
  else if addr =? CSR_FCSR then
    with_fflags (val .& 0x1F) (with_frm ((val ≫ 5) .& 0x7) st)
  else if addr =? CSR_MSTATUS then csr_store addr (val .& MSTATUS_MASK) st
  else if addr =? CSR_SSTATUS then
    let keep := csr_at st CSR_MSTATUS .& Z.lnot SSTATUS_MASK in
    let new := val .& SSTATUS_MASK in
    set_csr CSR_MSTATUS (u32 (keep .| new)) st
  else if addr =? CSR_MIE then csr_store addr (val .& MIE_MASK) st
  else if addr =? CSR_SIE then
    let keep := csr_at st CSR_MIE .& Z.lnot SIE_MASK in
    let new := val .& SIE_MASK in
    set_csr CSR_MIE (u32 (keep .| new)) st
  else if (addr =? CSR_MIP) || (addr =? CSR_SIP) then
    set_csr CSR_MIP (u32 (val .& SIE_MASK)) st
  else if addr =? CSR_MEDELEG then csr_store addr (val .& MEDELEG_MASK) st
  else if addr =? CSR_MIDELEG then csr_store addr (val .& MIDELEG_MASK) st
  else csr_store addr val st.

(** ** Trap entry and return *)

Definition trap_to_s (st : ISS) (cause : Z) : bool :=
  let is_interrupt := truthy (cause .& 0x80000000) in
  let low_cause := cause .& 0x1F in
  let deleg := if is_interrupt then csr_at st CSR_MIDELEG else csr_at st CSR_MEDELEG in
  negb (priv_mode st =? PRIV_M) && truthy ((deleg ≫ low_cause) .& 1).

Definition trap (cause tval : Z) (st : ISS) : ISS :=
  let mcause_val := u32 cause in
  let m := csr_at st CSR_MSTATUS in
  if trap_to_s st cause then
    let st1 := set_csr CSR_STVAL (u32 tval)
                 (set_csr CSR_SCAUSE mcause_val (set_csr CSR_SEPC (pc st) st)) in
    let sie := (m ≫ MSTATUS_SIE_BIT) .& 1 in
    let m1 := m .& Z.lnot SSTATUS_MASK in
    let m2 := m1 .| ((sie ≪ MSTATUS_SPIE_BIT) .|
                     ((priv_mode st .& 1) ≪ MSTATUS_SPP_BIT)) in
    let st2 := with_priv PRIV_S (set_csr CSR_MSTATUS (u32 m2) st1) in
    with_pc (csr_at st2 CSR_STVEC) st2
  else
    let st1 := set_csr CSR_MTVAL (u32 tval)
                 (set_csr CSR_MCAUSE mcause_val (set_csr CSR_MEPC (pc st) st)) in
    let mie := (m ≫ 3) .& 1 in
    let m1 := m .& Z.lnot ((1 ≪ 3) .| (1 ≪ 7) .| (3 ≪ MSTATUS_MPP_LO)) in
    let m2 := m1 .| ((mie ≪ 7) .| (priv_mode st ≪ MSTATUS_MPP_LO)) in
    let st2 := with_priv PRIV_M (set_csr CSR_MSTATUS (u32 m2) st1) in
    with_pc (csr_at st2 CSR_MTVEC) st2.

Definition mret (st : ISS) : ISS :=
  let m := csr_at st CSR_MSTATUS in
  let mpie := (m ≫ 7) .& 1 in
  let mpp := (m ≫ MSTATUS_MPP_LO) .& 3 in
  let m1 := m .& Z.lnot ((1 ≪ 3) .| (1 ≪ 7) .| (3 ≪ MSTATUS_MPP_LO)) in
  let m2 := m1 .| ((mpie ≪ 3) .| (1 ≪ 7) .| (PRIV_U ≪ MSTATUS_MPP_LO)) in
  let st1 := with_priv mpp (set_csr CSR_MSTATUS (u32 m2) st) in
  with_pc (csr_at st1 CSR_MEPC) st1.

Definition sret (st : ISS) : ISS :=
  let m := csr_at st CSR_MSTATUS in
  let spie := (m ≫ MSTATUS_SPIE_BIT) .& 1 in
  let spp := (m ≫ MSTATUS_SPP_BIT) .& 1 in
  let m1 := m .& Z.lnot SSTATUS_MASK in
  let m2 := m1 .| ((spie ≪ MSTATUS_SIE_BIT) .| (1 ≪ MSTATUS_SPIE_BIT)) in
  let st1 := with_priv spp (set_csr CSR_MSTATUS (u32 m2) st) in
  with_pc (csr_at st1 CSR_SEPC) st1.

(** ** Data memory *)

Definition MMIO_BASE := 0x10000000.

Definition load_mem_byte (st : ISS) (addr : Z) : Z :=
  if MMIO_BASE <=? addr then 0 else zget (mem st) (addr .& mem_mask st).

Definition store_mem_byte (addr val : Z) (st : ISS) : ISS :=
  if MMIO_BASE <=? addr then st
  else with_mem (zset (mem st) (addr .& mem_mask st) (val .& 0xFF)) st.

(** ** Well-formed states *)

(** What every reachable state satisfies: x0 is zero, each register, byte, CSR
    and flag field is within its width.  [mepc] and [sepc] receive the program
    counter, which sequential execution does not wrap; the other CSRs stay
    within 32 bits. *)
Record wf (st : ISS) : Prop := {
  wf_xlen : xlen st = 32 \/ xlen st = 64;
  wf_regs_len : length (regs st) = 32%nat;
  wf_x0 : zget (regs st) 0 = 0;
  wf_regs : Forall (fun v => 0 <= v < 2 ^ xlen st) (regs st);
  wf_mem_len : 0 < Z.of_nat (length (mem st));
  wf_mem_mask : mem_mask st = Z.of_nat (length (mem st)) - 1;
  wf_mem : Forall is_byte (mem st);
  wf_pc : 0 <= pc st;
  wf_csr_keys : forall k, is_Some (csr st !! k) <-> k ∈ csr_init_keys;
  wf_csr : forall k v, csr st !! k = Some v ->
    0 <= v /\ (k <> CSR_MEPC -> k <> CSR_SEPC -> v < 2 ^ 32);
  wf_priv : 0 <= priv_mode st <= 3;
  wf_fregs_len : length (fregs st) = 32%nat;
  wf_fregs : Forall is_u32 (fregs st);
  wf_frm : 0 <= frm st < 8;
  wf_fflags : 0 <= fflags st < 32
}.

Create HintDb wf.

Lemma wf_xlen_pos st : wf st -> 0 < xlen st.
Proof. intros H. destruct (wf_xlen _ H); lia. Qed.

Lemma uxlen_range st v : wf st -> 0 <= uxlen st v < 2 ^ xlen st.
Proof. intros H. apply uXLEN_range. pose proof (wf_xlen_pos _ H). lia. Qed.

Lemma uxlen_id st v : wf st -> 0 <= v < 2 ^ xlen st -> uxlen st v = v.
Proof. intros H. apply uXLEN_id. pose proof (wf_xlen_pos _ H). lia. Qed.

Lemma pow_xlen_32 st : wf st -> 2 ^ 32 <= 2 ^ xlen st.
Proof. intros H. destruct (wf_xlen _ H) as [-> | ->]; lia. Qed.

Lemma csr_at_nonneg st k : wf st -> 0 <= csr_at st k.
Proof.
  intros H. unfold csr_at. destruct (csr st !! k) eqn:E; [|done].
  apply (wf_csr _ H k), E.
Qed.

Lemma csr_at_u32 st k :
  wf st -> k <> CSR_MEPC -> k <> CSR_SEPC -> is_u32 (csr_at st k).
Proof.
  intros H ? ?. unfold csr_at, is_u32. destruct (csr st !! k) eqn:E; [|done].
  destruct (wf_csr _ H k _ E). simpl. auto.
Qed.

(** *** The updates preserve well-formedness *)

Lemma wf_with_pc st p : 0 <= p -> wf st -> wf (with_pc p st).
Proof. intros ? []; constructor; done. Qed.

Lemma wf_with_priv st p : 0 <= p <= 3 -> wf st -> wf (with_priv p st).
Proof. intros ? []; constructor; done. Qed.

Lemma wf_with_frm st r : 0 <= r < 8 -> wf st -> wf (with_frm r st).
Proof. intros ? []; constructor; done. Qed.

Lemma wf_with_fflags st f : 0 <= f < 32 -> wf st -> wf (with_fflags f st).
Proof. intros ? []; constructor; done. Qed.

Lemma wf_with_pending st p : wf st -> wf (with_pending p st).
Proof. intros []; constructor; done. Qed.

Lemma wf_set_csr st k v :
  k ∈ csr_init_keys -> 0 <= v -> (k <> CSR_MEPC -> k <> CSR_SEPC -> v < 2 ^ 32) ->
  wf st -> wf (set_csr k v st).
Proof.
  intros Hk Hv Hv' []; constructor; try done; intros k'; simpl.
  - rewrite lookup_insert_is_Some, <- wf_csr_keys0.
    destruct (decide (k = k')) as [<-|]; [|tauto].
    split; [intros _; by apply wf_csr_keys0 | auto].
  - intros v' [[<- <-]|[? E]]%lookup_insert_Some; [done|]. by apply wf_csr0 in E.
Qed.

Lemma wf_wr st rd v : 0 <= rd < 32 -> wf st -> wf (wr rd v st).
Proof.
  intros Hrd Hwf. unfold wr. destruct (Z.eqb_spec rd 0); [done|].
  pose proof (uxlen_range st v Hwf). destruct Hwf; constructor; try done; simpl.
  - by rewrite length_zset.
  - by rewrite zget_zset_ne by lia.
  - by apply zset_Forall.
Qed.

Lemma wf_set_freg st rd v : is_u32 v -> wf st -> wf (set_freg rd v st).
Proof.
  intros Hv []; constructor; try done; simpl.
  - by rewrite length_zset.
  - by apply zset_Forall.
Qed.

Lemma wf_set_fflags st f : wf st -> wf (set_fflags f st).
Proof. apply wf_with_fflags, (land_range _ 5). done. Qed.

(** The index a data access uses is in range for any memory size. *)
Lemma mem_index_range st addr :
  wf st -> 0 <= addr .& mem_mask st < Z.of_nat (length (mem st)).
Proof.
  intros H. rewrite (wf_mem_mask _ H). pose proof (wf_mem_len _ H).
  set (n := Z.of_nat (length (mem st))) in *.
  assert (0 <= addr .& (n - 1)) by (apply Z.land_nonneg; lia).
  split; [done|]. destruct (Z.eq_dec (addr .& (n - 1)) 0); [lia|].
  enough (addr .& (n - 1) <= n - 1) by lia.
  pose proof (Z.ldiff_ones_r_low (n - 1) 0).
  assert (E : n - 1 = (addr .& (n - 1)) + Z.ldiff (n - 1) addr).
  { rewrite Z.add_nocarry_lxor.
    - apply Z.bits_inj'. intros i ?. rewrite Z.lxor_spec, Z.land_spec, Z.ldiff_spec.
      destruct (Z.testbit addr i), (Z.testbit (n - 1) i); done.
    - apply Z.bits_inj'. intros i ?.
      rewrite Z.land_spec, Z.land_spec, Z.ldiff_spec, Z.testbit_0_l.
      destruct (Z.testbit addr i), (Z.testbit (n - 1) i); done. }
  assert (0 <= Z.ldiff (n - 1) addr) by (apply Z.ldiff_nonneg; lia). lia.
Qed.

Lemma load_mem_byte_range st addr : wf st -> is_byte (load_mem_byte st addr).
Proof.
  intros H. unfold load_mem_byte. destruct (_ <=? _); [done|].
  apply zget_Forall; [done | apply (wf_mem _ H)].
Qed.

Lemma wf_store_mem_byte st addr v : wf st -> wf (store_mem_byte addr v st).
Proof.
  intros Hwf. unfold store_mem_byte. destruct (_ <=? _); [done|].
  pose proof (land_range v 8 ltac:(lia)) as Hv.
  destruct Hwf; constructor; try done; simpl.
  - by rewrite length_zset.
  - by rewrite length_zset.
  - by apply zset_Forall.
Qed.

Lemma csr_key (k : Z) : bool_decide (k ∈ csr_init_keys) = true -> k ∈ csr_init_keys.
Proof. apply bool_decide_eq_true_1. Qed.

(** Writing a 32-bit value to one of the CSRs of [__init__]. *)
Lemma wf_set_csr_u32 st k v :
  bool_decide (k ∈ csr_init_keys) = true -> wf st -> wf (set_csr k (u32 v) st).
Proof.
  intros Hk. pose proof (u32_range v). apply wf_set_csr; [by apply csr_key| |]; lia.
Qed.

Lemma wf_set_csr_epc st k v :
  bool_decide (k ∈ [CSR_MEPC; CSR_SEPC]) = true -> 0 <= v -> wf st -> wf (set_csr k v st).
Proof.
  intros Hk%bool_decide_eq_true_1 Hv. apply wf_set_csr; [|done|].
  - apply csr_key. apply elem_of_cons in Hk as [->|Hk%list_elem_of_singleton];
      [|subst]; reflexivity.
  - intros. by apply elem_of_cons in Hk as [|?%list_elem_of_singleton].
Qed.

#[export] Hint Resolve wf_with_pc wf_with_priv wf_with_frm wf_with_fflags wf_with_pending
  wf_set_csr_u32 wf_set_csr_epc wf_wr wf_set_freg wf_set_fflags wf_store_mem_byte
  csr_at_nonneg : wf.

Lemma wf_csr_store st addr v : wf st -> wf (csr_store addr v st).
Proof.
  intros H. unfold csr_store. destruct (csr st !! addr) eqn:E; [|done].
  apply wf_set_csr_u32; [|done]. apply bool_decide_eq_true_2.
  apply (wf_csr_keys _ H). eauto.
Qed.

#[export] Hint Resolve wf_csr_store : wf.

Lemma wf_csr_write st addr v : wf st -> wf (csr_write addr v st).
Proof.
  intros H. unfold csr_write.
  pose proof (land_range v 5 ltac:(lia)). pose proof (land_range v 3 ltac:(lia)).
  pose proof (land_range (v ≫ 5) 3 ltac:(lia)).
  repeat (case_match; [by eauto with wf|]). by eauto with wf.
Qed.

Lemma wf_trap st cause tval : wf st -> wf (trap cause tval st).
Proof.
  intros H. unfold trap. pose proof (wf_pc _ H).
  destruct (trap_to_s st cause); cbv zeta; apply wf_with_pc; auto 10 with wf.
  - apply csr_at_nonneg. apply wf_with_priv; [done|]. auto 10 with wf.
  - apply wf_with_priv; [done|]. auto 10 with wf.
  - apply csr_at_nonneg. apply wf_with_priv; [done|]. auto 10 with wf.
  - apply wf_with_priv; [done|]. auto 10 with wf.
Qed.

Lemma wf_mret st : wf st -> wf (mret st).
Proof.
  intros H. unfold mret. cbv zeta.
  assert (0 <= (csr_at st CSR_MSTATUS ≫ MSTATUS_MPP_LO) .& 3 < 4) by by apply (land_range _ 2).
  apply wf_with_pc; [apply csr_at_nonneg|]; (apply wf_with_priv; [lia | auto with wf]).
Qed.

Lemma wf_sret st : wf st -> wf (sret st).
Proof.
  intros H. unfold sret. cbv zeta.
  assert (0 <= (csr_at st CSR_MSTATUS ≫ MSTATUS_SPP_BIT) .& 1 < 2) by by apply (land_range _ 1).
  apply wf_with_pc; [apply csr_at_nonneg|]; (apply wf_with_priv; [lia | auto with wf]).
Qed.

#[export] Hint Resolve wf_csr_write wf_trap wf_mret wf_sret : wf.

Lemma csr_init_lookup k :
  (list_to_map ((fun k => (k, 0)) <$> csr_init_keys) : gmap Z Z) !! k =
  if decide (k ∈ csr_init_keys) then Some 0 else None.
Proof.
  destruct (decide _) as [Hk|Hk].
  - apply elem_of_list_to_map_1.
    + refine (bool_decide_eq_true_1 _ _). reflexivity.
    + by apply list_elem_of_fmap_2 with (f := fun k => (k, 0)).
  - apply not_elem_of_list_to_map_1. rewrite <- list_fmap_compose.
    unfold compose. simpl fst. by rewrite list_fmap_id.
Qed.

Lemma wf_init mem_size xl :
  xl = 32 \/ xl = 64 -> 0 < mem_size < 2 ^ xl -> wf (init mem_size xl).
Proof.
  intros Hxl Hm. assert (0 < 2 ^ xl) by (apply pow2_pos; lia).
  constructor; unfold init;
    cbn [xlen regs mem mem_mask pc csr priv_mode fregs frm fflags]; try done.
  - apply zset_Forall; [lia|]. apply Forall_replicate. lia.
  - rewrite length_replicate. lia.
  - rewrite length_replicate. lia.
  - apply Forall_replicate. done.
  - intros k. rewrite csr_init_lookup. by case_decide.
  - intros k v. rewrite csr_init_lookup. case_decide; [|done]. by intros [= <-].
  - apply Forall_replicate. done.
Qed.
