(* ===== verification/Mmu.v ===== *)
(** * Address translation

    [ISS._read_pte], [_pte_perm_ok], [translate], [_translate_sv32],
    [_read_pte64] and [_translate_sv39] of [src/sim/tools/iss.py].  A
    translation returns the physical address and the unchanged state, or [None]
    and the state after the page-fault trap the Python code enters before it
    returns [None]. *)

From S2P Require Import Prelude Bits Machine.
Open Scope Z_scope.

Definition PTE_V_BIT := 0.
Definition PTE_R_BIT := 1.
Definition PTE_W_BIT := 2.
Definition PTE_X_BIT := 3.
Definition PTE_U_BIT := 4.
Definition SATP_MODE_BIT := 31.
Definition SATP64_MODE_LO := 60.
Definition SATP_MODE_SV39 := 8.

(** The [access] argument: ["fetch"], ["load"] or ["store"]. *)
Inductive access : Type := Fetch | Load | Store.

#[global] Instance access_eq_dec : EqDecision access.
Proof. solve_decision. Defined.

Definition fault_cause (a : access) : Z :=
  match a with
  | Fetch => MCAUSE_INSTRUCTION_PAGE_FAULT
  | Load => MCAUSE_LOAD_PAGE_FAULT
  | Store => MCAUSE_STORE_PAGE_FAULT
  end.

Definition access_bit (a : access) : Z :=
  match a with Fetch => PTE_X_BIT | Store => PTE_W_BIT | Load => PTE_R_BIT end.

Definition read_pte (st : ISS) (addr : Z) : Z :=
  let addr := addr .& 0xFFFFFFFF in
  load_mem_byte st addr .| (load_mem_byte st (addr + 1) ≪ 8) .|
  (load_mem_byte st (addr + 2) ≪ 16) .| (load_mem_byte st (addr + 3) ≪ 24).

(** [for i in range(n): val |= self.load_mem_byte(addr + i) << (8 * i)] *)
Definition load_le (st : ISS) (addr : Z) (n : nat) : Z :=
  foldl (fun val i => val .| (load_mem_byte st (addr + i) ≪ (8 * i))) 0 (seqZ 0 (Z.of_nat n)).

Definition read_pte64 (st : ISS) (addr : Z) : Z :=
  let addr := addr .& 0xFFFFFFFF in load_le st addr 8.

Definition pte_perm_ok (st : ISS) (pte : Z) (a : access) : bool :=
  if negb (truthy ((pte ≫ access_bit a) .& 1)) then false
  else
    let priv_is_u := priv_mode st =? PRIV_U in
    let pte_u := (pte ≫ PTE_U_BIT) .& 1 in
    if priv_is_u then truthy pte_u else negb (truthy pte_u).

Definition pte_valid (pte : Z) : bool := truthy ((pte ≫ PTE_V_BIT) .& 1).
Definition pte_leaf (pte : Z) : bool :=
  truthy ((pte ≫ PTE_R_BIT) .& 1) || truthy ((pte ≫ PTE_W_BIT) .& 1) ||
  truthy ((pte ≫ PTE_X_BIT) .& 1).

Definition page_fault (vaddr : Z) (a : access) (st : ISS) : option Z * ISS :=
  (None, trap (fault_cause a) vaddr st).

Definition translate_sv32 (vaddr : Z) (a : access) (satp : Z) (st : ISS) : option Z * ISS :=
  let vaddr := u32 vaddr in
  let vpn1 := (vaddr ≫ 22) .& 0x3FF in
  let vpn0 := (vaddr ≫ 12) .& 0x3FF in
  let offset := vaddr .& 0xFFF in
  let satp_ppn20 := satp .& 0xFFFFF in
  let fault := page_fault vaddr a st in
  let l1_addr := (satp_ppn20 ≪ 12) .| (vpn1 ≪ 2) in
  let pte1 := read_pte st l1_addr in
  if negb (pte_valid pte1) then fault
  else if pte_leaf pte1 then
    let ppn20 := (pte1 ≫ 10) .& 0xFFFFF in
    if truthy (ppn20 .& 0x3FF) then fault
    else if negb (pte_perm_ok st pte1 a) then fault
    else
      let result_ppn20 := ((ppn20 ≫ 10) ≪ 10) .| vpn0 in
      (Some (u32 ((result_ppn20 ≪ 12) .| offset)), st)
  else
    let l0_addr := (((pte1 ≫ 10) .& 0xFFFFF) ≪ 12) .| (vpn0 ≪ 2) in
    let pte0 := read_pte st l0_addr in
    if negb (pte_valid pte0) then fault
    else if negb (pte_leaf pte0) then fault
    else if negb (pte_perm_ok st pte0 a) then fault
    else
      let ppn20 := (pte0 ≫ 10) .& 0xFFFFF in
      (Some (u32 ((ppn20 ≪ 12) .| offset)), st).

Definition translate_sv39 (vaddr : Z) (a : access) (satp : Z) (st : ISS) : option Z * ISS :=
  let vpn2 := (vaddr ≫ 30) .& 0x1FF in
  let vpn1 := (vaddr ≫ 21) .& 0x1FF in
  let vpn0 := (vaddr ≫ 12) .& 0x1FF in
  let offset := vaddr .& 0xFFF in
  let satp_ppn20 := satp .& 0xFFFFF in
  let fault := page_fault vaddr a st in
  let l2_addr := (satp_ppn20 ≪ 12) .| (vpn2 ≪ 3) in
  let pte2 := read_pte64 st l2_addr in
  if negb (pte_valid pte2) then fault
  else if pte_leaf pte2 then
    let pte_ppn20 := (pte2 ≫ 10) .& 0xFFFFF in
    if truthy (pte_ppn20 .& 0x3FFFF) then fault
    else if negb (pte_perm_ok st pte2 a) then fault
    else
      let result_ppn20 := ((pte_ppn20 ≫ 18) ≪ 18) .| (vpn1 ≪ 9) .| vpn0 in
      (Some (uxlen st ((result_ppn20 ≪ 12) .| offset)), st)
  else
    let l1_addr := (((pte2 ≫ 10) .& 0xFFFFF) ≪ 12) .| (vpn1 ≪ 3) in
    let pte1 := read_pte64 st l1_addr in
    if negb (pte_valid pte1) then fault
    else if pte_leaf pte1 then
      let pte_ppn20 := (pte1 ≫ 10) .& 0xFFFFF in
      if truthy (pte_ppn20 .& 0x1FF) then fault
      else if negb (pte_perm_ok st pte1 a) then fault
      else
        let result_ppn20 := ((pte_ppn20 ≫ 9) ≪ 9) .| vpn0 in
        (Some (uxlen st ((result_ppn20 ≪ 12) .| offset)), st)
    else
      let l0_addr := (((pte1 ≫ 10) .& 0xFFFFF) ≪ 12) .| (vpn0 ≪ 3) in
      let pte0 := read_pte64 st l0_addr in
      if negb (pte_valid pte0) then fault
      else if negb (pte_leaf pte0) then fault
      else if negb (pte_perm_ok st pte0 a) then fault
      else
        let ppn20 := (pte0 ≫ 10) .& 0xFFFFF in
        (Some (uxlen st ((ppn20 ≪ 12) .| offset)), st).

Definition translate (vaddr : Z) (a : access) (st : ISS) : option Z * ISS :=
  let satp := csr_at st CSR_SATP in
  if priv_mode st =? PRIV_M then (Some (uxlen st vaddr), st)
  else if xlen st =? 32 then
    if negb (truthy ((satp ≫ SATP_MODE_BIT) .& 1)) then (Some (uxlen st vaddr), st)
    else translate_sv32 vaddr a satp st
  else
    if negb (((satp ≫ SATP64_MODE_LO) .& 0xF) =? SATP_MODE_SV39)
    then (Some (uxlen st vaddr), st)
    else translate_sv39 vaddr a satp st.

(** ** What a translation can do to the state *)

(** A translation leaves the state alone and yields an address, or yields none
    and enters the page-fault trap. *)
Lemma translate_cases vaddr a st :
  (exists pa, translate vaddr a st = (Some pa, st)) \/
  (exists v, translate vaddr a st = (None, trap (fault_cause a) v st)).
Proof.
  unfold translate, translate_sv32, translate_sv39, page_fault. cbv zeta.
  repeat (case_match; try (by left; eexists; reflexivity); try (by right; eexists; reflexivity)).
Qed.

Lemma wf_translate vaddr a st r st' :
  wf st -> translate vaddr a st = (r, st') -> wf st'.
Proof.
  intros H E. destruct (translate_cases vaddr a st) as [[pa E']|[v E']];
    rewrite E' in E; simplify_eq; auto with wf.
Qed.

Lemma translate_Some_same vaddr a st pa st' :
  translate vaddr a st = (Some pa, st') -> st' = st.
Proof.
  intros E. destruct (translate_cases vaddr a st) as [[p E']|[v E']];
    rewrite E' in E; by simplify_eq.
Qed.
