(* ===== verification/Exec.v ===== *)
(** * Executing one instruction

    [ISS.step] of [src/sim/tools/iss.py], one definition per arm of its opcode
    dispatch.  An arm that can raise returns a [result]; nothing has been
    assigned when the code raises, so the state at the exception is the state
    before the step. *)

From S2P Require Import Prelude Bits Float32 Machine Mmu.
Open Scope Z_scope.

(** ** Instruction fields *)

Definition op_of (word : Z) : Z := word .& 0x7F.
Definition rd_of (word : Z) : Z := (word ≫ 7) .& 0x1F.
Definition f3_of (word : Z) : Z := (word ≫ 12) .& 0x7.
Definition rs1_of (word : Z) : Z := (word ≫ 15) .& 0x1F.
Definition rs2_of (word : Z) : Z := (word ≫ 20) .& 0x1F.
Definition f7_of (word : Z) : Z := (word ≫ 25) .& 0x7F.
Definition imm_i_of (word : Z) : Z := sext ((word ≫ 20) .& 0xFFF) 12.
Definition imm_s_of (word : Z) : Z := sext (((word ≫ 25) ≪ 5) .| ((word ≫ 7) .& 0x1F)) 12.
Definition csr_addr_of (word : Z) : Z := (word ≫ 20) .& 0xFFF.

Definition branch_off (word : Z) : Z :=
  let b12 := (word ≫ 31) .& 1 in
  let b11 := (word ≫ 7) .& 1 in
  let b10_5 := (word ≫ 25) .& 0x3F in
  let b4_1 := (word ≫ 8) .& 0xF in
  sext ((b12 ≪ 12) .| (b11 ≪ 11) .| (b10_5 ≪ 5) .| (b4_1 ≪ 1)) 13.

Definition jal_off (word : Z) : Z :=
  let b20 := (word ≫ 31) .& 1 in
  let b19_12 := (word ≫ 12) .& 0xFF in
  let b11 := (word ≫ 20) .& 1 in
  let b10_1 := (word ≫ 21) .& 0x3FF in
  sext ((b20 ≪ 20) .| (b19_12 ≪ 12) .| (b11 ≪ 11) .| (b10_1 ≪ 1)) 21.

(** [A = self.regs[rs1]], [B = self.regs[rs2]] *)
Definition reg_A (st : ISS) (word : Z) : Z := zget (regs st) (rs1_of word).
Definition reg_B (st : ISS) (word : Z) : Z := zget (regs st) (rs2_of word).
Definition next_pc (st : ISS) : Z := pc st + 4.

(** ** Integer arithmetic *)

Definition alu_muldiv (xl f3 A B : Z) : Z :=
  let s := fun v => sXLEN v xl in
  let u := fun v => uXLEN v xl in
  if f3 =? 0 then u (A * B)
  else if f3 =? 1 then u ((s A * s B) ≫ xl)
  else if f3 =? 2 then u ((s A * u B) ≫ xl)
  else if f3 =? 3 then (u A * u B) ≫ xl
  else if f3 =? 4 then
    if B =? 0 then u (-1)
    else if (s A =? - (1 ≪ (xl - 1))) && (s B =? -1) then A
    else
      let q := Z.abs (s A) / Z.abs (s B) in
      let q := if xorb (s A <? 0) (s B <? 0) then - q else q in
      u q
  else if f3 =? 5 then (if B =? 0 then u (-1) else u A / u B)
  else if f3 =? 6 then
    if B =? 0 then A
    else if (s A =? - (1 ≪ (xl - 1))) && (s B =? -1) then 0
    else
      let r := Z.abs (s A) mod Z.abs (s B) in
      let r := if s A <? 0 then - r else r in
      u r
  else (if B =? 0 then A else u A mod u B).

(** [for i in range(xl - 1)]: count while the bits are zero. *)
Definition ctz_count (xl A : Z) : Z :=
  fst (foldl
    (fun '(count, done) i =>
       if (((A ≫ i) .& 1) =? 0) && negb done then (count + 1, done) else (count, true))
    (0, false) (seqZ 0 (xl - 1))).

Definition alu_base (xl f3 f7 A B : Z) : result Z :=
  let s := fun v => sXLEN v xl in
  let u := fun v => uXLEN v xl in
  if (f3 =? 0) && (f7 =? 0) then Ok (u (A + B))
  else if (f3 =? 0) && (f7 =? 0x20) then Ok (u (A - B))
  else if f3 =? 1 then Ok (u (A ≪ (B .& (xl - 1))))
  else if f3 =? 2 then Ok (if s A <? s B then 1 else 0)
  else if f3 =? 3 then Ok (if u A <? u B then 1 else 0)
  else if f3 =? 4 then Ok (u (A .^ B))
  else if (f3 =? 5) && (f7 =? 0) then Ok (u A ≫ (B .& (xl - 1)))
  else if (f3 =? 5) && (f7 =? 0x20) then Ok (u (s A ≫ (B .& (xl - 1))))
  else if f3 =? 6 then Ok (u (A .| B))
  else if f3 =? 7 then Ok (u (A .& B))
  else Err ValueError.

Definition exec_op (word : Z) (st : ISS) : result ISS :=
  let rd := rd_of word in
  let f3 := f3_of word in
  let f7 := f7_of word in
  let A := reg_A st word in
  let B := reg_B st word in
  let xl := xlen st in
  let! st' :=
    (if f7 =? 1 then Ok (wr rd (alu_muldiv xl f3 A B) st)
     else if (f7 =? 0x20) && (f3 =? 7) then Ok (wr rd (ctz_count xl A) st)
     else let! res := alu_base xl f3 f7 A B in Ok (wr rd res st)) in
  Ok (with_pc (next_pc st) st').

Definition word_muldiv (f3 A B : Z) : Z :=
  if f3 =? 0 then u32 (A * B)
  else if f3 =? 4 then
    if u32 B =? 0 then 0xFFFFFFFF
    else if (s32 A =? -2147483648) && (s32 B =? -1) then u32 A
    else
      let q := Z.abs (s32 A) / Z.abs (s32 B) in
      let q := if xorb (s32 A <? 0) (s32 B <? 0) then - q else q in
      u32 q
  else if f3 =? 5 then (if u32 B =? 0 then 0xFFFFFFFF else u32 A / u32 B)
  else if f3 =? 6 then
    if u32 B =? 0 then u32 A
    else if (s32 A =? -2147483648) && (s32 B =? -1) then 0
    else
      let r := Z.abs (s32 A) mod Z.abs (s32 B) in
      let r := if s32 A <? 0 then - r else r in
      u32 r
  else (if u32 B =? 0 then u32 A else u32 A mod u32 B).

Definition word_base (f3 f7 A B : Z) : result Z :=
  if (f3 =? 0) && (f7 =? 0) then Ok (u32 (A + B))
  else if (f3 =? 0) && (f7 =? 0x20) then Ok (u32 (A - B))
  else if f3 =? 1 then Ok (u32 (u32 A ≪ (B .& 0x1F)))
  else if (f3 =? 5) && (f7 =? 0) then Ok (u32 A ≫ (B .& 0x1F))
  else if (f3 =? 5) && (f7 =? 0x20) then Ok (u32 (s32 A ≫ (B .& 0x1F)))
  else Err ValueError.

Definition exec_op_32 (word : Z) (st : ISS) : result ISS :=
  let f3 := f3_of word in
  let f7 := f7_of word in
  let A := reg_A st word in
  let B := reg_B st word in
  let! res32 := (if f7 =? 1 then Ok (word_muldiv f3 A B) else word_base f3 f7 A B) in
  Ok (with_pc (next_pc st) (wr (rd_of word) (s32 res32) st)).

Definition exec_custom (word : Z) (st : ISS) : result ISS :=
  Ok (with_pc (next_pc st) (wr (rd_of word) (ctz_count (xlen st) (reg_A st word)) st)).

Definition alu_imm (xl f3 word A : Z) : result Z :=
  let s := fun v => sXLEN v xl in
  let u := fun v => uXLEN v xl in
  let imm_i := imm_i_of word in
  if (f3 =? 1) || (f3 =? 5) then
    let '(shamt, is_alt) :=
      if 64 <=? xl then ((word ≫ 20) .& 0x3F, ((word ≫ 26) .& 0x3F) =? 0x10)
      else ((word ≫ 20) .& 0x1F, f7_of word =? 0x20) in
    Ok (if f3 =? 1 then u (A ≪ shamt)
        else if is_alt then u (s A ≫ shamt)
        else u A ≫ shamt)
  else if f3 =? 0 then Ok (u (A + imm_i))
  else if f3 =? 2 then Ok (if s A <? imm_i then 1 else 0)
  else if f3 =? 3 then Ok (if u A <? u imm_i then 1 else 0)
  else if f3 =? 4 then Ok (u (A .^ u imm_i))
  else if f3 =? 6 then Ok (u (A .| u imm_i))
  else if f3 =? 7 then Ok (u (A .& u imm_i))
  else Err ValueError.

Definition exec_op_imm (word : Z) (st : ISS) : result ISS :=
  let! res := alu_imm (xlen st) (f3_of word) word (reg_A st word) in
  Ok (with_pc (next_pc st) (wr (rd_of word) res st)).

Definition word_imm (f3 word A : Z) : result Z :=
  if (f3 =? 1) || (f3 =? 5) then
    let shamt := (word ≫ 20) .& 0x1F in
    Ok (if f3 =? 1 then u32 (u32 A ≪ shamt)
        else if f7_of word =? 0x20 then u32 (s32 A ≫ shamt)
        else u32 A ≫ shamt)
  else if f3 =? 0 then Ok (u32 (A + imm_i_of word))
  else Err ValueError.

Definition exec_op_imm_32 (word : Z) (st : ISS) : result ISS :=
  let! res32 := word_imm (f3_of word) word (reg_A st word) in
  Ok (with_pc (next_pc st) (wr (rd_of word) (s32 res32) st)).

(** ** Memory access *)

Definition load2 (st : ISS) (addr : Z) : Z :=
  load_mem_byte st addr .| (load_mem_byte st (addr + 1) ≪ 8).

Definition load4 (st : ISS) (addr : Z) : Z :=
  load_mem_byte st addr .| (load_mem_byte st (addr + 1) ≪ 8) .|
  (load_mem_byte st (addr + 2) ≪ 16) .| (load_mem_byte st (addr + 3) ≪ 24).

Definition load_value (st : ISS) (f3 addr : Z) : result Z :=
  if f3 =? 0 then
    let v := load_mem_byte st addr in
    Ok (s32 (v .| (if truthy (v .& 0x80) then 0xFFFFFF00 else 0)))
  else if f3 =? 1 then
    let v := load2 st addr in
    Ok (s32 (v .| (if truthy (v .& 0x8000) then 0xFFFF0000 else 0)))
  else if f3 =? 2 then Ok (s32 (load4 st addr))
  else if f3 =? 4 then Ok (load_mem_byte st addr)
  else if f3 =? 5 then Ok (load2 st addr)
  else if f3 =? 3 then Ok (load_le st addr 8)
  else if f3 =? 6 then Ok (load4 st addr)
  else Err ValueError.

Definition exec_load (word : Z) (st : ISS) : result ISS :=
  match translate (uxlen st (reg_A st word + imm_i_of word)) Load st with
  | (None, st') => Ok st'
  | (Some addr, st') =>
      let! res := load_value st' (f3_of word) addr in
      Ok (with_pc (next_pc st) (wr (rd_of word) res st'))
  end.

(** [for i in range(n): self.store_mem_byte(addr + i, v >> (8 * i))] *)
Definition store_le (addr v : Z) (n : nat) (st : ISS) : ISS :=
  foldl (fun s i => store_mem_byte (addr + i) (v ≫ (8 * i)) s) st (seqZ 0 (Z.of_nat n)).

Definition store_value (f3 addr B : Z) (st : ISS) : result ISS :=
  if f3 =? 0 then Ok (store_mem_byte addr B st)
  else if f3 =? 1 then Ok (store_mem_byte (addr + 1) (B ≫ 8) (store_mem_byte addr B st))
  else if f3 =? 2 then Ok (store_le addr B 4 st)
  else if f3 =? 3 then Ok (store_le addr B 8 st)
  else Err ValueError.

Definition exec_store (word : Z) (st : ISS) : result ISS :=
  match translate (uxlen st (reg_A st word + imm_s_of word)) Store st with
  | (None, st') => Ok st'
  | (Some addr, st') =>
      let! st'' := store_value (f3_of word) addr (reg_B st word) st' in
      Ok (with_pc (next_pc st) st'')
  end.

(** ** Control flow *)

(** The dict [taken], indexed by [funct3]. *)
Definition branch_taken (xl f3 A B : Z) : bool :=
  let s := fun v => sXLEN v xl in
  let u := fun v => uXLEN v xl in
  if f3 =? 0 then s A =? s B
  else if f3 =? 1 then negb (s A =? s B)
  else if f3 =? 2 then s A <=? s B
  else if f3 =? 3 then s B <? s A
  else if f3 =? 4 then s A <? s B
  else if f3 =? 5 then s B <=? s A
  else if f3 =? 6 then u A <? u B
  else u B <=? u A.

Definition exec_branch (word : Z) (st : ISS) : result ISS :=
  let taken := branch_taken (xlen st) (f3_of word) (reg_A st word) (reg_B st word) in
  Ok (with_pc (if taken then uxlen st (pc st + branch_off word) else next_pc st) st).

Definition exec_jal (word : Z) (st : ISS) : result ISS :=
  Ok (with_pc (uxlen st (pc st + jal_off word)) (wr (rd_of word) (next_pc st) st)).

Definition exec_jalr (word : Z) (st : ISS) : result ISS :=
  let target := uxlen st ((reg_A st word + imm_i_of word) .& Z.lnot 1) in
  Ok (with_pc target (wr (rd_of word) (next_pc st) st)).

Definition exec_lui (word : Z) (st : ISS) : result ISS :=
  Ok (with_pc (next_pc st) (wr (rd_of word) (s32 (word .& 0xFFFFF000)) st)).

Definition exec_auipc (word : Z) (st : ISS) : result ISS :=
  Ok (with_pc (next_pc st)
        (wr (rd_of word) (uxlen st (pc st + s32 (word .& 0xFFFFF000))) st)).

(** ** SYSTEM *)

(** The dict literal of the [ecall] arm: a [KeyError] outside U, S and M. *)
Definition ecall_cause (priv : Z) : result Z :=
  if priv =? PRIV_M then Ok MCAUSE_ECALL_FROM_M
  else if priv =? PRIV_S then Ok MCAUSE_ECALL_FROM_S
  else if priv =? PRIV_U then Ok MCAUSE_ECALL_FROM_U
  else Err KeyError.

Definition exec_priv (word : Z) (st : ISS) : result ISS :=
  let csr_addr := csr_addr_of word in
  let illegal := Ok (trap MCAUSE_ILLEGAL_INSTRUCTION 0 st) in
  if f7_of word =? 9 then
    if priv_mode st =? PRIV_U then illegal else Ok (with_pc (next_pc st) st)
  else if csr_addr =? 0x000 then
    let! cause := ecall_cause (priv_mode st) in Ok (trap cause 0 st)
  else if csr_addr =? 0x001 then Ok (trap MCAUSE_BREAKPOINT 0 st)
  else if csr_addr =? 0x302 then
    if negb (priv_mode st =? PRIV_M) then illegal else Ok (mret st)
  else if csr_addr =? 0x102 then
    if priv_mode st =? PRIV_U then illegal else Ok (sret st)
  else illegal.

Definition csr_op_value (f3 old src : Z) : Z :=
  let csr_op := f3 .& 3 in
  if csr_op =? 1 then src
  else if csr_op =? 2 then old .| src
  else old .& Z.lnot src.

Definition exec_csr (word : Z) (st : ISS) : result ISS :=
  let csr_addr := csr_addr_of word in
  let f3 := f3_of word in
  let required_priv := (csr_addr ≫ 8) .& 3 in
  if priv_mode st <? required_priv then Ok (trap MCAUSE_ILLEGAL_INSTRUCTION 0 st)
  else
    let old := csr_read st csr_addr in
    let src := if truthy (f3 .& 4) then rs1_of word else reg_A st word in
    let new_val := csr_op_value f3 old src in
    Ok (with_pc (next_pc st) (wr (rd_of word) old (csr_write csr_addr new_val st))).

Definition exec_system (word : Z) (st : ISS) : result ISS :=
  if f3_of word =? 0 then exec_priv word st else exec_csr word st.

(** ** Floating point *)

Definition exec_flw (word : Z) (st : ISS) : result ISS :=
  match translate (uxlen st (reg_A st word + imm_i_of word)) Load st with
  | (None, st') => Ok st'
  | (Some addr, st') =>
      Ok (with_pc (next_pc st) (set_freg (rd_of word) (load4 st' addr) st'))
  end.

Definition exec_fsw (word : Z) (st : ISS) : result ISS :=
  match translate (uxlen st (reg_A st word + imm_s_of word)) Store st with
  | (None, st') => Ok st'
  | (Some addr, st') =>
      let v := zget (fregs st') (rs2_of word) in
      Ok (with_pc (next_pc st) (store_le addr v 4 st'))
  end.

(** Results of a float operation written to the float or the integer file, with
    the accumulation of its flags. *)
Definition put_f (rd : Z) (rf : Z * Z) (st : ISS) : ISS :=
  set_fflags (snd rf) (set_freg rd (fst rf) st).
Definition put_x (rd : Z) (rf : Z * Z) (st : ISS) : ISS :=
  set_fflags (snd rf) (wr rd (fst rf) st).

Definition op_fp (word : Z) (st : ISS) : result ISS :=
  let rd := rd_of word in
  let f3 := f3_of word in
  let rs2 := rs2_of word in
  let funct5 := (word ≫ 27) .& 0x1F in
  let rm := resolve_rm st f3 in
  let fa := zget (fregs st) (rs1_of word) in
  let fb := zget (fregs st) rs2 in
  let A := reg_A st word in
  if funct5 =? 0x00 then Ok (put_f rd (f_add fa fb rm false) st)
  else if funct5 =? 0x01 then Ok (put_f rd (f_add fa fb rm true) st)
  else if funct5 =? 0x02 then Ok (put_f rd (f_mul fa fb rm) st)
  else if funct5 =? 0x03 then Ok (put_f rd (f_div fa fb rm) st)
  else if funct5 =? 0x0B then Ok (put_f rd (f_sqrt fa rm) st)
  else if funct5 =? 0x04 then Ok (set_freg rd (fst (f_sgnj fa fb f3)) st)
  else if funct5 =? 0x05 then Ok (put_f rd (f_minmax fa fb f3) st)
  else if funct5 =? 0x14 then Ok (put_x rd (f_cmp fa fb f3) st)
  else if funct5 =? 0x18 then Ok (put_x rd (f_cvt_to_int fa rm (rs2 =? 1)) st)
  else if funct5 =? 0x1A then Ok (put_f rd (f_cvt_from_int (u32 A) rm (rs2 =? 1)) st)
  else if funct5 =? 0x1C then
    if f3 =? 1 then Ok (wr rd (f_class fa) st) else Ok (wr rd (s32 fa) st)
  else if funct5 =? 0x1E then Ok (set_freg rd (u32 A) st)
  else Err ValueError.

Definition exec_op_fp (word : Z) (st : ISS) : result ISS :=
  let! st' := op_fp word st in Ok (with_pc (next_pc st) st').

Definition exec_fmadd (word : Z) (st : ISS) : result ISS :=
  let rs3 := (word ≫ 27) .& 0x1F in
  let rm := resolve_rm st (f3_of word) in
  let op2 := (op_of word ≫ 2) .& 3 in
  let neg_prod := truthy (op2 .& 2) in
  let neg_addend := truthy (op2 .& 1) in
  let rf := f_madd (zget (fregs st) (rs1_of word)) (zget (fregs st) (rs2_of word))
              (zget (fregs st) rs3) rm neg_prod neg_addend in
  Ok (with_pc (next_pc st) (put_f (rd_of word) rf st)).

(** ** The dispatch *)

Definition OP_R := 0x33.
Definition OP_32 := 0x3B.
Definition OP_CUSTOM := 0x2A.
Definition OP_I := 0x13.
Definition OP_IMM_32 := 0x1B.
Definition OP_LOAD := 0x03.
Definition OP_STORE := 0x23.
Definition OP_BRANCH := 0x63.
Definition OP_JAL := 0x6F.
Definition OP_JALR := 0x67.
Definition OP_LUI := 0x37.
Definition OP_AUIPC := 0x17.
Definition OP_SYSTEM := 0x73.
Definition OP_LOAD_FP := 0x07.
Definition OP_STORE_FP := 0x27.
Definition OP_FP := 0x53.
Definition OP_MADD := 0x43.
Definition OP_MSUB := 0x47.
Definition OP_NMSUB := 0x4B.
Definition OP_NMADD := 0x4F.
Definition OP_MISC_MEM := 0x0F.

Definition step (word : Z) (st : ISS) : result ISS :=
  if word =? 0 then Ok (with_pc (pc st + 4) st)
  else
    let op := op_of word in
    if op =? OP_R then exec_op word st
    else if op =? OP_32 then exec_op_32 word st
    else if op =? OP_CUSTOM then exec_custom word st
    else if op =? OP_I then exec_op_imm word st
    else if op =? OP_IMM_32 then exec_op_imm_32 word st
    else if op =? OP_LOAD then exec_load word st
    else if op =? OP_STORE then exec_store word st
    else if op =? OP_BRANCH then exec_branch word st
    else if op =? OP_JAL then exec_jal word st
    else if op =? OP_JALR then exec_jalr word st
    else if op =? OP_LUI then exec_lui word st
    else if op =? OP_AUIPC then exec_auipc word st
    else if op =? OP_SYSTEM then exec_system word st
    else if op =? OP_LOAD_FP then exec_flw word st
    else if op =? OP_STORE_FP then exec_fsw word st
    else if op =? OP_FP then exec_op_fp word st
    else if (op =? OP_MADD) || (op =? OP_MSUB) || (op =? OP_NMSUB) || (op =? OP_NMADD) then
      exec_fmadd word st
    else if (op =? OP_MISC_MEM) && (f3_of word =? 0) then Ok (with_pc (next_pc st) st)
    else Ok (trap MCAUSE_ILLEGAL_INSTRUCTION 0 st).

(** ** Steps preserve well-formedness *)

Section Fields.
  Context (word : Z).

Lemma rd_range : 0 <= rd_of word < 32.
Proof. by apply (land_range (word ≫ 7) 5). Qed.
Lemma rs1_range : 0 <= rs1_of word < 32.
Proof. by apply (land_range (word ≫ 15) 5). Qed.
Lemma rs2_range : 0 <= rs2_of word < 32.
Proof. by apply (land_range (word ≫ 20) 5). Qed.
Lemma f3_range : 0 <= f3_of word < 8.
Proof. by apply (land_range (word ≫ 12) 3). Qed.
Lemma f7_range : 0 <= f7_of word < 128.
Proof. by apply (land_range (word ≫ 25) 7). Qed.
Lemma op_range : 0 <= op_of word < 128.
Proof. by apply (land_range word 7). Qed.

End Fields.

#[export] Hint Resolve rd_range rs1_range rs2_range f3_range f7_range op_range : wf.

Lemma next_pc_nonneg st : wf st -> 0 <= next_pc st.
Proof. intros H. pose proof (wf_pc _ H). unfold next_pc. lia. Qed.

Lemma uxlen_nonneg st v : wf st -> 0 <= uxlen st v.
Proof. intros H. by apply uxlen_range. Qed.

Lemma freg_u32 st i : wf st -> is_u32 (zget (fregs st) i).
Proof. intros H. apply zget_Forall; [done | apply (wf_fregs _ H)]. Qed.

Lemma reg_range st i : wf st -> 0 <= zget (regs st) i < 2 ^ xlen st.
Proof.
  intros H. apply (zget_Forall (fun v => 0 <= v < 2 ^ xlen st)).
  - pose proof (pow2_pos (xlen st)). pose proof (wf_xlen_pos _ H). lia.
  - apply (wf_regs _ H).
Qed.

Lemma load4_u32 st addr : wf st -> is_u32 (load4 st addr).
Proof.
  intros H. unfold load4, is_u32.
  pose proof (load_mem_byte_range st addr H) as H0.
  pose proof (load_mem_byte_range st (addr + 1) H) as H1.
  pose proof (load_mem_byte_range st (addr + 2) H) as H2.
  pose proof (load_mem_byte_range st (addr + 3) H) as H3.
  unfold is_byte in *. fields_norm. lia.
Qed.

Lemma wf_store_le addr v n st : wf st -> wf (store_le addr v n st).
Proof.
  unfold store_le. revert st. generalize (seqZ 0 (Z.of_nat n)) as l.
  induction l as [|i l IH]; intros st H; simpl; auto with wf.
Qed.

Lemma wf_put_f rd rf st : is_u32 (fst rf) -> wf st -> wf (put_f rd rf st).
Proof. unfold put_f. auto with wf. Qed.
Lemma wf_put_x rd rf st : 0 <= rd < 32 -> wf st -> wf (put_x rd rf st).
Proof. unfold put_x. auto with wf. Qed.

#[export] Hint Resolve next_pc_nonneg uxlen_nonneg freg_u32 load4_u32 wf_store_le wf_put_f
  wf_put_x f_add_u32 f_mul_u32 f_div_u32 f_sqrt_u32 f_madd_u32 f_sgnj_u32 f_minmax_u32
  f_cvt_from_int_u32 u32_is_u32 : wf.

Lemma rbind_Ok {A B} (m : result A) (k : A -> result B) b :
  rbind m k = Ok b -> exists a, m = Ok a /\ k a = Ok b.
Proof. destruct m; simpl; eauto; done. Qed.

Lemma Ok_inj {A} (a b : A) : Ok a = Ok b -> a = b.
Proof. by intros [=]. Qed.

(** Takes an [Ok] hypothesis apart, down to the branches that return. *)
Ltac ok_inv :=
  repeat match goal with
  | H : rbind _ _ = Ok _ |- _ => apply rbind_Ok in H as (? & ? & ?)
  | H : Ok _ = Ok _ |- _ => apply Ok_inj in H; subst
  | H : Err _ = Ok _ |- _ => discriminate H
  | H : (if ?b then _ else _) = Ok _ |- _ => destruct b eqn:?
  end.

Lemma wf_op_fp word st st' : wf st -> op_fp word st = Ok st' -> wf st'.
Proof. unfold op_fp. cbv zeta. intros H E. ok_inv; eauto with wf. Qed.

Lemma wf_exec_load word st st' : wf st -> exec_load word st = Ok st' -> wf st'.
Proof.
  unfold exec_load. intros H E. destruct (translate _ _ _) as [[pa|] s] eqn:T;
    apply wf_translate in T; try done; ok_inv; eauto with wf.
Qed.

Lemma wf_exec_store word st st' : wf st -> exec_store word st = Ok st' -> wf st'.
Proof.
  unfold exec_store, store_value. intros H E.
  destruct (translate _ _ _) as [[pa|] s] eqn:T;
    apply wf_translate in T; try done; ok_inv; eauto 6 with wf.
Qed.

Lemma wf_exec_flw word st st' : wf st -> exec_flw word st = Ok st' -> wf st'.
Proof.
  unfold exec_flw. intros H E. destruct (translate _ _ _) as [[pa|] s] eqn:T;
    apply wf_translate in T; try done; ok_inv; eauto with wf.
Qed.

Lemma wf_exec_fsw word st st' : wf st -> exec_fsw word st = Ok st' -> wf st'.
Proof.
  unfold exec_fsw. intros H E. destruct (translate _ _ _) as [[pa|] s] eqn:T;
    apply wf_translate in T; try done; ok_inv; eauto with wf.
Qed.

Lemma wf_exec_system word st st' : wf st -> exec_system word st = Ok st' -> wf st'.
Proof. unfold exec_system, exec_priv, exec_csr. cbv zeta. intros H E. ok_inv; eauto with wf. Qed.

Lemma wf_exec_op_fp word st st' : wf st -> exec_op_fp word st = Ok st' -> wf st'.
Proof.
  unfold exec_op_fp. intros H E. ok_inv.
  match goal with H' : op_fp _ _ = Ok _ |- _ => apply wf_op_fp in H' end; auto with wf.
Qed.

(** Which arm of the dispatch a step takes. *)
Ltac step_arms E :=
  repeat lazymatch type of E with (if ?b then _ else _) = _ => destruct b eqn:? end.

Lemma wf_step word st st' : wf st -> step word st = Ok st' -> wf st'.
Proof.
  unfold step. cbv zeta. intros H E. pose proof (wf_pc _ H).
  step_arms E;
    lazymatch type of E with
    | exec_load _ _ = _ => by apply wf_exec_load in E
    | exec_store _ _ = _ => by apply wf_exec_store in E
    | exec_flw _ _ = _ => by apply wf_exec_flw in E
    | exec_fsw _ _ = _ => by apply wf_exec_fsw in E
    | exec_system _ _ = _ => by apply wf_exec_system in E
    | exec_op_fp _ _ = _ => by apply wf_exec_op_fp in E
    | _ =>
        unfold exec_op, exec_op_32, exec_custom, exec_op_imm, exec_op_imm_32, exec_branch,
          exec_jal, exec_jalr, exec_lui, exec_auipc, exec_fmadd in E; cbv zeta in E;
        ok_inv; auto 8 with wf
    end.
  - apply wf_with_pc; [lia | done].
  - apply wf_with_pc; [case_match|]; auto with wf.
Qed.
