(* ===== verification/Run.v ===== *)
(** * Running a program

    [ISS.run] of [src/sim/tools/iss.py]: fetch through the MMU, halt on the
    self-loop [jal x0, 0], take the scheduled interrupt, and count steps. *)

From S2P Require Import Prelude Bits Float32 Machine Mmu Exec.
Open Scope Z_scope.

(** How a run ends: by a [break] (the value [run] returns and the final state),
    by an exception, or not within the fuel. *)
Inductive outcome : Type :=
| Finished (steps : Z) (st : ISS)
| Raised (e : exn) (st : ISS)
| OutOfFuel (st : ISS).

(** The condition of the interrupt-injection [if]. *)
Definition interrupt_due (steps : Z) (st : ISS) : option Z :=
  match pending_interrupt st with
  | Some (after, cause) =>
      if (after <=? steps) && truthy ((csr_at st CSR_MSTATUS ≫ 3) .& 1)
      then Some cause else None
  | None => None
  end.

Definition self_loop (word : Z) : bool :=
  ((word .& 0x7F) =? 0x6F) && (jal_off word =? 0).

(** One round of the [while] loop: [inl] is the next loop state, [inr] the way
    the loop ends. *)
Definition run_round (words : list Z) (max_steps steps : Z) (st : ISS) : (Z * ISS) + outcome :=
  if negb (steps <? max_steps) then inr (Raised RuntimeError st)
  else
    match interrupt_due steps st with
    | Some cause => inl (steps, with_pending None (trap cause 0 st))
    | None =>
        match translate (pc st) Fetch st with
        | (None, st') => inl (steps, st')
        | (Some fetch_addr, st') =>
            if Z.of_nat (length words) * 4 <=? fetch_addr then inr (Finished steps st')
            else
              let word := zget words (fetch_addr / 4) in
              if self_loop word then inr (Finished steps st')
              else
                match step word st' with
                | Ok st'' => inl (steps + 1, st'')
                | Err e => inr (Raised e st')
                end
        end
    end.

Fixpoint run_loop (fuel : nat) (words : list Z) (max_steps steps : Z) (st : ISS) : outcome :=
  match fuel with
  | O => OutOfFuel st
  | S n =>
      match run_round words max_steps steps st with
      | inl (steps', st') => run_loop n words max_steps steps' st'
      | inr o => o
      end
  end.

Definition run (fuel : nat) (words : list Z) (max_steps : Z) (st : ISS) : outcome :=
  run_loop fuel words max_steps 0 st.
