(* ===== verification/Alu.v ===== *)
(** * The integer unit against the RISC-V specification

    Theorems about the arithmetic definitions of [Exec.v] ([alu_muldiv],
    [alu_base], [ctz_count], [word_muldiv], [word_base]): multiplication and
    division against [Z]'s own product, truncated quotient and remainder, the
    custom [ctz], and the ["w"] family against the 32-bit instructions it is
    named after. *)

From S2P Require Import Prelude Bits Machine Mmu Exec.
Open Scope Z_scope.

Section Width.
  Context (xl : Z) (Hxl : 1 < xl).

Definition in_range (v : Z) : Prop := 0 <= v < 2 ^ xl.

Lemma u_mod v : uXLEN v xl = v mod 2 ^ xl.
Proof. apply uXLEN_mod. lia. Qed.

Lemma u_id v : in_range v -> uXLEN v xl = v.
Proof. intros. apply uXLEN_id; [lia | done]. Qed.

Lemma s_signed v : sXLEN v xl = signed v xl.
Proof. apply sXLEN_signed. lia. Qed.

Lemma signed_u v : signed (uXLEN v xl) xl = signed v xl.
Proof. rewrite u_mod. apply signed_of_mod. lia. Qed.

Lemma half_bounds : 1 < 2 ^ (xl - 1) /\ 2 ^ xl = 2 * 2 ^ (xl - 1).
Proof.
  split; [|apply pow2_double; lia].
  change 1 with (2 ^ 0) at 1. apply Z.pow_lt_mono_r; lia.
Qed.

Lemma signed_0 B : in_range B -> signed B xl = 0 -> B = 0.
Proof.
  intros HB E. pose proof (signed_mod B xl ltac:(lia)) as M. unfold in_range in HB.
  rewrite E, (Z.mod_small B) in M by done. rewrite Z.mod_0_l in M; lia.
Qed.

(** Truncated division of magnitudes with the signs put back. *)
Lemma quot_signs a b :
  b <> 0 ->
  (if xorb (a <? 0) (b <? 0) then - (Z.abs a / Z.abs b) else Z.abs a / Z.abs b) = Z.quot a b.
Proof.
  intros Hb. rewrite <- Z.quot_div_nonneg by lia.
  destruct (Z.ltb_spec a 0), (Z.ltb_spec b 0); simpl;
    rewrite ?(Z.abs_eq a), ?(Z.abs_eq b), ?(Z.abs_neq a), ?(Z.abs_neq b) by lia;
    rewrite ?Z.quot_opp_l, ?Z.quot_opp_r by lia; lia.
Qed.

Lemma rem_signs a b :
  b <> 0 ->
  (if a <? 0 then - (Z.abs a mod Z.abs b) else Z.abs a mod Z.abs b) = Z.rem a b.
Proof.
  intros Hb. rewrite <- Z.rem_mod_nonneg by lia. rewrite Z.rem_abs_r by done.
  destruct (Z.ltb_spec a 0).
  - rewrite Z.abs_neq, Z.rem_opp_l by lia. lia.
  - by rewrite Z.abs_eq by lia.
Qed.

Lemma quot_bound a b :
  - 2 ^ (xl - 1) <= a < 2 ^ (xl - 1) -> - 2 ^ (xl - 1) <= b < 2 ^ (xl - 1) ->
  b <> 0 -> ~ (a = - 2 ^ (xl - 1) /\ b = -1) ->
  - 2 ^ (xl - 1) <= Z.quot a b < 2 ^ (xl - 1).
Proof.
  intros Ha Hb Hb0 Hov. pose proof half_bounds as [Hh _].
  assert (Z.abs (Z.quot a b) <= Z.abs a) as Hq.
  { rewrite <- Z.quot_abs by done. apply Z.quot_le_upper_bound; nia. }
  destruct (Z.eq_dec (Z.quot a b) (2 ^ (xl - 1))) as [E|]; [|lia].
  exfalso. apply Hov.
  assert (Z.abs a = 2 ^ (xl - 1)) by lia.
  assert (a = - 2 ^ (xl - 1)) as Ea by lia. split; [done|].
  pose proof (Z.quot_rem a b Hb0) as D. pose proof (Z.rem_bound_abs a b Hb0).
  rewrite E in D. set (r := Z.rem a b) in *. set (h := 2 ^ (xl - 1)) in *.
  assert ((b + 1) * h = - r) by lia.
  destruct (Z.lt_trichotomy (b + 1) 0) as [|[|]]; nia.
Qed.

(** Results of [div] and [rem] as signed numbers, on the three cases the code
    distinguishes. *)
Lemma div_signed A B :
  in_range A -> in_range B ->
  let a := sXLEN A xl in let b := sXLEN B xl in
  sXLEN (alu_muldiv xl 4 A B) xl =
    if b =? 0 then -1
    else if (a =? - 2 ^ (xl - 1)) && (b =? -1) then - 2 ^ (xl - 1)
    else Z.quot a b.
Proof.
  intros HA HB. cbv zeta. unfold alu_muldiv. simpl (_ =? _).
  rewrite !s_signed, shiftl_1 by lia. pose proof half_bounds as [Hh _].
  pose proof (signed_range A xl ltac:(lia)). pose proof (signed_range B xl ltac:(lia)).
  destruct (Z.eqb_spec B 0) as [->|HB0].
  { rewrite signed_u. rewrite (signed_id 0) by lia. simpl. apply signed_id; lia. }
  destruct (Z.eqb_spec (signed B xl) 0) as [E|Hb0]; [by apply signed_0 in E|].
  destruct (_ && _) eqn:Ov; py_bool; [lia|].
  cbv zeta. rewrite quot_signs by done. rewrite signed_u. apply signed_id; [lia|].
  apply quot_bound; try done. intros [E1 E2]. by rewrite E1, E2, !Z.eqb_refl in Ov.
Qed.

Lemma rem_signed A B :
  in_range A -> in_range B ->
  let a := sXLEN A xl in let b := sXLEN B xl in
  sXLEN (alu_muldiv xl 6 A B) xl =
    if b =? 0 then a
    else if (a =? - 2 ^ (xl - 1)) && (b =? -1) then 0
    else Z.rem a b.
Proof.
  intros HA HB. cbv zeta. unfold alu_muldiv. simpl (_ =? _).
  rewrite !s_signed, shiftl_1 by lia. pose proof half_bounds as [Hh _].
  pose proof (signed_range A xl ltac:(lia)). pose proof (signed_range B xl ltac:(lia)).
  destruct (Z.eqb_spec B 0) as [->|HB0].
  { by rewrite (signed_id 0) by lia. }
  destruct (Z.eqb_spec (signed B xl) 0) as [E|Hb0]; [by apply signed_0 in E|].
  destruct (_ && _) eqn:Ov; py_bool; [by apply signed_id; lia|].
  cbv zeta. rewrite rem_signs by done. rewrite signed_u. apply signed_id; [lia|].
  pose proof (Z.rem_bound_abs (signed A xl) (signed B xl) Hb0). lia.
Qed.

Lemma divu_unsigned A B :
  in_range A -> in_range B ->
  alu_muldiv xl 5 A B = if B =? 0 then 2 ^ xl - 1 else A / B.
Proof.
  intros HA HB. unfold in_range in *. unfold alu_muldiv. simpl (_ =? _).
  rewrite (u_id A), (u_id B) by done.
  destruct (Z.eqb_spec B 0); [|done]. rewrite u_mod. pose proof half_bounds.
  symmetry. apply Z.mod_unique_pos with (-1); lia.
Qed.

Lemma remu_unsigned A B :
  in_range A -> in_range B ->
  alu_muldiv xl 7 A B = if B =? 0 then A else A mod B.
Proof. intros HA HB. unfold alu_muldiv. simpl (_ =? _). by rewrite (u_id A), (u_id B) by done. Qed.

(** *** Multiplication *)

Lemma mul_low A B : alu_muldiv xl 0 A B = (signed A xl * signed B xl) mod 2 ^ xl.
Proof.
  unfold alu_muldiv. simpl (_ =? _). rewrite u_mod.
  by rewrite Z.mul_mod, <- (signed_mod A xl), <- (signed_mod B xl), <- Z.mul_mod by lia.
Qed.

Lemma mul_low_su A B : alu_muldiv xl 0 A B = (signed A xl * uXLEN B xl) mod 2 ^ xl.
Proof.
  unfold alu_muldiv. simpl (_ =? _). rewrite !u_mod, Zmult_mod_idemp_r.
  by rewrite Z.mul_mod, <- (signed_mod A xl), <- Z.mul_mod by lia.
Qed.

Lemma high_signed p :
  - 2 ^ (xl - 1) * 2 ^ xl <= p < 2 ^ (xl - 1) * 2 ^ xl ->
  signed (uXLEN (p ≫ xl) xl) xl = p / 2 ^ xl.
Proof.
  intros Hp. pose proof half_bounds.
  rewrite signed_u, Z.shiftr_div_pow2 by lia. apply signed_id; [lia|].
  split; [apply Z.div_le_lower_bound | apply Z.div_lt_upper_bound]; lia.
Qed.

Lemma mulh_high A B :
  sXLEN (alu_muldiv xl 1 A B) xl = (signed A xl * signed B xl) / 2 ^ xl.
Proof.
  unfold alu_muldiv. simpl (_ =? _). rewrite !s_signed. apply high_signed.
  pose proof half_bounds. pose proof (signed_range A xl ltac:(lia)).
  pose proof (signed_range B xl ltac:(lia)). nia.
Qed.

Lemma mulhsu_high A B :
  sXLEN (alu_muldiv xl 2 A B) xl = (signed A xl * uXLEN B xl) / 2 ^ xl.
Proof.
  unfold alu_muldiv. simpl (_ =? _). rewrite !s_signed. apply high_signed.
  pose proof half_bounds. pose proof (signed_range A xl ltac:(lia)).
  pose proof (uXLEN_range B xl ltac:(lia)). nia.
Qed.

Lemma mulhu_high A B : alu_muldiv xl 3 A B = (uXLEN A xl * uXLEN B xl) / 2 ^ xl.
Proof.
  change (alu_muldiv xl 3 A B) with ((uXLEN A xl * uXLEN B xl) ≫ xl).
  apply Z.shiftr_div_pow2. lia.
Qed.

(** *** Counting trailing zeros *)

(** What the loop has established after looking at the bits below [n]. *)
Definition ctz_inv (A n : Z) (p : Z * bool) : Prop :=
  let '(c, done) := p in
  (forall i, 0 <= i < c -> Z.testbit A i = false) /\
  if done : bool then 0 <= c < n /\ Z.testbit A c = true else c = n.

Lemma ctz_loop A (n : nat) :
  ctz_inv A (Z.of_nat n)
    (foldl (fun '(count, done) i =>
       if (((A ≫ i) .& 1) =? 0) && negb done then (count + 1, done) else (count, true))
     (0, false) (seqZ 0 (Z.of_nat n))).
Proof.
  induction n as [|n IH]; [simpl; split; [lia | done]|].
  rewrite seqZ_S, foldl_app. destruct (foldl _ _ _) as [c d]. simpl foldl.
  rewrite bit_at, Z.add_0_l by lia. destruct IH as [Hz IH].
  destruct d; simpl negb; rewrite ?andb_false_r, ?andb_true_r.
  - split; [done|]. destruct IH. split; [lia | done].
  - subst c. destruct (Z.testbit A (Z.of_nat n)) eqn:Hb; simpl.
    + split; [done|]. split; [lia | done].
    + split; [|lia]. intros i Hi. destruct (Z.eq_dec i (Z.of_nat n)) as [->|]; [done|].
      apply Hz. lia.
Qed.

Lemma ctz_count_spec A :
  let c := ctz_count xl A in
  0 <= c <= xl - 1 /\
  (forall i, 0 <= i < c -> Z.testbit A i = false) /\
  (c < xl - 1 -> Z.testbit A c = true).
Proof.
  pose proof (ctz_loop A (Z.to_nat (xl - 1))) as H. unfold ctz_count. cbv zeta.
  rewrite Z2Nat.id in H by lia. destruct (foldl _ _ _) as [c d]. simpl.
  destruct H as [Hz Hd]. destruct d.
  - destruct Hd as [? ?]. repeat split; try done; lia.
  - subst. repeat split; try done; lia.
Qed.

End Width.

(** ** The word family *)

Lemma land_mod_32 v : (v mod 2 ^ 32) .& 0x1F = v .& 0x1F.
Proof.
  rewrite !(land_lit _ 0x1F 5) by done. rewrite Z.mod_mod_divide; [done|]. by exists (2 ^ 27).
Qed.

Lemma word_base_is_32 f3 f7 A B r :
  word_base f3 f7 A B = Ok r -> alu_base 32 f3 f7 (u32 A) (u32 B) = Ok r.
Proof.
  unfold word_base, alu_base. rewrite !s32_signed, !sXLEN_signed, !uXLEN_mod, !u32_mod by lia.
  rewrite !signed_of_mod, !Zmod_mod by lia. change (32 - 1) with 0x1F. rewrite land_mod_32.
  rewrite <- Z.add_mod, Zminus_mod_idemp_l, Zminus_mod_idemp_r by lia.
  destruct (_ && _); [done|]. destruct (_ && _); [done|].
  destruct (Z.eqb_spec f3 1); [done|].
  destruct (Z.eqb_spec f3 2) as [->|]; [done|]. destruct (Z.eqb_spec f3 3) as [->|]; [done|].
  destruct (Z.eqb_spec f3 4) as [->|]; [done|].
  destruct (_ && _); [done|]. destruct (_ && _); done.
Qed.

Definition is_word_muldiv (f3 : Z) : bool :=
  (f3 =? 0) || (f3 =? 4) || (f3 =? 5) || (f3 =? 6) || (f3 =? 7).

Lemma word_muldiv_is_32 f3 A B :
  is_word_muldiv f3 = true -> word_muldiv f3 A B = alu_muldiv 32 f3 (u32 A) (u32 B).
Proof.
  intros Hf. unfold word_muldiv, alu_muldiv.
  rewrite !s32_signed, !sXLEN_signed, !uXLEN_mod, !u32_mod by lia.
  rewrite !signed_of_mod, !Zmod_mod, <- Z.mul_mod by lia.
  destruct (Z.eqb_spec f3 0); [done|].
  destruct (Z.eqb_spec f3 1); [by subst|]. destruct (Z.eqb_spec f3 2); [by subst|].
  destruct (Z.eqb_spec f3 3); [by subst|]. done.
Qed.

(** The 32-bit machine a 64-bit state restricts to: its registers cut to 32 bits. *)
Definition truncate32 (st : ISS) : ISS :=
  mkISS 32 (u32 <$> regs st) (mem st) (mem_mask st) (pc st) (halted st) (csr st)
    (priv_mode st) (fregs st) (frm st) (fflags st) (pending_interrupt st).

Lemma zget_fmap_u32 l i : zget (u32 <$> l) i = u32 (zget l i).
Proof. unfold zget. rewrite list_lookup_fmap. by destruct (l !! _). Qed.

(** Clearing bit 3 of an OP-32 word gives the OP word with the same fields. *)
Lemma op32_to_op word :
  op_of word = OP_32 ->
  let word' := word .^ 8 in
  op_of word' = OP_R /\ rd_of word' = rd_of word /\ f3_of word' = f3_of word /\
  rs1_of word' = rs1_of word /\ rs2_of word' = rs2_of word /\ f7_of word' = f7_of word.
Proof.
  intros Hop. cbv zeta. unfold op_of, rd_of, f3_of, rs1_of, rs2_of, f7_of in *.
  rewrite !Z.shiftr_lxor. simpl (8 ≫ _). rewrite !Z.lxor_0_r. split; [|done].
  assert ((word .^ 8) .& 127 = (word .& 127) .^ (8 .& 127)) as ->.
  { apply Z.bits_inj'. intros i _. rewrite Z.land_spec, !Z.lxor_spec, !Z.land_spec.
    by destruct (Z.testbit word i), (Z.testbit 8 i), (Z.testbit 127 i). }
  by rewrite Hop.
Qed.

Lemma lxor_8_nonzero word : op_of word = OP_32 -> (word .^ 8 =? 0) = false.
Proof.
  intros H. apply Z.eqb_neq. intros E. pose proof (op32_to_op word H) as [H' _].
  by rewrite E in H'.
Qed.

(** ** Properties *)

(** Division.  At every width the simulator's [div], [rem], [divu] and [remu]
    return what the RISC-V specification prescribes: the quotient rounded
    towards zero and the remainder with the dividend's sign, all ones and the
    dividend on division by zero, the dividend and zero on signed overflow; and
    in every case, the exceptional ones included, quotient times divisor plus
    remainder gives the dividend back modulo the width. *)
Theorem division_spec xl A B :
  1 < xl -> in_range xl A -> in_range xl B ->
  let a := sXLEN A xl in
  let b := sXLEN B xl in
  let q := sXLEN (alu_muldiv xl 4 A B) xl in
  let r := sXLEN (alu_muldiv xl 6 A B) xl in
  (q, r) =
    (if b =? 0 then (-1, a)
     else if (a =? - 2 ^ (xl - 1)) && (b =? -1) then (a, 0)
     else (Z.quot a b, Z.rem a b)) /\
  (b * q + r) mod 2 ^ xl = A /\
  (alu_muldiv xl 5 A B, alu_muldiv xl 7 A B) =
    (if B =? 0 then (2 ^ xl - 1, A) else (A / B, A mod B)).
Proof.
  intros Hxl HA HB. cbv zeta.
  rewrite div_signed, rem_signed, divu_unsigned, remu_unsigned by done.
  assert (A = sXLEN A xl mod 2 ^ xl) as EA.
  { rewrite s_signed, signed_mod by lia. symmetry. by apply Z.mod_small. }
  split; [|split; [|by destruct (B =? 0)]].
  - destruct (_ =? 0); [done|]. destruct (_ && _) eqn:E; [|done]. py_bool. by f_equal.
  - transitivity (sXLEN A xl mod 2 ^ xl); [|done].
    destruct (Z.eqb_spec (sXLEN B xl) 0) as [->|]; [by f_equal; lia|].
    destruct (_ && _) eqn:E.
    + apply andb_true_iff in E as [->%Z.eqb_eq ->%Z.eqb_eq].
      rewrite <- (Z.mod_add (- 2 ^ (xl - 1)) 1) by (apply Z.pow_nonzero; lia).
      pose proof (pow2_double xl). f_equal. lia.
    + f_equal. symmetry. by apply Z.quot_rem.
Qed.

Example division_spec_witness :
  1 < 32 /\ in_range 32 0xFFFFFFF9 /\ in_range 32 2 /\
  sXLEN (alu_muldiv 32 4 0xFFFFFFF9 2) 32 = -3 /\
  (sXLEN 2 32 * sXLEN (alu_muldiv 32 4 0xFFFFFFF9 2) 32 +
   sXLEN (alu_muldiv 32 6 0xFFFFFFF9 2) 32) mod 2 ^ 32 = 0xFFFFFFF9.
Proof.
  do 4 (split; [done|]).
  exact (proj1 (proj2 (division_spec 32 0xFFFFFFF9 2 eq_refl ltac:(done) ltac:(done)))).
Defined.

(** Multiplication.  The low half returned by [mul] and the high half
    returned by [mulh], [mulhsu] or [mulhu] put together are the exact
    double-width product of the operands read as signed by signed, signed by
    unsigned or unsigned by unsigned, for any register contents. *)
Theorem multiplication_spec xl A B :
  1 < xl ->
  let lo := alu_muldiv xl 0 A B in
  sXLEN (alu_muldiv xl 1 A B) xl * 2 ^ xl + lo = sXLEN A xl * sXLEN B xl /\
  sXLEN (alu_muldiv xl 2 A B) xl * 2 ^ xl + lo = sXLEN A xl * uXLEN B xl /\
  alu_muldiv xl 3 A B * 2 ^ xl + lo = uXLEN A xl * uXLEN B xl.
Proof.
  intros Hxl. cbv zeta. pose proof (pow2_pos xl ltac:(lia)) as Hp.
  assert (HDM : forall p, p / 2 ^ xl * 2 ^ xl + p mod 2 ^ xl = p)
    by (intros p; pose proof (Z.div_mod p (2 ^ xl) ltac:(lia)); lia).
  rewrite mulh_high, mulhsu_high, mulhu_high, !s_signed by done. repeat split.
  - rewrite mul_low by done. apply HDM.
  - rewrite mul_low_su by done. apply HDM.
  - replace (alu_muldiv xl 0 A B) with ((uXLEN A xl * uXLEN B xl) mod 2 ^ xl); [apply HDM|].
    unfold alu_muldiv. simpl (_ =? _). rewrite !u_mod by done. by rewrite <- Z.mul_mod by lia.
Qed.

Example multiplication_spec_witness :
  1 < 64 /\
  sXLEN (alu_muldiv 64 1 0xFFFFFFFFFFFFFFFE 3) 64 * 2 ^ 64 + alu_muldiv 64 0 0xFFFFFFFFFFFFFFFE 3 = -6.
Proof. split; [lia|]. apply (multiplication_spec 64 0xFFFFFFFFFFFFFFFE 3). lia. Defined.

(** The custom [ctz].  The loop returns the index of the lowest set bit
    when it lies below the top bit of the register, and [xlen - 1] otherwise:
    it cannot tell 0 from the word with only its top bit set, the documented
    off-by-one at zero. *)
Theorem ctz_spec xl A :
  1 < xl -> in_range xl A ->
  let c := ctz_count xl A in
  (forall i, 0 <= i < c -> Z.testbit A i = false) /\
  (Z.testbit A c = true \/ (c = xl - 1 /\ A = 0)) /\
  (A = 0 \/ A = 2 ^ (xl - 1) <-> c = xl - 1).
Proof.
  intros Hxl HA. cbv zeta. destruct (ctz_count_spec xl Hxl A) as (Hc & Hz & Hs).
  set (c := ctz_count xl A) in *.
  assert (Hlow : c = xl - 1 -> A mod 2 ^ (xl - 1) = 0).
  { intros E. apply Z.bits_inj'. intros i Hi. rewrite Z.testbit_0_l.
    destruct (Z.lt_ge_cases i (xl - 1)).
    - rewrite Z.mod_pow2_bits_low by lia. apply Hz. lia.
    - apply Z.mod_pow2_bits_high. lia. }
  assert (Htop : c = xl - 1 -> A = 0 \/ A = 2 ^ (xl - 1)).
  { intros E. pose proof (pow2_double xl ltac:(lia)). pose proof (pow2_pos (xl - 1) ltac:(lia)).
    pose proof (Z.div_mod A (2 ^ (xl - 1)) ltac:(lia)). unfold in_range in HA.
    rewrite (Hlow E) in *. assert (A / 2 ^ (xl - 1) = 0 \/ A / 2 ^ (xl - 1) = 1) as [Q|Q] by nia;
      rewrite Q in *; lia. }
  split; [done|]. split; [|split; [|done]].
  - destruct (Z.eq_dec c (xl - 1)) as [E|]; [|left; apply Hs; lia].
    destruct (Htop E) as [->| ->]; [by right|]. left. rewrite E. apply Z.pow2_bits_true. lia.
  - intros H0. destruct (Z.eq_dec c (xl - 1)) as [|NE]; [done|].
    assert (Z.testbit A c = true) as Hb by (apply Hs; lia).
    destruct H0 as [->| ->]; [by rewrite Z.testbit_0_l in Hb|].
    rewrite Z.pow2_bits_eqb in Hb by lia. apply Z.eqb_eq in Hb. lia.
Qed.

Example ctz_spec_witness :
  1 < 32 /\ in_range 32 0 /\ (0 = 0 \/ 0 = 2 ^ (32 - 1) <-> ctz_count 32 0 = 32 - 1).
Proof.
  do 2 (split; [done|]).
  exact (proj2 (proj2 (ctz_spec 32 0 eq_refl ltac:(done)))).
Defined.

(** The word instructions.  An OP-32 instruction on a 64-bit machine leaves
    in its destination the sign extension of what the OP instruction with the
    same fields leaves there on the 32-bit machine whose registers are the low
    halves; it fails only where that one does, and both advance the pc by 4. *)
Theorem op32_extends_op word st st' :
  wf st -> xlen st = 64 -> op_of word = OP_32 -> rd_of word <> 0 ->
  (f7_of word = 1 -> is_word_muldiv (f3_of word) = true) ->
  step word st = Ok st' ->
  exists st32, step (word .^ 8) (truncate32 st) = Ok st32 /\
    zget (regs st') (rd_of word) = uXLEN (s32 (zget (regs st32) (rd_of word))) 64 /\
    pc st' = pc st + 4 /\ pc st32 = pc st + 4.
Proof.
  intros Hwf Hx Hop Hrd Hf E.
  destruct (op32_to_op word Hop) as (O & Erd & Ef3 & Er1 & Er2 & Ef7).
  unfold step in *. rewrite lxor_8_nonzero by done. rewrite O, Hop in *. simpl in E |- *.
  destruct (Z.eqb_spec word 0) as [->|_]; [done|].
  unfold exec_op_32, exec_op in *. cbv zeta in *. unfold reg_A, reg_B in *.
  rewrite Erd, Ef3, Er1, Er2, Ef7.
  cbn [truncate32 regs xlen]. rewrite !zget_fmap_u32.
  set (A := zget (regs st) (rs1_of word)) in *. set (B := zget (regs st) (rs2_of word)) in *.
  assert (K : forall r, let s := wr (rd_of word) (s32 r) st in
     let t := wr (rd_of word) r (truncate32 st) in
     zget (regs s) (rd_of word) = uXLEN (s32 (zget (regs t) (rd_of word))) 64).
  { intros r. cbv zeta. pose proof (rd_range word). pose proof (wf_regs_len _ Hwf).
    unfold wr. destruct (Z.eqb_spec (rd_of word) 0); [done|].
    cbn [regs with_regs truncate32]. rewrite !zget_zset_eq by (rewrite ?length_fmap; lia).
    unfold uxlen. cbn [xlen truncate32]. rewrite Hx. f_equal.
    by rewrite !s32_signed, uXLEN_mod, signed_of_mod by lia. }
  apply rbind_Ok in E as (r & Er & E). apply Ok_inj in E. subst st'.
  exists (with_pc (next_pc (truncate32 st)) (wr (rd_of word) r (truncate32 st))).
  split; [|split; [apply K | done]].
  destruct (Z.eqb_spec (f7_of word) 1) as [E1|].
  - apply Ok_inj in Er. subst r. by rewrite <- word_muldiv_is_32 by auto.
  - rewrite (word_base_is_32 _ _ _ _ _ Er). unfold word_base in Er.
    destruct (f3_of word =? 7) eqn:E7; [|by rewrite andb_false_r].
    apply Z.eqb_eq in E7. by rewrite E7 in Er.
Qed.

Example op32_extends_op_witness :
  exists st32 st', step (0x001080BB .^ 8) (truncate32 (with_regs (zset (replicate 32 0) 1 0x7FFFFFFF) (init 128 64))) = Ok st32 /\
    step 0x001080BB (with_regs (zset (replicate 32 0) 1 0x7FFFFFFF) (init 128 64)) = Ok st' /\
    zget (regs st') 1 = uXLEN (s32 (zget (regs st32) 1)) 64.
Proof.
  set (st := with_regs (zset (replicate 32 0) 1 0x7FFFFFFF) (init 128 64)).
  assert (wf st) as Hwf.
  { assert (wf (init 128 64)) as [] by (apply wf_init; [by right | done]).
    constructor; try done. unfold st. cbn [with_regs regs xlen init].
    apply zset_Forall; [done|]. apply Forall_replicate. done. }
  destruct (op32_extends_op 0x001080BB st _ Hwf eq_refl eq_refl ltac:(done) ltac:(done) eq_refl)
    as (st32 & E1 & E2 & _).
  exists st32. eexists. split; [exact E1|]. split; [reflexivity | exact E2].
Defined.
