(* ===== verification/Memory.v ===== *)
(** * Little-endian storage

    The simulator's data memory and the byte arrays the image tools fill are
    both written and read byte by byte, least significant byte first.  The class
    [ByteStore] states what such a byte store promises; the multi-byte accesses
    are proved once, against the class, and the data memory of [ISS] and Python's
    [bytearray] are its instances. *)

From S2P Require Import Prelude Bits Float32 Machine Mmu Exec.
Open Scope Z_scope.

(** ** The interface *)

(** [bs_cell m a] is the storage cell behind address [a], if there is one: two
    addresses with the same cell alias each other. *)
Class ByteStore (M : Type) := {
  bs_get : M -> Z -> Z;
  bs_put : Z -> Z -> M -> M;
  bs_cell : M -> Z -> option Z;
  bs_ok : M -> Prop;
  bs_put_ok : forall m a v, bs_ok m -> bs_ok (bs_put a v m);
  bs_put_cell : forall m a v b, bs_ok m -> bs_cell (bs_put a v m) b = bs_cell m b;
  bs_get_put_eq : forall m a v,
    bs_ok m -> is_Some (bs_cell m a) -> bs_get (bs_put a v m) a = v mod 2 ^ 8;
  bs_get_put_ne : forall m a v b,
    bs_ok m -> bs_cell m a <> bs_cell m b -> bs_get (bs_put a v m) b = bs_get m b
}.

(** Multi-byte accesses, the loops the code writes. *)
Definition get_le `{ByteStore M} (m : M) (addr : Z) (n : nat) : Z :=
  foldl (fun val i => val .| (bs_get m (addr + i) ≪ (8 * i))) 0 (seqZ 0 (Z.of_nat n)).
Definition put_le `{ByteStore M} (addr v : Z) (n : nat) (m : M) : M :=
  foldl (fun s i => bs_put (addr + i) (v ≫ (8 * i)) s) m (seqZ 0 (Z.of_nat n)).

Section Store.
  Context `{ByteStore M}.
  Implicit Types m : M.

(** The [n] addresses from [addr] have cells, all different. *)
Definition separate (m : M) (addr : Z) (n : nat) : Prop :=
  forall i j, 0 <= i < Z.of_nat n -> 0 <= j < Z.of_nat n ->
    is_Some (bs_cell m (addr + i)) /\
    (bs_cell m (addr + i) = bs_cell m (addr + j) -> i = j).

Lemma put_le_S addr v n m :
  put_le addr v (S n) m =
  bs_put (addr + Z.of_nat n) (v ≫ (8 * Z.of_nat n)) (put_le addr v n m).
Proof. unfold put_le. by rewrite seqZ_S, foldl_app. Qed.

Lemma get_le_S m addr n :
  get_le m addr (S n) = get_le m addr n .| (bs_get m (addr + Z.of_nat n) ≪ (8 * Z.of_nat n)).
Proof. unfold get_le. by rewrite seqZ_S, foldl_app. Qed.

Lemma put_le_shape addr v n m :
  bs_ok m ->
  bs_ok (put_le addr v n m) /\ forall b, bs_cell (put_le addr v n m) b = bs_cell m b.
Proof.
  intros Hok. induction n as [|n [IH1 IH2]]; [done|]. rewrite put_le_S.
  split; [by apply bs_put_ok|]. intros b. by rewrite bs_put_cell.
Qed.

(** Bytes outside the written cells keep their value. *)
Lemma put_le_frame addr v n m b :
  bs_ok m ->
  (forall i, 0 <= i < Z.of_nat n -> bs_cell m (addr + i) <> bs_cell m b) ->
  bs_get (put_le addr v n m) b = bs_get m b.
Proof.
  intros Hok. induction n as [|n IH]; intros Hne; [done|].
  destruct (put_le_shape addr v n m Hok) as [Hok' Hc].
  rewrite put_le_S, bs_get_put_ne; [apply IH| |]; [|done|].
  - intros i Hi. apply Hne. lia.
  - rewrite !Hc. apply Hne. lia.
Qed.

Lemma put_le_get addr v n m i :
  bs_ok m -> separate m addr n -> 0 <= i < Z.of_nat n ->
  bs_get (put_le addr v n m) (addr + i) = (v ≫ (8 * i)) mod 2 ^ 8.
Proof.
  intros Hok. induction n as [|n IH]; intros Hsep Hi; [lia|].
  destruct (put_le_shape addr v n m Hok) as [Hok' Hc]. rewrite put_le_S.
  destruct (Z.eq_dec i (Z.of_nat n)) as [->|].
  - apply bs_get_put_eq; [done|]. rewrite Hc. by apply (Hsep _ (Z.of_nat n)).
  - rewrite bs_get_put_ne; [apply IH| |]; [| lia | done |].
    + intros j k Hj Hk. apply Hsep; lia.
    + rewrite !Hc. intros E. apply (Hsep _ _) in E; lia.
Qed.

(** Bytes that are the digits of [v] in base 256 combine to [v]. *)
Lemma get_le_digits m addr n v :
  (forall i, 0 <= i < Z.of_nat n -> bs_get m (addr + i) = (v ≫ (8 * i)) mod 2 ^ 8) ->
  get_le m addr n = v mod 2 ^ (8 * Z.of_nat n).
Proof.
  induction n as [|n IH]; intros Hd; [by rewrite Z.mod_1_r|].
  rewrite get_le_S, IH by (intros; apply Hd; lia). rewrite Hd by lia.
  set (k := 8 * Z.of_nat n). pose proof (pow2_pos k ltac:(lia)).
  rewrite Z.shiftl_mul_pow2, Z.shiftr_div_pow2 by lia.
  rewrite (lor_low' k); [|lia| |by apply Z.mod_pos_bound].
  - replace (8 * Z.of_nat (S n)) with (k + 8) by lia.
    rewrite Z.pow_add_r by lia. rewrite Z.rem_mul_r by lia. lia.
  - apply Z.mod_mul. lia.
Qed.

Lemma get_put_le addr v n m :
  bs_ok m -> separate m addr n ->
  get_le (put_le addr v n m) addr n = v mod 2 ^ (8 * Z.of_nat n).
Proof. intros. apply get_le_digits. intros. by apply put_le_get. Qed.

End Store.

(** ** Instances *)

(** The simulator's memory: the cell is the masked address, MMIO has none. *)
Definition iss_cell (st : ISS) (a : Z) : option Z :=
  if MMIO_BASE <=? a then None else Some (a .& mem_mask st).

#[export, refine] Instance ISS_store : ByteStore ISS := {|
  bs_get := load_mem_byte;
  bs_put := store_mem_byte;
  bs_cell := iss_cell;
  bs_ok := wf
|}.
Proof.
  - intros. by apply wf_store_mem_byte.
  - intros m a v b _. unfold iss_cell, store_mem_byte. by destruct (_ <=? a).
  - intros m a v Hwf [c Hc]. unfold iss_cell in Hc.
    unfold load_mem_byte, store_mem_byte. destruct (_ <=? _); [done|].
    cbn [mem mem_mask with_mem]. rewrite zget_zset_eq by by apply mem_index_range.
    by apply (land_lit v 0xFF 8).
  - intros m a v b Hwf Hne. unfold iss_cell in Hne. unfold load_mem_byte, store_mem_byte.
    destruct (_ <=? a); [done|]. cbn [mem mem_mask with_mem]. destruct (_ <=? b); [done|].
    pose proof (mem_index_range m a Hwf). pose proof (mem_index_range m b Hwf).
    apply zget_zset_ne; [lia | lia | congruence].
Defined.

(** Python's [bytearray], indexed from zero; an assignment out of range raises in
    Python, so the tools check the range first and the store ignores it. *)
Definition array_in (l : list Z) (a : Z) : bool := (0 <=? a) && (a <? Z.of_nat (length l)).
Definition array_get (l : list Z) (a : Z) : Z := if array_in l a then zget l a else 0.
Definition array_put (a v : Z) (l : list Z) : list Z :=
  if array_in l a then zset l a (v .& 0xFF) else l.
Definition array_cell (l : list Z) (a : Z) : option Z :=
  if array_in l a then Some a else None.

Lemma array_in_put l a v b : array_in (array_put a v l) b = array_in l b.
Proof. unfold array_put. destruct (array_in l a); unfold array_in; by rewrite ?length_zset. Qed.

#[export, refine] Instance bytearray_store : ByteStore (list Z) := {|
  bs_get := array_get;
  bs_put := array_put;
  bs_cell := array_cell;
  bs_ok := fun _ => True
|}.
Proof.
  - done.
  - intros l a v b _. unfold array_cell. by rewrite array_in_put.
  - intros l a v _ [c Hc]. unfold array_get. rewrite array_in_put.
    unfold array_cell, array_put in *. destruct (array_in l a) eqn:E; [|done].
    unfold array_in in E. py_bool. rewrite zget_zset_eq by lia. by apply (land_lit v 0xFF 8).
  - intros l a v b _ Hne. unfold array_get. rewrite array_in_put.
    destruct (array_in l b) eqn:Eb; [|done]. unfold array_put.
    destruct (array_in l a) eqn:Ea; [|done]. unfold array_cell in Hne. rewrite Ea, Eb in Hne.
    unfold array_in in *. py_bool. apply zget_zset_ne; [lia | lia | congruence].
Defined.

(** ** The simulator's loads and stores *)

Lemma load_le_get st addr n : load_le st addr n = get_le st addr n.
Proof. done. Qed.

Lemma store_le_put st addr v n : store_le addr v n st = put_le addr v n st.
Proof. done. Qed.

Lemma load2_get st addr : load2 st addr = get_le st addr 2.
Proof. unfold load2, get_le. simpl. by rewrite !Z.add_0_r, !Z.shiftl_0_r. Qed.

Lemma load4_get st addr : load4 st addr = get_le st addr 4.
Proof. unfold load4, get_le. simpl. by rewrite !Z.add_0_r, !Z.shiftl_0_r. Qed.

(** With a power-of-two memory of at least [n] bytes, [n] consecutive RAM
    addresses are in different cells. *)
Lemma iss_separate st addr (n : nat) k :
  mem_mask st = 2 ^ k - 1 -> 0 <= k -> Z.of_nat n <= 2 ^ k -> addr + Z.of_nat n <= MMIO_BASE ->
  separate st addr n.
Proof.
  intros Hm Hk Hn Ha i j Hi Hj. cbn [bs_cell ISS_store]. unfold iss_cell.
  destruct (Z.leb_spec MMIO_BASE (addr + i)); [lia|].
  destruct (Z.leb_spec MMIO_BASE (addr + j)); [lia|].
  split; [by eexists|]. intros [= E]. rewrite Hm in E.
  assert (2 ^ k - 1 = Z.ones k) as Eo by (rewrite Z.ones_equiv; lia).
  rewrite Eo, !Z.land_ones in E by lia.
  pose proof (pow2_pos k Hk).
  pose proof (Z.div_mod (addr + i) (2 ^ k) ltac:(lia)) as Di.
  pose proof (Z.div_mod (addr + j) (2 ^ k) ltac:(lia)) as Dj. rewrite E in Di.
  assert (i - j = 2 ^ k * ((addr + i) / 2 ^ k - (addr + j) / 2 ^ k)) as D by lia.
  set (q := (addr + i) / 2 ^ k - (addr + j) / 2 ^ k) in *.
  destruct (Z.lt_trichotomy q 0) as [|[->|]]; nia.
Qed.

(** The byte width of a load or store. *)
Definition access_width (f3 : Z) : Z := 2 ^ (f3 .& 3).

Lemma sign_fill_8 v :
  0 <= v < 2 ^ 8 -> s32 (v .| (if truthy (v .& 0x80) then 0xFFFFFF00 else 0)) = signed v 8.
Proof.
  intros. change 0x80 with (1 ≪ (8 - 1)). rewrite <- (Z.mod_small v (2 ^ 8)) at 2 by done.
  rewrite sign_bit, signed_unfold, Z.mod_small by done. rewrite s32_signed.
  destruct (Z.ltb_spec v (2 ^ (8 - 1))); simpl negb; cbv iota.
  - rewrite Z.lor_0_r. apply signed_id; lia.
  - rewrite (lor_low' 8) by (done || lia). apply signed_unique; try lia.
    rewrite <- (Z.mod_add (v - 2 ^ 8) 1) by lia. f_equal. lia.
Qed.

Lemma sign_fill_16 v :
  0 <= v < 2 ^ 16 -> s32 (v .| (if truthy (v .& 0x8000) then 0xFFFF0000 else 0)) = signed v 16.
Proof.
  intros. change 0x8000 with (1 ≪ (16 - 1)). rewrite <- (Z.mod_small v (2 ^ 16)) at 2 by done.
  rewrite sign_bit, signed_unfold, Z.mod_small by done. rewrite s32_signed.
  destruct (Z.ltb_spec v (2 ^ (16 - 1))); simpl negb; cbv iota.
  - rewrite Z.lor_0_r. apply signed_id; lia.
  - rewrite (lor_low' 16) by (done || lia). apply signed_unique; try lia.
    rewrite <- (Z.mod_add (v - 2 ^ 16) 1) by lia. f_equal. lia.
Qed.

(** Each store width is a [put_le], each load width a [get_le] with its extension. *)
Lemma store_value_put f3 addr B st st' :
  store_value f3 addr B st = Ok st' ->
  (f3 = 0 /\ st' = put_le addr B 1 st) \/ (f3 = 1 /\ st' = put_le addr B 2 st) \/
  (f3 = 2 /\ st' = put_le addr B 4 st) \/ (f3 = 3 /\ st' = put_le addr B 8 st).
Proof.
  unfold store_value. intros E.
  repeat match type of E with (if ?f =? ?n then _ else _) = _ =>
    destruct (Z.eqb_spec f n) as [->|] end; try done; apply Ok_inj in E; subst st';
    [left | right; left | do 2 right; left | do 3 right]; (split; [done|]);
    first [ reflexivity
          | unfold put_le; simpl; by rewrite ?Z.add_0_r, ?Z.shiftr_0_r ].
Qed.

Lemma load_value_get st addr :
  wf st ->
  load_value st 0 addr = Ok (signed (get_le st addr 1) 8) /\
  load_value st 1 addr = Ok (signed (get_le st addr 2) 16) /\
  load_value st 2 addr = Ok (signed (get_le st addr 4) 32) /\
  load_value st 3 addr = Ok (get_le st addr 8) /\
  load_value st 4 addr = Ok (get_le st addr 1) /\
  load_value st 5 addr = Ok (get_le st addr 2) /\
  load_value st 6 addr = Ok (get_le st addr 4).
Proof.
  intros Hwf.
  assert (get_le st addr 1 = load_mem_byte st addr) as E1
    by (unfold get_le; simpl; by rewrite Z.add_0_r, Z.shiftl_0_r).
  pose proof (load_mem_byte_range st addr Hwf) as H1.
  pose proof (load_mem_byte_range st (addr + 1) Hwf) as H2. unfold is_byte in *.
  assert (0 <= load2 st addr < 2 ^ 16).
  { unfold load2. fields_norm. lia. }
  unfold load_value. simpl (_ =? _). cbv iota zeta.
  rewrite sign_fill_8, sign_fill_16, s32_signed, E1, <- load2_get, <- load4_get by done.
  done.
Qed.

(** C5: a store followed by a load of the same width at the same RAM address
    returns the stored value, sign-extended for [lb]/[lh]/[lw], zero-extended
    for [lbu]/[lhu]/[lwu], whole for [ld]; and every byte in another memory
    cell keeps its value.  The memory size is a power of two of at least 8
    bytes, as the simulator's address mask requires. *)
Theorem store_load_roundtrip f3 addr B st st' k :
  wf st -> mem_mask st = 2 ^ k - 1 -> 3 <= k -> addr + 8 <= MMIO_BASE ->
  store_value f3 addr B st = Ok st' ->
  load_value st' f3 addr = Ok (if f3 =? 3 then B mod 2 ^ 64 else signed B (8 * access_width f3)) /\
  (f3 <> 3 -> load_value st' (f3 + 4) addr = Ok (B mod 2 ^ (8 * access_width f3))) /\
  (forall a, (forall i, 0 <= i < access_width f3 -> iss_cell st (addr + i) <> iss_cell st a) ->
     load_mem_byte st' a = load_mem_byte st a).
Proof.
  intros Hwf Hm Hk Ha Hs.
  assert (8 <= 2 ^ k) by (change 8 with (2 ^ 3); apply Z.pow_le_mono_r; lia).
  assert (Hsep : forall n : nat, (n <= 8)%nat -> separate st addr n)
    by (intros n Hn; apply (iss_separate _ _ _ k); lia).
  pose proof (Hwf : bs_ok st) as Hok. pose proof (store_value_put _ _ _ _ _ Hs) as D.
  destruct D as [[-> ->]|[[-> ->]|[[-> ->]|[-> ->]]]];
    match goal with |- context [put_le addr B ?n st] =>
      pose proof (get_put_le addr B n st Hok (Hsep n ltac:(lia))) as G;
      pose proof (put_le_frame addr B n st) as F;
      destruct (load_value_get (put_le addr B n st) addr (proj1 (put_le_shape addr B n st Hok)))
        as (L0 & L1 & L2 & L3 & L4 & L5 & L6) end;
    (split; [|split; [|intros a Hne; apply F; [exact Hok | exact Hne]]]).
  - rewrite L0, G. f_equal. by apply signed_of_mod.
  - intros _. etransitivity; [exact L4|]. by rewrite G.
  - rewrite L1, G. f_equal. by apply signed_of_mod.
  - intros _. etransitivity; [exact L5|]. by rewrite G.
  - rewrite L2, G. f_equal. by apply signed_of_mod.
  - intros _. etransitivity; [exact L6|]. by rewrite G.
  - by rewrite L3, G.
  - done.
Qed.

Example store_load_roundtrip_witness :
  exists st', store_value 1 100 0xFFFF8001 (init 128 32) = Ok st' /\
    load_value st' 1 100 = Ok (-32767) /\ load_value st' 5 100 = Ok 0x8001.
Proof.
  eexists. split; [reflexivity|].
  assert (wf (init 128 32)) as Hwf by (apply wf_init; [by left | done]).
  destruct (store_load_roundtrip 1 100 0xFFFF8001 (init 128 32) _ 7 Hwf eq_refl
    ltac:(lia) ltac:(done) eq_refl) as (H1 & H2 & _).
  split; [exact H1 | exact (H2 ltac:(lia))].
Defined.
