(* ===== verification/Csr.v ===== *)
(** * The CSR file and the trap machinery

    Theorems about [csr_read], [csr_write], [trap], [mret] and [sret] of
    [Machine.v]: what a write reads back as, which registers it can touch, and
    that trap entry followed by the matching return restores the interrupted
    context. *)

From S2P Require Import Prelude Bits Machine.
Open Scope Z_scope.

(** ** Reading back the dict *)

Lemma csr_at_set_eq st k v : csr_at (set_csr k v st) k = v.
Proof. unfold csr_at, set_csr. simpl. by rewrite lookup_insert_eq. Qed.

Lemma csr_at_set_ne st k k' v : k <> k' -> csr_at (set_csr k v st) k' = csr_at st k'.
Proof. intros. unfold csr_at, set_csr. simpl. by rewrite lookup_insert_ne. Qed.

Lemma csr_at_store_eq st k v :
  wf st -> csr_at (csr_store k v st) k = if decide (k ∈ csr_init_keys) then u32 v else 0.
Proof.
  intros H. unfold csr_store. pose proof (wf_csr_keys _ H k) as Hk.
  destruct (csr st !! k) eqn:E; case_decide as D.
  - apply csr_at_set_eq.
  - destruct D. apply Hk. eauto.
  - apply Hk in D. by destruct D.
  - unfold csr_at. by rewrite E.
Qed.

Lemma csr_at_store_ne st k k' v : k <> k' -> csr_at (csr_store k v st) k' = csr_at st k'.
Proof. intros. unfold csr_store. case_match; [by apply csr_at_set_ne | done]. Qed.

(** ** Views *)

(** [((m >> k) & 1) << k] is bit [k] of [m] in place. *)
Lemma bit_view m k : 0 <= k -> ((m ≫ k) .& 1) ≪ k = m .& (1 ≪ k).
Proof.
  intros. apply Z.bits_inj'. intros i Hi.
  rewrite Z.land_spec, !Z.shiftl_spec, Z.land_spec by lia.
  destruct (Z.lt_ge_cases i k).
  - rewrite !(Z.testbit_neg_r _ (i - k)) by lia. by rewrite ?andb_false_l, ?andb_false_r.
  - rewrite Z.shiftr_spec by lia. by replace (i - k + k) with i by lia.
Qed.

Lemma three_bit_view m a b c :
  0 <= a -> 0 <= b -> 0 <= c ->
  (((m ≫ a) .& 1) ≪ a) .| (((m ≫ b) .& 1) ≪ b) .| (((m ≫ c) .& 1) ≪ c) =
  m .& ((1 ≪ a) .| (1 ≪ b) .| (1 ≪ c)).
Proof. intros. by rewrite !bit_view, !Z.land_lor_distr_r by done. Qed.

Lemma u32_land v M : M .& 0xFFFFFFFF = M -> u32 (v .& M) = v .& M.
Proof. intros E. unfold u32. by rewrite <- Z.land_assoc, E. Qed.

Lemma land_u32 v M : M .& 0xFFFFFFFF = M -> u32 v .& M = v .& M.
Proof. intros E. unfold u32. by rewrite <- Z.land_assoc, (Z.land_comm 0xFFFFFFFF), E. Qed.

(** Masked read-modify-write: the bits of [M] come from [v], the others stay. *)
Lemma land_merge_in m v M : ((m .& Z.lnot M) .| (v .& M)) .& M = v .& M.
Proof.
  apply Z.bits_inj'. intros i Hi. rewrite !Z.land_spec, Z.lor_spec, !Z.land_spec, Z.lnot_spec by lia.
  by destruct (Z.testbit m i), (Z.testbit v i), (Z.testbit M i).
Qed.

Lemma land_merge_out m v M M' :
  M .& M' = 0 -> ((m .& Z.lnot M) .| (v .& M)) .& M' = m .& M'.
Proof.
  intros D. apply Z.bits_inj'. intros i Hi.
  assert (Z.testbit M i && Z.testbit M' i = false) as Di by by rewrite <- Z.land_spec, D, Z.testbit_0_l.
  rewrite !Z.land_spec, Z.lor_spec, !Z.land_spec, Z.lnot_spec by lia.
  destruct (Z.testbit m i), (Z.testbit v i), (Z.testbit M i), (Z.testbit M' i); done.
Qed.

Lemma sstatus_view st : csr_read st CSR_SSTATUS = csr_at st CSR_MSTATUS .& SSTATUS_MASK.
Proof. unfold csr_read. simpl (_ =? _). cbv iota zeta. by apply three_bit_view. Qed.
Lemma sie_view st : csr_read st CSR_SIE = csr_at st CSR_MIE .& SIE_MASK.
Proof. unfold csr_read. simpl (_ =? _). cbv iota zeta. by apply three_bit_view. Qed.
Lemma sip_view st : csr_read st CSR_SIP = csr_at st CSR_MIP .& SIE_MASK.
Proof. unfold csr_read. simpl (_ =? _). cbv iota zeta. by apply three_bit_view. Qed.

(** ** Read after write *)

(** The fixed UXL/SXL bits [csr_read] adds to [mstatus] at XLEN 64. *)
Definition mxl_bits (xl : Z) : Z :=
  if xl =? 64 then (MXL_XLEN64 ≪ MSTATUS_UXL_LO) .| (MXL_XLEN64 ≪ MSTATUS_SXL_LO) else 0.

(** The legal value each CSR turns a written value into. *)
Definition csr_legal (xl addr val : Z) : Z :=
  if addr =? CSR_FFLAGS then val mod 2 ^ 5
  else if addr =? CSR_FRM then val mod 2 ^ 3
  else if addr =? CSR_FCSR then val mod 2 ^ 8
  else if addr =? CSR_MSTATUS then (val .& MSTATUS_MASK) .| mxl_bits xl
  else if addr =? CSR_SSTATUS then val .& SSTATUS_MASK
  else if addr =? CSR_MIE then val .& MIE_MASK
  else if addr =? CSR_SIE then val .& SIE_MASK
  else if (addr =? CSR_MIP) || (addr =? CSR_SIP) then val .& SIE_MASK
  else if addr =? CSR_MEDELEG then val .& MEDELEG_MASK
  else if addr =? CSR_MIDELEG then val .& MIDELEG_MASK
  else if decide (addr ∈ csr_init_keys) then val mod 2 ^ 32 else 0.

(** The next comparison of the address dispatch. *)
Ltac next_addr addr :=
  match goal with |- context [addr =? ?k] => destruct (Z.eqb_spec addr k) as [->|] end.

(** [csr_read] of an address with no special case. *)
Lemma csr_read_plain st addr :
  addr <> CSR_FFLAGS -> addr <> CSR_FRM -> addr <> CSR_FCSR -> addr <> CSR_SSTATUS ->
  addr <> CSR_SIE -> addr <> CSR_SIP -> addr <> CSR_MSTATUS ->
  csr_read st addr = csr_at st addr.
Proof.
  intros. unfold csr_read. repeat (next_addr addr; [done|]). done.
Qed.

Lemma csr_read_mstatus st :
  csr_read st CSR_MSTATUS = csr_at st CSR_MSTATUS .| mxl_bits (xlen st).
Proof.
  unfold csr_read, mxl_bits. simpl (_ =? _). cbv iota. rewrite andb_true_l.
  destruct (xlen st =? 64); [by rewrite Z.lor_assoc | by rewrite Z.lor_0_r].
Qed.

(** Reading back a CSR write.  A CSR read immediately after a write of the
    same address returns the written value cut down to the register's legal
    bits: the five flag bits, the rounding mode, the implemented [mstatus],
    [mie], delegation and pending bits (with the fixed UXL/SXL fields at 64
    bits), the S-level views restricted to their own bits, 32 bits for the
    plain registers, and 0 for an unimplemented address. *)
Lemma csr_write_read addr val st :
  wf st -> csr_read (csr_write addr val st) addr = csr_legal (xlen st) addr val.
Proof.
  intros Hwf. unfold csr_legal, csr_write.
  destruct (Z.eqb_spec addr CSR_FFLAGS) as [->|];
    [rewrite <- !Z.land_ones by done;
     change (csr_read _ _) with ((val .& 0x1F) .& 0x1F); by rewrite <- Z.land_assoc|].
  destruct (Z.eqb_spec addr CSR_FRM) as [->|];
    [rewrite <- !Z.land_ones by done;
     change (csr_read _ _) with ((val .& 0x7) .& 0x7); by rewrite <- Z.land_assoc|].
  destruct (Z.eqb_spec addr CSR_FCSR) as [->|].
  { change (csr_read _ _) with
      (((((val ≫ 5) .& 0x7) .& 0x7) ≪ 5) .| ((val .& 0x1F) .& 0x1F)).
    rewrite <- !Z.land_assoc. change (0x7 .& 0x7) with 0x7. change (0x1F .& 0x1F) with 0x1F. fields. }
  destruct (Z.eqb_spec addr CSR_MSTATUS) as [->|].
  { rewrite csr_read_mstatus, csr_at_store_eq by done. rewrite decide_True by by apply csr_key.
    rewrite u32_land by done. unfold csr_store. by case_match. }
  destruct (Z.eqb_spec addr CSR_SSTATUS) as [->|].
  { cbv zeta. rewrite sstatus_view, csr_at_set_eq, land_u32 by done. apply land_merge_in. }
  destruct (Z.eqb_spec addr CSR_MIE) as [->|].
  { rewrite csr_read_plain, csr_at_store_eq by done. rewrite decide_True by by apply csr_key.
    by apply u32_land. }
  destruct (Z.eqb_spec addr CSR_SIE) as [->|].
  { cbv zeta. rewrite sie_view, csr_at_set_eq, land_u32 by done. apply land_merge_in. }
  destruct (Z.eqb_spec addr CSR_MIP) as [->|];
    [rewrite csr_read_plain by done; simpl orb; cbv iota; rewrite csr_at_set_eq; by apply u32_land|].
  destruct (Z.eqb_spec addr CSR_SIP) as [->|].
  { simpl orb. cbv iota. rewrite sip_view, csr_at_set_eq, land_u32 by done.
    by rewrite <- Z.land_assoc. }
  simpl orb. cbv iota.
  destruct (Z.eqb_spec addr CSR_MEDELEG) as [->|];
    [rewrite csr_read_plain, csr_at_store_eq by done; rewrite decide_True by (by apply csr_key);
     by apply u32_land|].
  destruct (Z.eqb_spec addr CSR_MIDELEG) as [->|];
    [rewrite csr_read_plain, csr_at_store_eq by done; rewrite decide_True by (by apply csr_key);
     by apply u32_land|].
  rewrite csr_read_plain, csr_at_store_eq by done. case_decide; [apply u32_mod | done].
Qed.

Definition csr_write_read_state : ISS := init 4096 64.

(** ** The registers a write can reach *)

(** Where each CSR address keeps its value: views share a slot with the register
    they look into. *)
Inductive slot : Type := SFlags | SFrm | SCsr (k : Z).

#[global] Instance slot_eq_dec : EqDecision slot.
Proof. solve_decision. Defined.

Definition csr_slots (addr : Z) : list slot :=
  if addr =? CSR_FFLAGS then [SFlags]
  else if addr =? CSR_FRM then [SFrm]
  else if addr =? CSR_FCSR then [SFlags; SFrm]
  else if addr =? CSR_SSTATUS then [SCsr CSR_MSTATUS]
  else if addr =? CSR_SIE then [SCsr CSR_MIE]
  else if addr =? CSR_SIP then [SCsr CSR_MIP]
  else [SCsr addr].

Definition slot_value (st : ISS) (s : slot) : Z :=
  match s with SFlags => fflags st | SFrm => frm st | SCsr k => csr_at st k end.

Lemma slot_set_csr st k v s : s <> SCsr k -> slot_value (set_csr k v st) s = slot_value st s.
Proof. destruct s; try done. intros Hs. simpl. apply csr_at_set_ne. congruence. Qed.

Lemma slot_csr_store st k v s : s <> SCsr k -> slot_value (csr_store k v st) s = slot_value st s.
Proof. intros. unfold csr_store. case_match; [by apply slot_set_csr | done]. Qed.

Create HintDb slots.
#[export] Hint Resolve slot_set_csr slot_csr_store : slots.

(** A write leaves every slot alone that its address does not own. *)
Lemma csr_write_slot addr val st s :
  s ∉ csr_slots addr -> slot_value (csr_write addr val st) s = slot_value st s.
Proof.
  unfold csr_slots, csr_write. cbv zeta.
  repeat (next_addr addr;
    [simpl; rewrite ?not_elem_of_cons; intros; destruct_and?;
     (by auto with slots) || (by destruct s)|]).
  all: simpl; rewrite not_elem_of_cons; intros; destruct_and?; auto with slots.
Qed.

Ltac slot_eqs :=
  cbn [slot_value]; intros; destruct_and?;
  repeat match goal with H : _ = _ |- _ => rewrite H; clear H end.

(** What a read returns depends on the slots of its address alone. *)
Lemma csr_read_slots st st' addr :
  xlen st' = xlen st ->
  Forall (fun s => slot_value st' s = slot_value st s) (csr_slots addr) ->
  csr_read st' addr = csr_read st addr.
Proof.
  unfold csr_slots, csr_read. intros Hx.
  repeat (next_addr addr; [by rewrite ?Forall_cons; slot_eqs|]).
  by rewrite ?Forall_cons; slot_eqs.
Qed.

Lemma xlen_csr_write addr val st : xlen (csr_write addr val st) = xlen st.
Proof. unfold csr_write, csr_store. cbv zeta. repeat case_match; done. Qed.

(** A CSR write is invisible through every address that shares no storage
    with it: two addresses interfere only if both name the same register, one
    is the S-level view of the other, or one is [fcsr] and the other one of its
    fields. *)
Lemma csr_write_frame addr addr' val st :
  csr_slots addr ## csr_slots addr' ->
  csr_read (csr_write addr val st) addr' = csr_read st addr'.
Proof.
  intros D. apply csr_read_slots; [apply xlen_csr_write|].
  apply Forall_forall. intros s Hs. apply csr_write_slot. intros Hs'. by apply (D s).
Qed.

(** C6: the CSR file is a store.  A read after a write of the same address returns
    the written value cut down to the register's legal bits: the flag bits, the
    rounding mode, the implemented bits of [mstatus], [mie], the delegation and
    pending registers (with the fixed UXL and SXL fields at 64 bits), the S-level
    views restricted to their own bits, 32 bits for the plain registers, and 0 for an
    unimplemented address; and the write is invisible through every address that
    shares no storage with it: two addresses interfere only if both name the same
    register, one is the S-level view of the other, or one is [fcsr] and the other
    one of its fields. *)
Theorem csr_file_spec addr val st :
  wf st ->
  csr_read (csr_write addr val st) addr = csr_legal (xlen st) addr val /\
  forall addr', csr_slots addr ## csr_slots addr' -> csr_read (csr_write addr val st) addr' = csr_read st addr'.
Proof. intros W. split; [by apply csr_write_read|]. intros addr' D. by apply csr_write_frame. Qed.

Lemma csr_file_spec_witness :
  csr_read (csr_write CSR_MSTATUS (-1) csr_write_read_state) CSR_MSTATUS = 0xA000019AA /\
  csr_read (csr_write CSR_SIE 0x222 csr_write_read_state) CSR_MSTATUS = 0xA00000000.
Proof.
  assert (W : wf csr_write_read_state) by (by apply wf_init; [right|]).
  assert (D : csr_slots CSR_SIE ## csr_slots CSR_MSTATUS).
  { intros s H1%list_elem_of_singleton H2%list_elem_of_singleton. by simplify_eq. }
  split.
  - destruct (csr_file_spec CSR_MSTATUS (-1) csr_write_read_state W) as [-> _]. reflexivity.
  - destruct (csr_file_spec CSR_SIE 0x222 csr_write_read_state W) as [_ F]. rewrite (F CSR_MSTATUS D). reflexivity.
Defined.

(** ** [mstatus] across trap entry and return, bit by bit *)

Lemma testbit_u32 v i : 0 <= i -> Z.testbit (u32 v) i = (i <? 32) && Z.testbit v i.
Proof.
  intros. rewrite u32_mod. destruct (Z.ltb_spec i 32).
  - by rewrite Z.mod_pow2_bits_low.
  - by rewrite Z.mod_pow2_bits_high by lia.
Qed.

Lemma testbit_small v n i : 0 <= v < 2 ^ n -> n <= i -> Z.testbit v i = false.
Proof.
  intros Hv Hi. destruct (Z.lt_ge_cases n 0) as [Hn|Hn].
  - rewrite Z.pow_neg_r in Hv by done. lia.
  - rewrite <- (Z.mod_small v (2 ^ n)) by done. apply Z.mod_pow2_bits_high. lia.
Qed.

(** Bit [i] of a one-bit field moved from [k] to [j]. *)
Lemma testbit_moved v k j i :
  0 <= k -> 0 <= i -> Z.testbit (((v ≫ k) .& 1) ≪ j) i = (i =? j) && Z.testbit v k.
Proof.
  intros. rewrite bit_at by done. rewrite Z.shiftl_spec by done.
  destruct (Z.eqb_spec i j) as [->|].
  - rewrite Z.sub_diag. apply Z.b2z_bit0.
  - destruct (Z.lt_ge_cases i j); [by rewrite Z.testbit_neg_r by lia|].
    apply (testbit_small _ 1); [|lia]. destruct (Z.testbit v k); simpl; lia.
Qed.

Lemma testbit_pow2 k i : 0 <= k -> Z.testbit (1 ≪ k) i = (k =? i).
Proof. intros. rewrite shiftl_1 by done. by apply Z.pow2_bits_eqb. Qed.

Lemma testbit_3 k i : 0 <= i -> Z.testbit (3 ≪ k) i = (i =? k) || (i =? k + 1).
Proof.
  intros. rewrite Z.shiftl_spec by done.
  destruct (Z.eqb_spec i k) as [->|]; [by rewrite Z.sub_diag|].
  destruct (Z.eqb_spec i (k + 1)) as [->|]; [by replace (k + 1 - k) with 1 by lia|].
  destruct (Z.lt_ge_cases i k); [by rewrite Z.testbit_neg_r by lia|].
  apply (testbit_small _ 2); lia.
Qed.

(** The privilege mode in the MPP field. *)
Lemma testbit_priv p k i :
  0 <= p <= 3 -> 0 <= i ->
  Z.testbit (p ≪ k) i =
    ((i =? k) && Z.testbit p 0) || ((i =? k + 1) && Z.testbit p 1).
Proof.
  intros. rewrite Z.shiftl_spec by done.
  destruct (Z.eqb_spec i k) as [->|].
  { rewrite Z.sub_diag. destruct (Z.eqb_spec k (k + 1)); [lia|]. by rewrite orb_false_r. }
  destruct (Z.eqb_spec i (k + 1)) as [->|]; [by replace (k + 1 - k) with 1 by lia|].
  destruct (Z.lt_ge_cases i k); [by rewrite Z.testbit_neg_r by lia|].
  apply (testbit_small _ 2); lia.
Qed.

Lemma mstatus_high st i : wf st -> 32 <= i -> Z.testbit (csr_at st CSR_MSTATUS) i = false.
Proof. intros H. apply testbit_small. by apply csr_at_u32. Qed.

(** Expands a bit of an [mstatus] update and decides it by cases on the index. *)
Ltac mstatus_bit :=
  rewrite testbit_u32, ?Z.lor_spec, ?Z.land_spec, ?Z.lnot_spec, ?Z.lor_spec by done;
  rewrite ?testbit_moved, ?testbit_pow2, ?testbit_3, ?testbit_priv by done;
  repeat match goal with |- context [?a =? ?b] => destruct (Z.eqb_spec a b); subst; try lia end;
  repeat match goal with |- context [?a <? ?b] => destruct (Z.ltb_spec a b); try lia end;
  rewrite ?andb_true_r, ?andb_false_r, ?orb_false_r, ?orb_true_r, ?andb_true_l, ?andb_false_l, ?orb_false_l;
  try done; try (symmetry; auto).

Definition trap_m_bit (m p i : Z) : bool :=
  if i =? 3 then false else if i =? 7 then Z.testbit m 3
  else if i =? 11 then Z.testbit p 0 else if i =? 12 then Z.testbit p 1
  else Z.testbit m i.

Definition trap_s_bit (m p i : Z) : bool :=
  if i =? 1 then false else if i =? 5 then Z.testbit m 1
  else if i =? 8 then Z.testbit p 0 else Z.testbit m i.

Lemma mstatus_trap_m cause tval st i :
  wf st -> trap_to_s st cause = false -> 0 <= i ->
  Z.testbit (csr_at (trap cause tval st) CSR_MSTATUS) i =
    trap_m_bit (csr_at st CSR_MSTATUS) (priv_mode st) i.
Proof.
  intros Hwf E Hi. pose proof (mstatus_high st i Hwf). pose proof (wf_priv _ Hwf).
  unfold trap, trap_m_bit. rewrite E. cbv zeta.
  change (csr_at (with_pc _ (with_priv _ ?s)) ?k) with (csr_at s k).
  rewrite csr_at_set_eq. unfold MSTATUS_MPP_LO. mstatus_bit.
Qed.

Lemma mstatus_trap_s cause tval st i :
  wf st -> trap_to_s st cause = true -> 0 <= i ->
  Z.testbit (csr_at (trap cause tval st) CSR_MSTATUS) i =
    trap_s_bit (csr_at st CSR_MSTATUS) (priv_mode st) i.
Proof.
  intros Hwf E Hi. pose proof (mstatus_high st i Hwf).
  unfold trap, trap_s_bit. rewrite E. cbv zeta.
  change (csr_at (with_pc _ (with_priv _ ?s)) ?k) with (csr_at s k).
  rewrite csr_at_set_eq.
  unfold SSTATUS_MASK, MSTATUS_SIE_BIT, MSTATUS_SPIE_BIT, MSTATUS_SPP_BIT.
  rewrite <- (Z.shiftr_0_r (priv_mode st)). mstatus_bit.
Qed.

Lemma mstatus_mret st i :
  wf st -> 0 <= i ->
  Z.testbit (csr_at (mret st) CSR_MSTATUS) i =
    let m := csr_at st CSR_MSTATUS in
    if i =? 3 then Z.testbit m 7 else if i =? 7 then true
    else if (i =? 11) || (i =? 12) then false else Z.testbit m i.
Proof.
  intros Hwf Hi. pose proof (mstatus_high st i Hwf). unfold mret. cbv zeta.
  change (csr_at (with_pc _ (with_priv _ ?s)) ?k) with (csr_at s k).
  rewrite csr_at_set_eq. unfold MSTATUS_MPP_LO, PRIV_U.
  rewrite Z.shiftl_0_l, Z.lor_0_r. mstatus_bit.
Qed.

Lemma mstatus_sret st i :
  wf st -> 0 <= i ->
  Z.testbit (csr_at (sret st) CSR_MSTATUS) i =
    let m := csr_at st CSR_MSTATUS in
    if i =? 1 then Z.testbit m 5 else if i =? 5 then true
    else if i =? 8 then false else Z.testbit m i.
Proof.
  intros Hwf Hi. pose proof (mstatus_high st i Hwf). unfold sret. cbv zeta.
  change (csr_at (with_pc _ (with_priv _ ?s)) ?k) with (csr_at s k).
  rewrite csr_at_set_eq.
  unfold SSTATUS_MASK, MSTATUS_SIE_BIT, MSTATUS_SPIE_BIT, MSTATUS_SPP_BIT. mstatus_bit.
Qed.

(** ** Trap entry *)

(** The registers a trap writes besides [mstatus]. *)
Definition epc_reg (s : bool) : Z := if s then CSR_SEPC else CSR_MEPC.
Definition cause_reg (s : bool) : Z := if s then CSR_SCAUSE else CSR_MCAUSE.
Definition tval_reg (s : bool) : Z := if s then CSR_STVAL else CSR_MTVAL.
Definition vec_reg (s : bool) : Z := if s then CSR_STVEC else CSR_MTVEC.
Definition trap_regs (s : bool) : list Z := [CSR_MSTATUS; epc_reg s; cause_reg s; tval_reg s].

Lemma trap_csr_other cause tval st k :
  k ∉ trap_regs (trap_to_s st cause) -> csr_at (trap cause tval st) k = csr_at st k.
Proof.
  unfold trap, trap_regs. cbv zeta. destruct (trap_to_s st cause);
    rewrite !not_elem_of_cons; intros (? & ? & ? & ? & _);
    change (csr_at (with_pc _ (with_priv _ ?s)) ?k) with (csr_at s k);
    by rewrite !csr_at_set_ne by done.
Qed.

Lemma trap_csr_written cause tval st :
  let st' := trap cause tval st in
  let s := trap_to_s st cause in
  csr_at st' (epc_reg s) = pc st /\ csr_at st' (cause_reg s) = u32 cause /\
  csr_at st' (tval_reg s) = u32 tval.
Proof.
  unfold trap. cbv zeta. destruct (trap_to_s st cause); simpl epc_reg; simpl cause_reg;
    simpl tval_reg; change (csr_at (with_pc _ (with_priv _ ?s)) ?k) with (csr_at s k);
    split_and!; by repeat (rewrite csr_at_set_eq || rewrite csr_at_set_ne by done).
Qed.

Lemma trap_target cause tval st :
  let s := trap_to_s st cause in
  priv_mode (trap cause tval st) = (if s then PRIV_S else PRIV_M) /\
  pc (trap cause tval st) = csr_at st (vec_reg s).
Proof.
  unfold trap. cbv zeta. destruct (trap_to_s st cause); split; try done;
    cbn [pc with_pc]; change (csr_at (with_priv _ ?s) ?k) with (csr_at s k);
    by rewrite !csr_at_set_ne by done.
Qed.

Lemma trap_frame cause tval st :
  let st' := trap cause tval st in
  xlen st' = xlen st /\ regs st' = regs st /\ mem st' = mem st /\ fregs st' = fregs st /\
  frm st' = frm st /\ fflags st' = fflags st /\ halted st' = halted st /\
  pending_interrupt st' = pending_interrupt st.
Proof. unfold trap. cbv zeta. by destruct (trap_to_s st cause). Qed.


Definition trap_demo : ISS :=
  with_pc 0x1234 (with_priv PRIV_U (set_csr CSR_STVEC 0x800
    (set_csr CSR_MEDELEG (1 ≪ 8) (set_csr CSR_MSTATUS 2 (init 4096 32))))).

Lemma wf_trap_demo : wf trap_demo.
Proof.
  unfold trap_demo. apply wf_with_pc; [done|]. apply wf_with_priv; [done|].
  repeat (apply wf_set_csr; [by apply csr_key | done | done |]). by apply wf_init; [left|].
Qed.


(** ** Trap entry followed by the matching return *)

Lemma two_bits m k p :
  0 <= k -> 0 <= p <= 3 -> Z.testbit m k = Z.testbit p 0 ->
  Z.testbit m (k + 1) = Z.testbit p 1 -> (m ≫ k) .& 3 = p.
Proof.
  intros Hk Hp H0 H1. apply Z.bits_inj'. intros i Hi.
  rewrite Z.land_spec, Z.shiftr_spec by done.
  destruct (decide (i = 0)) as [->|]; [by rewrite Z.add_0_l, H0, andb_true_r|].
  destruct (decide (i = 1)) as [->|]; [by rewrite Z.add_comm, H1, andb_true_r|].
  rewrite (testbit_small 3 2), (testbit_small p 2) by lia. apply andb_false_r.
Qed.

(** An M-mode handler returns to the interrupted program.  Whatever the
    handler did, if it ends with [mepc] and [mstatus] as the trap left them,
    [mret] puts back the pc, the privilege mode and every bit of [mstatus],
    the global interrupt enable included, except the MPIE and MPP fields that
    the trap consumed. *)
Lemma trap_mret_resumes cause tval st h :
  wf st -> trap_to_s st cause = false ->
  wf h -> csr_at h CSR_MEPC = csr_at (trap cause tval st) CSR_MEPC ->
  csr_at h CSR_MSTATUS = csr_at (trap cause tval st) CSR_MSTATUS ->
  pc (mret h) = pc st /\ priv_mode (mret h) = priv_mode st /\
  (forall i, 0 <= i -> i <> 7 -> i <> 11 -> i <> 12 ->
     Z.testbit (csr_at (mret h) CSR_MSTATUS) i = Z.testbit (csr_at st CSR_MSTATUS) i).
Proof.
  intros Hwf E Hh Hepc Hm.
  pose proof (fun i => mstatus_trap_m cause tval st i Hwf E) as B. rewrite <- Hm in B.
  pose proof (trap_csr_written cause tval st) as (Pepc & _). rewrite E in Pepc. simpl in Pepc.
  split_and!.
  - unfold mret. cbn [pc with_pc]. change (csr_at (with_priv _ ?s) ?k) with (csr_at s k).
    rewrite csr_at_set_ne by done. congruence.
  - unfold mret. cbn [priv_mode with_pc with_priv].
    apply two_bits; [done | apply (wf_priv _ Hwf) | by rewrite B | by rewrite B].
  - intros i ? ? ? ?. rewrite mstatus_mret by done. cbv zeta. rewrite !B by done.
    unfold trap_m_bit. repeat case_match; py_bool; subst; (done || lia).
Qed.

(** An S-mode handler of a trap delegated from U- or S-mode returns to the
    interrupted program in the same sense: [sret] puts back the pc, the
    privilege mode and every [mstatus] bit but the consumed SPIE and SPP. *)
Lemma trap_sret_resumes cause tval st h :
  wf st -> trap_to_s st cause = true -> priv_mode st < 2 ->
  wf h -> csr_at h CSR_SEPC = csr_at (trap cause tval st) CSR_SEPC ->
  csr_at h CSR_MSTATUS = csr_at (trap cause tval st) CSR_MSTATUS ->
  pc (sret h) = pc st /\ priv_mode (sret h) = priv_mode st /\
  (forall i, 0 <= i -> i <> 5 -> i <> 8 ->
     Z.testbit (csr_at (sret h) CSR_MSTATUS) i = Z.testbit (csr_at st CSR_MSTATUS) i).
Proof.
  intros Hwf E Hp Hh Hepc Hm.
  pose proof (fun i => mstatus_trap_s cause tval st i Hwf E) as B. rewrite <- Hm in B.
  pose proof (trap_csr_written cause tval st) as (Pepc & _). rewrite E in Pepc. simpl in Pepc.
  pose proof (wf_priv _ Hwf). split_and!.
  - unfold sret. cbn [pc with_pc]. change (csr_at (with_priv _ ?s) ?k) with (csr_at s k).
    rewrite csr_at_set_ne by done. congruence.
  - unfold sret. cbn [priv_mode with_pc with_priv]. rewrite bit_at, B by done.
    assert (priv_mode st = 0 \/ priv_mode st = 1) as [Hpr|Hpr] by lia;
      unfold trap_s_bit; simpl (_ =? _); cbv iota; by rewrite Hpr.
  - intros i ? ? ?. rewrite mstatus_sret by done. cbv zeta. rewrite !B by done.
    unfold trap_s_bit. repeat case_match; py_bool; subst; (done || lia).
Qed.

(** C9: a trap handler returns to the interrupted program.  Whatever the handler
    did, if it ends with the exception pc and [mstatus] as the trap left them,
    [mret], after a trap taken in M-mode, and [sret], after one delegated to
    S-mode, put back the pc, the privilege mode and every bit of [mstatus], the
    global interrupt enable included, except the fields the trap consumed (MPIE
    and MPP, SPIE and SPP). *)
Theorem trap_return_resumes cause tval st h :
  wf st -> wf h -> csr_at h CSR_MSTATUS = csr_at (trap cause tval st) CSR_MSTATUS ->
  (trap_to_s st cause = false -> csr_at h CSR_MEPC = csr_at (trap cause tval st) CSR_MEPC ->
   pc (mret h) = pc st /\ priv_mode (mret h) = priv_mode st /\
   (forall i, 0 <= i -> i <> 7 -> i <> 11 -> i <> 12 ->
      Z.testbit (csr_at (mret h) CSR_MSTATUS) i = Z.testbit (csr_at st CSR_MSTATUS) i)) /\
  (trap_to_s st cause = true -> priv_mode st < 2 -> csr_at h CSR_SEPC = csr_at (trap cause tval st) CSR_SEPC ->
   pc (sret h) = pc st /\ priv_mode (sret h) = priv_mode st /\
   (forall i, 0 <= i -> i <> 5 -> i <> 8 ->
      Z.testbit (csr_at (sret h) CSR_MSTATUS) i = Z.testbit (csr_at st CSR_MSTATUS) i)).
Proof.
  intros Hwf Hh Hm. split; intros.
  - by apply (trap_mret_resumes cause tval).
  - by apply (trap_sret_resumes cause tval).
Qed.

Definition mtrap_demo : ISS := with_priv PRIV_S trap_demo.

Lemma trap_return_resumes_witness :
  (let h := wr 5 99 (trap 2 0 mtrap_demo) in pc (mret h) = 0x1234 /\ priv_mode (mret h) = PRIV_S) /\
  (let h := wr 5 99 (trap 8 0 trap_demo) in pc (sret h) = 0x1234 /\ priv_mode (sret h) = PRIV_U).
Proof.
  assert (H : wf mtrap_demo) by (apply wf_with_priv; [done | exact wf_trap_demo]). split.
  - destruct (trap_return_resumes 2 0 mtrap_demo (wr 5 99 (trap 2 0 mtrap_demo)) H) as [M _];
      [by apply wf_wr; [|apply wf_trap] | reflexivity|].
    destruct (M eq_refl eq_refl) as (A & B & _). split; [exact A | exact B].
  - destruct (trap_return_resumes 8 0 trap_demo (wr 5 99 (trap 8 0 trap_demo)) wf_trap_demo) as [_ S];
      [by apply wf_wr; [|apply wf_trap; exact wf_trap_demo] | reflexivity|].
    destruct (S eq_refl eq_refl eq_refl) as (A & B & _). split; [exact A | exact B].
Defined.
