(* ===== verification/Privilege.v ===== *)
(** * What an instruction can do to the privileged state

    Every successful [step] either leaves the CSR dict and the privilege mode
    alone, or is a trap, a return, or a CSR instruction its mode is entitled to.
    The isolation of the levels from each other follows. *)

From S2P Require Import Prelude Bits Float32 Machine Mmu Exec Csr.
Open Scope Z_scope.

(** ** The data path keeps the privileged state *)

Definition same_priv (st st' : ISS) : Prop :=
  csr st' = csr st /\ priv_mode st' = priv_mode st /\ xlen st' = xlen st /\
  pending_interrupt st' = pending_interrupt st /\ mem_mask st' = mem_mask st.

Lemma same_priv_refl st : same_priv st st.
Proof. done. Qed.

Lemma same_priv_wr st rd v s : same_priv st s -> same_priv st (wr rd v s).
Proof. unfold wr. by case_match. Qed.
Lemma same_priv_pc st p s : same_priv st s -> same_priv st (with_pc p s).
Proof. done. Qed.
Lemma same_priv_freg st rd v s : same_priv st s -> same_priv st (set_freg rd v s).
Proof. done. Qed.
Lemma same_priv_fflags st f s : same_priv st s -> same_priv st (set_fflags f s).
Proof. done. Qed.
Lemma same_priv_store st a v s : same_priv st s -> same_priv st (store_mem_byte a v s).
Proof. unfold store_mem_byte. by case_match. Qed.

Create HintDb priv.
#[export] Hint Resolve same_priv_refl same_priv_wr same_priv_pc same_priv_freg
  same_priv_fflags same_priv_store : priv.

Lemma same_priv_store_le st a v n s : same_priv st s -> same_priv st (store_le a v n s).
Proof.
  unfold store_le. revert s. generalize (seqZ 0 (Z.of_nat n)) as l.
  induction l as [|i l IH]; intros s H; simpl; auto with priv.
Qed.
Lemma same_priv_put_f st rd rf s : same_priv st s -> same_priv st (put_f rd rf s).
Proof. unfold put_f. auto with priv. Qed.
Lemma same_priv_put_x st rd rf s : same_priv st s -> same_priv st (put_x rd rf s).
Proof. unfold put_x. auto with priv. Qed.
#[export] Hint Resolve same_priv_store_le same_priv_put_f same_priv_put_x : priv.

(** ** The ways a step changes it *)

Inductive step_effect (word : Z) (st : ISS) : ISS -> Prop :=
| eff_data st' : same_priv st st' -> step_effect word st st'
| eff_trap c t : step_effect word st (trap c t st)
| eff_mret : priv_mode st = PRIV_M -> step_effect word st (mret st)
| eff_sret : priv_mode st <> PRIV_U -> step_effect word st (sret st)
| eff_csr rd old new :
    (csr_addr_of word ≫ 8) .& 3 <= priv_mode st ->
    step_effect word st
      (with_pc (next_pc st) (wr rd old (csr_write (csr_addr_of word) new st))).

#[export] Hint Constructors step_effect : priv.

Lemma effect_load word st st' : exec_load word st = Ok st' -> step_effect word st st'.
Proof.
  unfold exec_load. intros E.
  destruct (translate_cases (uxlen st (reg_A st word + imm_i_of word)) Load st)
    as [[pa T]|[v T]]; rewrite T in E; ok_inv; auto with priv.
Qed.

Lemma effect_flw word st st' : exec_flw word st = Ok st' -> step_effect word st st'.
Proof.
  unfold exec_flw. intros E.
  destruct (translate_cases (uxlen st (reg_A st word + imm_i_of word)) Load st)
    as [[pa T]|[v T]]; rewrite T in E; ok_inv; auto with priv.
Qed.

Lemma effect_store word st st' : exec_store word st = Ok st' -> step_effect word st st'.
Proof.
  unfold exec_store, store_value. intros E.
  destruct (translate_cases (uxlen st (reg_A st word + imm_s_of word)) Store st)
    as [[pa T]|[v T]]; rewrite T in E; ok_inv; auto 6 with priv.
Qed.

Lemma effect_fsw word st st' : exec_fsw word st = Ok st' -> step_effect word st st'.
Proof.
  unfold exec_fsw. intros E.
  destruct (translate_cases (uxlen st (reg_A st word + imm_s_of word)) Store st)
    as [[pa T]|[v T]]; rewrite T in E; ok_inv; auto with priv.
Qed.

Lemma effect_system word st st' : exec_system word st = Ok st' -> step_effect word st st'.
Proof.
  unfold exec_system, exec_priv, exec_csr. cbv zeta. intros E.
  ok_inv; py_bool; auto with priv.
Qed.

Lemma effect_op_fp word st st' : exec_op_fp word st = Ok st' -> step_effect word st st'.
Proof.
  unfold exec_op_fp, op_fp. cbv zeta. intros E. ok_inv; auto 6 with priv.
Qed.

Lemma step_effects word st st' : step word st = Ok st' -> step_effect word st st'.
Proof.
  unfold step. cbv zeta. intros E. step_arms E;
    lazymatch type of E with
    | exec_load _ _ = _ => by apply effect_load
    | exec_store _ _ = _ => by apply effect_store
    | exec_flw _ _ = _ => by apply effect_flw
    | exec_fsw _ _ = _ => by apply effect_fsw
    | exec_system _ _ = _ => by apply effect_system
    | exec_op_fp _ _ = _ => by apply effect_op_fp
    | _ =>
        unfold exec_op, exec_op_32, exec_custom, exec_op_imm, exec_op_imm_32, exec_branch,
          exec_jal, exec_jalr, exec_lui, exec_auipc, exec_fmadd in E; cbv zeta in E;
        ok_inv; auto 8 with priv
    end.
Qed.

(** The register width never changes. *)
Lemma step_xlen word st st' : step word st = Ok st' -> xlen st' = xlen st.
Proof.
  intros E%step_effects. destruct E as [st' (_ & _ & ? & _)|c t|?|?|rd old new Ha]; try done.
  - apply trap_frame.
  - simpl. rewrite <- (xlen_csr_write (csr_addr_of word) new st). unfold wr. by case_match.
Qed.

Lemma mem_mask_csr_write k v st : mem_mask (csr_write k v st) = mem_mask st.
Proof. unfold csr_write, csr_store. cbv zeta. by repeat case_match. Qed.
Lemma mem_mask_trap c t st : mem_mask (trap c t st) = mem_mask st.
Proof. unfold trap. cbv zeta. by case_match. Qed.

(** Nor does the size of the memory. *)
Lemma step_mem_mask word st st' : step word st = Ok st' -> mem_mask st' = mem_mask st.
Proof.
  intros E%step_effects. destruct E as [st' (_ & _ & _ & _ & ?)|c t|?|?|rd old new Ha]; try done.
  - apply mem_mask_trap.
  - simpl. rewrite <- (mem_mask_csr_write (csr_addr_of word) new st). unfold wr. by case_match.
Qed.

(** ** User mode *)

Definition csr_priv (k : Z) : Z := (k ≫ 8) .& 3.

Lemma key_priv k : k ∈ csr_init_keys -> 1 <= csr_priv k.
Proof.
  assert (H : Forall (fun k => 1 <= csr_priv k) csr_init_keys)
    by (refine (bool_decide_eq_true_1 _ _); reflexivity).
  intros Hk. by eapply Forall_forall in H.
Qed.

Lemma csr_store_foreign st k v : wf st -> csr_priv k < 1 -> csr_store k v st = st.
Proof.
  intros Hwf Hk. unfold csr_store. destruct (csr st !! k) eqn:E; [|done].
  assert (k ∈ csr_init_keys) as H%key_priv by (apply (wf_csr_keys _ Hwf); eauto). lia.
Qed.

(** A CSR write at a user-level address only reaches the float status. *)
Lemma user_csr_write st k v :
  wf st -> csr_priv k <= 0 ->
  csr (csr_write k v st) = csr st /\ priv_mode (csr_write k v st) = priv_mode st.
Proof.
  intros Hwf Hk. unfold csr_write. cbv zeta.
  repeat (next_addr k; [done|]). simpl orb. cbv iota. by rewrite csr_store_foreign by (done || lia).
Qed.

Lemma wr_csr rd v st : csr (wr rd v st) = csr st /\ priv_mode (wr rd v st) = priv_mode st.
Proof. unfold wr. by case_match. Qed.

(** C11: a U-mode instruction cannot touch the privileged state.  It runs with
    the CSR dict and the privilege mode unchanged, or it traps, and the trap is
    the only way out of user mode. *)
Theorem user_step_confined word st st' :
  wf st -> priv_mode st = PRIV_U -> step word st = Ok st' ->
  (exists cause tval, st' = trap cause tval st) \/
  (csr st' = csr st /\ priv_mode st' = PRIV_U).
Proof.
  intros Hwf Hp E%step_effects. unfold PRIV_U in *. destruct E as [st' (? & ? & _)|c t|?|?|rd old new Ha].
  - right. split; congruence.
  - left. eauto.
  - by rewrite Hp in *.
  - done.
  - right. cbn [csr priv_mode with_pc]. rewrite !(proj1 (wr_csr _ _ _)), !(proj2 (wr_csr _ _ _)).
    destruct (user_csr_write st (csr_addr_of word) new Hwf) as [-> ->];
      [unfold csr_priv; lia | done].
Qed.

(** [csrrw x0, fcsr, x5] in U-mode. *)
Lemma user_step_confined_witness :
  exists st', step 0x00329073 trap_demo = Ok st' /\
  ((exists cause tval, st' = trap cause tval trap_demo) \/
   (csr st' = csr trap_demo /\ priv_mode st' = PRIV_U)).
Proof.
  eexists. split; [reflexivity|].
  apply (user_step_confined 0x00329073 trap_demo); [exact wf_trap_demo | reflexivity | reflexivity].
Defined.

(** ** Supervisor mode *)

(** [v] agrees with [m] outside the mask. *)
Definition same_outside (mask m v : Z) : Prop :=
  forall i, 0 <= i -> Z.testbit mask i = false -> Z.testbit v i = Z.testbit m i.

Lemma same_outside_merge mask m v :
  0 <= m < 2 ^ 32 -> same_outside mask m (u32 ((m .& Z.lnot mask) .| (v .& mask))).
Proof.
  intros Hm i Hi Hmask. rewrite testbit_u32, Z.lor_spec, !Z.land_spec, Z.lnot_spec, Hmask by done.
  rewrite andb_true_r, andb_false_r, orb_false_r.
  destruct (Z.ltb_spec i 32); [done|]. by rewrite (testbit_small m 32).
Qed.

Lemma same_outside_sret st :
  wf st ->
  same_outside SSTATUS_MASK (csr_at st CSR_MSTATUS) (csr_at (sret st) CSR_MSTATUS).
Proof.
  intros Hwf i Hi Hm. rewrite mstatus_sret by done. cbv zeta.
  repeat (case_match; [exfalso; py_bool; by subst|]). done.
Qed.

(** The M-level registers that have no S-level view. *)
Definition m_only (k : Z) : Prop :=
  csr_priv k = 3 /\ k <> CSR_MSTATUS /\ k <> CSR_MIE /\ k <> CSR_MIP.

Definition m_state_kept (st st' : ISS) : Prop :=
  (forall k, m_only k -> csr_at st' k = csr_at st k) /\
  same_outside SSTATUS_MASK (csr_at st CSR_MSTATUS) (csr_at st' CSR_MSTATUS) /\
  same_outside SIE_MASK (csr_at st CSR_MIE) (csr_at st' CSR_MIE).

Lemma m_state_kept_csr st st' : csr st' = csr st -> m_state_kept st st'.
Proof. intros E. unfold m_state_kept, csr_at. by rewrite E. Qed.

Lemma sret_csr st k : k <> CSR_MSTATUS -> csr_at (sret st) k = csr_at st k.
Proof.
  intros. unfold sret. cbv zeta. change (csr_at (with_pc _ (with_priv _ ?s)) k) with (csr_at s k).
  by rewrite csr_at_set_ne.
Qed.

Lemma m_state_kept_sret st : wf st -> m_state_kept st (sret st).
Proof.
  intros Hwf. split_and!.
  - intros k (? & ? & ? & ?). by apply sret_csr.
  - by apply same_outside_sret.
  - by rewrite sret_csr.
Qed.

Lemma csr_slots_s addr k : csr_priv addr < 3 -> m_only k -> SCsr k ∉ csr_slots addr.
Proof.
  intros Ha (Hk & ? & ? & ?) Hin. revert Hin. unfold csr_slots.
  repeat (next_addr addr; [rewrite ?elem_of_cons, elem_of_nil; intuition (discriminate || congruence)|]).
  intros [= ->]%list_elem_of_singleton. lia.
Qed.

Lemma csr_slots_mstatus addr :
  csr_priv addr < 3 -> addr <> CSR_SSTATUS -> SCsr CSR_MSTATUS ∉ csr_slots addr.
Proof.
  intros Ha ? Hin. revert Hin. unfold csr_slots.
  repeat (next_addr addr; [rewrite ?elem_of_cons, elem_of_nil; intuition (discriminate || congruence)|]).
  by intros [= <-]%list_elem_of_singleton.
Qed.

Lemma csr_slots_mie addr :
  csr_priv addr < 3 -> addr <> CSR_SIE -> SCsr CSR_MIE ∉ csr_slots addr.
Proof.
  intros Ha ? Hin. revert Hin. unfold csr_slots.
  repeat (next_addr addr; [rewrite ?elem_of_cons, elem_of_nil; intuition (discriminate || congruence)|]).
  by intros [= <-]%list_elem_of_singleton.
Qed.

Lemma m_state_kept_csr_write addr v st :
  wf st -> csr_priv addr < 3 -> m_state_kept st (csr_write addr v st).
Proof.
  intros Hwf Ha. split_and!.
  - intros k Hk. apply (csr_write_slot addr v st (SCsr k)). by apply csr_slots_s.
  - destruct (decide (addr = CSR_SSTATUS)) as [->|].
    + change (csr_write _ _ _) with (set_csr CSR_MSTATUS
        (u32 ((csr_at st CSR_MSTATUS .& Z.lnot SSTATUS_MASK) .| (v .& SSTATUS_MASK))) st).
      rewrite csr_at_set_eq. apply same_outside_merge. by apply csr_at_u32.
    + pose proof (csr_write_slot addr v st (SCsr CSR_MSTATUS)) as E. simpl in E.
      rewrite E by by apply csr_slots_mstatus. done.
  - destruct (decide (addr = CSR_SIE)) as [->|].
    + change (csr_write _ _ _) with (set_csr CSR_MIE
        (u32 ((csr_at st CSR_MIE .& Z.lnot SIE_MASK) .| (v .& SIE_MASK))) st).
      rewrite csr_at_set_eq. apply same_outside_merge. by apply csr_at_u32.
    + pose proof (csr_write_slot addr v st (SCsr CSR_MIE)) as E. simpl in E.
      rewrite E by by apply csr_slots_mie. done.
Qed.

Lemma priv_csr_write addr v st : priv_mode (csr_write addr v st) = priv_mode st.
Proof. unfold csr_write, csr_store. cbv zeta. repeat case_match; done. Qed.


