(* ===== verification/PageTable.v ===== *)
(** * Page tables

    An abstract account of RISC-V radix page tables, as an inductive relation on
    the number of levels left, and the proof that the simulator's two unrolled
    walks, [_translate_sv32] and [_translate_sv39], compute it.  The relation is
    stated with division and remainder, the code with shifts and masks. *)

From S2P Require Import Prelude Bits Machine Mmu.
Open Scope Z_scope.

(** ** The specification *)

(** A paging mode: virtual-page-number bits per level, bytes per entry, and the
    index of the top level.  Physical page numbers are cut to 20 bits, the
    width of the physical address bus. *)
Record paging := { vpn_bits : Z; pte_bytes : nat; top_level : nat }.

Definition Sv32 : paging := {| vpn_bits := 10; pte_bytes := 4; top_level := 1 |}.
Definition Sv39 : paging := {| vpn_bits := 9; pte_bytes := 8; top_level := 2 |}.

Definition page_bits (m : paging) (i : nat) : Z := 12 + vpn_bits m * Z.of_nat i.
Definition vpn (m : paging) (va : Z) (i : nat) : Z := (va / 2 ^ page_bits m i) mod 2 ^ vpn_bits m.
Definition ppn (pte : Z) : Z := (pte / 2 ^ 10) mod 2 ^ 20.

Definition is_leaf (pte : Z) : bool :=
  Z.testbit pte 1 || Z.testbit pte 2 || Z.testbit pte 3.

(** R, W or X according to the access; U pages for U-mode and only for it. *)
Definition may_access (priv : Z) (a : access) (pte : Z) : bool :=
  Z.testbit pte (access_bit a) && Bool.eqb (Z.testbit pte 4) (priv =? PRIV_U).

(** The little-endian number in the [n] bytes from [a]. *)
Fixpoint bytes_at (st : ISS) (a : Z) (n : nat) : Z :=
  match n with
  | O => 0
  | S n => load_mem_byte st a + 2 ^ 8 * bytes_at st (a + 1) n
  end.

Definition entry (m : paging) (st : ISS) (va : Z) (i : nat) (table : Z) : Z :=
  bytes_at st (table * 2 ^ 12 + vpn m va i * Z.of_nat (pte_bytes m)) (pte_bytes m).

#[global] Arguments entry : simpl never.
#[global] Arguments is_leaf : simpl never.
#[global] Arguments ppn : simpl never.
#[global] Arguments page_bits : simpl never.

Section Walk.
  Context (m : paging) (st : ISS) (a : access) (va : Z).

(** [walks i table pa]: the level-[i] table at page [table] maps [va] to [pa]. *)
Inductive walks : nat -> Z -> Z -> Prop :=
| walk_leaf i table pte :
    pte = entry m st va i table ->
    Z.testbit pte 0 = true -> is_leaf pte = true ->
    ppn pte mod 2 ^ (vpn_bits m * Z.of_nat i) = 0 ->
    may_access (priv_mode st) a pte = true ->
    walks i table (ppn pte * 2 ^ 12 + va mod 2 ^ page_bits m i)
| walk_down i table pte pa :
    pte = entry m st va (S i) table ->
    Z.testbit pte 0 = true -> is_leaf pte = false ->
    walks i (ppn pte) pa ->
    walks (S i) table pa.

(** The same as a function. *)
Fixpoint walk (i : nat) (table : Z) : option Z :=
  let pte := entry m st va i table in
  if negb (Z.testbit pte 0) then None
  else if is_leaf pte then
    if negb (ppn pte mod 2 ^ (vpn_bits m * Z.of_nat i) =? 0) then None
    else if negb (may_access (priv_mode st) a pte) then None
    else Some (ppn pte * 2 ^ 12 + va mod 2 ^ page_bits m i)
  else match i with O => None | S j => walk j (ppn pte) end.

Lemma walk_walks i table pa : walk i table = Some pa <-> walks i table pa.
Proof.
  split.
  - revert table. induction i as [|i IH]; intros table; simpl;
      repeat case_match; intros; simplify_eq; py_bool.
    + by apply walk_leaf.
    + by apply walk_leaf.
    + eapply walk_down; eauto.
  - induction 1 as [i table pte -> V L A P|i table pte pa -> V L W IH].
    + destruct i; cbn [walk]; by rewrite V, L, P, A.
    + cbn [walk]. by rewrite V, L.
Qed.

(** The physical page offset of the leaf's page is that of the virtual address. *)
Lemma walks_offset i table pa :
  0 <= vpn_bits m -> walks i table pa -> pa mod 2 ^ 12 = va mod 2 ^ 12.
Proof.
  intros Hv. induction 1 as [i table pte _ _ _ _ _|]; [|done].
  rewrite Z.add_comm, Z.mod_add by lia. unfold page_bits.
  rewrite Z.pow_add_r by lia. rewrite Z.rem_mul_r by (pose proof (pow2_pos (vpn_bits m * Z.of_nat i)); lia).
  by rewrite (Z.mul_comm (2 ^ 12)), Z.mod_add, Z.mod_mod by lia.
Qed.

End Walk.

(** Which paging mode a state translates with. *)
Definition regime (st : ISS) : option paging :=
  if priv_mode st =? PRIV_M then None
  else if xlen st =? 32 then
    if Z.testbit (csr_at st CSR_SATP) 31 then Some Sv32 else None
  else if (csr_at st CSR_SATP / 2 ^ 60) mod 2 ^ 4 =? 8 then Some Sv39 else None.

Definition root (st : ISS) : Z := csr_at st CSR_SATP mod 2 ^ 20.

(** ** The code's bit operations *)

Lemma load_le_S st a n :
  load_le st a (S n) = load_le st a n .| (load_mem_byte st (a + Z.of_nat n) ≪ (8 * Z.of_nat n)).
Proof. unfold load_le. by rewrite seqZ_S, foldl_app. Qed.

Lemma bytes_at_snoc st a n :
  bytes_at st a (S n) = bytes_at st a n + load_mem_byte st (a + Z.of_nat n) * 2 ^ (8 * Z.of_nat n).
Proof.
  revert a. induction n as [|n IH]; intros a; [simpl; rewrite !Z.add_0_r; lia|].
  change (bytes_at st a (S (S n))) with (load_mem_byte st a + 2 ^ 8 * bytes_at st (a + 1) (S n)).
  rewrite IH. simpl bytes_at. replace (a + 1 + Z.of_nat n) with (a + Z.of_nat (S n)) by lia.
  replace (8 * Z.of_nat (S n)) with (8 + 8 * Z.of_nat n) by lia. rewrite Z.pow_add_r by lia. ring.
Qed.

Lemma bytes_at_range st a n : wf st -> 0 <= bytes_at st a n < 2 ^ (8 * Z.of_nat n).
Proof.
  intros H. revert a. induction n as [|n IH]; intros a; [by simpl|].
  pose proof (load_mem_byte_range st a H) as B. pose proof (IH (a + 1)). unfold is_byte in B.
  replace (8 * Z.of_nat (S n)) with (8 + 8 * Z.of_nat n) by lia. rewrite Z.pow_add_r by lia.
  simpl bytes_at. lia.
Qed.

Lemma load_le_bytes st a n : wf st -> load_le st a n = bytes_at st a n.
Proof.
  intros H. induction n as [|n IH]; [done|].
  rewrite load_le_S, bytes_at_snoc, IH, Z.shiftl_mul_pow2 by lia.
  pose proof (bytes_at_range st a n H).
  apply (lor_low' (8 * Z.of_nat n)); [lia | | done].
  apply Z.mod_mul. pose proof (pow2_pos (8 * Z.of_nat n)). lia.
Qed.

Lemma read_pte_load_le st addr : read_pte st addr = load_le st (addr .& 0xFFFFFFFF) 4.
Proof.
  unfold read_pte, load_le. cbv zeta. change (seqZ 0 (Z.of_nat 4)) with [0; 1; 2; 3].
  cbn [foldl]. by rewrite Z.lor_0_l, Z.shiftl_0_r, Z.add_0_r.
Qed.

Lemma pte_valid_bit pte : pte_valid pte = Z.testbit pte 0.
Proof. unfold pte_valid, PTE_V_BIT. by rewrite bit_at, b2z_truthy. Qed.

Lemma pte_leaf_bits pte : pte_leaf pte = is_leaf pte.
Proof.
  unfold pte_leaf, is_leaf, PTE_R_BIT, PTE_W_BIT, PTE_X_BIT. by rewrite !bit_at, !b2z_truthy.
Qed.

Lemma pte_perm_ok_bits st pte a : pte_perm_ok st pte a = may_access (priv_mode st) a pte.
Proof.
  unfold pte_perm_ok, may_access, PTE_U_BIT.
  rewrite !bit_at, !b2z_truthy by (by destruct a).
  destruct (Z.testbit pte (access_bit a)), (priv_mode st =? PRIV_U), (Z.testbit pte 4); done.
Qed.

Lemma ppn_range pte : 0 <= ppn pte < 2 ^ 20.
Proof. unfold ppn. by apply Z.mod_pos_bound. Qed.

Lemma vpn_range m va i : 0 <= vpn_bits m -> 0 <= vpn m va i < 2 ^ vpn_bits m.
Proof. intros. unfold vpn. by apply Z.mod_pos_bound, pow2_pos. Qed.

Lemma ppn_field pte : (pte ≫ 10) .& 0xFFFFF = ppn pte.
Proof. unfold ppn. rewrite Z.shiftr_div_pow2 by lia. by apply (land_lit _ 0xFFFFF 20). Qed.

(** The entry addresses the code forms, and what it reads there. *)
Lemma entry_sv32 st va i t :
  wf st -> 0 <= t < 2 ^ 20 ->
  read_pte st ((t ≪ 12) .| (vpn Sv32 va i ≪ 2)) = entry Sv32 st va i t.
Proof.
  intros H Ht. pose proof (vpn_range Sv32 va i ltac:(done)) as Hv. simpl in Hv.
  rewrite read_pte_load_le, load_le_bytes by done. unfold entry. simpl pte_bytes. f_equal.
  set (x := vpn Sv32 va i) in *. fields.
Qed.

Lemma entry_sv39 st va i t :
  wf st -> 0 <= t < 2 ^ 20 ->
  read_pte64 st ((t ≪ 12) .| (vpn Sv39 va i ≪ 3)) = entry Sv39 st va i t.
Proof.
  intros H Ht. pose proof (vpn_range Sv39 va i ltac:(done)) as Hv. simpl in Hv.
  unfold read_pte64. cbv zeta. rewrite load_le_bytes by done. unfold entry. simpl pte_bytes.
  f_equal. set (x := vpn Sv39 va i) in *. fields.
Qed.

(** A superpage address: the low page-number bits of an aligned entry come from
    the virtual address. *)
Lemma superpage_addr p va k :
  0 <= k -> 0 <= p -> p mod 2 ^ k = 0 ->
  ((((p ≫ k) ≪ k) .| ((va / 2 ^ 12) mod 2 ^ k)) ≪ 12) .| (va mod 2 ^ 12) =
  p * 2 ^ 12 + va mod 2 ^ (12 + k).
Proof.
  intros Hk Hp A. pose proof (pow2_pos k Hk).
  rewrite !Z.shiftl_mul_pow2, Z.shiftr_div_pow2 by lia.
  pose proof (Z.div_mod p (2 ^ k) ltac:(lia)) as D. rewrite A, Z.add_0_r in D.
  rewrite (Z.mul_comm (p / 2 ^ k)), <- D.
  rewrite (lor_low k p) by first [done | by apply Z.mod_pos_bound].
  rewrite (lor_low 12) by first [done | by apply Z.mod_mul | by apply Z.mod_pos_bound].
  rewrite Z.pow_add_r, Z.rem_mul_r by lia. lia.
Qed.

(** The virtual-page-number fields as the code writes them. *)
Lemma vpn_sv32 va : (va ≫ 22) .& 0x3FF = vpn Sv32 va 1 /\ (va ≫ 12) .& 0x3FF = vpn Sv32 va 0.
Proof.
  unfold vpn, page_bits. simpl. rewrite !Z.shiftr_div_pow2 by lia.
  by rewrite !(land_lit _ 0x3FF 10).
Qed.

Lemma vpn_sv39 va :
  (va ≫ 30) .& 0x1FF = vpn Sv39 va 2 /\ (va ≫ 21) .& 0x1FF = vpn Sv39 va 1 /\
  (va ≫ 12) .& 0x1FF = vpn Sv39 va 0.
Proof.
  unfold vpn, page_bits. simpl. rewrite !Z.shiftr_div_pow2 by lia.
  by rewrite !(land_lit _ 0x1FF 9).
Qed.

Lemma aligned_mask p k c : c = Z.ones k -> 0 <= k -> truthy (p .& c) = negb (p mod 2 ^ k =? 0).
Proof. intros. by rewrite (land_lit p c k). Qed.

Lemma pa_range p va k :
  0 <= k <= 20 -> 0 <= p < 2 ^ 20 -> p mod 2 ^ k = 0 ->
  0 <= p * 2 ^ 12 + va mod 2 ^ (12 + k) < 2 ^ 32.
Proof.
  intros Hk Hp A. pose proof (pow2_pos k ltac:(lia)).
  assert (0 <= va mod 2 ^ (12 + k) < 2 ^ (12 + k)) as B by (apply Z.mod_pos_bound, pow2_pos; lia).
  assert (p <= 2 ^ 20 - 2 ^ k); [|rewrite (Z.pow_add_r 2 12 k) in * by lia; pow_lits; lia].
  pose proof (Z.div_mod p (2 ^ k) ltac:(lia)) as D. rewrite A, Z.add_0_r in D.
  assert (E : 2 ^ 20 = 2 ^ k * 2 ^ (20 - k)) by (rewrite <- Z.pow_add_r by lia; f_equal; lia).
  rewrite E in *. set (q := p / 2 ^ k) in *. assert (q < 2 ^ (20 - k)) by nia. nia.
Qed.

(** ** Refinement *)

(** The answer of a walk as the code returns it. *)
Definition answer (r : option Z) (va : Z) (a : access) (st : ISS) : option Z * ISS :=
  match r with Some pa => (Some pa, st) | None => page_fault va a st end.

Lemma page_addr p va : 0 <= p -> (p ≪ 12) .| (va mod 2 ^ 12) = p * 2 ^ 12 + va mod 2 ^ 12.
Proof.
  intros. rewrite Z.shiftl_mul_pow2 by done.
  by apply (lor_low 12); [| apply Z.mod_mul | apply Z.mod_pos_bound].
Qed.

(** The physical address of a leaf, at any width that holds 32 bits. *)
Lemma leaf_addr w k p va :
  32 <= w -> 0 <= k <= 20 -> 0 <= p < 2 ^ 20 -> p mod 2 ^ k = 0 ->
  uXLEN (((((p ≫ k) ≪ k) .| ((va / 2 ^ 12) mod 2 ^ k)) ≪ 12) .| (va mod 2 ^ 12)) w =
  p * 2 ^ 12 + va mod 2 ^ (12 + k).
Proof.
  intros Hw Hk Hp A. rewrite superpage_addr by lia. apply uXLEN_id; [lia|].
  pose proof (pa_range p va k Hk Hp A). assert (2 ^ 32 <= 2 ^ w) by (apply Z.pow_le_mono_r; lia).
  lia.
Qed.

Lemma leaf_addr_0 w p va :
  32 <= w -> 0 <= p < 2 ^ 20 ->
  uXLEN ((p ≪ 12) .| (va mod 2 ^ 12)) w = p * 2 ^ 12 + va mod 2 ^ 12.
Proof.
  intros Hw Hp. rewrite page_addr by lia. apply uXLEN_id; [lia|].
  pose proof (pa_range p va 0 ltac:(lia) Hp (Z.mod_1_r p)).
  assert (2 ^ 32 <= 2 ^ w) by (apply Z.pow_le_mono_r; lia). rewrite Z.add_0_r in *. lia.
Qed.

Lemma translate_sv32_walk va a satp st :
  wf st ->
  translate_sv32 va a satp st =
  answer (walk Sv32 st a (u32 va) 1 (satp mod 2 ^ 20)) (u32 va) a st.
Proof.
  intros Hwf. unfold translate_sv32. cbv zeta. set (v := u32 va).
  destruct (vpn_sv32 v) as [-> ->]. rewrite (land_lit satp 0xFFFFF 20) by done.
  set (t := satp mod 2 ^ 20). assert (0 <= t < 2 ^ 20) by by apply Z.mod_pos_bound.
  cbn [walk]. rewrite entry_sv32 by done. set (pte1 := entry Sv32 st v 1 t).
  rewrite !ppn_field. rewrite entry_sv32 by (done || apply ppn_range).
  set (pte0 := entry Sv32 st v 0 (ppn pte1)).
  rewrite !pte_valid_bit, !pte_leaf_bits, !pte_perm_ok_bits, (land_lit v 0xFFF 12) by done.
  rewrite (aligned_mask _ 10) by done.
  change (2 ^ (vpn_bits Sv32 * Z.of_nat 0)) with 1. rewrite Z.mod_1_r.
  change (2 ^ (vpn_bits Sv32 * Z.of_nat 1)) with (2 ^ 10).
  pose proof (ppn_range pte1). pose proof (ppn_range pte0).
  repeat case_match; py_bool; try done; simplify_eq; cbn [answer]; do 2 f_equal; rewrite u32_uXLEN.
  - by apply (leaf_addr 32 10).
  - by apply leaf_addr_0.
Qed.

Lemma translate_sv39_walk va a satp st :
  wf st -> xlen st = 64 ->
  translate_sv39 va a satp st =
  answer (walk Sv39 st a va 2 (satp mod 2 ^ 20)) va a st.
Proof.
  intros Hwf Hx. unfold translate_sv39, uxlen. cbv zeta. rewrite Hx.
  destruct (vpn_sv39 va) as (-> & -> & ->). rewrite (land_lit satp 0xFFFFF 20) by done.
  set (t := satp mod 2 ^ 20). assert (0 <= t < 2 ^ 20) by by apply Z.mod_pos_bound.
  cbn [walk]. rewrite entry_sv39 by done. set (pte2 := entry Sv39 st va 2 t).
  rewrite !ppn_field. rewrite entry_sv39 by (done || apply ppn_range).
  set (pte1 := entry Sv39 st va 1 (ppn pte2)).
  rewrite entry_sv39 by (done || apply ppn_range).
  set (pte0 := entry Sv39 st va 0 (ppn pte1)).
  rewrite !pte_valid_bit, !pte_leaf_bits, !pte_perm_ok_bits, (land_lit va 0xFFF 12) by done.
  rewrite (aligned_mask _ 18), (aligned_mask _ 9) by done.
  change (2 ^ (vpn_bits Sv39 * Z.of_nat 0)) with 1. rewrite Z.mod_1_r.
  change (2 ^ (vpn_bits Sv39 * Z.of_nat 1)) with (2 ^ 9).
  change (2 ^ (vpn_bits Sv39 * Z.of_nat 2)) with (2 ^ 18).
  pose proof (ppn_range pte1). pose proof (ppn_range pte0). pose proof (ppn_range pte2).
  repeat case_match; py_bool; try done; simplify_eq; cbn [answer]; do 2 f_equal.
  - rewrite <- Z.lor_assoc, <- (leaf_addr 64 18 (ppn pte2)) by done. do 4 f_equal.
    change (vpn Sv39 va 1) with ((va / 2 ^ 21) mod 2 ^ 9).
    change (vpn Sv39 va 0) with ((va / 2 ^ 12) mod 2 ^ 9). fields.
  - by apply (leaf_addr 64 9).
  - by apply leaf_addr_0.
Qed.

(** The virtual address the walk works with: Sv32 cuts it to 32 bits. *)
Definition walk_va (m : paging) (va : Z) : Z := if (top_level m =? 1)%nat then u32 va else va.


(** A one-entry Sv32 table: an S-only, RWX superpage, four megabytes up. *)
Definition sv32_demo : ISS :=
  store_mem_byte 0x1002 0x10 (store_mem_byte 0x1000 0xF
    (with_priv PRIV_S (set_csr CSR_SATP 0x80000001 (init 8192 32)))).

Lemma wf_sv32_demo : wf sv32_demo.
Proof.
  apply wf_store_mem_byte, wf_store_mem_byte, wf_with_priv; [done|].
  apply wf_set_csr; [by apply csr_key | done | done |]. by apply wf_init; [left|].
Qed.


(** Translation never changes the page offset.  Under either paging mode
    the low 12 bits of a translated address are those of the virtual address,
    so an access and its translation fall at the same place in their pages. *)
Theorem translate_page_offset va a st pa st' :
  wf st -> translate va a st = (Some pa, st') -> pa mod 2 ^ 12 = va mod 2 ^ 12.
Proof.
  intros Hwf T. assert (Hlow : forall w, 12 <= w -> (va mod 2 ^ w) mod 2 ^ 12 = va mod 2 ^ 12).
  { intros w Hw. apply Z.mod_mod_divide. exists (2 ^ (w - 12)). rewrite <- Z.pow_add_r by lia. f_equal. lia. }
  pose proof (translate_Some_same _ _ _ _ _ T) as ->. unfold translate in T.
  pose proof (wf_xlen_pos _ Hwf). unfold uxlen in T. rewrite uXLEN_mod in T by lia.
  assert (12 <= xlen st) by (destruct (wf_xlen _ Hwf); lia).
  destruct (priv_mode st =? PRIV_M); [simplify_eq; auto|].
  destruct (xlen st =? 32) eqn:X; [destruct (negb _); [simplify_eq; auto|]|
                                   destruct (negb _); [simplify_eq; auto|]].
  - rewrite translate_sv32_walk in T by done. destruct (walk _ _ _ _ _ _) as [p|] eqn:W;
      cbn [answer] in T; unfold page_fault in T; simplify_eq.
    apply walk_walks, walks_offset in W; [|done]. rewrite W, u32_mod. auto with lia.
  - assert (xlen st = 64) by (py_bool; by destruct (wf_xlen _ Hwf)).
    rewrite translate_sv39_walk in T by done. destruct (walk _ _ _ _ _ _) as [p|] eqn:W;
      cbn [answer] in T; unfold page_fault in T; simplify_eq.
    by apply walk_walks, walks_offset in W.
Qed.

Lemma translate_page_offset_witness :
  translate 0x12345 Load sv32_demo = (Some 0x412345, sv32_demo) /\
  0x412345 mod 2 ^ 12 = 0x12345 mod 2 ^ 12.
Proof.
  assert (E : translate 0x12345 Load sv32_demo = (Some 0x412345, sv32_demo))
    by (vm_compute; reflexivity).
  split; [exact E|]. exact (translate_page_offset _ _ _ _ _ wf_sv32_demo E).
Defined.
