(* ===== verification/Reach.v ===== *)
(** * Reachable states and the run loop

    The states a simulation goes through, as a relation generated by [__init__],
    [schedule_interrupt] and the rounds of [ISS.run]; the invariants all of them
    satisfy; and what [run] returns. *)

From S2P Require Import Prelude Bits Float32 Machine Mmu Exec Run Csr Privilege PageTable.
Open Scope Z_scope.

(** ** Reachability *)

(** States of simulations with [mem_size] bytes of memory, whatever programs are
    run, in whatever order, and whatever interrupts are scheduled. *)
Inductive reachable (mem_size xl : Z) : ISS -> Prop :=
| reach_init : reachable mem_size xl (init mem_size xl)
| reach_schedule st after cause :
    reachable mem_size xl st -> reachable mem_size xl (schedule_interrupt after cause st)
| reach_round st words max_steps steps steps' st' :
    reachable mem_size xl st ->
    run_round words max_steps steps st = inl (steps', st') ->
    reachable mem_size xl st'
| reach_step st word st' :
    reachable mem_size xl st -> step word st = Ok st' -> reachable mem_size xl st'.

(** The ways a round goes on. *)
Lemma run_round_cases words max_steps steps st steps' st' :
  run_round words max_steps steps st = inl (steps', st') ->
  steps < max_steps /\
  ((exists cause, interrupt_due steps st = Some cause /\ steps' = steps /\
      st' = with_pending None (trap cause 0 st)) \/
   (interrupt_due steps st = None /\ translate (pc st) Fetch st = (None, st') /\ steps' = steps) \/
   (interrupt_due steps st = None /\ steps' = steps + 1 /\ exists pa,
      translate (pc st) Fetch st = (Some pa, st) /\ step (zget words (pa / 4)) st = Ok st')).
Proof.
  unfold run_round. destruct (Z.ltb_spec steps max_steps); [|done]. simpl negb. cbv iota.
  destruct (interrupt_due steps st) as [cause|] eqn:I.
  { intros [= <- <-]. split; [done|]. left. eauto. }
  destruct (translate (pc st) Fetch st) as [[pa|] s] eqn:T;
    [|intros [= <- <-]; split; [done|]; right; left; done].
  pose proof (translate_Some_same _ _ _ _ _ T) as ->.
  destruct (_ <=? _); [done|]. destruct (self_loop _); [done|].
  destruct (step _ _) eqn:E; [|done]. intros [= <- <-]. split; [done|]. right; right.
  split_and!; eauto.
Qed.

(** ** Fixed-field registers stay legal *)

(** [sub mask v]: no bit of [v] outside [mask]. *)
Definition sub (mask v : Z) : Prop := forall i, 0 <= i -> Z.testbit mask i = false -> Z.testbit v i = false.

Lemma sub_land mask v : sub mask (v .& mask).
Proof. intros i Hi H. by rewrite Z.land_spec, H, andb_false_r. Qed.

Lemma sub_u32 mask v : sub mask v -> sub mask (u32 v).
Proof. intros H i Hi Hm. by rewrite testbit_u32, H, andb_false_r. Qed.

Lemma sub_merge mask m v mask' :
  sub mask m -> sub mask mask' -> sub mask ((m .& Z.lnot mask') .| (v .& mask')).
Proof.
  intros Hm Hm' i Hi H. by rewrite Z.lor_spec, !Z.land_spec, Hm, Hm', andb_false_r by done.
Qed.

(** The bits the WARL registers can hold. *)
Record legal (st : ISS) : Prop := {
  legal_mstatus : sub MSTATUS_MASK (csr_at st CSR_MSTATUS);
  legal_mie : sub MIE_MASK (csr_at st CSR_MIE);
  legal_mip : sub SIE_MASK (csr_at st CSR_MIP);
  legal_medeleg : sub MEDELEG_MASK (csr_at st CSR_MEDELEG);
  legal_mideleg : sub MIDELEG_MASK (csr_at st CSR_MIDELEG)
}.

Definition warl : list Z := [CSR_MSTATUS; CSR_MIE; CSR_MIP; CSR_MEDELEG; CSR_MIDELEG].

Lemma legal_same st st' : (forall k, k ∈ warl -> csr_at st' k = csr_at st k) -> legal st -> legal st'.
Proof. intros E []. constructor; by rewrite E by (refine (bool_decide_eq_true_1 _ _); reflexivity). Qed.

Lemma legal_csr st st' : csr st' = csr st -> legal st -> legal st'.
Proof. intros E. apply legal_same. intros k _. unfold csr_at. by rewrite E. Qed.

Lemma legal_set st k v :
  legal st ->
  (k = CSR_MSTATUS -> sub MSTATUS_MASK v) -> (k = CSR_MIE -> sub MIE_MASK v) ->
  (k = CSR_MIP -> sub SIE_MASK v) -> (k = CSR_MEDELEG -> sub MEDELEG_MASK v) ->
  (k = CSR_MIDELEG -> sub MIDELEG_MASK v) -> legal (set_csr k v st).
Proof.
  intros [] ? ? ? ? ?.
  constructor; match goal with |- sub _ (csr_at _ ?r) =>
    destruct (decide (k = r)) as [->|]; [rewrite csr_at_set_eq; auto | by rewrite csr_at_set_ne] end.
Qed.

Lemma legal_csr_store st k v :
  legal st ->
  (k = CSR_MSTATUS -> sub MSTATUS_MASK v) -> (k = CSR_MIE -> sub MIE_MASK v) ->
  (k = CSR_MIP -> sub SIE_MASK v) -> (k = CSR_MEDELEG -> sub MEDELEG_MASK v) ->
  (k = CSR_MIDELEG -> sub MIDELEG_MASK v) -> legal (csr_store k v st).
Proof.
  intros. unfold csr_store. case_match; [|done].
  apply legal_set; auto using sub_u32.
Qed.

Lemma sub_bits (mask mask' : Z) :
  0 <= mask' -> mask' .& mask = mask' -> sub mask mask'.
Proof. intros _ E i Hi H. by rewrite <- E, Z.land_spec, H, andb_false_r. Qed.

Lemma legal_csr_write st k v : legal st -> legal (csr_write k v st).
Proof.
  intros H. pose proof H as [? ? ? ? ?]. unfold csr_write. cbv zeta.
  repeat (next_addr k; [first
    [ by apply (legal_csr st)
    | apply legal_csr_store; intros; try done; apply sub_land
    | apply legal_set; intros; try done; apply sub_u32;
      first [apply sub_land | apply sub_merge; [done | by apply sub_bits]]]|]).
  simpl orb. cbv iota. by apply legal_csr_store.
Qed.

Lemma legal_mstatus_bits st st' :
  legal st ->
  (forall k, k ∈ warl -> k <> CSR_MSTATUS -> csr_at st' k = csr_at st k) ->
  sub MSTATUS_MASK (csr_at st' CSR_MSTATUS) -> legal st'.
Proof.
  intros [] E H. constructor; try done;
    by rewrite E by (done || (refine (bool_decide_eq_true_1 _ _); reflexivity)).
Qed.

Lemma legal_trap st cause tval : wf st -> legal st -> legal (trap cause tval st).
Proof.
  intros Hwf H. apply (legal_mstatus_bits st); [done| |].
  - intros k Hk ?. apply trap_csr_other. intros [->|Hk']%elem_of_cons; [done|]. revert Hk.
    destruct (trap_to_s st cause); repeat apply elem_of_cons in Hk' as [->|Hk'];
      try (by apply elem_of_nil in Hk');
      refine (bool_decide_eq_false_1 _ _); reflexivity.
  - intros i Hi Hm. pose proof (legal_mstatus _ H i Hi Hm).
    destruct (trap_to_s st cause) eqn:E; [rewrite mstatus_trap_s by done|rewrite mstatus_trap_m by done];
      unfold trap_s_bit, trap_m_bit; repeat case_match; py_bool; subst; done.
Qed.

Lemma legal_mret st : wf st -> legal st -> legal (mret st).
Proof.
  intros Hwf H. apply (legal_mstatus_bits st); [done| |].
  - intros k _ ?. unfold mret. cbv zeta.
    change (csr_at (with_pc _ (with_priv _ ?s)) k) with (csr_at s k). by rewrite csr_at_set_ne.
  - intros i Hi Hm. pose proof (legal_mstatus _ H i Hi Hm). rewrite mstatus_mret by done.
    cbv zeta. repeat case_match; py_bool; subst; done.
Qed.

Lemma legal_sret st : wf st -> legal st -> legal (sret st).
Proof.
  intros Hwf H. apply (legal_mstatus_bits st); [done| |].
  - intros k _ ?. by apply sret_csr.
  - intros i Hi Hm. pose proof (legal_mstatus _ H i Hi Hm). rewrite mstatus_sret by done.
    cbv zeta. repeat case_match; py_bool; subst; done.
Qed.

Lemma legal_step word st st' : wf st -> legal st -> step word st = Ok st' -> legal st'.
Proof.
  intros Hwf H E%step_effects. destruct E as [st' (C & _)|c t|?|?|rd old new Ha].
  - by apply (legal_csr st).
  - by apply legal_trap.
  - by apply legal_mret.
  - by apply legal_sret.
  - apply (legal_csr (csr_write (csr_addr_of word) new st)); [apply wr_csr|].
    by apply legal_csr_write.
Qed.

Lemma legal_init mem_size xl : legal (init mem_size xl).
Proof.
  constructor; intros i _ _; unfold csr_at, init; cbn [csr];
    rewrite csr_init_lookup; case_decide; apply Z.testbit_0_l.
Qed.

(** ** Invariants of reachable states *)

Definition good (st : ISS) : Prop := wf st /\ legal st.

Lemma good_trap st cause tval : good st -> good (trap cause tval st).
Proof. intros []. split; [by apply wf_trap | by apply legal_trap]. Qed.

Lemma good_step word st st' : good st -> step word st = Ok st' -> good st'.
Proof. intros [] E. split; [by eapply wf_step | by eapply legal_step]. Qed.

Lemma good_pending p st : good st -> good (with_pending p st).
Proof. intros []. split; [by apply wf_with_pending | by apply (legal_csr st)]. Qed.

Lemma good_translate va a st r st' : good st -> translate va a st = (r, st') -> good st'.
Proof.
  intros H E. destruct (translate_cases va a st) as [[pa T]|[v T]]; rewrite T in E;
    simplify_eq; [done | by apply good_trap].
Qed.

Lemma good_round words max_steps steps st steps' st' :
  good st -> run_round words max_steps steps st = inl (steps', st') -> good st'.
Proof.
  intros H [_ [(c & _ & _ & ->)|[(_ & T & _)|(_ & _ & pa & _ & E)]]]%run_round_cases.
  - by apply good_pending, good_trap.
  - by eapply good_translate.
  - by eapply good_step.
Qed.

Lemma reachable_good mem_size xl st :
  xl = 32 \/ xl = 64 -> 0 < mem_size < 2 ^ xl -> reachable mem_size xl st -> good st.
Proof.
  intros Hx Hm. induction 1 as [|st after cause _ IH|st words mx s s' st' _ IH E|st w st' _ IH E].
  - split; [by apply wf_init | apply legal_init].
  - by apply good_pending.
  - by eapply good_round.
  - by eapply good_step.
Qed.

(** C15: every reachable state is well formed.  Whatever programs run and
    whatever interrupts are injected, x0 reads 0, every register, byte, float
    register and status field stays within its width, the CSR dict has exactly
    the registers of [__init__], and [mstatus], [mie], [mip] and the delegation
    registers hold no bit outside those the core implements. *)
Theorem reachable_invariant mem_size xl st :
  xl = 32 \/ xl = 64 -> 0 < mem_size < 2 ^ xl -> reachable mem_size xl st ->
  wf st /\ legal st.
Proof. apply reachable_good. Qed.

Lemma reachable_invariant_witness :
  wf (schedule_interrupt 3 7 (init 64 32)) /\ legal (schedule_interrupt 3 7 (init 64 32)).
Proof.
  apply (reachable_invariant 64 32); [by left | done |]. apply reach_schedule, reach_init.
Defined.

(** ** Sv39 is out of reach

    [csr_write] keeps 32 bits of [satp], but at XLEN 64 the mode field is bits 63
    to 60. *)

Lemma reachable_xlen mem_size xl st : reachable mem_size xl st -> xlen st = xl.
Proof.
  induction 1 as [|st after cause _ IH|st words mx s s' st' _ IH E|st w st' _ IH E]; try done.
  - apply run_round_cases in E as [_ [(c & _ & _ & ->)|[(_ & T & _)|(_ & _ & pa & _ & E)]]].
    + by rewrite <- IH, <- (proj1 (trap_frame c 0 st)).
    + destruct (translate_cases (pc st) Fetch st) as [[p T']|[v T']]; rewrite T' in T; simplify_eq.
      apply trap_frame.
    + apply step_xlen in E. congruence.
  - apply step_xlen in E. congruence.
Qed.

Lemma reachable_mem_mask mem_size xl st : reachable mem_size xl st -> mem_mask st = mem_size - 1.
Proof.
  induction 1 as [|st after cause _ IH|st words mx s s' st' _ IH E|st w st' _ IH E]; try done.
  - apply run_round_cases in E as [_ [(c & _ & _ & ->)|[(_ & T & _)|(_ & _ & pa & _ & E)]]].
    + by rewrite <- IH, <- (mem_mask_trap c 0 st).
    + destruct (translate_cases (pc st) Fetch st) as [[p T']|[v T']]; rewrite T' in T; simplify_eq.
      by rewrite mem_mask_trap.
    + apply step_mem_mask in E. congruence.
  - apply step_mem_mask in E. congruence.
Qed.

(** The state a run returns in. *)
Lemma reachable_run_loop mem_size xl n words mx : forall steps st k st',
  reachable mem_size xl st -> run_loop n words mx steps st = Finished k st' -> reachable mem_size xl st'.
Proof.
  induction n as [|n IH]; intros steps st k st' R E; [done|]. cbn [run_loop] in E.
  destruct (run_round words mx steps st) as [[s1 st1]|o] eqn:Q; [by eapply IH, E; eapply reach_round|].
  subst o. unfold run_round in Q. repeat case_match; simplify_eq;
    match goal with T : translate _ _ _ = (Some _, _) |- _ => apply translate_Some_same in T as -> end; done.
Qed.

Lemma translate_64 va a st :
  wf st -> xlen st = 64 -> translate va a st = (Some (va mod 2 ^ 64), st).
Proof.
  intros Hwf Hx. pose proof (csr_at_u32 st CSR_SATP Hwf ltac:(done) ltac:(done)) as Hs.
  unfold translate, uxlen. cbv zeta. rewrite Hx. destruct (priv_mode st =? PRIV_M).
  - by rewrite uXLEN_mod.
  - change (64 =? 32) with false. cbv iota. unfold SATP64_MODE_LO.
    rewrite Z.shiftr_div_pow2, Z.div_small by (unfold is_u32 in Hs; pow_lits; lia).
    change (negb _) with true. cbv iota. by rewrite uXLEN_mod.
Qed.

(** C16: in a 64-bit simulation address translation is always off.  No program
    can set the mode field of [satp], so every reachable state translates every
    address to itself, also in S- and U-mode, and never raises a page fault. *)
Theorem sv39_unreachable mem_size st va a :
  0 < mem_size < 2 ^ 64 -> reachable mem_size 64 st ->
  translate va a st = (Some (va mod 2 ^ 64), st).
Proof.
  intros Hm R. apply translate_64; [|by eapply reachable_xlen].
  by apply (reachable_good mem_size 64); [right|..].
Qed.

(** [csrrw x0, satp, x1] with the Sv39 mode and root page 1 in x1. *)
Lemma sv39_unreachable_witness :
  exists st, step 0x18009073 (wr 1 0x8000000000000001 (init 64 64)) = Ok st /\
  csr_at st CSR_SATP = 1 /\
  translate 0x1234 Load (init 64 64) = (Some 0x1234, init 64 64).
Proof.
  eexists. split; [reflexivity|]. split; [reflexivity|].
  apply (sv39_unreachable 64); [done | apply reach_init].
Defined.

(** ** The run loop ends *)

(** More fuel never changes an outcome. *)
Lemma run_loop_more n words mx steps st m :
  (forall s, run_loop n words mx steps st <> OutOfFuel s) -> (n <= m)%nat ->
  run_loop m words mx steps st = run_loop n words mx steps st.
Proof.
  revert steps st m. induction n as [|n IH]; intros steps st m H Hm; [by destruct (H st)|].
  destruct m as [|m]; [lia|]. simpl in *.
  destruct (run_round words mx steps st) as [[steps' st']|o]; [|done]. apply IH; [done | lia].
Qed.

Lemma interrupt_due_pending steps st c : interrupt_due steps st = Some c -> is_Some (pending_interrupt st).
Proof. unfold interrupt_due. destruct (pending_interrupt st) as [[]|]; [eauto | done]. Qed.

Lemma pending_step word st st' : step word st = Ok st' -> pending_interrupt st' = pending_interrupt st.
Proof.
  intros E%step_effects. destruct E as [st' (_ & _ & _ & ? & _)|c t|?|?|rd old new Ha]; try done.
  - apply trap_frame.
  - simpl. unfold csr_write, csr_store, wr. cbv zeta. repeat case_match; done.
Qed.

(** A bound on the rounds to go: two per step left, since at most one M-mode
    fetch fault comes between two steps, and two for a pending interrupt. *)
Definition rounds_left (mx steps : Z) (st : ISS) : Z :=
  2 * Z.max 0 (mx - steps) + match pending_interrupt st with Some _ => 2 | None => 0 end +
  if priv_mode st =? PRIV_M then 0 else 1.

(** One round of the loop as a relation, and the states a run goes through. *)
Definition round_rel (words : list Z) (mx : Z) (p q : Z * ISS) : Prop :=
  run_round words mx (fst p) (snd p) = inl q.

(** Every fetch fault of the run is handled in M-mode. *)
Definition faults_to_m (words : list Z) (mx steps : Z) (st : ISS) : Prop :=
  forall steps' st' s, rtc (round_rel words mx) (steps, st) (steps', st') ->
    translate (pc st') Fetch st' = (None, s) ->
    trap_to_s st' MCAUSE_INSTRUCTION_PAGE_FAULT = false.

Lemma translate_M va a st : priv_mode st = PRIV_M -> translate va a st = (Some (uxlen st va), st).
Proof. intros E. unfold translate. cbv zeta. by rewrite E. Qed.

Lemma rounds_left_decreases words mx steps st steps' st' :
  run_round words mx steps st = inl (steps', st') ->
  (forall s, translate (pc st) Fetch st = (None, s) ->
     trap_to_s st MCAUSE_INSTRUCTION_PAGE_FAULT = false) ->
  0 <= rounds_left mx steps' st' < rounds_left mx steps st.
Proof.
  intros [Hs Hc]%run_round_cases Hf. unfold rounds_left.
  destruct Hc as [(c & [p P]%interrupt_due_pending & -> & ->)|[(_ & T & ->)|(_ & -> & pa & _ & E)]].
  - rewrite P. simpl. case_match; case_match; lia.
  - specialize (Hf _ T). destruct (translate_cases (pc st) Fetch st) as [[q T']|[v T']];
      rewrite T' in T; simplify_eq.
    pose proof (trap_target (fault_cause Fetch) v st) as [-> _].
    change (fault_cause Fetch) with MCAUSE_INSTRUCTION_PAGE_FAULT. rewrite Hf.
    assert (pending_interrupt (trap MCAUSE_INSTRUCTION_PAGE_FAULT v st) = pending_interrupt st)
      as -> by apply trap_frame.
    destruct (Z.eqb_spec (priv_mode st) PRIV_M) as [HM|]; [by rewrite translate_M in T'|].
    simpl. case_match; lia.
  - rewrite (pending_step _ _ _ E). repeat case_match; lia.
Qed.

Lemma run_loop_ends n words mx steps st :
  faults_to_m words mx steps st -> rounds_left mx steps st < Z.of_nat n ->
  forall s, run_loop n words mx steps st <> OutOfFuel s.
Proof.
  revert steps st. induction n as [|n IH]; intros steps st Hf Hn s.
  { unfold rounds_left in Hn. repeat case_match; lia. }
  simpl. destruct (run_round words mx steps st) as [[steps' st']|o] eqn:R.
  - apply IH.
    + intros s' t' f Ht. apply Hf with s'. eapply rtc_l; [exact R | exact Ht].
    + apply rounds_left_decreases in R; [lia|]. intros f T. apply Hf with steps f; [constructor | done].
  - intros ->. revert R. unfold run_round. repeat case_match; done.
Qed.

Definition run_fuel (max_steps : Z) : nat := Z.to_nat (2 * Z.max 0 max_steps + 4).

Lemma run_settles words mx st :
  faults_to_m words mx 0 st ->
  exists o, (forall s, o <> OutOfFuel s) /\
    forall fuel, (run_fuel mx <= fuel)%nat -> run fuel words mx st = o.
Proof.
  intros Hf. exists (run (run_fuel mx) words mx st).
  assert (H : forall s, run (run_fuel mx) words mx st <> OutOfFuel s).
  { apply run_loop_ends; [done|]. unfold rounds_left, run_fuel. repeat case_match; lia. }
  split; [done|]. intros fuel Hfuel. by apply run_loop_more.
Qed.

(** C17: [run] terminates when fetch faults are handled in M-mode.  If no fetch
    page fault of the run is delegated to S-mode, the loop ends, by returning or
    by raising, within [2 * max_steps + 4] rounds, whatever the program does,
    and any larger fuel gives the same outcome. *)
Theorem run_terminates words max_steps st :
  faults_to_m words max_steps 0 st ->
  exists o, (forall s, o <> OutOfFuel s) /\
    forall fuel, (run_fuel max_steps <= fuel)%nat -> run fuel words max_steps st = o.
Proof. apply run_settles. Qed.

Definition straight_line : list Z := [0x00500093; 0x0000006F].

(** [addi x1, x0, 5] and the halting self-loop. *)
Lemma run_terminates_witness :
  faults_to_m straight_line 10 0 (init 64 32) /\
  exists o, (forall s, o <> OutOfFuel s) /\
    forall fuel, (run_fuel 10 <= fuel)%nat -> run fuel straight_line 10 (init 64 32) = o.
Proof.
  assert (F : faults_to_m straight_line 10 0 (init 64 32)).
  { intros s st' f H T. exfalso. inversion H as [|x [s1 st1] z R1 H1]; subst.
    - by vm_compute in T.
    - vm_compute in R1. injection R1 as <- <-. inversion H1 as [|x [s2 st2] z R2 H2]; subst.
      + by vm_compute in T.
      + by vm_compute in R2. }
  split; [exact F|]. exact (run_terminates straight_line 10 (init 64 32) F).
Defined.

Lemma reachable_rounds mem_size xl words mx p q :
  rtc (round_rel words mx) p q -> reachable mem_size xl (snd p) -> reachable mem_size xl (snd q).
Proof.
  induction 1 as [|x [s st] z R _ IH]; [done|]. intros H. apply IH. by eapply reach_round.
Qed.

(** A 64-bit simulation always terminates, from any reachable state, with
    no condition on the program: there is no fetch fault at XLEN 64. *)
Theorem run_terminates_64 mem_size words max_steps st :
  0 < mem_size < 2 ^ 64 -> reachable mem_size 64 st ->
  exists o, (forall s, o <> OutOfFuel s) /\
    forall fuel, (run_fuel max_steps <= fuel)%nat -> run fuel words max_steps st = o.
Proof.
  intros Hm R. apply run_settles. intros steps' st' s Hr T. exfalso.
  assert (R' : reachable mem_size 64 st') by apply (reachable_rounds _ _ _ _ _ _ Hr R).
  rewrite translate_64 in T; [done | | by eapply reachable_xlen].
  by apply (reachable_good mem_size 64); [right|..].
Qed.

Lemma run_terminates_64_witness :
  exists o, (forall s, o <> OutOfFuel s) /\
    forall fuel, (run_fuel 100 <= fuel)%nat -> run fuel [0x00000063] 100 (init 64 64) = o.
Proof. apply (run_terminates_64 64); [done | apply reach_init]. Defined.

(** ** A run that never ends

    The condition of [run_terminates] is needed: the [continue] after a fetch
    fault does not count a step, so a fetch fault delegated to an unmapped S-mode
    handler repeats for ever, [max_steps] notwithstanding.  The program: delegate
    instruction page faults, turn on Sv32 with an empty root table, return to
    S-mode. *)
Definition livelock_program : list Z :=
  [ 0x000010B7; (* lui   x1, 1 *)
    0x30209073; (* csrrw x0, medeleg, x1 *)
    0x800000B7; (* lui   x1, 0x80000 *)
    0x18009073; (* csrrw x0, satp, x1 *)
    0x40000093; (* addi  x1, x0, 1024 *)
    0x00109093; (* slli  x1, x1, 1 *)
    0x30009073; (* csrrw x0, mstatus, x1 *)
    0x30200073  (* mret *) ].

(** The state before round [n]; from round 9 on it is the same. *)
Definition livelock_state (n : nat) : ISS :=
  match run n livelock_program 1000 (init 64 32) with OutOfFuel s => s | _ => init 64 32 end.

Lemma run_round_max words mx mx' steps st :
  steps < mx -> steps < mx' -> run_round words mx steps st = run_round words mx' steps st.
Proof.
  intros. unfold run_round.
  destruct (Z.ltb_spec steps mx), (Z.ltb_spec steps mx'); (done || lia).
Qed.

Lemma livelock_rounds n :
  (n < 9)%nat ->
  run_round livelock_program 1000 (Z.min (Z.of_nat n) 8) (livelock_state n) =
    inl (Z.min (Z.of_nat (S n)) 8, livelock_state (S n)).
Proof. intros H. do 9 (destruct n as [|n]; [vm_compute; reflexivity|]). lia. Qed.

Lemma livelock_spins :
  run_round livelock_program 1000 8 (livelock_state 9) = inl (8, livelock_state 9).
Proof. vm_compute. reflexivity. Qed.

Lemma run_loop_spin n words mx steps st :
  run_round words mx steps st = inl (steps, st) -> run_loop n words mx steps st = OutOfFuel st.
Proof. intros E. induction n as [|n IH]; [done|]. simpl. by rewrite E. Qed.

Lemma livelock_from n fuel max_steps :
  8 < max_steps -> (n <= 9)%nat ->
  exists s, run_loop fuel livelock_program max_steps (Z.min (Z.of_nat n) 8) (livelock_state n)
    = OutOfFuel s.
Proof.
  intros Hm. revert n. induction fuel as [|fuel IH]; intros n Hn; [simpl; eauto|].
  destruct (decide (n = 9%nat)) as [->|].
  - exists (livelock_state 9). apply run_loop_spin.
    rewrite (run_round_max _ _ 1000) by lia. exact livelock_spins.
  - cbn [run_loop]. rewrite (run_round_max _ _ 1000) by lia. rewrite livelock_rounds by lia.
    apply IH. lia.
Qed.

(** [max_steps] does not bound a run.  For every bound above 8 the eight
    instructions of [livelock_program] make a 32-bit simulation loop for ever,
    neither returning nor raising. *)
Theorem fetch_fault_livelock max_steps fuel :
  8 < max_steps -> exists s, run fuel livelock_program max_steps (init 64 32) = OutOfFuel s.
Proof. intros Hm. exact (livelock_from 0 fuel max_steps Hm ltac:(lia)). Qed.

Lemma fetch_fault_livelock_witness :
  exists s, run 5000 livelock_program 1000 (init 64 32) = OutOfFuel s.
Proof. apply (fetch_fault_livelock 1000 5000). lia. Defined.
