(* ===== verification/Raises.v ===== *)
(** * When the simulator raises

    [ISS.step] raises [ValueError] on the encodings its opcode arms do not
    decode (an unknown opcode traps instead), and [KeyError] on an [ecall] in the
    reserved privilege mode 2. *)

From S2P Require Import Prelude Bits Float32 Machine Mmu Exec Run.
Open Scope Z_scope.

(** The reserved encodings of the arms that raise. *)
Definition alt_or_base (f7 : Z) : bool := (f7 =? 0) || (f7 =? 0x20).

Definition fp_funct5s : list Z :=
  [0x00; 0x01; 0x02; 0x03; 0x0B; 0x04; 0x05; 0x14; 0x18; 0x1A; 0x1C; 0x1E].

Definition reserved_op (f3 f7 : Z) : bool :=
  negb (f7 =? 1) && ((f3 =? 0) || (f3 =? 5)) && negb (alt_or_base f7).

Definition reserved_op_32 (f3 f7 : Z) : bool :=
  negb (f7 =? 1) && negb (f3 =? 1) && negb (((f3 =? 0) || (f3 =? 5)) && alt_or_base f7).

Definition reserved_mem (word : Z) : bool :=
  if op_of word =? OP_LOAD then f3_of word =? 7
  else if op_of word =? OP_STORE then 4 <=? f3_of word
  else false.

Definition reserved (word : Z) : bool :=
  let op := op_of word in
  let f3 := f3_of word in
  if word =? 0 then false
  else if op =? OP_R then reserved_op f3 (f7_of word)
  else if op =? OP_32 then reserved_op_32 f3 (f7_of word)
  else if op =? OP_IMM_32 then negb ((f3 =? 0) || (f3 =? 1) || (f3 =? 5))
  else if op =? OP_FP then negb (bool_decide ((word ≫ 27) .& 0x1F ∈ fp_funct5s))
  else reserved_mem word.

Definition is_ecall (word : Z) : bool :=
  (op_of word =? OP_SYSTEM) && (f3_of word =? 0) && negb (f7_of word =? 9) &&
  (csr_addr_of word =? 0).

(** ** Each arm *)

Definition succeeds {A} (r : result A) : Prop := exists a, r = Ok a.

Lemma succeeds_Ok {A} (a : A) : succeeds (Ok a).
Proof. by exists a. Qed.

Lemma succeeds_bind {A B} (m : result A) (k : A -> result B) :
  succeeds m -> (forall a, succeeds (k a)) -> succeeds (rbind m k).
Proof. intros [a ->] H. apply H. Qed.

Create HintDb succ.
#[export] Hint Resolve succeeds_Ok succeeds_bind : succ.

(** Splits the conditions of an arm that always returns. *)
Ltac arm_returns :=
  repeat lazymatch goal with
  | |- succeeds (Ok _) => apply succeeds_Ok
  | |- succeeds (if ?b then _ else _) => destruct b
  end.

(** Either the arm's reserved test holds and it raises, or it does not. *)
Definition raises_iff {A} (r : result A) (b : bool) : Prop :=
  if b then r = Err ValueError else succeeds r.

Lemma raises_iff_bind {A B} (m : result A) (k : A -> result B) b :
  raises_iff m b -> (forall a, succeeds (k a)) -> raises_iff (rbind m k) b.
Proof.
  unfold raises_iff. destruct b; [by intros ->|]. intros [a ->] Hk. exact (Hk a).
Qed.

(** Splits on the eight values of [funct3] and computes the comparisons. *)
Ltac f3_cases f3 :=
  assert (f3 = 0 \/ f3 = 1 \/ f3 = 2 \/ f3 = 3 \/ f3 = 4 \/ f3 = 5 \/ f3 = 6 \/ f3 = 7) as Hf3 by lia;
  destruct Hf3 as [->|[->|[->|[->|[->|[->|[->| ->]]]]]]];
  cbn [Z.eqb Pos.eqb orb andb negb].

Lemma alu_base_raises xl f3 f7 A B :
  0 <= f3 < 8 -> raises_iff (alu_base xl f3 f7 A B) (((f3 =? 0) || (f3 =? 5)) && negb (alt_or_base f7)).
Proof.
  intros. unfold alu_base, alt_or_base. cbv zeta.
  f3_cases f3; destruct (f7 =? 0), (f7 =? 0x20); cbn [andb orb negb]; apply succeeds_Ok || reflexivity.
Qed.

Lemma word_base_raises f3 f7 A B :
  0 <= f3 < 8 ->
  raises_iff (word_base f3 f7 A B)
    (negb (f3 =? 1) && negb (((f3 =? 0) || (f3 =? 5)) && alt_or_base f7)).
Proof.
  intros. unfold word_base, alt_or_base.
  f3_cases f3; destruct (f7 =? 0), (f7 =? 0x20); cbn [andb orb negb]; apply succeeds_Ok || reflexivity.
Qed.

Lemma exec_op_raises word st : raises_iff (exec_op word st) (reserved_op (f3_of word) (f7_of word)).
Proof.
  unfold exec_op, reserved_op. cbv zeta. apply raises_iff_bind; [|eauto with succ].
  destruct (f7_of word =? 1) eqn:E1; [apply succeeds_Ok|].
  destruct (_ && _) eqn:E2.
  { py_bool. assert (f3_of word = 7) as -> by done. simpl. apply succeeds_Ok. }
  apply raises_iff_bind; [apply alu_base_raises, f3_range | eauto with succ].
Qed.

Lemma exec_op_32_raises word st :
  raises_iff (exec_op_32 word st) (reserved_op_32 (f3_of word) (f7_of word)).
Proof.
  unfold exec_op_32, reserved_op_32. cbv zeta. apply raises_iff_bind; [|eauto with succ].
  destruct (f7_of word =? 1) eqn:E1; [apply succeeds_Ok|].
  apply word_base_raises, f3_range.
Qed.

Lemma alu_imm_succeeds xl f3 word A : 0 <= f3 < 8 -> succeeds (alu_imm xl f3 word A).
Proof.
  intros. unfold alu_imm. cbv zeta. f3_cases f3; destruct (64 <=? xl); apply succeeds_Ok.
Qed.

Lemma exec_op_imm_succeeds word st : succeeds (exec_op_imm word st).
Proof.
  unfold exec_op_imm. apply succeeds_bind; [apply alu_imm_succeeds, f3_range | eauto with succ].
Qed.

Lemma word_imm_raises f3 word A :
  0 <= f3 < 8 -> raises_iff (word_imm f3 word A) (negb ((f3 =? 0) || (f3 =? 1) || (f3 =? 5))).
Proof. intros. unfold word_imm. cbv zeta. f3_cases f3; apply succeeds_Ok || reflexivity. Qed.

Lemma exec_op_imm_32_raises word st :
  raises_iff (exec_op_imm_32 word st)
    (negb ((f3_of word =? 0) || (f3_of word =? 1) || (f3_of word =? 5))).
Proof.
  unfold exec_op_imm_32. apply raises_iff_bind; [apply word_imm_raises, f3_range | eauto with succ].
Qed.

Lemma op_fp_raises word st :
  raises_iff (exec_op_fp word st) (negb (bool_decide ((word ≫ 27) .& 0x1F ∈ fp_funct5s))).
Proof.
  unfold exec_op_fp. apply raises_iff_bind; [|eauto with succ].
  unfold op_fp. cbv zeta. set (f5 := (word ≫ 27) .& 0x1F).
  repeat (match goal with |- context [f5 =? ?k] => destruct (Z.eqb_spec f5 k) as [E|] end;
    [rewrite E; change (negb _) with false; repeat case_match; apply succeeds_Ok|]).
  rewrite bool_decide_eq_false_2; [done|]. unfold fp_funct5s.
  rewrite !not_elem_of_cons. split_and!; try assumption. apply not_elem_of_nil.
Qed.

Lemma load_value_raises st f3 addr : 0 <= f3 < 8 -> raises_iff (load_value st f3 addr) (f3 =? 7).
Proof. intros. unfold load_value. cbv zeta. f3_cases f3; apply succeeds_Ok || reflexivity. Qed.

Lemma store_value_raises f3 addr B st :
  0 <= f3 < 8 -> raises_iff (store_value f3 addr B st) (4 <=? f3).
Proof. intros. unfold store_value. f3_cases f3; apply succeeds_Ok || reflexivity. Qed.

(** Where a load or store goes, if it is translated. *)
Definition mem_access (word : Z) (st : ISS) : option Z :=
  if op_of word =? OP_LOAD then fst (translate (uxlen st (reg_A st word + imm_i_of word)) Load st)
  else fst (translate (uxlen st (reg_A st word + imm_s_of word)) Store st).

Definition mapped (word : Z) (st : ISS) : bool :=
  match mem_access word st with Some _ => true | None => false end.

Lemma exec_load_raises word st :
  op_of word = OP_LOAD -> raises_iff (exec_load word st) (reserved_mem word && mapped word st).
Proof.
  intros Ho. unfold exec_load, reserved_mem, mapped, mem_access. rewrite Ho. cbn [OP_LOAD OP_STORE Z.eqb Pos.eqb].
  destruct (translate _ _ _) as [[pa|] s]; simpl fst; cbv iota.
  - rewrite andb_true_r. apply raises_iff_bind; [apply load_value_raises, f3_range | eauto with succ].
  - rewrite andb_false_r. apply succeeds_Ok.
Qed.

Lemma exec_store_raises word st :
  op_of word = OP_STORE -> raises_iff (exec_store word st) (reserved_mem word && mapped word st).
Proof.
  intros Ho. unfold exec_store, reserved_mem, mapped, mem_access. rewrite Ho. cbn [OP_LOAD OP_STORE Z.eqb Pos.eqb].
  destruct (translate _ _ _) as [[pa|] s]; simpl fst; cbv iota.
  - rewrite andb_true_r. apply raises_iff_bind; [apply store_value_raises, f3_range | eauto with succ].
  - rewrite andb_false_r. apply succeeds_Ok.
Qed.

Lemma flw_succeeds word st : succeeds (exec_flw word st).
Proof. unfold exec_flw. destruct (translate _ _ _) as [[pa|] s]; apply succeeds_Ok. Qed.

Lemma fsw_succeeds word st : succeeds (exec_fsw word st).
Proof. unfold exec_fsw. destruct (translate _ _ _) as [[pa|] s]; apply succeeds_Ok. Qed.

Definition bad_priv (p : Z) : bool := negb ((p =? PRIV_M) || (p =? PRIV_S) || (p =? PRIV_U)).

Lemma system_raises word st :
  op_of word = OP_SYSTEM ->
  if is_ecall word && bad_priv (priv_mode st) then exec_system word st = Err KeyError
  else succeeds (exec_system word st).
Proof.
  intros Ho. unfold is_ecall, exec_system, bad_priv. rewrite Ho.
  change (OP_SYSTEM =? OP_SYSTEM) with true. rewrite andb_true_l.
  destruct (f3_of word =? 0); cbn [andb negb].
  2:{ unfold exec_csr. cbv zeta. arm_returns. }
  unfold exec_priv. cbv zeta. destruct (f7_of word =? 9); cbn [andb negb]; [arm_returns|].
  destruct (csr_addr_of word =? 0); cbn [andb negb]; [|arm_returns].
  unfold ecall_cause. destruct (priv_mode st =? PRIV_M), (priv_mode st =? PRIV_S), (priv_mode st =? PRIV_U);
    cbn [orb andb negb rbind]; apply succeeds_Ok || reflexivity.
Qed.

(** What a step raises, if anything. *)
Definition step_exn (word : Z) (st : ISS) : option exn :=
  if reserved word then
    if reserved_mem word && negb (mapped word st) then None else Some ValueError
  else if is_ecall word && bad_priv (priv_mode st) then Some KeyError
  else None.

Definition agrees (r : result ISS) (e : option exn) : Prop :=
  match e with Some e => r = Err e | None => succeeds r end.

Lemma agrees_of_raises r b : raises_iff r b -> agrees r (if b then Some ValueError else None).
Proof. by destruct b. Qed.

Lemma not_ecall word op : op_of word = op -> (op =? OP_SYSTEM) = false -> is_ecall word = false.
Proof. intros E H. unfold is_ecall. by rewrite E, H. Qed.

Lemma not_mem word op :
  op_of word = op -> (op =? OP_LOAD) = false -> (op =? OP_STORE) = false -> reserved_mem word = false.
Proof. intros E H H'. unfold reserved_mem. by rewrite E, H, H'. Qed.

Lemma step_agrees word st : agrees (step word st) (step_exn word st).
Proof.
  unfold step, step_exn, reserved. cbv zeta.
  destruct (Z.eqb_spec word 0) as [->|]; [apply succeeds_Ok|].
  (* one opcode comparison of [step] at a time *)
  destruct (Z.eqb_spec (op_of word) OP_R) as [E|].
  { rewrite (not_mem _ _ E), (not_ecall _ _ E) by reflexivity.
    exact (agrees_of_raises _ _ (exec_op_raises word st)). }
  destruct (Z.eqb_spec (op_of word) OP_32) as [E|].
  { rewrite (not_mem _ _ E), (not_ecall _ _ E) by reflexivity.
    exact (agrees_of_raises _ _ (exec_op_32_raises word st)). }
  destruct (Z.eqb_spec (op_of word) OP_IMM_32) as [E|].
  { rewrite E, (not_mem _ _ E), (not_ecall _ _ E) by reflexivity.
    exact (agrees_of_raises _ _ (exec_op_imm_32_raises word st)). }
  destruct (Z.eqb_spec (op_of word) OP_FP) as [E|].
  { rewrite E, (not_mem _ _ E), (not_ecall _ _ E) by reflexivity.
    exact (agrees_of_raises _ _ (op_fp_raises word st)). }
  destruct (Z.eqb_spec (op_of word) OP_LOAD) as [E|].
  { rewrite E, (not_ecall _ _ E) by reflexivity. cbn [andb].
    replace (if reserved_mem word then _ else None) with
      (if reserved_mem word && mapped word st then Some ValueError else None)
      by (by destruct (reserved_mem word), (mapped word st)).
    exact (agrees_of_raises _ _ (exec_load_raises word st E)). }
  destruct (Z.eqb_spec (op_of word) OP_STORE) as [E|].
  { rewrite E, (not_ecall _ _ E) by reflexivity. cbn [andb].
    replace (if reserved_mem word then _ else None) with
      (if reserved_mem word && mapped word st then Some ValueError else None)
      by (by destruct (reserved_mem word), (mapped word st)).
    exact (agrees_of_raises _ _ (exec_store_raises word st E)). }
  rewrite (not_mem word (op_of word)) by (done || by apply Z.eqb_neq).
  destruct (Z.eqb_spec (op_of word) OP_SYSTEM) as [E|].
  { rewrite E. cbn. pose proof (system_raises word st E) as H.
    by destruct (is_ecall word && bad_priv (priv_mode st)). }
  rewrite (not_ecall word (op_of word)) by (done || by apply Z.eqb_neq). cbn [andb].
  repeat lazymatch goal with
  | |- agrees (if ?b then _ else _) _ => destruct b
  end;
  first [ exact (exec_op_imm_succeeds word st) | exact (flw_succeeds word st)
        | exact (fsw_succeeds word st) | apply succeeds_Ok ].
Qed.

(** C20: exactly when a step raises.  [step] raises [ValueError] on a reserved
    encoding of the OP, OP-32, OP-IMM-32, OP-FP, LOAD and STORE opcodes (for a
    load or store, only once its address has translated: a page fault comes
    first), [KeyError] on an [ecall] in a privilege mode other than U, S and M,
    and otherwise returns. *)
Theorem step_raises word st e :
  step word st = Err e <->
  (e = ValueError /\ reserved word = true /\ (reserved_mem word = true -> mapped word st = true)) \/
  (e = KeyError /\ reserved word = false /\ is_ecall word = true /\
   bad_priv (priv_mode st) = true).
Proof.
  pose proof (step_agrees word st) as H. unfold step_exn, agrees in H.
  destruct (reserved word).
  - destruct (reserved_mem word), (mapped word st); cbn [andb negb] in H;
      try (rewrite H; split; [intros [= <-]; auto | intros [[-> _]|(_ & [=] & _)]; done]).
    destruct H as [s ->]. split; [done|]. intros [(_ & _ & H)|(_ & [=] & _)]. by specialize (H eq_refl).
  - destruct (is_ecall word && bad_priv (priv_mode st)) eqn:B.
    + py_bool. rewrite H. split; [intros [= <-]; auto | by intros [(_ & [=] & _)|[-> _]]].
    + destruct H as [s ->]. split; [done|]. apply andb_false_iff in B.
      intros [(_ & [=] & _)|(_ & _ & ? & ?)]. destruct B; congruence.
Qed.

(** ** The reserved privilege mode is reachable

    [csr_write] stores both bits of [mstatus.MPP], so [mret] can enter mode 2; the
    [ecall] arm's dict has no entry for it. *)
Definition mode2_program : list Z :=
  [ 0x000010B7; (* lui   x1, 1          -- MPP = 2 *)
    0x30009073; (* csrrw x0, mstatus, x1 *)
    0x01400093; (* addi  x1, x0, 20 *)
    0x34109073; (* csrrw x0, mepc, x1 *)
    0x30200073; (* mret *)
    0x00000073  (* ecall *) ].

(** A program can crash the simulator.  Five instructions of M-mode code
    enter privilege mode 2 through [mret] with [mstatus.MPP] = 2, and the
    [ecall] after them raises [KeyError] instead of trapping. *)
Theorem reserved_mode_crash :
  exists st, run 10 mode2_program 100 (init 64 32) = Raised KeyError st /\ priv_mode st = 2.
Proof. eexists. split; vm_compute; reflexivity. Qed.
