(* ===== verification/PyStr.v ===== *)
(** * Python strings and integer literals

    The string operations the assembler and the disassembler use, on ASCII text:
    [str.strip], [str.lower], [str.split("#", 1)[0]], [str.endswith(":")],
    [re.split(r"[,\s]+", _)], [int(_, 0)], and the [d], [+d] and [x] formats.
    The lemmas say that what the formats print is what [int(_, 0)] reads, and
    that splitting undoes joining. *)

From Stdlib Require Import Ascii String.
From S2P Require Import Prelude.
Open Scope string_scope.
Open Scope Z_scope.

(** ** Characters *)

Definition code (c : ascii) : Z := Z.of_N (N_of_ascii c).
Definition chr (z : Z) : ascii := ascii_of_N (Z.to_N z).

(** [str.isspace], which is also what [\s] matches. *)
Definition is_space (c : ascii) : bool :=
  let z := code c in ((9 <=? z) && (z <=? 13)) || ((28 <=? z) && (z <=? 32)).
Definition is_digit (c : ascii) : bool := (48 <=? code c) && (code c <=? 57).
Definition is_upper (c : ascii) : bool := (65 <=? code c) && (code c <=? 90).
Definition is_lower (c : ascii) : bool := (97 <=? code c) && (code c <=? 122).
(** [\w] *)
Definition is_word (c : ascii) : bool :=
  is_digit c || is_upper c || is_lower c || (code c =? 95).
(** The class [[,\s]]. *)
Definition is_sep (c : ascii) : bool := (code c =? 44) || is_space c.

(** ** Strings *)

Fixpoint lstrip (s : string) : string :=
  match s with
  | "" => ""
  | String c s' => if is_space c then lstrip s' else s
  end.

Fixpoint rstrip (s : string) : string :=
  match s with
  | "" => ""
  | String c s' =>
      match rstrip s' with
      | "" => if is_space c then "" else String c ""
      | r => String c r
      end
  end.

Definition strip (s : string) : string := rstrip (lstrip s).

Definition lower_char (c : ascii) : ascii := if is_upper c then chr (code c + 32) else c.
Fixpoint lower (s : string) : string :=
  match s with "" => "" | String c s' => String (lower_char c) (lower s') end.

(** [s.split("#", 1)[0]] *)
Fixpoint before_hash (s : string) : string :=
  match s with
  | "" => ""
  | String c s' => if (c =? "#")%char then "" else String c (before_hash s')
  end.

(** [s[:-1]] and [s.endswith(":")] *)
Fixpoint drop_last (s : string) : string :=
  match s with
  | "" => ""
  | String c "" => ""
  | String c s' => String c (drop_last s')
  end.
Fixpoint ends_with_colon (s : string) : bool :=
  match s with
  | "" => false
  | String c "" => (c =? ":")%char
  | String _ s' => ends_with_colon s'
  end.

(** [re.split(r"[,\s]+", s)]; [insep] says that the previous character was a
    separator, which then ends no second token. *)
Fixpoint re_split (insep : bool) (s : string) : list string :=
  match s with
  | "" => [""]
  | String c s' =>
      if is_sep c then if insep then re_split true s' else "" :: re_split true s'
      else match re_split false s' with
           | t :: ts => String c t :: ts
           | [] => []
           end
  end.

(** ** [int(tok, 0)] *)

Definition digit_val (c : ascii) : option Z :=
  if is_digit c then Some (code c - 48)
  else if is_upper c then Some (code c - 55)
  else if is_lower c then Some (code c - 87)
  else None.

(** Digits in a base, with single underscores between them; [us] says that an
    underscore, or nothing at all, came before. *)
Fixpoint digits (base acc : Z) (us : bool) (s : string) : option Z :=
  match s with
  | "" => if us then None else Some acc
  | String c s' =>
      if (c =? "_")%char then if us then None else digits base acc true s'
      else match digit_val c with
           | Some d => if d <? base then digits base (acc * base + d) false s' else None
           | None => None
           end
  end.

(** After a base prefix one underscore may come first. *)
Definition digits_after_prefix (base : Z) (s : string) : option Z :=
  match s with
  | String c s' => if (c =? "_")%char then digits base 0 true s' else digits base 0 true s
  | "" => None
  end.

Definition prefix_base (c : ascii) : option Z :=
  if (c =? "x")%char || (c =? "X")%char then Some 16
  else if (c =? "o")%char || (c =? "O")%char then Some 8
  else if (c =? "b")%char || (c =? "B")%char then Some 2
  else None.

Definition magnitude (s : string) : option Z :=
  match s with
  | String "0" (String c s' as rest) =>
      match prefix_base c with
      | Some b => digits_after_prefix b s'
      | None =>
          (* a decimal literal with a leading zero must be zero *)
          match digits 10 0 true s with
          | Some 0 => Some 0
          | _ => None
          end
      end
  | _ => digits 10 0 true s
  end.

Definition signed_magnitude (s : string) : option Z :=
  match s with
  | String "-" s => Z.opp <$> magnitude s
  | String "+" s => magnitude s
  | s => magnitude s
  end.

Definition py_int0 (tok : string) : result Z :=
  match signed_magnitude (strip tok) with Some z => Ok z | None => Err ValueError end.

(** ** Formatting *)

Definition digit_char (d : Z) : ascii := if d <? 10 then chr (d + 48) else chr (d + 87).

Fixpoint show_digits (base : Z) (fuel : nat) (n : Z) (acc : string) : string :=
  match fuel with
  | O => acc
  | S f =>
      if n <? base then String (digit_char n) acc
      else show_digits base f (n / base) (String (digit_char (n mod base)) acc)
  end.

(** One digit per bit is enough fuel in any base. *)
Definition show_base (base n : Z) : string :=
  show_digits base (S (Z.to_nat (Z.log2 n))) n "".

Definition show_dec (z : Z) : string :=
  if z <? 0 then String "-" (show_base 10 (- z)) else show_base 10 z.
(** [{z:+d}] *)
Definition show_plus (z : Z) : string :=
  if z <? 0 then show_dec z else String "+" (show_dec z).
Definition show_hex (n : Z) : string := show_base 16 n.

(** ** Characters of a token *)

#[global] Arguments String.append _ _ : simpl nomatch.

Fixpoint all_chars (p : ascii -> bool) (s : string) : bool :=
  match s with "" => true | String c s' => p c && all_chars p s' end.

(** Neither a separator, nor the start of a comment, nor a label's colon. *)
Definition tok_char (c : ascii) : bool :=
  negb (is_sep c) && negb (c =? "#")%char && negb (c =? ":")%char.
Definition clean (t : string) : Prop := t <> "" /\ all_chars tok_char t = true.

Lemma all_chars_app p s t : all_chars p (s ++ t)%string = all_chars p s && all_chars p t.
Proof. induction s as [|c s IH]; simpl; [done|]. by rewrite IH, andb_assoc. Qed.

Lemma all_chars_impl (p q : ascii -> bool) s :
  (forall c, p c = true -> q c = true) -> all_chars p s = true -> all_chars q s = true.
Proof.
  intros H. induction s as [|c s IH]; simpl; [done|].
  intros [? ?]%andb_true_iff. by rewrite H, IH.
Qed.

Lemma append_assoc (a b c : string) : ((a ++ b) ++ c = a ++ (b ++ c))%string.
Proof. induction a as [|x a IH]; simpl; [done|]. by rewrite IH. Qed.

Lemma append_nil (a : string) : (a ++ "" = a)%string.
Proof. induction a as [|x a IH]; simpl; [done|]. by rewrite IH. Qed.

Lemma tok_char_inv c :
  tok_char c = true ->
  is_sep c = false /\ is_space c = false /\ (c =? "#")%char = false /\ (c =? ":")%char = false.
Proof.
  unfold tok_char, is_sep. intros [[H1 H2]%andb_true_iff H3]%andb_true_iff.
  apply negb_true_iff in H1, H2, H3. apply orb_false_iff in H1 as [? ?].
  split_and!; try done. by apply orb_false_iff.
Qed.

(** *** Splitting undoes joining *)

Lemma re_split_cut t c s :
  all_chars tok_char t = true -> is_sep c = true ->
  re_split false (t ++ String c s)%string = t :: re_split true s.
Proof.
  intros Ht Hc. induction t as [|a t IH]; simpl; [by rewrite Hc|].
  simpl in Ht. apply andb_true_iff in Ht as [[-> _]%tok_char_inv Ht]. by rewrite IH.
Qed.

Lemma re_split_last t : all_chars tok_char t = true -> re_split false t = [t].
Proof.
  intros Ht. induction t as [|a t IH]; simpl; [done|].
  simpl in Ht. apply andb_true_iff in Ht as [[-> _]%tok_char_inv Ht]. by rewrite IH.
Qed.

Lemma re_split_start t s :
  clean t -> re_split true (t ++ s)%string = re_split false (t ++ s)%string.
Proof.
  intros [Hn Ht]. destruct t as [|a t]; [done|]. simpl in *.
  apply andb_true_iff in Ht as [[-> _]%tok_char_inv _]. done.
Qed.

(** *** Stripping *)

Lemma lstrip_clean t s : clean t -> lstrip (t ++ s)%string = (t ++ s)%string.
Proof.
  intros [Hn Ht]. destruct t as [|a t]; [done|]. simpl in *.
  by apply andb_true_iff in Ht as [(_ & -> & _)%tok_char_inv _].
Qed.

Lemma rstrip_clean t : all_chars tok_char t = true -> rstrip t = t.
Proof.
  intros Ht. induction t as [|a t IH]; simpl; [done|].
  simpl in Ht. apply andb_true_iff in Ht as [(_ & Hs & _)%tok_char_inv Ht].
  rewrite IH by done. destruct t; [by rewrite Hs | done].
Qed.

Lemma rstrip_app s t : clean t -> rstrip (s ++ t)%string = (s ++ t)%string.
Proof.
  intros [Hn Ht]. induction s as [|a s IH]; simpl; [by apply rstrip_clean|].
  rewrite IH. destruct s; simpl; [by destruct t | done].
Qed.

Lemma strip_clean t : clean t -> strip t = t.
Proof.
  intros Ht. unfold strip. rewrite <- (append_nil t) at 1. rewrite lstrip_clean by done.
  rewrite append_nil. apply rstrip_clean, Ht.
Qed.

Lemma before_hash_id s :
  all_chars (fun c => negb (c =? "#")%char) s = true -> before_hash s = s.
Proof.
  induction s as [|c s IH]; simpl; [done|].
  intros [->%negb_true_iff ?]%andb_true_iff. by rewrite IH.
Qed.

Lemma no_colon_end s :
  all_chars (fun c => negb (c =? ":")%char) s = true -> ends_with_colon s = false.
Proof.
  induction s as [|c s IH]; simpl; [done|].
  intros [Hc%negb_true_iff ?]%andb_true_iff. destruct s; [done | by apply IH].
Qed.

(** ** Printing and reading numbers *)

Lemma digit_char_spec d :
  0 <= d < 16 ->
  digit_val (digit_char d) = Some d /\ (digit_char d =? "_")%char = false /\
  tok_char (digit_char d) = true /\ is_word (digit_char d) = true /\
  (d < 10 -> is_digit (digit_char d) = true).
Proof.
  intros H. assert (E : forallb (fun d =>
      bool_decide (digit_val (digit_char d) = Some d) && negb (digit_char d =? "_")%char &&
      tok_char (digit_char d) && is_word (digit_char d) &&
      (negb (d <? 10) || is_digit (digit_char d))) (seqZ 0 16) = true) by reflexivity.
  rewrite forallb_forall in E. specialize (E d).
  assert (In d (seqZ 0 16)) as Hin by (apply list_elem_of_In, elem_of_seqZ; lia).
  apply E in Hin. py_bool. split_and!; try done.
  - match goal with H : bool_decide _ = true |- _ => exact (bool_decide_eq_true_1 _ H) end.
  - intros Hd. destruct (d <? 10) eqn:L; [done|]. py_bool. lia.
Qed.

Section Show.
  Context (base : Z) (Hbase : 2 <= base <= 16).

Lemma show_fuel n f : base <= n -> 0 <= n < base ^ Z.of_nat (S f) -> 0 <= n / base < base ^ Z.of_nat f.
Proof.
  intros Hb Hn. split; [apply Z.div_pos; lia|]. apply Z.div_lt_upper_bound; [lia|].
  rewrite <- Z.pow_succ_r, <- Nat2Z.inj_succ by lia. apply Hn.
Qed.

(** Reading the printed digits gives the number, whatever follows. *)
Lemma digits_show fuel n acc us :
  0 <= n < base ^ Z.of_nat fuel -> (0 < fuel)%nat ->
  digits base 0 us (show_digits base fuel n acc) = digits base n false acc.
Proof.
  revert n acc us. induction fuel as [|f IH]; intros n acc us Hn Hf; [lia|]. cbn [show_digits].
  destruct (Z.ltb_spec n base).
  - destruct (digit_char_spec n) as (D & U & _); [lia|]. cbn [digits]. rewrite U, D.
    destruct (Z.ltb_spec n base); [|lia]. by rewrite Z.mul_0_l.
  - pose proof (show_fuel n f ltac:(lia) Hn) as Hn'.
    assert (0 < f)%nat.
    { destruct f; [|lia]. rewrite Z.pow_0_r in Hn'. assert (n / base = 0) as E by lia.
      apply Z.div_small_iff in E; lia. }
    rewrite IH by done. pose proof (Z.mod_pos_bound n base ltac:(lia)).
    destruct (digit_char_spec (n mod base)) as (D & U & _); [lia|]. cbn [digits]. rewrite U, D.
    destruct (Z.ltb_spec (n mod base) base); [|lia]. f_equal. rewrite (Z.div_mod n base) at 3; lia.
Qed.

(** The characters printed. *)
Lemma all_chars_show (p : ascii -> bool) fuel n acc :
  (forall d, 0 <= d < base -> p (digit_char d) = true) -> 0 <= n ->
  all_chars p acc = true -> all_chars p (show_digits base fuel n acc) = true.
Proof.
  intros Hp. revert n acc. induction fuel as [|f IH]; intros n acc Hn Ha; [done|]. cbn [show_digits].
  destruct (Z.ltb_spec n base); [simpl; by rewrite Hp, Ha by lia|].
  apply IH; [apply Z.div_pos; lia|]. simpl. rewrite Hp, Ha; [done|].
  apply Z.mod_pos_bound. lia.
Qed.

(** The first character of a positive number is a nonzero digit. *)
Lemma show_head fuel n acc :
  0 < n < base ^ Z.of_nat fuel -> exists d s, 0 < d < base /\ show_digits base fuel n acc = String (digit_char d) s.
Proof.
  revert n acc. induction fuel as [|f IH]; intros n acc Hn; [rewrite Z.pow_0_r in Hn; lia|]. cbn [show_digits].
  destruct (Z.ltb_spec n base); [exists n, acc; split; [lia | done]|].
  apply IH. pose proof (show_fuel n f ltac:(lia) ltac:(lia)).
  assert (0 < n / base) by (apply Z.div_str_pos; lia). lia.
Qed.

Lemma show_base_fuel n : 0 <= n -> 0 <= n < base ^ Z.of_nat (S (Z.to_nat (Z.log2 n))).
Proof.
  intros Hn. split; [done|]. destruct (Z.eq_dec n 0) as [->|]; [apply Z.pow_pos_nonneg; lia|].
  pose proof (Z.log2_spec n ltac:(lia)) as [_ H].
  replace (Z.of_nat (S (Z.to_nat (Z.log2 n)))) with (Z.succ (Z.log2 n))
    by (pose proof (Z.log2_nonneg n); lia).
  eapply Z.lt_le_trans; [exact H|]. apply Z.pow_le_mono_l. lia.
Qed.

Lemma digits_show_base n us : 0 <= n -> digits base 0 us (show_base base n) = Some n.
Proof. intros Hn. unfold show_base. rewrite digits_show; [done | by apply show_base_fuel | lia]. Qed.

End Show.

Lemma show_digits_nonempty base f n acc : acc <> "" -> show_digits base f n acc <> "".
Proof.
  revert n acc. induction f as [|f IH]; intros n acc H; [done|]. cbn [show_digits].
  destruct (n <? base); [done|]. by apply IH.
Qed.

Lemma show_nonempty base n : show_base base n <> "".
Proof.
  unfold show_base. cbn [show_digits]. destruct (n <? base); [done|].
  by apply show_digits_nonempty.
Qed.

Lemma digit_char_inj d e : 0 <= d < 16 -> 0 <= e < 16 -> digit_char d = digit_char e -> d = e.
Proof.
  intros Hd He E. destruct (digit_char_spec d Hd) as [D _]. destruct (digit_char_spec e He) as [D' _].
  rewrite E in D. congruence.
Qed.

Lemma magnitude_dec n : 0 <= n -> magnitude (show_base 10 n) = Some n.
Proof.
  intros Hn. destruct (Z.eq_dec n 0) as [->|]; [reflexivity|].
  pose proof (digits_show_base 10 ltac:(lia) n true Hn) as D.
  destruct (show_head 10 ltac:(lia) (S (Z.to_nat (Z.log2 n))) n "") as (d & s & Hd & E).
  { pose proof (show_base_fuel 10 ltac:(lia) n Hn). lia. }
  unfold show_base in *. rewrite E in *. rewrite <- D. unfold magnitude.
  assert (N : digit_char d <> "0"%char).
  { intros H. apply (digit_char_inj d 0) in H; lia. }
  destruct (digit_char d) as [[] [] [] [] [] [] [] []]; (reflexivity || by destruct N).
Qed.

Lemma show_base_chars (p : ascii -> bool) base n :
  2 <= base <= 16 -> 0 <= n -> (forall d, 0 <= d < base -> p (digit_char d) = true) ->
  all_chars p (show_base base n) = true.
Proof. intros. unfold show_base. by apply all_chars_show. Qed.

Lemma digit_tok base d : 2 <= base <= 16 -> 0 <= d < base -> tok_char (digit_char d) = true.
Proof. intros. apply digit_char_spec. lia. Qed.

Lemma show_base_clean base n : 2 <= base <= 16 -> 0 <= n -> clean (show_base base n).
Proof.
  intros. split; [apply show_nonempty|]. apply show_base_chars; [done | done |].
  intros. by apply (digit_tok base).
Qed.

Lemma clean_cons c s : tok_char c = true -> all_chars tok_char s = true -> clean (String c s).
Proof. intros Hc Hs. split; [done|]. simpl. by rewrite Hc. Qed.

Lemma show_dec_clean z : clean (show_dec z).
Proof.
  unfold show_dec. destruct (Z.ltb_spec z 0); [apply clean_cons; [done|]|];
    apply show_base_clean; lia.
Qed.

Lemma show_plus_clean z : clean (show_plus z).
Proof.
  unfold show_plus. case_match; [apply show_dec_clean|].
  apply clean_cons; [done | apply show_dec_clean].
Qed.

Lemma hex_clean n : 0 <= n -> clean ("0x" ++ show_hex n)%string.
Proof. intros. apply clean_cons; [done|]. simpl. apply show_base_clean; lia. Qed.

(** A printed decimal starts with a digit, not with a sign. *)
Lemma show_base_head n c s :
  0 <= n -> show_base 10 n = String c s -> c <> "-"%char /\ c <> "+"%char.
Proof.
  intros Hn E. assert (H : all_chars is_digit (show_base 10 n) = true).
  { apply show_base_chars; [lia | done |]. intros d Hd. apply digit_char_spec; lia. }
  rewrite E in H. simpl in H. apply andb_true_iff in H as [H _]. by split; intros ->.
Qed.

Lemma unsigned_magnitude c s :
  c <> "-"%char -> c <> "+"%char -> signed_magnitude (String c s) = magnitude (String c s).
Proof. intros H H'. destruct c as [[] [] [] [] [] [] [] []]; (reflexivity || done). Qed.

Lemma signed_show_base n : 0 <= n -> signed_magnitude (show_base 10 n) = Some n.
Proof.
  intros Hn. pose proof (magnitude_dec n Hn) as M. destruct (show_base 10 n) as [|c s] eqn:E.
  - by apply show_nonempty in E.
  - destruct (show_base_head n c s Hn E). by rewrite unsigned_magnitude.
Qed.

(** [int(str(z), 0) == z] *)
Lemma py_int0_dec z : py_int0 (show_dec z) = Ok z.
Proof.
  unfold py_int0. rewrite strip_clean by apply show_dec_clean. unfold show_dec.
  destruct (Z.ltb_spec z 0).
  - cbn [signed_magnitude]. rewrite magnitude_dec by lia. simpl. by rewrite Z.opp_involutive.
  - by rewrite signed_show_base.
Qed.

Lemma py_int0_plus z : py_int0 (show_plus z) = Ok z.
Proof.
  unfold show_plus. destruct (Z.ltb_spec z 0); [apply py_int0_dec|].
  unfold py_int0. rewrite strip_clean by (apply clean_cons; [done | apply show_dec_clean]).
  unfold show_dec. destruct (Z.ltb_spec z 0); [lia|]. cbn [signed_magnitude].
  by rewrite magnitude_dec.
Qed.

Lemma py_int0_hex n : 0 <= n -> py_int0 ("0x" ++ show_hex n)%string = Ok n.
Proof.
  intros Hn. unfold py_int0. rewrite strip_clean by by apply hex_clean.
  change (signed_magnitude _) with (digits_after_prefix 16 (show_hex n)).
  unfold digits_after_prefix, show_hex. destruct (show_base 16 n) as [|c s] eqn:E.
  { by apply show_nonempty in E. }
  assert (U : (c =? "_")%char = false).
  { assert (H : all_chars (fun c => negb (c =? "_")%char) (show_base 16 n) = true).
    { apply show_base_chars; [lia | done |]. intros d Hd. apply negb_true_iff, digit_char_spec; lia. }
    rewrite E in H. simpl in H. by apply andb_true_iff in H as [H%negb_true_iff _]. }
  rewrite U, <- E, digits_show_base by lia. done.
Qed.
