(* ===== verification/Asm.v ===== *)
(** * The assembler

    [src/sim/tools/asm.py]: the encoding tables, one definition per encoder, and
    the two-pass [assemble] on source text.  A dict is an association list; a
    subscript with a missing key raises [KeyError], a missing operand
    [IndexError], a failed match's [.group] [AttributeError]. *)

From Stdlib Require Import Ascii String.
From S2P Require Import Prelude PyStr.
Open Scope string_scope.
Open Scope Z_scope.

(** ** Operands *)

Fixpoint all_digits (s : string) : bool :=
  match s with "" => true | String c s' => is_digit c && all_digits s' end.

(** [int] of a string of decimal digits. *)
Fixpoint dec_value (acc : Z) (s : string) : Z :=
  match s with "" => acc | String c s' => dec_value (acc * 10 + (code c - 48)) s' end.

(** [re.match(r"^<prefix>(\d+)$", tok.strip())], then the range check. *)
Definition reg_with (prefix : ascii) (tok : string) : result Z :=
  match strip tok with
  | String c (String _ _ as ds) =>
      if (c =? prefix)%char && all_digits ds then
        let n := dec_value 0 ds in
        if (0 <=? n) && (n <=? 31) then Ok n else Err ValueError
      else Err ValueError
  | _ => Err ValueError
  end.

Definition reg (tok : string) : result Z := reg_with "x" tok.
Definition freg (tok : string) : result Z := reg_with "f" tok.

(** An immediate operand is an integer or the text of one. *)
Inductive operand : Type := TInt (z : Z) | TStr (s : string).

Definition operand_int (tok : operand) : result Z :=
  match tok with TInt z => Ok z | TStr s => py_int0 s end.

Definition imm (tok : operand) (bits : Z) (signed : bool) : result Z :=
  let! v := operand_int tok in
  let lo := if signed then - (1 ≪ (bits - 1)) else 0 in
  let hi := if signed then (1 ≪ (bits - 1)) - 1 else (1 ≪ bits) - 1 in
  if (lo <=? v) && (v <=? hi) then Ok (v .& ((1 ≪ bits) - 1)) else Err ValueError.

Definition u (v bits : Z) : Z := v .& ((1 ≪ bits) - 1).

(** ** Tables *)

Definition OP_R := 0x33.
Definition OP_I := 0x13.
Definition OP_LOAD := 0x03.
Definition OP_STORE := 0x23.
Definition OP_BRANCH := 0x63.
Definition OP_JAL := 0x6F.
Definition OP_JALR := 0x67.
Definition OP_LUI := 0x37.
Definition OP_AUIPC := 0x17.
Definition OP_CUSTOM := 0x2A.
Definition OP_SYSTEM := 0x73.
Definition OP_MISC_MEM := 0x0F.
Definition OP_32 := 0x3B.
Definition OP_IMM_32 := 0x1B.

Definition dict (A : Type) := list (string * A).

Fixpoint get {A} (d : dict A) (k : string) : option A :=
  match d with
  | [] => None
  | (k', v) :: d' => if (k =? k')%string then Some v else get d' k
  end.
Definition has {A} (d : dict A) (k : string) : bool :=
  match get d k with Some _ => true | None => false end.
(** [d[k]] *)
Definition subscript {A} (d : dict A) (k : string) : result A :=
  match get d k with Some v => Ok v | None => Err KeyError end.

Definition CSR_ADDR : dict Z :=
  [("mstatus", 0x300); ("mie", 0x304); ("mtvec", 0x305); ("mscratch", 0x340); ("mepc", 0x341);
   ("mcause", 0x342); ("mip", 0x344)].
Definition CSR_OP : dict Z :=
  [("csrrw", 1); ("csrrs", 2); ("csrrc", 3); ("csrrwi", 5); ("csrrsi", 6); ("csrrci", 7)].
Definition SYSTEM_IMM12 : dict Z :=
  [("ecall", 0x000); ("ebreak", 0x001); ("mret", 0x302); ("sret", 0x102)].
Definition FUNCT7_SFENCE_VMA := 9.
Definition FUNCT7_BASE := 0.
Definition FUNCT7_ALT := 0x20.
Definition FUNCT7_MULDIV := 1.

Definition R_TYPE : dict (Z * Z) :=
  [("add", (FUNCT7_BASE, 0)); ("sub", (FUNCT7_ALT, 0)); ("sll", (FUNCT7_BASE, 1));
   ("slt", (FUNCT7_BASE, 2)); ("sltu", (FUNCT7_BASE, 3)); ("xor", (FUNCT7_BASE, 4));
   ("srl", (FUNCT7_BASE, 5)); ("sra", (FUNCT7_ALT, 5)); ("or", (FUNCT7_BASE, 6));
   ("and", (FUNCT7_BASE, 7));
   ("mul", (FUNCT7_MULDIV, 0)); ("mulh", (FUNCT7_MULDIV, 1));
   ("mulhsu", (FUNCT7_MULDIV, 2)); ("mulhu", (FUNCT7_MULDIV, 3));
   ("div", (FUNCT7_MULDIV, 4)); ("divu", (FUNCT7_MULDIV, 5));
   ("rem", (FUNCT7_MULDIV, 6)); ("remu", (FUNCT7_MULDIV, 7))].
Definition I_TYPE : dict Z :=
  [("addi", 0); ("slli", 1); ("slti", 2); ("sltiu", 3);
   ("xori", 4); ("srli", 5); ("srai", 5); ("ori", 6); ("andi", 7)].
Definition BRANCH : dict Z :=
  [("beq", 0); ("bne", 1); ("blt", 4); ("bge", 5);
   ("ble", 2); ("bgt", 3); ("bltu", 6); ("bgeu", 7)].
Definition LOAD : dict Z :=
  [("lb", 0); ("lh", 1); ("lw", 2); ("lbu", 4); ("lhu", 5); ("ld", 3); ("lwu", 6)].
Definition STORE : dict Z := [("sb", 0); ("sh", 1); ("sw", 2); ("sd", 3)].
Definition R_TYPE_W : dict (Z * Z) :=
  [("addw", (FUNCT7_BASE, 0)); ("subw", (FUNCT7_ALT, 0)); ("sllw", (FUNCT7_BASE, 1));
   ("srlw", (FUNCT7_BASE, 5)); ("sraw", (FUNCT7_ALT, 5));
   ("mulw", (FUNCT7_MULDIV, 0));
   ("divw", (FUNCT7_MULDIV, 4)); ("divuw", (FUNCT7_MULDIV, 5));
   ("remw", (FUNCT7_MULDIV, 6)); ("remuw", (FUNCT7_MULDIV, 7))].
Definition I_TYPE_W : dict Z := [("addiw", 0); ("slliw", 1); ("srliw", 5); ("sraiw", 5)].

Definition OP_FP := 0x53.
Definition OP_LOAD_FP := 0x07.
Definition OP_STORE_FP := 0x27.
Definition OP_MADD := 0x43.
Definition OP_MSUB := 0x47.
Definition OP_NMSUB := 0x4B.
Definition OP_NMADD := 0x4F.
Definition MADD_OPCODES : dict Z :=
  [("fmadd.s", OP_MADD); ("fmsub.s", OP_MSUB); ("fnmsub.s", OP_NMSUB); ("fnmadd.s", OP_NMADD)].
Definition FUNCT5_FADD := 0.
Definition FUNCT5_FSUB := 1.
Definition FUNCT5_FMUL := 2.
Definition FUNCT5_FDIV := 3.
Definition FUNCT5_FSQRT := 0x0B.
Definition FUNCT5_FSGNJ := 4.
Definition FUNCT5_FMINMAX := 5.
Definition FUNCT5_FCMP := 0x14.
Definition FUNCT5_FCVT_W_S := 0x18.
Definition FUNCT5_FCVT_S_W := 0x1A.
Definition FUNCT5_FMV_X_W_FCLASS := 0x1C.
Definition FUNCT5_FMV_W_X := 0x1E.
Definition FP_ARITH : dict Z :=
  [("fadd.s", FUNCT5_FADD); ("fsub.s", FUNCT5_FSUB); ("fmul.s", FUNCT5_FMUL); ("fdiv.s", FUNCT5_FDIV)].
Definition FP_SGNJ : dict Z := [("fsgnj.s", 0); ("fsgnjn.s", 1); ("fsgnjx.s", 2)].
Definition FP_MINMAX : dict Z := [("fmin.s", 0); ("fmax.s", 1)].
Definition FP_CMP : dict Z := [("fle.s", 0); ("flt.s", 1); ("feq.s", 2)].
Definition RM_NAMES : dict Z :=
  [("rne", 0); ("rtz", 1); ("rdn", 2); ("rup", 3); ("rmm", 4); ("dyn", 7)].

Definition parse_rm (args : list string) (idx : nat) : result Z :=
  match args !! idx with
  | Some a =>
      if (strip a =? "")%string then subscript RM_NAMES "dyn"
      else match get RM_NAMES (lower (strip a)) with
           | Some v => Ok v
           | None => Err ValueError
           end
  | None => subscript RM_NAMES "dyn"
  end.

(** ** Encoders *)

Definition r_type (mn : string) (rd rs1 rs2 : Z) : result Z :=
  let! (f7, f3) := subscript R_TYPE mn in
  Ok ((f7 ≪ 25) .| (rs2 ≪ 20) .| (rs1 ≪ 15) .| (f3 ≪ 12) .| (rd ≪ 7) .| OP_R).

Definition i_type (mn : string) (rd rs1 : Z) (immv : operand) (xlen : Z) : result Z :=
  let! f3 := subscript I_TYPE mn in
  let! imm12 :=
    (if (mn =? "slli")%string || (mn =? "srli")%string || (mn =? "srai")%string then
       if 64 <=? xlen then
         let! shamt := imm immv 6 false in
         let f6 := if (mn =? "srai")%string then 0x10 else 0 in
         Ok ((f6 ≪ 6) .| shamt)
       else
         let! shamt := imm immv 5 false in
         let f7 := if (mn =? "srai")%string then FUNCT7_ALT else FUNCT7_BASE in
         Ok ((f7 ≪ 5) .| shamt)
     else imm immv 12 true) in
  Ok ((u imm12 12 ≪ 20) .| (rs1 ≪ 15) .| (f3 ≪ 12) .| (rd ≪ 7) .| OP_I).

Definition r_type_w (mn : string) (rd rs1 rs2 : Z) : result Z :=
  let! (f7, f3) := subscript R_TYPE_W mn in
  Ok ((f7 ≪ 25) .| (rs2 ≪ 20) .| (rs1 ≪ 15) .| (f3 ≪ 12) .| (rd ≪ 7) .| OP_32).

Definition i_type_w (mn : string) (rd rs1 : Z) (immv : operand) : result Z :=
  let! f3 := subscript I_TYPE_W mn in
  let! imm12 :=
    (if (mn =? "slliw")%string || (mn =? "srliw")%string || (mn =? "sraiw")%string then
       let! shamt := imm immv 5 false in
       let f7 := if (mn =? "sraiw")%string then FUNCT7_ALT else FUNCT7_BASE in
       Ok ((f7 ≪ 5) .| shamt)
     else imm immv 12 true) in
  Ok ((u imm12 12 ≪ 20) .| (rs1 ≪ 15) .| (f3 ≪ 12) .| (rd ≪ 7) .| OP_IMM_32).

Definition load (mn : string) (rd : Z) (offs : operand) (rs1 : Z) : result Z :=
  let! imm12 := imm offs 12 true in
  let! f3 := subscript LOAD mn in
  Ok ((u imm12 12 ≪ 20) .| (rs1 ≪ 15) .| (f3 ≪ 12) .| (rd ≪ 7) .| OP_LOAD).

Definition store (mn : string) (rs2 : Z) (offs : operand) (rs1 : Z) : result Z :=
  let! imm12 := imm offs 12 true in
  let hi := (imm12 ≫ 5) .& 0x7F in
  let lo := imm12 .& 0x1F in
  let! f3 := subscript STORE mn in
  Ok ((hi ≪ 25) .| (rs2 ≪ 20) .| (rs1 ≪ 15) .| (f3 ≪ 12) .| (lo ≪ 7) .| OP_STORE).

Definition jalr (rd : Z) (offs : operand) (rs1 : Z) : result Z :=
  let! imm12 := imm offs 12 true in
  Ok ((u imm12 12 ≪ 20) .| (rs1 ≪ 15) .| (rd ≪ 7) .| OP_JALR).

Definition u_type (opcode rd : Z) (imm20 : operand) : result Z :=
  let! v := imm imm20 20 false in
  Ok ((v ≪ 12) .| (rd ≪ 7) .| opcode).

Definition branch (mn : string) (rs1 rs2 offset_bytes : Z) : result Z :=
  let! f3 := subscript BRANCH mn in
  let! v := imm (TInt offset_bytes) 13 true in
  if truthy (v .& 1) then Err ValueError
  else
    let b12 := (v ≫ 12) .& 1 in
    let b11 := (v ≫ 11) .& 1 in
    let b10_5 := (v ≫ 5) .& 0x3F in
    let b4_1 := (v ≫ 1) .& 0xF in
    Ok ((b12 ≪ 31) .| (b10_5 ≪ 25) .| (rs2 ≪ 20) .| (rs1 ≪ 15) .| (f3 ≪ 12) .|
        (b11 ≪ 7) .| (b4_1 ≪ 8) .| OP_BRANCH).

Definition jal (rd offset_bytes : Z) : result Z :=
  let! v := imm (TInt offset_bytes) 21 true in
  if truthy (v .& 1) then Err ValueError
  else
    let b20 := (v ≫ 20) .& 1 in
    let b10_1 := (v ≫ 1) .& 0x3FF in
    let b11 := (v ≫ 11) .& 1 in
    let b19_12 := (v ≫ 12) .& 0xFF in
    Ok ((b20 ≪ 31) .| (b19_12 ≪ 12) .| (b11 ≪ 20) .| (b10_1 ≪ 21) .| (rd ≪ 7) .| OP_JAL).

Definition ctz (rd rs1 : Z) : Z :=
  (FUNCT7_ALT ≪ 25) .| (0 ≪ 20) .| (rs1 ≪ 15) .| (7 ≪ 12) .| (rd ≪ 7) .| OP_CUSTOM.

Definition fp_r_type (funct5 rd rs1 rs2 rm : Z) : Z :=
  (funct5 ≪ 27) .| (rs2 ≪ 20) .| (rs1 ≪ 15) .| (rm ≪ 12) .| (rd ≪ 7) .| OP_FP.

Definition fp_sqrt (rd rs1 rm : Z) : Z :=
  (FUNCT5_FSQRT ≪ 27) .| (0 ≪ 20) .| (rs1 ≪ 15) .| (rm ≪ 12) .| (rd ≪ 7) .| OP_FP.

Definition fp_sgnj (mn : string) (rd rs1 rs2 : Z) : result Z :=
  let! f3 := subscript FP_SGNJ mn in
  Ok ((FUNCT5_FSGNJ ≪ 27) .| (rs2 ≪ 20) .| (rs1 ≪ 15) .| (f3 ≪ 12) .| (rd ≪ 7) .| OP_FP).

Definition fp_minmax (mn : string) (rd rs1 rs2 : Z) : result Z :=
  let! f3 := subscript FP_MINMAX mn in
  Ok ((FUNCT5_FMINMAX ≪ 27) .| (rs2 ≪ 20) .| (rs1 ≪ 15) .| (f3 ≪ 12) .| (rd ≪ 7) .| OP_FP).

Definition fp_cmp (mn : string) (rd rs1 rs2 : Z) : result Z :=
  let! f3 := subscript FP_CMP mn in
  Ok ((FUNCT5_FCMP ≪ 27) .| (rs2 ≪ 20) .| (rs1 ≪ 15) .| (f3 ≪ 12) .| (rd ≪ 7) .| OP_FP).

Definition fp_cvt_w_s (unsigned : bool) (rd rs1 rm : Z) : Z :=
  let rs2 := if unsigned then 1 else 0 in
  (FUNCT5_FCVT_W_S ≪ 27) .| (rs2 ≪ 20) .| (rs1 ≪ 15) .| (rm ≪ 12) .| (rd ≪ 7) .| OP_FP.

Definition fp_cvt_s_w (unsigned : bool) (rd rs1 rm : Z) : Z :=
  let rs2 := if unsigned then 1 else 0 in
  (FUNCT5_FCVT_S_W ≪ 27) .| (rs2 ≪ 20) .| (rs1 ≪ 15) .| (rm ≪ 12) .| (rd ≪ 7) .| OP_FP.

Definition fp_mv_x_w (rd rs1 : Z) : Z :=
  (FUNCT5_FMV_X_W_FCLASS ≪ 27) .| (rs1 ≪ 15) .| (0 ≪ 12) .| (rd ≪ 7) .| OP_FP.

Definition fp_class (rd rs1 : Z) : Z :=
  (FUNCT5_FMV_X_W_FCLASS ≪ 27) .| (rs1 ≪ 15) .| (1 ≪ 12) .| (rd ≪ 7) .| OP_FP.

Definition fp_mv_w_x (rd rs1 : Z) : Z :=
  (FUNCT5_FMV_W_X ≪ 27) .| (rs1 ≪ 15) .| (rd ≪ 7) .| OP_FP.

Definition flw (rd : Z) (offs : operand) (rs1 : Z) : result Z :=
  let! imm12 := imm offs 12 true in
  Ok ((u imm12 12 ≪ 20) .| (rs1 ≪ 15) .| (2 ≪ 12) .| (rd ≪ 7) .| OP_LOAD_FP).

Definition fsw (rs2 : Z) (offs : operand) (rs1 : Z) : result Z :=
  let! imm12 := imm offs 12 true in
  let hi := (imm12 ≫ 5) .& 0x7F in
  let lo := imm12 .& 0x1F in
  Ok ((hi ≪ 25) .| (rs2 ≪ 20) .| (rs1 ≪ 15) .| (2 ≪ 12) .| (lo ≪ 7) .| OP_STORE_FP).

Definition fp_r4_type (opcode rd rs1 rs2 rs3 rm : Z) : Z :=
  (rs3 ≪ 27) .| (rs2 ≪ 20) .| (rs1 ≪ 15) .| (rm ≪ 12) .| (rd ≪ 7) .| opcode.

(** An integer is not a key of [CSR_ADDR]. *)
Definition csr_lookup (csr : operand) : result Z :=
  match csr with
  | TStr s => match get CSR_ADDR s with Some a => Ok a | None => py_int0 s end
  | TInt z => Ok z
  end.

Definition csr_reg (mn : string) (rd : Z) (csr : operand) (rs1 : Z) : result Z :=
  let! csr_addr := csr_lookup csr in
  let! f3 := subscript CSR_OP mn in
  Ok ((u csr_addr 12 ≪ 20) .| (rs1 ≪ 15) .| (f3 ≪ 12) .| (rd ≪ 7) .| OP_SYSTEM).

Definition csr_imm (mn : string) (rd : Z) (csr uimm : operand) : result Z :=
  let! csr_addr := csr_lookup csr in
  let! uimm5 := imm uimm 5 false in
  let! f3 := subscript CSR_OP mn in
  Ok ((u csr_addr 12 ≪ 20) .| (uimm5 ≪ 15) .| (f3 ≪ 12) .| (rd ≪ 7) .| OP_SYSTEM).

Definition system_noarg (mn : string) : result Z :=
  let! imm12 := subscript SYSTEM_IMM12 mn in
  Ok ((imm12 ≪ 20) .| OP_SYSTEM).

Definition sfence_vma (rs1 rs2 : Z) : Z :=
  (FUNCT7_SFENCE_VMA ≪ 25) .| (rs2 ≪ 20) .| (rs1 ≪ 15) .| OP_SYSTEM.

Definition fence : Z := (0xFF ≪ 20) .| OP_MISC_MEM.

(** ** [assemble] *)

(** Pass 1: comments and blanks dropped, labels recorded, statements numbered. *)
Definition pass1_line (st : list (Z * string) * Z * gmap string Z) (raw : string)
  : list (Z * string) * Z * gmap string Z :=
  let '(stmts, addr, labels) := st in
  let line := strip (before_hash raw) in
  if (line =? "")%string then st
  else if ends_with_colon line then (stmts, addr, <[strip (drop_last line) := addr]> labels)
  else ((stmts ++ [(addr, line)])%list, addr + 4, labels).

Definition pass1 (lines : list string) : list (Z * string) * Z * gmap string Z :=
  foldl pass1_line ([], 0, ∅) lines.

Definition resolve (labels : gmap string Z) (tok : string) (cur_addr : Z) : result Z :=
  match labels !! strip tok with
  | Some a => Ok (a - cur_addr)
  | None => py_int0 (strip tok)
  end.

(** [args[i]] *)
Definition arg (args : list string) (i : nat) : result string :=
  match args !! i with Some a => Ok a | None => Err IndexError end.

Fixpoint span (p : ascii -> bool) (s : string) : string * string :=
  match s with
  | "" => ("", "")
  | String c s' =>
      if p c then let '(a, b) := span p s' in (String c a, b) else ("", s)
  end.

(** [re.match(r"(-?\w+)\((x\d+)\)", tok)] and its two groups.  No choice is ever
    reconsidered: what may follow each run is outside the run's class. *)
Definition mem_operand (tok : string) : option (string * string) :=
  let '(sign, rest) :=
    match tok with
    | String "-" r => ("-", r)
    | _ => ("", tok)
    end in
  let '(word, rest) := span is_word rest in
  match word, rest with
  | String _ _, String "(" (String "x" r) =>
      let '(ds, r) := span is_digit r in
      match ds, r with
      | String _ _, String ")" _ => Some (sign ++ word, String "x" ds)
      | _, _ => None
      end
  | _, _ => None
  end%string.

(** [m.group(1)] and [reg(m.group(2))] of the second operand. *)
Definition mem_arg (args : list string) : result (string * Z) :=
  let! a1 := arg args 1 in
  match mem_operand a1 with
  | Some (offs, base) => let! r := reg base in Ok (offs, r)
  | None => Err AttributeError
  end.

(** [reg(args[i])] and [freg(args[i])] *)
Definition reg_arg (args : list string) (i : nat) : result Z := let! a := arg args i in reg a.
Definition freg_arg (args : list string) (i : nat) : result Z := let! a := arg args i in freg a.

Definition one_of (mn : string) (names : list string) : bool :=
  existsb (fun n => (mn =? n)%string) names.

(** The float mnemonics of the dispatch, from [flw] on. *)
Definition encode_fp (mn : string) (args : list string) : result Z :=
  if (mn =? "flw")%string then
    let! rd := freg_arg args 0 in let! (offs, rs1) := mem_arg args in flw rd (TStr offs) rs1
  else if (mn =? "fsw")%string then
    let! rs2 := freg_arg args 0 in let! (offs, rs1) := mem_arg args in fsw rs2 (TStr offs) rs1
  else if has FP_ARITH mn then
    let! rd := freg_arg args 0 in let! rs1 := freg_arg args 1 in let! rs2 := freg_arg args 2 in
    let! rm := parse_rm args 3 in let! f5 := subscript FP_ARITH mn in
    Ok (fp_r_type f5 rd rs1 rs2 rm)
  else if (mn =? "fsqrt.s")%string then
    let! rd := freg_arg args 0 in let! rs1 := freg_arg args 1 in
    let! rm := parse_rm args 2 in Ok (fp_sqrt rd rs1 rm)
  else if has FP_SGNJ mn then
    let! rd := freg_arg args 0 in let! rs1 := freg_arg args 1 in let! rs2 := freg_arg args 2 in
    fp_sgnj mn rd rs1 rs2
  else if has FP_MINMAX mn then
    let! rd := freg_arg args 0 in let! rs1 := freg_arg args 1 in let! rs2 := freg_arg args 2 in
    fp_minmax mn rd rs1 rs2
  else if has FP_CMP mn then
    let! rd := reg_arg args 0 in let! rs1 := freg_arg args 1 in let! rs2 := freg_arg args 2 in
    fp_cmp mn rd rs1 rs2
  else if one_of mn ["fcvt.w.s"; "fcvt.wu.s"] then
    let! rd := reg_arg args 0 in let! rs1 := freg_arg args 1 in
    let! rm := parse_rm args 2 in Ok (fp_cvt_w_s (mn =? "fcvt.wu.s")%string rd rs1 rm)
  else if one_of mn ["fcvt.s.w"; "fcvt.s.wu"] then
    let! rd := freg_arg args 0 in let! rs1 := reg_arg args 1 in
    let! rm := parse_rm args 2 in Ok (fp_cvt_s_w (mn =? "fcvt.s.wu")%string rd rs1 rm)
  else if (mn =? "fmv.x.w")%string then
    let! rd := reg_arg args 0 in let! rs1 := freg_arg args 1 in Ok (fp_mv_x_w rd rs1)
  else if (mn =? "fclass.s")%string then
    let! rd := reg_arg args 0 in let! rs1 := freg_arg args 1 in Ok (fp_class rd rs1)
  else if (mn =? "fmv.w.x")%string then
    let! rd := freg_arg args 0 in let! rs1 := reg_arg args 1 in Ok (fp_mv_w_x rd rs1)
  else if has MADD_OPCODES mn then
    let! rd := freg_arg args 0 in let! rs1 := freg_arg args 1 in
    let! rs2 := freg_arg args 2 in let! rs3 := freg_arg args 3 in
    let! rm := parse_rm args 4 in let! opcode := subscript MADD_OPCODES mn in
    Ok (fp_r4_type opcode rd rs1 rs2 rs3 rm)
  else Err ValueError.

Definition encode (labels : gmap string Z) (xlen cur_addr : Z) (mn : string) (args : list string)
  : result Z :=
  if (mn =? "nop")%string then i_type "addi" 0 0 (TInt 0) 32
  else if has R_TYPE mn then
    let! rd := reg_arg args 0 in let! rs1 := reg_arg args 1 in let! rs2 := reg_arg args 2 in
    r_type mn rd rs1 rs2
  else if (mn =? "ctz")%string then
    let! rd := reg_arg args 0 in let! rs1 := reg_arg args 1 in Ok (ctz rd rs1)
  else if has I_TYPE mn then
    let! rd := reg_arg args 0 in let! rs1 := reg_arg args 1 in let! a2 := arg args 2 in
    i_type mn rd rs1 (TStr a2) xlen
  else if has R_TYPE_W mn then
    let! rd := reg_arg args 0 in let! rs1 := reg_arg args 1 in let! rs2 := reg_arg args 2 in
    r_type_w mn rd rs1 rs2
  else if has I_TYPE_W mn then
    let! rd := reg_arg args 0 in let! rs1 := reg_arg args 1 in let! a2 := arg args 2 in
    i_type_w mn rd rs1 (TStr a2)
  else if has LOAD mn then
    let! rd := reg_arg args 0 in let! (offs, rs1) := mem_arg args in load mn rd (TStr offs) rs1
  else if has STORE mn then
    let! rs2 := reg_arg args 0 in let! (offs, rs1) := mem_arg args in store mn rs2 (TStr offs) rs1
  else if has BRANCH mn then
    let! rs1 := reg_arg args 0 in let! rs2 := reg_arg args 1 in
    let! a2 := arg args 2 in let! off := resolve labels a2 cur_addr in branch mn rs1 rs2 off
  else if (mn =? "jal")%string then
    let! rd := reg_arg args 0 in
    let! a1 := arg args 1 in let! off := resolve labels a1 cur_addr in jal rd off
  else if (mn =? "jalr")%string then
    let! rd := reg_arg args 0 in let! (offs, rs1) := mem_arg args in jalr rd (TStr offs) rs1
  else if (mn =? "lui")%string then
    let! rd := reg_arg args 0 in let! a1 := arg args 1 in u_type OP_LUI rd (TStr a1)
  else if (mn =? "auipc")%string then
    let! rd := reg_arg args 0 in let! a1 := arg args 1 in u_type OP_AUIPC rd (TStr a1)
  else if one_of mn ["csrrw"; "csrrs"; "csrrc"] then
    let! rd := reg_arg args 0 in let! csr := arg args 1 in let! rs1 := reg_arg args 2 in
    csr_reg mn rd (TStr csr) rs1
  else if one_of mn ["csrrwi"; "csrrsi"; "csrrci"] then
    let! rd := reg_arg args 0 in let! csr := arg args 1 in let! uimm := arg args 2 in
    csr_imm mn rd (TStr csr) (TStr uimm)
  else if one_of mn ["ecall"; "ebreak"; "mret"; "sret"] then system_noarg mn
  else if (mn =? "sfence.vma")%string then
    let! rs1 := (if (0 <? List.length args)%nat then reg_arg args 0 else Ok 0) in
    let! rs2 := (if (1 <? List.length args)%nat then reg_arg args 1 else Ok 0) in
    Ok (sfence_vma rs1 rs2)
  else if (mn =? "fence")%string then Ok fence
  else if (mn =? "word")%string then
    let! a0 := arg args 0 in let! v := py_int0 a0 in Ok (u v 32)
  else encode_fp mn args.

(** The body of the second loop: split, dispatch. *)
Definition assemble_stmt (labels : gmap string Z) (xlen : Z) (stmt : Z * string) : result Z :=
  let '(cur_addr, line) := stmt in
  match re_split false (strip line) with
  | mn :: args => encode labels xlen cur_addr (lower mn) args
  | [] => Err IndexError
  end.

Fixpoint assemble_all (labels : gmap string Z) (xlen : Z) (stmts : list (Z * string))
  : result (list Z) :=
  match stmts with
  | [] => Ok []
  | s :: rest =>
      let! w := assemble_stmt labels xlen s in
      let! ws := assemble_all labels xlen rest in
      Ok (w :: ws)
  end.

Definition assemble (lines : list string) (xlen : Z) : result (list Z) :=
  let '(stmts, _, labels) := pass1 lines in assemble_all labels xlen stmts.

(** ** [write_mem]: the bytes the file lists, least significant byte of each
    word first *)
Fixpoint write_words (size_bytes i : Z) (words : list Z) (data : list Z) : result (list Z) :=
  match words with
  | [] => Ok data
  | w :: rest =>
      let off := i * 4 in
      if size_bytes <? off + 4 then Err ValueError
      else
        let data := zset data (off + 0) (w .& 0xFF) in
        let data := zset data (off + 1) ((w ≫ 8) .& 0xFF) in
        let data := zset data (off + 2) ((w ≫ 16) .& 0xFF) in
        let data := zset data (off + 3) ((w ≫ 24) .& 0xFF) in
        write_words size_bytes (i + 1) rest data
  end.

Definition write_mem (words : list Z) (size_bytes : Z) : result (list Z) :=
  write_words size_bytes 0 words (replicate (Z.to_nat size_bytes) 0).
