(* ===== verification/Disasm.v ===== *)
(** * The disassembler

    [src/sim/tools/disasm.py]: [disasm] turns an instruction word into text.  The
    f-strings are concatenations of [show_dec], [show_plus] and [show_hex].  The
    module's own [sext] has the body of the simulator's and is [Bits.sext]. *)

From Stdlib Require Import Ascii String.
From S2P Require Import Prelude Bits PyStr.
Open Scope string_scope.
Open Scope Z_scope.

(** Dicts keyed by integers; [dget d k dflt] is [d.get(k, dflt)]. *)
Definition zdict := list (Z * string).
Fixpoint dfind (d : zdict) (k : Z) : option string :=
  match d with
  | [] => None
  | (k', v) :: d' => if k =? k' then Some v else dfind d' k
  end.
Definition dget (d : zdict) (k : Z) (dflt : string) : string := default dflt (dfind d k).

(** Dicts keyed by [(funct7, funct3)]. *)
Definition zzdict := list ((Z * Z) * string).
Fixpoint ffind (d : zzdict) (k : Z * Z) : option string :=
  match d with
  | [] => None
  | (k', v) :: d' =>
      if (fst k =? fst k') && (snd k =? snd k') then Some v else ffind d' k
  end.

Definition MADD_NAMES : zdict :=
  [(0x43, "fmadd.s"); (0x47, "fmsub.s"); (0x4B, "fnmsub.s"); (0x4F, "fnmadd.s")].
Definition RM_NAMES : zdict :=
  [(0, "rne"); (1, "rtz"); (2, "rdn"); (3, "rup"); (4, "rmm"); (7, "dyn")].
Definition CSR_NAMES : zdict :=
  [(0x300, "mstatus"); (0x305, "mtvec"); (0x340, "mscratch"); (0x341, "mepc"); (0x342, "mcause");
   (0x001, "fflags"); (0x002, "frm"); (0x003, "fcsr")].

(** Zero padding of the [02x], [03x], [08x] and [07b] formats. *)
Definition pad (width : nat) (s : string) : string :=
  (fold_right (fun _ acc => String "0" acc) "" (List.seq 0 (width - String.length s)) ++ s)%string.

Definition rm_name (rm : Z) : string := dget RM_NAMES rm ("rm?" ++ show_dec rm)%string.
Definition csr_name (addr : Z) : string :=
  dget CSR_NAMES addr ("0x" ++ pad 3 (show_hex addr))%string.

Definition x_name (n : Z) : string := String "x" (show_dec n).
Definition f_name (n : Z) : string := String "f" (show_dec n).
(** [f"{mn} {a},{b},..."] *)
Fixpoint commas (args : list string) : string :=
  match args with
  | [] => ""
  | [a] => a
  | a :: rest => (a ++ "," ++ commas rest)%string
  end.
Definition line (mn : string) (args : list string) : string := (mn ++ " " ++ commas args)%string.
(** [f"{offs}(x{base})"] *)
Definition at_base (offs base : Z) : string := (show_dec offs ++ "(" ++ x_name base ++ ")")%string.

(** [f"{f7:#04x}"] and the like *)
Definition hex04 (n : Z) : string := ("0x" ++ pad 2 (show_hex n))%string.

Section Disasm.
  Context (word xlen : Z).
  Local Abbreviation rd := ((word ≫ 7) .& 0x1F).
  Local Abbreviation f3 := ((word ≫ 12) .& 0x7).
  Local Abbreviation rs1 := ((word ≫ 15) .& 0x1F).
  Local Abbreviation rs2 := ((word ≫ 20) .& 0x1F).
  Local Abbreviation f7 := ((word ≫ 25) .& 0x7F).
  Local Abbreviation imm_i := (sext (word ≫ 20) 12).
  Local Abbreviation imm_s := (sext (((word ≫ 25) ≪ 5) .| ((word ≫ 7) .& 0x1F)) 12).

Definition muldiv_names : zdict :=
  [(0, "mul"); (1, "mulh"); (2, "mulhsu"); (3, "mulhu");
   (4, "div"); (5, "divu"); (6, "rem"); (7, "remu")].
Definition r_names : zzdict :=
  [((0, 0), "add"); ((0x20, 0), "sub"); ((0, 1), "sll");
   ((0, 2), "slt"); ((0, 3), "sltu"); ((0, 4), "xor");
   ((0, 5), "srl"); ((0x20, 5), "sra"); ((0, 6), "or"); ((0, 7), "and")].

(** [names[f3]] with all eight keys present. *)
Definition disasm_r : string :=
  if f7 =? 1 then line (dget muldiv_names f3 "") [x_name rd; x_name rs1; x_name rs2]
  else if (f7 =? 0x20) && (f3 =? 7) then line "ctz" [x_name rd; x_name rs1]
  else
    let mn := default ("r-type?(f7=" ++ hex04 f7 ++ ",f3=" ++ show_dec f3 ++ ")")%string
                (ffind r_names (f7, f3)) in
    line mn [x_name rd; x_name rs1; x_name rs2].

Definition disasm_i : string :=
  if (f3 =? 1) || (f3 =? 5) then
    let '(shamt, alt) :=
      if 64 <=? xlen then ((word ≫ 20) .& 0x3F, ((word ≫ 26) .& 0x3F) =? 0x10)
      else ((word ≫ 20) .& 0x1F, f7 =? 0x20) in
    let mn := if f3 =? 1 then "slli" else if alt then "srai" else "srli" in
    line mn [x_name rd; x_name rs1; show_dec shamt]
  else
    let names := [(0, "addi"); (2, "slti"); (3, "sltiu"); (4, "xori"); (6, "ori"); (7, "andi")] in
    line (dget names f3 "i-type?") [x_name rd; x_name rs1; show_dec imm_i].

Definition w_names : zzdict :=
  [((0, 0), "addw"); ((0x20, 0), "subw"); ((0, 1), "sllw"); ((0, 5), "srlw"); ((0x20, 5), "sraw")].

Definition disasm_op_32 : string :=
  if f7 =? 1 then
    let names := [(0, "mulw"); (4, "divw"); (5, "divuw"); (6, "remw"); (7, "remuw")] in
    line (dget names f3 "op32muldiv?") [x_name rd; x_name rs1; x_name rs2]
  else
    let mn := default ("op32?(f7=" ++ hex04 f7 ++ ",f3=" ++ show_dec f3 ++ ")")%string
                (ffind w_names (f7, f3)) in
    line mn [x_name rd; x_name rs1; x_name rs2].

Definition disasm_op_imm_32 : string :=
  if (f3 =? 1) || (f3 =? 5) then
    let shamt := (word ≫ 20) .& 0x1F in
    let mn := if f3 =? 1 then "slliw" else if f7 =? 0x20 then "sraiw" else "srliw" in
    line mn [x_name rd; x_name rs1; show_dec shamt]
  else line (dget [(0, "addiw")] f3 "opimm32?") [x_name rd; x_name rs1; show_dec imm_i].

Definition load_names : zdict :=
  [(0, "lb"); (1, "lh"); (2, "lw"); (3, "ld"); (4, "lbu"); (5, "lhu"); (6, "lwu")].
Definition store_names : zdict := [(0, "sb"); (1, "sh"); (2, "sw"); (3, "sd")].
Definition branch_names : zdict :=
  [(0, "beq"); (1, "bne"); (2, "ble"); (3, "bgt"); (4, "blt"); (5, "bge"); (6, "bltu"); (7, "bgeu")].

Definition disasm_branch : string :=
  let b12 := (word ≫ 31) .& 1 in
  let b11 := (word ≫ 7) .& 1 in
  let b10_5 := (word ≫ 25) .& 0x3F in
  let b4_1 := (word ≫ 8) .& 0xF in
  let off := sext ((b12 ≪ 12) .| (b11 ≪ 11) .| (b10_5 ≪ 5) .| (b4_1 ≪ 1)) 13 in
  line (dget branch_names f3 "branch?") [x_name rs1; x_name rs2; show_plus off].

Definition disasm_jal : string :=
  let b20 := (word ≫ 31) .& 1 in
  let b19_12 := (word ≫ 12) .& 0xFF in
  let b11 := (word ≫ 20) .& 1 in
  let b10_1 := (word ≫ 21) .& 0x3FF in
  let off := sext ((b20 ≪ 20) .| (b19_12 ≪ 12) .| (b11 ≪ 11) .| (b10_1 ≪ 1)) 21 in
  line "jal" [x_name rd; show_plus off].

Definition system_names : zdict := [(0x000, "ecall"); (0x001, "ebreak"); (0x302, "mret")].
Definition csr_op_names : zdict :=
  [(1, "csrrw"); (2, "csrrs"); (3, "csrrc"); (5, "csrrwi"); (6, "csrrsi"); (7, "csrrci")].

Definition disasm_system : string :=
  let csr_addr := (word ≫ 20) .& 0xFFF in
  if f3 =? 0 then dget system_names csr_addr ("system?(imm12=0x" ++ show_hex csr_addr ++ ")")%string
  else
    let mn := dget csr_op_names f3 "csr?" in
    if truthy (f3 .& 4) then line mn [x_name rd; csr_name csr_addr; show_dec rs1]
    else line mn [x_name rd; csr_name csr_addr; x_name rs1].

Definition fp_arith_names : zdict := [(0, "fadd.s"); (1, "fsub.s"); (2, "fmul.s"); (3, "fdiv.s")].

Definition disasm_fp : string :=
  let funct5 := (word ≫ 27) .& 0x1F in
  if (funct5 =? 0) || (funct5 =? 1) || (funct5 =? 2) || (funct5 =? 3) then
    line (dget fp_arith_names funct5 "") [f_name rd; f_name rs1; f_name rs2; rm_name f3]
  else if funct5 =? 0x0B then line "fsqrt.s" [f_name rd; f_name rs1; rm_name f3]
  else if funct5 =? 4 then
    line (dget [(0, "fsgnj.s"); (1, "fsgnjn.s"); (2, "fsgnjx.s")] f3 "fsgnj?") [f_name rd; f_name rs1; f_name rs2]
  else if funct5 =? 5 then
    line (dget [(0, "fmin.s"); (1, "fmax.s")] f3 "fminmax?") [f_name rd; f_name rs1; f_name rs2]
  else if funct5 =? 0x14 then
    line (dget [(0, "fle.s"); (1, "flt.s"); (2, "feq.s")] f3 "fcmp?") [x_name rd; f_name rs1; f_name rs2]
  else if funct5 =? 0x18 then
    line (if rs2 =? 1 then "fcvt.wu.s" else "fcvt.w.s") [x_name rd; f_name rs1; rm_name f3]
  else if funct5 =? 0x1A then
    line (if rs2 =? 1 then "fcvt.s.wu" else "fcvt.s.w") [f_name rd; x_name rs1; rm_name f3]
  else if funct5 =? 0x1C then
    if f3 =? 1 then line "fclass.s" [x_name rd; f_name rs1] else line "fmv.x.w" [x_name rd; f_name rs1]
  else if funct5 =? 0x1E then line "fmv.w.x" [f_name rd; x_name rs1]
  else ("op-fp?(funct5=0b" ++ pad 5 (show_base 2 funct5) ++ ")")%string.

Definition disasm : string :=
  let op := word .& 0x7F in
  if word =? 0x00000013 then "nop"
  else if word =? 0 then "—"
  else if op =? 0x33 then disasm_r
  else if op =? 0x13 then disasm_i
  else if op =? 0x3B then disasm_op_32
  else if op =? 0x1B then disasm_op_imm_32
  else if op =? 0x03 then line (dget load_names f3 "load?") [x_name rd; at_base imm_i rs1]
  else if op =? 0x23 then line (dget store_names f3 "store?") [x_name rs2; at_base imm_s rs1]
  else if op =? 0x63 then disasm_branch
  else if op =? 0x6F then disasm_jal
  else if op =? 0x67 then line "jalr" [x_name rd; at_base imm_i rs1]
  else if op =? 0x37 then line "lui" [x_name rd; ("0x" ++ show_hex ((word ≫ 12) .& 0xFFFFF))%string]
  else if op =? 0x17 then line "auipc" [x_name rd; ("0x" ++ show_hex ((word ≫ 12) .& 0xFFFFF))%string]
  else if op =? 0x2A then line "ctz" [x_name rd; x_name rs1]
  else if op =? 0x73 then disasm_system
  else if op =? 0x07 then line "flw" [f_name rd; at_base imm_i rs1]
  else if op =? 0x27 then line "fsw" [f_name rs2; at_base imm_s rs1]
  else
    match dfind MADD_NAMES op with
    | Some mn => line mn [f_name rd; f_name rs1; f_name rs2; f_name ((word ≫ 27) .& 0x1F); rm_name f3]
    | None =>
        if op =? 0x53 then disasm_fp
        else ("0x" ++ pad 8 (show_hex word) ++ "?")%string
    end.

End Disasm.
