(* ===== verification/PyText.v ===== *)
(** * Python's sequences and text methods

    The indexing, slicing, splitting and formatting the tools around the
    simulator use.  Strings are ASCII. *)

From Stdlib Require Import Ascii String.
From S2P Require Import Prelude PyStr Asm Disasm.
Open Scope string_scope.
Open Scope Z_scope.

(** ** Python's indexing, slicing and formats *)

(** [l[n]] *)
Definition py_index (l : list Z) (n : Z) : result Z :=
  let i := if n <? 0 then n + Z.of_nat (List.length l) else n in
  if i <? 0 then Err IndexError
  else match l !! Z.to_nat i with Some v => Ok v | None => Err IndexError end.

(** The bounds of [l[i:j]]: a negative one counts from the end, and both are
    clamped. *)
Definition clamp (len i : Z) : Z := if i <? 0 then Z.max 0 (i + len) else Z.min i len.
Definition py_slice {A} (l : list A) (i j : Z) : list A :=
  let len := Z.of_nat (List.length l) in
  take (Z.to_nat (clamp len j - clamp len i)) (drop (Z.to_nat (clamp len i)) l).
(** [l[i:]] *)
Definition py_from {A} (l : list A) (i : Z) : list A := py_slice l i (Z.of_nat (List.length l)).

(** [l[i:j] = new] *)
Definition slice_assign {A} (l : list A) (i j : Z) (new : list A) : list A :=
  let len := Z.of_nat (List.length l) in
  let lo := clamp len i in
  let hi := Z.max lo (clamp len j) in
  (take (Z.to_nat lo) l ++ new ++ drop (Z.to_nat hi) l)%list.
(** [l[n] = v] *)
Definition py_set {A} (l : list A) (n : Z) (v : A) : result (list A) :=
  let i := if n <? 0 then n + Z.of_nat (List.length l) else n in
  if (i <? 0) || (Z.of_nat (List.length l) <=? i) then Err IndexError else Ok (<[Z.to_nat i := v]> l).
(** [bytearray(n)] *)
Definition bytearray (n : Z) : result (list Z) :=
  if n <? 0 then Err ValueError else Ok (replicate (Z.to_nat n) 0).

Definition spaces (n : nat) : string := fold_right (fun _ acc => String " " acc) "" (List.seq 0 n).
(** [{s:<w}] and [{n:wd}] *)
Definition ljust (w : nat) (s : string) : string := (s ++ spaces (w - String.length s))%string.
Definition rjust (w : nat) (s : string) : string := (spaces (w - String.length s) ++ s)%string.

Fixpoint join (sep : string) (l : list string) : string :=
  match l with
  | [] => ""
  | [s] => s
  | s :: l => (s ++ sep ++ join sep l)%string
  end.

(** [line.split()] *)
Fixpoint split_ws (cur : string) (s : string) : list string :=
  match s with
  | "" => match cur with "" => [] | _ => [cur] end
  | String c s =>
      if is_space c then match cur with "" => split_ws "" s | _ => cur :: split_ws "" s end
      else split_ws (cur ++ String c "")%string s
  end.

(** [int(s)] *)
Definition py_int10 (s : string) : result Z :=
  let r :=
    match strip s with
    | String "-" s => Z.opp <$> digits 10 0 true s
    | String "+" s => digits 10 0 true s
    | s => digits 10 0 true s
    end in
  match r with Some z => Ok z | None => Err ValueError end.

(** [{cmd!r}] of a word of ASCII characters *)
Fixpoint repr_chars (quote : ascii) (s : string) : string :=
  match s with
  | "" => ""
  | String c s =>
      ((if (c =? quote)%char || (code c =? 92)%Z then String (chr 92) (String c "")
        else if (code c <? 32)%Z || (code c =? 127)%Z then String (chr 92) (String "x" (pad 2 (show_hex (code c))))
        else String c "") ++ repr_chars quote s)%string
  end.
Fixpoint has_char (c : ascii) (s : string) : bool :=
  match s with "" => false | String d s => (d =? c)%char || has_char c s end.
Definition py_repr (s : string) : string :=
  let quote := if has_char (chr 39) s && negb (has_char (chr 34) s) then chr 34 else chr 39 in
  String quote (repr_chars quote s ++ String quote "").

(** [int(s, 16)] *)
Definition magnitude16 (s : string) : option Z :=
  match s with
  | String "0" (String c s') =>
      if (c =? "x")%char || (c =? "X")%char then digits_after_prefix 16 s' else digits 16 0 true s
  | _ => digits 16 0 true s
  end.
Definition py_int16 (s : string) : result Z :=
  let r :=
    match strip s with
    | String "-" s => Z.opp <$> magnitude16 s
    | String "+" s => magnitude16 s
    | s => magnitude16 s
    end in
  match r with Some z => Ok z | None => Err ValueError end.

(** [s.splitlines()]: a line ends at a line feed, a carriage return (with the
    line feed that follows it), or one of [\v \f \x1c \x1d \x1e]; what is
    left after the last end is a line unless it is empty. *)
Definition is_eol (c : ascii) : bool :=
  existsb (Z.eqb (code c)) [10; 11; 12; 13; 28; 29; 30].
Fixpoint split_lines (cur : string) (s : string) : list string :=
  match s with
  | "" => match cur with "" => [] | _ => [cur] end
  | String c s' =>
      if is_eol c then
        cur :: match s' with
               | String d s'' =>
                   if (code c =? 13) && (code d =? 10) then split_lines "" s'' else split_lines "" s'
               | "" => split_lines "" s'
               end
      else split_lines (cur ++ String c "")%string s'
  end.
Definition splitlines (s : string) : list string := split_lines "" s.

(** [s.split(c)] with a separator of one character *)
Fixpoint split_on (sep : ascii) (cur : string) (s : string) : list string :=
  match s with
  | "" => [cur]
  | String c s' => if (c =? sep)%char then cur :: split_on sep "" s' else split_on sep (cur ++ String c "")%string s'
  end.

(** [s.replace(old, new)] *)
Fixpoint py_replace (old new : string) (skip : nat) (s : string) : string :=
  match s, skip with
  | "", _ => ""
  | String _ s', S k => py_replace old new k s'
  | String c s', O =>
      if String.prefix old s then (new ++ py_replace old new (String.length old - 1) s')%string
      else String c (py_replace old new 0 s')
  end.

(** [os.path.join(a, b)] and [os.path.splitext(s)[0]] for the file names the
    tools use, which do not start with a dot. *)
Definition path_join (a b : string) : string := (a ++ "/" ++ b)%string.
Fixpoint file_stem (s : string) : string :=
  match s with
  | "" => ""
  | String c s' => if (c =? ".")%char && negb (has_char "." s') then "" else String c (file_stem s')
  end.

(** [int(str(z)) == z] *)
Lemma py_int10_dec z : py_int10 (show_dec z) = Ok z.
Proof.
  unfold py_int10. rewrite strip_clean by apply show_dec_clean. unfold show_dec.
  destruct (Z.ltb_spec z 0).
  - rewrite digits_show_base by lia. simpl. by rewrite Z.opp_involutive.
  - pose proof (show_nonempty 10 z). pose proof (digits_show_base 10 ltac:(lia) z true ltac:(lia)) as D.
    destruct (show_base 10 z) as [|c s] eqn:E; [done|].
    destruct (show_base_head z c s ltac:(lia) E) as [N1 N2].
    destruct c as [[] [] [] [] [] [] [] []]; try (by rewrite D); done.
Qed.

(** [sep.join(l).split(sep)] is [l], for strings without the separator. *)
Definition no_char (sep : ascii) (s : string) : bool := all_chars (fun c => negb (c =? sep)%char) s.

Lemma py_replace_absent c old new s : no_char c s = true -> py_replace (String c old) new 0 s = s.
Proof.
  unfold no_char. induction s as [|d s IH]; [done|]. cbn [all_chars]. intros [H F]%andb_prop. cbn [py_replace].
  destruct (String.prefix (String c old) (String d s)) eqn:P; [|by rewrite IH]. exfalso. cbn [String.prefix] in P.
  destruct (ascii_dec c d) as [->|]; [|done]. by rewrite Ascii.eqb_refl in H.
Qed.

Lemma split_on_tok sep t : forall cur s, no_char sep t = true -> split_on sep cur (t ++ s) = split_on sep (cur ++ t) s.
Proof.
  induction t as [|c t IH]; intros cur s H; [by rewrite append_nil|]. unfold no_char in H. cbn [all_chars] in H.
  apply andb_prop in H as [Hc Ht]. apply negb_true_iff in Hc. cbn [append split_on].
  rewrite Hc, IH by done. by rewrite append_assoc.
Qed.

Lemma split_on_join sep l :
  Forall (fun t => no_char sep t = true) l -> l <> [] -> split_on sep "" (join (String sep "") l) = l.
Proof.
  induction 1 as [|t l Ht Hl IH]; [done|]. intros _. destruct l as [|u l].
  - cbn [join]. rewrite <- (append_nil t) at 1. rewrite split_on_tok by done. done.
  - change (join (String sep "") (t :: u :: l)) with (t ++ String sep "" ++ join (String sep "") (u :: l)).
    rewrite split_on_tok by done. cbn [append split_on]. rewrite Ascii.eqb_refl. by rewrite IH.
Qed.
