(* ===== verification/PosixPath.v ===== *)
(** * File names

    [os.path.normpath], [join], [abspath] and [relpath] as POSIX systems have them,
    and that a relative name leads back to the file it was made from. *)

From Stdlib Require Import Ascii String.
From S2P Require Import Prelude PyStr Asm Disasm PyText.
Open Scope string_scope.
Open Scope Z_scope.

(** ** Definitions *)

Definition is_abs (p : string) : bool := String.prefix "/" p.

(** One component of [normpath]; the components so far are kept in reverse. *)
Definition norm_step (slashes : bool) (acc : list string) (comp : string) : list string :=
  if (comp =? "")%string || (comp =? ".")%string then acc
  else if negb (comp =? "..")%string || match acc with [] => negb slashes | top :: _ => (top =? "..")%string end
  then comp :: acc
  else match acc with [] => [] | _ :: acc' => acc' end.
Definition norm_comps (slashes : bool) (comps : list string) : list string :=
  rev (foldl (norm_step slashes) [] comps).

(** Two leading slashes, and no more, are kept. *)
Definition leading (p : string) : string :=
  if String.prefix "//" p && negb (String.prefix "///" p) then "//" else if is_abs p then "/" else "".
Definition normpath (p : string) : string :=
  let path := leading p ++ join "/" (norm_comps (is_abs p) (split_on "/" "" p)) in
  if (path =? "")%string then "." else path.

Fixpoint ends_slash (p : string) : bool :=
  match p with
  | "" => false
  | String c "" => (c =? "/")%char
  | String _ p' => ends_slash p'
  end.
(** [os.path.join(a, b)] *)
Definition os_join (a b : string) : string :=
  if is_abs b then b else if (a =? "")%string || ends_slash a then a ++ b else a ++ "/" ++ b.
Definition abspath (cwd p : string) : string := normpath (if is_abs p then p else os_join cwd p).

Fixpoint common {A} `{EqDecision A} (l k : list A) : nat :=
  match l, k with
  | x :: l, y :: k => if decide (x = y) then S (common l k) else O
  | _, _ => O
  end.
Definition components (p : string) : list string := List.filter (fun x => negb (x =? "")%string) (split_on "/" "" p).
Definition relpath (cwd path start : string) : result string :=
  if (path =? "")%string then Err ValueError
  else
    let start_list := components (abspath cwd start) in
    let path_list := components (abspath cwd path) in
    let i := common start_list path_list in
    let rel_list := (replicate (List.length start_list - i) ".." ++ drop i path_list)%list in
    Ok (match rel_list with [] => "." | c :: cs => foldl os_join c cs end).

(** [os.path.dirname(p)] *)
Fixpoint before_last_slash (p : string) : string :=
  match p with
  | "" => ""
  | String c s => if has_char "/" p then String c (before_last_slash s) else ""
  end.
Fixpoint rstrip_slash (p : string) : string :=
  match p with
  | "" => ""
  | String c s => let r := rstrip_slash s in if (c =? "/")%char && (r =? "")%string then "" else String c r
  end.
Definition dirname (p : string) : string :=
  let head := before_last_slash p in
  if all_chars (fun c => (c =? "/")%char) head then head else rstrip_slash head.

(** ** Normal forms *)

(** The name of a file from the root. *)
Definition abs (cs : list string) : string := "/" ++ join "/" cs.

(** A component that names something. *)
Definition part (c : string) : Prop := c <> "" /\ no_char "/" c = true.
Definition real (c : string) : Prop := part c /\ c <> "." /\ c <> "..".

Lemma real_part cs : Forall real cs -> Forall part cs.
Proof. intros F. eapply Forall_impl; [exact F|]. by intros c []. Qed.

Lemma part_no_slash cs : Forall part cs -> Forall (fun c => no_char "/" c = true) cs.
Proof. intros F. eapply Forall_impl; [exact F|]. by intros c []. Qed.

Lemma join_app a b : a <> [] -> b <> [] -> join "/" (a ++ b) = join "/" a ++ "/" ++ join "/" b.
Proof.
  intros Na Nb. induction a as [|x a IH]; [done|]. destruct a as [|y a].
  - destruct b; [done|]. reflexivity.
  - change (join "/" ((x :: y :: a) ++ b)) with (x ++ "/" ++ join "/" ((y :: a) ++ b)).
    rewrite IH by done. change (join "/" (x :: y :: a)) with (x ++ "/" ++ join "/" (y :: a)). by rewrite !append_assoc.
Qed.

Lemma part_not_abs c s : part c -> is_abs (c ++ s) = false.
Proof.
  intros [N H]. destruct c as [|x c]; [done|]. unfold no_char in H. cbn [all_chars] in H. apply andb_prop in H as [H _].
  unfold is_abs. cbn [append String.prefix]. destruct (ascii_dec "/" x) as [<-|]; done.
Qed.

Lemma join_not_abs cs : Forall part cs -> is_abs (join "/" cs) = false.
Proof.
  intros [|c cs' Hc _]; [done|]. destruct cs' as [|d cs']; cbn [join].
  - rewrite <- (append_nil c). by apply part_not_abs.
  - by apply part_not_abs.
Qed.

Lemma ends_slash_app a c : part c -> ends_slash (a ++ c) = false.
Proof.
  intros [N H]. induction a as [|x a IH]; cbn [append].
  - clear N. induction c as [|x c IH]; [done|]. unfold no_char in H. cbn [all_chars] in H. apply andb_prop in H as [Hx H].
    cbn [ends_slash]. destruct c; [by apply negb_true_iff in Hx | by apply IH].
  - cbn [ends_slash]. destruct (a ++ c) eqn:E; [|done]. by destruct a, c.
Qed.

Lemma split_abs cs : Forall part cs -> split_on "/" "" (abs cs) = "" :: match cs with [] => [""] | _ => cs end.
Proof.
  intros F. unfold abs. cbn [append split_on]. change ("/" =? "/")%char with true. cbv iota. f_equal.
  destruct cs as [|c cs]; [done|]. by apply split_on_join; [apply part_no_slash|].
Qed.

Lemma is_abs_abs cs : is_abs (abs cs) = true.
Proof. unfold is_abs, abs. cbn [append]. by destruct (join "/" cs). Qed.

Lemma leading_abs cs : Forall part cs -> leading (abs cs) = "/".
Proof.
  intros F. unfold leading. change (String.prefix "//" (abs cs)) with (is_abs (join "/" cs)). by rewrite join_not_abs, is_abs_abs.
Qed.

Lemma normpath_abs cs : Forall part cs -> normpath (abs cs) = abs (norm_comps true cs).
Proof.
  intros F. unfold normpath. rewrite leading_abs, split_abs by done. rewrite is_abs_abs. cbv zeta.
  change (norm_comps true ("" :: match cs with [] => [""] | _ => cs end)) with (norm_comps true match cs with [] => [""] | _ => cs end).
  destruct cs; reflexivity.
Qed.

Lemma components_abs cs : Forall part cs -> components (abs cs) = cs.
Proof.
  intros F. unfold components. rewrite split_abs by done. cbn [List.filter String.eqb negb].
  destruct F as [|c cs Hc F]; [done|]. assert (Forall part (c :: cs)) as G by by constructor. clear Hc F.
  induction G as [|d ds [Nd _] _ IH]; [done|]. cbn [List.filter]. apply String.eqb_neq in Nd as ->. by rewrite IH.
Qed.

(** Pushing named components, and popping as many as were pushed. *)
Lemma push_real acc cs : Forall real cs -> foldl (norm_step true) acc cs = (rev cs ++ acc)%list.
Proof.
  intros F. revert acc. induction F as [|c cs ([N _] & N1 & N2) _ IH]; intros acc; [done|]. cbn [foldl].
  rewrite IH. unfold norm_step. apply String.eqb_neq in N as ->, N1 as ->, N2 as ->. cbn [orb negb]. simpl. by rewrite <- app_assoc.
Qed.

Lemma pop_dots k : forall acc, Forall real acc -> (k <= List.length acc)%nat ->
  foldl (norm_step true) acc (replicate k "..") = drop k acc.
Proof.
  induction k as [|k IH]; intros acc F L; [by rewrite drop_0|]. destruct F as [|c acc (_ & _ & N) F]; [simpl in L; lia|].
  cbn [replicate foldl]. unfold norm_step at 2. cbn [String.eqb Ascii.eqb Bool.eqb orb negb]. apply String.eqb_neq in N as ->.
  cbn [orb]. apply IH; [done | simpl in L; lia].
Qed.

(** A name from the root has named components only. *)
Lemma norm_comps_real cs : Forall (fun c => no_char "/" c = true) cs -> Forall real (norm_comps true cs).
Proof.
  intros F. unfold norm_comps. apply Forall_rev. assert (Forall real []) as A by constructor. revert A. generalize (@nil string).
  induction F as [|c cs Hc _ IH]; intros acc A; [done|]. cbn [foldl]. apply IH. unfold norm_step.
  destruct (String.eqb_spec c ""); [done|]. destruct (String.eqb_spec c "."); [done|]. cbn [orb].
  destruct (String.eqb_spec c "..") as [->|]; cbn [negb orb]; [|by repeat constructor].
  destruct A as [|d acc (_ & _ & N) A]; [done|]. by apply String.eqb_neq in N as ->.
Qed.

Lemma split_no_slash s : forall cur, no_char "/" cur = true -> Forall (fun c => no_char "/" c = true) (split_on "/" cur s).
Proof.
  induction s as [|c s IH]; intros cur H; cbn [split_on]; [by repeat constructor|].
  destruct (c =? "/")%char eqn:E; [constructor; [done | by apply IH]|]. apply IH. unfold no_char in *.
  rewrite all_chars_app, H. cbn [all_chars]. by rewrite E.
Qed.

(** ** A relative name leads back *)

(** The name a process in [cwd] gives the file [p]; two leading slashes are left out. *)
Definition given_path (cwd p : string) : string := if is_abs p then p else os_join cwd p.
Definition rooted (cwd p : string) : Prop := leading (given_path cwd p) = "/".

Lemma abspath_real cwd p : rooted cwd p -> exists cs, Forall real cs /\ abspath cwd p = abs cs.
Proof.
  unfold rooted, abspath. fold (given_path cwd p). generalize (given_path cwd p). intros q L.
  assert (is_abs q = true) as A.
  { unfold leading in L. destruct (is_abs q); [done|]. by destruct (String.prefix "//" q && negb (String.prefix "///" q)). }
  exists (norm_comps true (split_on "/" "" q)). split; [by apply norm_comps_real, split_no_slash|].
  unfold normpath. by rewrite L, A.
Qed.

Lemma norm_real cs : Forall real cs -> norm_comps true cs = cs.
Proof. intros F. unfold norm_comps. rewrite push_real by done. by rewrite app_nil_r, rev_involutive. Qed.

Lemma abspath_abs cwd cs : Forall real cs -> abspath cwd (abs cs) = abs cs.
Proof.
  intros F. unfold abspath. rewrite is_abs_abs, normpath_abs by by apply real_part. by rewrite norm_real.
Qed.

Lemma join_end a c : part c -> ends_slash (join "/" (a ++ [c])) = false.
Proof.
  intros P. destruct a as [|x a]; [by apply (ends_slash_app "" c)|]. rewrite join_app by done. cbn [join].
  rewrite <- append_assoc. by apply ends_slash_app.
Qed.

Lemma join_nonempty cs : Forall part cs -> cs <> [] -> join "/" cs <> "".
Proof. intros [|c cs' [N _] _] H; [done|]. destruct cs'; cbn [join]; [done|]. by destruct c. Qed.

(** [os.path.join] of components puts slashes between them. *)
Lemma os_join_parts a b : Forall part a -> a <> [] -> Forall part b -> b <> [] ->
  os_join (join "/" a) (join "/" b) = join "/" (a ++ b).
Proof.
  intros Fa Na Fb Nb. unfold os_join. rewrite join_not_abs by done.
  pose proof (join_nonempty a Fa Na) as NE. apply String.eqb_neq in NE as ->. cbn [orb].
  destruct (exists_last Na) as (a' & c & ->). apply Forall_app in Fa as [_ [Fc _]%Forall_cons].
  rewrite join_end by done. by rewrite (join_app (a' ++ [c]) b) by (by destruct a').
Qed.

Lemma foldl_os_join cs : forall a, Forall part (a ++ cs) -> a <> [] -> foldl os_join (join "/" a) cs = join "/" (a ++ cs).
Proof.
  induction cs as [|c cs IH]; intros a F N; [by rewrite app_nil_r|]. cbn [foldl].
  pose proof F as [Fa [Fc _]%Forall_cons]%Forall_app. change c with (join "/" [c]) at 1.
  rewrite os_join_parts by (done || by apply Forall_singleton). rewrite IH by (rewrite <- ?app_assoc; done || by destruct a).
  by rewrite <- app_assoc.
Qed.

(** From a directory, a name made of components. *)
Lemma os_join_abs ds cs : Forall part ds -> Forall part cs -> cs <> [] -> os_join (abs ds) (join "/" cs) = abs (ds ++ cs).
Proof.
  intros Fd Fc Nc. unfold os_join. rewrite join_not_abs by done. destruct ds as [|d ds]; [reflexivity|].
  assert (d :: ds <> []) as Nd by done. destruct (exists_last Nd) as (ds' & e & E). rewrite E in *.
  apply Forall_app in Fd as [_ [Fe _]%Forall_cons].
  replace (ends_slash (abs (ds' ++ [e]))) with false.
  - unfold abs. cbn [append String.eqb orb]. rewrite (join_app (ds' ++ [e]) cs) by (done || by destruct ds'). reflexivity.
  - symmetry. unfold abs. destruct ds' as [|x l]; [by apply (ends_slash_app "/" e)|]. rewrite join_app by done.
    cbn [join]. rewrite <- !append_assoc. by apply ends_slash_app.
Qed.

Lemma abspath_under ds cs : Forall part ds -> Forall part cs -> cs <> [] ->
  abspath (abs ds) (join "/" cs) = abs (norm_comps true (ds ++ cs)).
Proof.
  intros Fd Fc Nc. unfold abspath. rewrite join_not_abs, os_join_abs by done. by apply normpath_abs, Forall_app.
Qed.

Lemma common_prefix (l k : list string) : take (common l k) l = take (common l k) k /\ (common l k <= List.length l)%nat.
Proof.
  revert k. induction l as [|x l IH]; intros k; [by destruct k|]. destruct k as [|y k]; [by split; [|simpl; lia]|].
  cbn [common]. destruct (decide (x = y)) as [->|]; [|by split; [|lia]]. destruct (IH k) as [E ?].
  cbn [take List.length]. rewrite E. split; [done | lia].
Qed.

(** Up from the directory to the common part, and down to the file. *)
Lemma norm_relative ds cs : Forall real ds -> Forall real cs ->
  let i := common ds cs in
  norm_comps true (ds ++ replicate (List.length ds - i) ".." ++ drop i cs) = cs.
Proof.
  intros Fd Fc i. destruct (common_prefix ds cs) as [T L]. fold i in T, L. unfold norm_comps.
  rewrite !foldl_app, (push_real [] ds), app_nil_r by done.
  rewrite pop_dots by first [by apply Forall_rev | rewrite length_rev; lia].
  rewrite push_real by by apply Forall_drop. rewrite rev_app_distr, rev_involutive.
  assert (rev (drop (List.length ds - i) (rev ds)) = take i ds) as ->.
  { rewrite <- (take_drop i ds) at 2. rewrite rev_app_distr, drop_app_length'; [by rewrite rev_involutive|].
    by rewrite length_rev, length_drop. }
  rewrite T. apply take_drop.
Qed.

(** [relpath] of an absolute name, read in the directory it is relative to, is the
    name again. *)
Lemma relpath_resolves cwd p start r :
  rooted cwd p -> rooted cwd start -> relpath cwd (abspath cwd p) start = Ok r ->
  abspath (abspath cwd start) r = abspath cwd p.
Proof.
  intros Hp Hs. destruct (abspath_real cwd p Hp) as (cs & Fc & ->). destruct (abspath_real cwd start Hs) as (ds & Fd & Es).
  unfold relpath. rewrite Es, abspath_abs by done. change (abs cs =? "")%string with false. cbv iota.
  rewrite !components_abs by by apply real_part. cbv zeta.
  pose proof (norm_relative ds cs Fd Fc) as N. cbv zeta in N.
  assert (Forall part (replicate (List.length ds - common ds cs) ".." ++ drop (common ds cs) cs)) as FR.
  { apply Forall_app. split; [by apply Forall_replicate | by apply Forall_drop, real_part]. }
  destruct (replicate (List.length ds - common ds cs) ".." ++ drop (common ds cs) cs)%list as [|c rest] eqn:E; intros [= <-].
  - rewrite app_nil_r, norm_real in N by done. subst cs. change "." with (join "/" ["."]).
    rewrite abspath_under; [|by apply real_part | by apply Forall_singleton | done]. f_equal. unfold norm_comps.
    rewrite foldl_app, (push_real [] ds) by done. cbn [foldl]. unfold norm_step. cbn [String.eqb Ascii.eqb Bool.eqb orb].
    by rewrite app_nil_r, rev_involutive.
  - change c with (join "/" [c]). rewrite foldl_os_join by done. rewrite abspath_under by (done || by apply real_part).
    cbn [app]. by rewrite N.
Qed.

(** The characters of a relative name are those of the file name, and of [".."]. *)
Lemma all_chars_join p cs : p "/"%char = true -> all_chars p (join "/" cs) = forallb (all_chars p) cs.
Proof.
  intros S. induction cs as [|c cs IH]; [done|]. destruct cs as [|d cs]; [cbn; by rewrite andb_true_r|].
  change (join "/" (c :: d :: cs)) with (c ++ "/" ++ join "/" (d :: cs)). rewrite !all_chars_app, IH. cbn [all_chars forallb].
  by rewrite S, andb_true_r.
Qed.

Lemma relpath_total cwd p start :
  rooted cwd p -> rooted cwd start ->
  exists r, relpath cwd (abspath cwd p) start = Ok r /\
    forall q, q "/"%char = true -> q "."%char = true -> all_chars q (abspath cwd p) = true -> all_chars q r = true.
Proof.
  intros Hp Hs. destruct (abspath_real cwd p Hp) as (cs & Fc & ->). destruct (abspath_real cwd start Hs) as (ds & Fd & Es).
  unfold relpath. rewrite Es, abspath_abs by done. change (abs cs =? "")%string with false. cbv iota.
  rewrite !components_abs by by apply real_part. cbv zeta. eexists. split; [reflexivity|]. intros q S D A.
  unfold abs in A. rewrite all_chars_app, all_chars_join in A by done. apply andb_prop in A as [_ A].
  assert (Forall part (replicate (List.length ds - common ds cs) ".." ++ drop (common ds cs) cs)) as FR.
  { apply Forall_app. split; [by apply Forall_replicate | by apply Forall_drop, real_part]. }
  assert (forallb (all_chars q) (replicate (List.length ds - common ds cs) ".." ++ drop (common ds cs) cs) = true) as AR.
  { rewrite forallb_app. apply andb_true_intro. split.
    - apply forallb_forall. intros x Hx%list_elem_of_In. apply elem_of_replicate in Hx as [-> _]. cbn. by rewrite D.
    - rewrite <- (take_drop (common ds cs) cs), forallb_app in A. by apply andb_prop in A as [_ A]. }
  destruct (replicate _ _ ++ _)%list as [|c rest]; [cbn; by rewrite D|].
  change c with (join "/" [c]). rewrite foldl_os_join by done. by rewrite all_chars_join.
Qed.

(** Replacing a character that does not occur. *)
(** The directory of a file. *)
Lemma before_last_slash_app a c : no_char "/" c = true -> before_last_slash (a ++ String "/" c) = a ++ "/".
Proof.
  intros H. assert (before_last_slash c = "" /\ has_char "/" c = false) as [B K].
  { unfold no_char in H. induction c as [|x c IH]; [done|]. cbn [all_chars] in H. apply andb_prop in H as [Hx Hc].
    destruct (IH Hc) as [_ K]. apply negb_true_iff in Hx. cbn [before_last_slash has_char]. by rewrite Hx, K. }
  assert (forall b, has_char "/" (b ++ String "/" c) = true) as S.
  { induction b as [|x b IH]; [done|]. cbn [append has_char]. by rewrite IH, orb_true_r. }
  induction a as [|x a IH]; cbn [append before_last_slash].
  - by rewrite B.
  - specialize (S (String x a)). cbn [append] in S. by rewrite S, IH.
Qed.

Lemma rstrip_slash_id s : ends_slash s = false -> rstrip_slash s = s /\ rstrip_slash (s ++ "/") = s.
Proof.
  induction s as [|x s IH]; [done|]. cbn [ends_slash append rstrip_slash]. destruct s as [|y s].
  - intros E. cbn. by rewrite E.
  - intros E. destruct (IH E) as [-> ->]. cbn [String.eqb]. by rewrite andb_false_r.
Qed.

Lemma dirname_abs cs c : Forall part cs -> part c -> dirname (abs (cs ++ [c])) = abs cs.
Proof.
  intros F [N H]. unfold dirname. destruct cs as [|d cs].
  - change (abs ([] ++ [c])) with ("" ++ String "/" c). by rewrite before_last_slash_app.
  - replace (abs ((d :: cs) ++ [c])) with (("/" ++ join "/" (d :: cs)) ++ String "/" c)
      by (unfold abs; rewrite join_app by done; by rewrite append_assoc).
    rewrite before_last_slash_app by done. cbv zeta.
    assert (ends_slash ("/" ++ join "/" (d :: cs)) = false) as E.
    { assert (d :: cs <> []) as Nd by done. destruct (exists_last Nd) as (ds & e & Ed). rewrite Ed in F |- *.
      apply Forall_app in F as [_ [Fe _]%Forall_cons]. destruct ds as [|x l]; [by apply (ends_slash_app "/" e)|].
      rewrite join_app by done. cbn [join]. rewrite <- !append_assoc. by apply ends_slash_app. }
    rewrite (proj2 (rstrip_slash_id _ E)).
    destruct (all_chars (fun c0 => (c0 =? "/")%char) (("/" ++ join "/" (d :: cs)) ++ "/")) eqn:A; [|done]. exfalso.
    rewrite !all_chars_app in A. apply andb_prop in A as [[_ A]%andb_prop _].
    apply Forall_cons in F as [[Nd Hd] _]. destruct d as [|x d]; [done|]. unfold no_char in Hd.
    destruct cs; cbn [join append all_chars] in A, Hd; apply andb_prop in A as [A _], Hd as [Hd _]; by rewrite A in Hd.
Qed.
