(* ===== verification/Argparse.v ===== *)
(** * Command lines

    What the tools use of Python's [argparse]: options with one value, with a list
    of values or with none, abbreviations, [--name=value], [-nvalue], integer types,
    choices, defaults, required options, one group of options that exclude each
    other, and at most one positional argument.  A parser is data, so each tool's
    own [add_argument] calls are a definition; [parse_args] is the reader they
    share.  A lone ["--"], which releases of Python treat differently, is outside
    the model. *)

From Stdlib Require Import Ascii String.
From S2P Require Import Prelude PyStr PyText.
Open Scope string_scope.
Open Scope Z_scope.

(** ** Parsers *)

(** What an attribute of [args] can hold. *)
Inductive value : Type :=
| VNone
| VStr (s : string)
| VInt (z : Z)
| VBool (b : bool)
| VStrs (l : list string)
| VInts (l : list Z).

#[export] Instance value_eq_dec : EqDecision value.
Proof. solve_decision. Defined.

(** [type]: none, [int], or [lambda s: int(s, 0)] *)
Inductive arg_type : Type := TStr | TInt | TInt0.
(** [nargs]: none, ["*"] or ["+"], and the options that take no value *)
Inductive arity : Type := One | Star | Plus | NoValue.
#[export] Instance arg_type_eq_dec : EqDecision arg_type.
Proof. solve_decision. Defined.
#[export] Instance arity_eq_dec : EqDecision arity.
Proof. solve_decision. Defined.
(** [action] *)
Inductive arg_action : Type := Store | StoreTrue | Append | Help.

#[export] Instance arg_action_eq_dec : EqDecision arg_action.
Proof. solve_decision. Defined.

Record argument : Type := mkArg {
  flags : list string;
  dest : string;
  action : arg_action;
  nargs : arity;
  arg_ty : arg_type;
  choices : option (list value);
  dflt : value;
  required : bool;
  exclusive : bool
}.

#[export] Instance argument_eq_dec : EqDecision argument.
Proof. solve_decision. Defined.

Definition parser : Type := list argument.

(** The attribute an option is stored in: its first long name, or its first name,
    without the leading dashes and with underscores for the other ones. *)
Fixpoint lstrip_dash (s : string) : string :=
  match s with
  | String c s' => if (c =? "-")%char then lstrip_dash s' else s
  | "" => ""
  end.
Definition long_flag (s : string) : bool := String.prefix "--" s.
Definition dest_of (names : list string) : string :=
  let name := match List.find long_flag names with Some n => n | None => hd "" names end in
  py_replace "-" "_" 0 (lstrip_dash name).

(** [add_argument] in the forms the tools use. *)
Definition opt (names : list string) (ty : arg_type) (d : value) : argument :=
  mkArg names (dest_of names) Store One ty None d false false.
Definition opt_required (names : list string) (ty : arg_type) : argument :=
  mkArg names (dest_of names) Store One ty None VNone true false.
Definition opt_choices (names : list string) (ty : arg_type) (cs : list value) (d : value) : argument :=
  mkArg names (dest_of names) Store One ty (Some cs) d false false.
Definition opt_list (names : list string) : argument :=
  mkArg names (dest_of names) Store Star TStr None (VStrs []) false false.
Definition opt_append (names : list string) (ty : arg_type) : argument :=
  mkArg names (dest_of names) Append One ty None (VInts []) false false.
Definition opt_true (names : list string) : argument :=
  mkArg names (dest_of names) StoreTrue NoValue TStr None (VBool false) false false.
Definition opt_exclusive (names : list string) : argument :=
  mkArg names (dest_of names) StoreTrue NoValue TStr None (VBool false) false true.
Definition positional (name : string) : argument :=
  mkArg [] name Store One TStr None VNone true false.
Definition positional_plus (name : string) : argument :=
  mkArg [] name Store Plus TStr None VNone true false.
(** The option every parser starts with. *)
Definition help : argument := mkArg ["-h"; "--help"] "help" Help NoValue TStr None VNone false false.
Definition ArgumentParser (args : list argument) : parser := help :: args.

(** ** Reading one string *)

(** Parsed arguments, or the status the process ends with. *)
Inductive parse_outcome (A : Type) : Type :=
| Args (a : A)
| Exit (code : Z)
| OutsideModel.
Arguments Args {A} a.
Arguments Exit {A} code.
Arguments OutsideModel {A}.

Definition obind {A B} (o : parse_outcome A) (f : A -> parse_outcome B) : parse_outcome B :=
  match o with Args a => f a | Exit c => Exit c | OutsideModel => OutsideModel end.
(** [parser.error] *)
Definition usage_error {A} : parse_outcome A := Exit 2.

(** Every option string with its argument, in the order they were added. *)
Definition option_strings (p : parser) : list (string * argument) :=
  concat (map (fun a => map (fun f => (f, a)) (flags a)) p).
Definition find_option (p : parser) (s : string) : option argument :=
  match List.find (fun fa => (fst fa =? s)%string) (option_strings p) with Some fa => Some (snd fa) | None => None end.

(** [s.split("=", 1)] *)
Fixpoint split_eq (s : string) : option (string * string) :=
  match s with
  | "" => None
  | String c s' =>
      if (c =? "=")%char then Some ("", s')
      else match split_eq s' with Some (a, b) => Some (String c a, b) | None => None end
  end.

(** The expression [^-\d+$|^-\d*\.\d+$]; [$] also stands before a last line feed. *)
Fixpoint digits_then (k : string -> bool) (s : string) : bool :=
  match s with
  | String c s' => k s || (is_digit c && digits_then k s')
  | "" => k ""
  end.
Definition ends_here (s : string) : bool := (s =? "")%string || (s =? String (chr 10) "")%string.
Definition digits1_end (s : string) : bool :=
  match s with String c s' => is_digit c && digits_then ends_here s' | "" => false end.
Definition negative_number_like (s : string) : bool :=
  match s with
  | String c s' =>
      (c =? "-")%char &&
      (digits1_end s' ||
       digits_then (fun r => match r with String d r' => (d =? ".")%char && digits1_end r' | "" => false end) s')
  | "" => false
  end.

(** How a string is taken: as a value, or as an option with the name it was found
    under and the value attached to it; [None] for an unknown option. *)
Inductive token : Type :=
| Value
| Option (a : option argument) (name : string) (explicit : option string)
| Ambiguous.

(** The options an abbreviation, or a one-letter name with its value, can mean. *)
Definition option_tuples (p : parser) (s : string) : list (string * argument * option string) :=
  if long_flag s then
    let '(prefix, explicit) := match split_eq s with Some (a, b) => (a, Some b) | None => (s, None) end in
    map (fun fa => (fst fa, snd fa, explicit)) (List.filter (fun fa => String.prefix prefix (fst fa)) (option_strings p))
  else
    concat (map (fun fa =>
      if (fst fa =? substring 0 2 s)%string then [(fst fa, snd fa, Some (substring 2 (String.length s - 2) s))]
      else if String.prefix s (fst fa) then [(fst fa, snd fa, None)] else []) (option_strings p)).

Definition parse_optional (p : parser) (s : string) : token :=
  match s with
  | "" => Value
  | String c rest =>
      if negb (c =? "-")%char then Value
      else match find_option p s with
      | Some a => Option (Some a) s None
      | None =>
          if (rest =? "")%string then Value
          else
            let exact := match split_eq s with
              | Some (n, v) => match find_option p n with Some a => Some (Option (Some a) n (Some v)) | None => None end
              | None => None
              end in
            match exact with
            | Some t => t
            | None =>
                match option_tuples p s with
                | [(n, a, v)] => Option (Some a) n v
                | _ :: _ :: _ => Ambiguous
                | [] =>
                    if negative_number_like s then Value
                    else if has_char " " s then Value
                    else Option None s None
                end
            end
      end
  end.

(** ** Values *)

Abbreviation namespace := (gmap string value).

Definition convert (ty : arg_type) (s : string) : option value :=
  match ty with
  | TStr => Some (VStr s)
  | TInt => match py_int10 s with Ok z => Some (VInt z) | Err _ => None end
  | TInt0 => match py_int0 s with Ok z => Some (VInt z) | Err _ => None end
  end.

(** [_get_values] *)
Definition one_value (a : argument) (s : string) : option value :=
  match convert (arg_ty a) s with
  | Some v => match choices a with Some cs => if bool_decide (v ∈ cs) then Some v else None | None => Some v end
  | None => None
  end.

Definition matched_value (a : argument) (strs : list string) : option value :=
  match nargs a, strs with
  | NoValue, _ => Some (VBool true)
  | One, [s] => one_value a s
  | One, _ => None
  | (Star | Plus), _ => Some (VStrs strs)
  end.

(** ** Parsing *)

(** The namespace, the actions taken, those of the exclusive group, the positional
    argument still to come, and the strings nobody took. *)
Record state : Type := mkState {
  ns : namespace;
  seen : list string;
  excl : list string;
  pos : option argument;
  extras : list string
}.

Definition set_attr (a : argument) (v : value) (st : state) : state :=
  mkState (<[dest a := v]> (ns st)) (dest a :: seen st)
    (if exclusive a then dest a :: excl st else excl st) (pos st) (extras st).
Definition add_extra (s : string) (st : state) : state :=
  mkState (ns st) (seen st) (excl st) (pos st) (extras st ++ [s]).
Definition drop_pos (st : state) : state := mkState (ns st) (seen st) (excl st) None (extras st).

Definition append_value (old : option value) (new : value) : value :=
  match old, new with Some (VInts l), VInt z => VInts (l ++ [z]) | _, _ => new end.

(** Another option of the group was given before. *)
Definition conflict (a : argument) (st : state) : bool :=
  exclusive a && existsb (fun d => negb (d =? dest a)%string) (excl st).

Definition take_action (a : argument) (strs : list string) (st : state) : parse_outcome state :=
  match matched_value a strs with
  | None => usage_error
  | Some v =>
      if conflict a st then usage_error
      else match action a with
      | Help => Exit 0
      | Append => Args (set_attr a (append_value (ns st !! dest a) v) st)
      | Store | StoreTrue => Args (set_attr a v st)
      end
  end.

(** The actions of one-letter options written together, and the last one. *)
Fixpoint take_all (q : list argument) (a : argument) (strs : list string) (st : state) : parse_outcome state :=
  match q with
  | [] => take_action a strs st
  | b :: q => obind (take_action b [] st) (take_all q a strs)
  end.
Fixpoint cluster (p : parser) (v : string) : option (list argument * argument * option string) :=
  match v with
  | "" => None
  | String c v' =>
      match find_option p (String "-" (String c "")) with
      | None => None
      | Some a =>
          if (v' =? "")%string then Some ([], a, None)
          else match nargs a with
          | NoValue => match cluster p v' with Some (q, b, e) => Some (a :: q, b, e) | None => None end
          | _ => Some ([], a, Some v')
          end
      end
  end.

(** The argument whose values are being collected. *)
Inductive pending : Type := Ready | Expect (q : list argument) (a : argument) (acc : list string).

Definition flush (pend : pending) (st : state) : parse_outcome state :=
  match pend with
  | Ready => Args st
  | Expect q a acc => match nargs a, acc with
      | One, _ | Plus, [] => usage_error
      | _, _ => take_all q a acc st
      end
  end.

(** What an option does to the state, and what it then expects. *)
Definition start_option (q : list argument) (a : argument) (explicit : option string) (st : state) :
    parse_outcome (pending * state) :=
  match nargs a, explicit with
  | NoValue, Some _ => usage_error
  | NoValue, None => obind (take_all q a [] st) (fun st => Args (Ready, st))
  | _, Some v => obind (take_all q a [v] st) (fun st => Args (Ready, st))
  | _, None => Args (Expect q a [], st)
  end.

Definition consume_optional (p : parser) (s : string) (oa : option argument) (name : string)
    (explicit : option string) (st : state) : parse_outcome (pending * state) :=
  match oa with
  | None => Args (Ready, add_extra s st)
  | Some a =>
      match nargs a, explicit with
      | NoValue, Some v =>
          if long_flag name then usage_error
          else match cluster p v with
          | Some (q, b, e) => start_option (a :: q) b e st
          | None => usage_error
          end
      | _, _ => start_option [] a explicit st
      end
  end.

Definition consume_value (s : string) (pend : pending) (st : state) : parse_outcome (pending * state) :=
  match pend with
  | Expect q a acc =>
      match nargs a with
      | One => obind (take_all q a [s] st) (fun st => Args (Ready, st))
      | _ => Args (Expect q a (acc ++ [s]), st)
      end
  | Ready =>
      match pos st with
      | Some a =>
          match nargs a with
          | One => obind (take_action a [s] (drop_pos st)) (fun st => Args (Ready, st))
          | _ => Args (Expect [] a [s], drop_pos st)
          end
      | None => Args (Ready, add_extra s st)
      end
  end.

Fixpoint parse_loop (p : parser) (argv : list string) (pend : pending) (st : state) : parse_outcome state :=
  match argv with
  | [] => flush pend st
  | s :: rest =>
      match parse_optional p s with
      | Ambiguous => usage_error
      | Value => obind (consume_value s pend st) (fun '(pend, st) => parse_loop p rest pend st)
      | Option oa name explicit =>
          obind (flush pend st) (fun st =>
          obind (consume_optional p s oa name explicit st) (fun '(pend, st) => parse_loop p rest pend st))
      end
  end.

Definition defaults (p : parser) : namespace :=
  list_to_map (map (fun a => (dest a, dflt a)) (List.filter (fun a => match action a with Help => false | _ => true end) p)).
Definition initial (p : parser) : state :=
  mkState (defaults p) [] [] (List.find (fun a => match flags a with [] => true | _ => false end) p) [].

Definition is_ambiguous (p : parser) (s : string) : bool :=
  match parse_optional p s with Ambiguous => true | _ => false end.
Definition given (a : argument) (st : state) : bool := existsb (String.eqb (dest a)) (seen st).

Definition parse_args (p : parser) (argv : list string) : parse_outcome namespace :=
  if existsb (String.eqb "--") argv then OutsideModel
  else if existsb (is_ambiguous p) argv then usage_error
  else
    obind (parse_loop p argv Ready (initial p)) (fun st =>
      if existsb (fun a => required a && negb (given a st)) p then usage_error
      else match extras st with [] => Args (ns st) | _ => usage_error end).

(** ** What an accepted command line gives *)

(** A value an argument can get from the strings of a command line. *)
Definition admissible (a : argument) (v : value) : Prop :=
  match action a with
  | Append => exists l, v = VInts l
  | _ => exists strs, matched_value a strs = Some v
  end.

(** Names are distinct, and a list of values starts empty and collects integers. *)
Definition appends_ints (a : argument) : Prop :=
  action a = Append -> nargs a = One /\ arg_ty a <> TStr /\ dflt a = VInts [].
Record well_formed (p : parser) : Prop := {
  wf_dests : NoDup (dest <$> p);
  wf_appends : Forall appends_ints p
}.

(** The state of the parser, at any point: every attribute has its default or a value
    its argument was given, and at most one option of the exclusive group was. *)
Record consistent (p : parser) (st : state) : Prop := {
  c_ns : forall a, a ∈ p -> action a <> Help -> exists v, ns st !! dest a = Some v /\
    ((dest a ∈ seen st /\ admissible a v) \/ ((dest a ∉ seen st) /\ v = dflt a));
  c_excl : forall a, a ∈ p -> exclusive a = true -> dest a ∈ seen st -> dest a ∈ excl st;
  c_one : forall d d', d ∈ excl st -> d' ∈ excl st -> d = d';
  c_pos : forall a, pos st = Some a -> a ∈ p
}.

Section Sound.
Context (p : parser) (W : well_formed p).

Lemma same_dest a b : a ∈ p -> b ∈ p -> dest a = dest b -> a = b.
Proof.
  intros Ha Hb E. destruct W as [N _]. clear W. induction p as [|c q IH]; [by apply elem_of_nil in Ha|].
  rewrite fmap_cons, NoDup_cons in N. destruct N as [Nc N].
  apply elem_of_cons in Ha as [->|Ha], Hb as [->|Hb]; try done; [..|by apply IH].
  - destruct Nc. rewrite E. by apply (list_elem_of_fmap_2 dest).
  - destruct Nc. rewrite <- E. by apply (list_elem_of_fmap_2 dest).
Qed.

Lemma one_value_int a s v : arg_ty a <> TStr -> one_value a s = Some v -> exists z, v = VInt z.
Proof.
  intros T. unfold one_value, convert. destruct (arg_ty a); [done|..]; repeat case_match; intros; simplify_eq; eauto.
Qed.

Lemma no_conflict a d st : conflict a st = false -> exclusive a = true -> d ∈ excl st -> d = dest a.
Proof.
  unfold conflict. intros C E H. rewrite E in C. cbn [andb] in C. destruct (String.eqb_spec d (dest a)) as [|N]; [done|].
  assert (existsb (fun d => negb (d =? dest a)%string) (excl st) = true); [|congruence].
  apply existsb_exists. exists d. split; [by apply list_elem_of_In|]. by apply String.eqb_neq in N as ->.
Qed.

Lemma set_attr_consistent a v st :
  a ∈ p -> admissible a v -> conflict a st = false -> consistent p st -> consistent p (set_attr a v st).
Proof.
  intros Ha Hv C [I E O P]. split; cbn [ns seen excl pos set_attr].
  - intros b Hb Nb. destruct (decide (dest b = dest a)) as [Eb|Nd].
    + rewrite (same_dest b a Hb Ha Eb). exists v. rewrite lookup_insert_eq. split; [done|]. left. split; [by left|done].
    + destruct (I b Hb Nb) as (w & L & S). exists w. rewrite lookup_insert_ne by done. split; [done|].
      rewrite elem_of_cons. destruct S as [[? ?]|[? ?]]; [left; tauto | right; split; [intros [?|?]|]; done].
  - intros b Hb Xb Sb. apply elem_of_cons in Sb as [Eb|Sb].
    + rewrite (same_dest b a Hb Ha Eb) in Xb |- *. rewrite Xb. by left.
    + destruct (exclusive a); [right|]; by apply E.
  - destruct (exclusive a) eqn:X; [|done]. intros d d' D D'.
    assert (forall e, e ∈ dest a :: excl st -> e = dest a) as K.
    { intros e [->|H]%elem_of_cons; [done | by apply (no_conflict a e st)]. }
    by rewrite (K d), (K d').
  - exact P.
Qed.

Lemma take_action_consistent a strs st st' :
  a ∈ p -> consistent p st -> take_action a strs st = Args st' -> consistent p st'.
Proof.
  intros Ha I. unfold take_action. destruct (matched_value a strs) as [v|] eqn:M; [|done].
  destruct (conflict a st) eqn:C; [done|]. destruct (action a) eqn:A; intros [= <-];
    apply set_attr_consistent; try done; unfold admissible; rewrite A; eauto.
  destruct W as [_ F]. destruct (proj1 (Forall_forall _ _) F a Ha A) as (N & T & D).
  unfold matched_value in M. rewrite N in M. destruct strs as [|s [|]]; try done.
  destruct (one_value_int a s v T M) as [z ->].
  destruct (c_ns _ _ I a Ha ltac:(by rewrite A)) as (w & -> & [[_ Hw]|[_ ->]]); [|rewrite D; cbn; eauto].
  unfold admissible in Hw. rewrite A in Hw. destruct Hw as [l ->]. cbn. eauto.
Qed.

Lemma take_all_consistent q a strs : forall st st',
  Forall (.∈ p) q -> a ∈ p -> consistent p st -> take_all q a strs st = Args st' -> consistent p st'.
Proof.
  induction q as [|b q IH]; intros st st' Fq Ha I; cbn [take_all]; [by apply take_action_consistent|].
  apply Forall_cons in Fq as [Hb Fq]. destruct (take_action b [] st) as [st1|c|] eqn:T; cbn [obind]; try done.
  apply IH; try done. by apply (take_action_consistent b [] st).
Qed.

Lemma option_string_in f a : (f, a) ∈ option_strings p -> a ∈ p.
Proof.
  unfold option_strings. rewrite list_elem_of_In, in_concat. intros (l & Hl & H).
  apply in_map_iff in Hl as (b & <- & Hb). apply in_map_iff in H as (g & [= -> ->] & _). by apply list_elem_of_In.
Qed.

Lemma find_option_in s a : find_option p s = Some a -> a ∈ p.
Proof.
  unfold find_option. destruct (List.find _ _) as [[f b]|] eqn:E; [|done]. intros [= <-].
  apply find_some in E as [E _]. by apply (option_string_in f), list_elem_of_In.
Qed.

Lemma option_tuples_in s n a v : (n, a, v) ∈ option_tuples p s -> a ∈ p.
Proof.
  unfold option_tuples. destruct (long_flag s).
  - destruct (match split_eq s with Some _ => _ | None => _ end) as [pre ex]. rewrite list_elem_of_In, in_map_iff.
    intros ([f b] & [= <- <- <-] & [H _]%filter_In). by apply (option_string_in f), list_elem_of_In.
  - rewrite list_elem_of_In, in_concat. intros (l & Hl & H). apply in_map_iff in Hl as ([f b] & <- & Hb).
    apply list_elem_of_In, option_string_in in Hb. cbn [fst snd] in H.
    destruct (f =? _)%string; [|destruct (String.prefix s f); [|done]]; destruct H as [[= <- <- <-]|[]]; done.
Qed.

Lemma parse_optional_in s a n v : parse_optional p s = Option (Some a) n v -> a ∈ p.
Proof.
  unfold parse_optional. destruct s as [|c rest]; [done|]. case_match; [done|].
  destruct (find_option p (String c rest)) as [b|] eqn:F; [intros [= <- <- <-]; by apply find_option_in in F|].
  case_match; [done|]. destruct (split_eq (String c rest)) as [[m w]|] eqn:S; cbv zeta.
  - destruct (find_option p m) as [b|] eqn:G; [intros [= <- <- <-]; by apply find_option_in in G|].
    destruct (option_tuples p _) as [|[[n' b] w'] [|]] eqn:T; [by repeat case_match| |done].
    intros [= <- <- <-]. apply (option_tuples_in (String c rest) n' b w'). rewrite T. by left.
  - destruct (option_tuples p _) as [|[[n' b] w'] [|]] eqn:T; [by repeat case_match| |done].
    intros [= <- <- <-]. apply (option_tuples_in (String c rest) n' b w'). rewrite T. by left.
Qed.

Lemma cluster_in v : forall q b e, cluster p v = Some (q, b, e) -> Forall (.∈ p) q /\ b ∈ p.
Proof.
  induction v as [|c v IH]; intros q b e; cbn [cluster]; [done|].
  destruct (find_option p _) as [a|] eqn:F; [|done]. apply find_option_in in F.
  case_match; [intros [= <- <- <-]; by split; [constructor|]|].
  destruct (nargs a); try (intros [= <- <- <-]; by split; [constructor|]).
  destruct (cluster p v) as [[[q' b'] e']|]; [|done]. intros [= <- <- <-].
  destruct (IH q' b' e' eq_refl). split; [by constructor | done].
Qed.

(** What the parser is collecting belongs to it. *)
Definition pending_in (pend : pending) : Prop :=
  match pend with Ready => True | Expect q a _ => Forall (.∈ p) q /\ a ∈ p end.

Lemma flush_consistent pend st st' :
  pending_in pend -> consistent p st -> flush pend st = Args st' -> consistent p st'.
Proof.
  destruct pend as [|q a acc]; cbn [pending_in flush]; [by intros _ ? [= <-]|]. intros [Fq Ha] I E.
  apply (take_all_consistent q a acc st st'); try done. by destruct (nargs a), acc.
Qed.

Lemma start_option_consistent q a e st pend st' :
  Forall (.∈ p) q -> a ∈ p -> consistent p st -> start_option q a e st = Args (pend, st') ->
  pending_in pend /\ consistent p st'.
Proof.
  intros Fq Ha I. unfold start_option.
  assert (forall strs, obind (take_all q a strs st) (fun st => Args (Ready, st)) = Args (pend, st') ->
    pending_in pend /\ consistent p st') as T.
  { intros strs. destruct (take_all q a strs st) as [st1|c|] eqn:E; cbn [obind]; try done. intros [= <- <-].
    split; [done | by apply (take_all_consistent q a strs st)]. }
  destruct (nargs a), e; try done; try apply T; intros [= <- <-]; by split.
Qed.

Lemma consume_optional_consistent s oa n e st pend st' :
  (forall a, oa = Some a -> a ∈ p) -> consistent p st -> consume_optional p s oa n e st = Args (pend, st') ->
  pending_in pend /\ consistent p st'.
Proof.
  intros Ha I. unfold consume_optional. destruct oa as [a|].
  - specialize (Ha a eq_refl). pose proof (start_option_consistent [] a e st pend st' ltac:(constructor) Ha I) as S.
    destruct (nargs a), e as [v|]; try exact S. case_match; [done|].
    destruct (cluster p v) as [[[q b] e']|] eqn:C; [|done]. destruct (cluster_in _ _ _ _ C).
    apply start_option_consistent; [by constructor|done..].
  - intros [= <- <-]. split; [done|]. by destruct I; split.
Qed.

Lemma consume_value_consistent s pend st pend' st' :
  pending_in pend -> consistent p st -> consume_value s pend st = Args (pend', st') ->
  pending_in pend' /\ consistent p st'.
Proof.
  intros Hp I. unfold consume_value. destruct pend as [|q a acc].
  - destruct (pos st) as [a|] eqn:P; [|intros [= <- <-]; split; [done|]; by destruct I; split].
    pose proof (c_pos _ _ I a P) as Ha. assert (consistent p (drop_pos st)) as I' by by destruct I; split.
    destruct (nargs a); try (intros [= <- <-]; split; [by split; [constructor|] | done]).
    destruct (take_action a [s] (drop_pos st)) as [st1|c|] eqn:E; cbn [obind]; try done. intros [= <- <-].
    split; [done | by apply (take_action_consistent a [s] (drop_pos st))].
  - destruct Hp as [Fq Ha]. destruct (nargs a); try (intros [= <- <-]; by split).
    destruct (take_all q a [s] st) as [st1|c|] eqn:E; cbn [obind]; try done. intros [= <- <-].
    split; [done | by apply (take_all_consistent q a [s] st)].
Qed.

Lemma parse_loop_consistent argv : forall pend st st',
  pending_in pend -> consistent p st -> parse_loop p argv pend st = Args st' -> consistent p st'.
Proof.
  induction argv as [|s rest IH]; intros pend st st' Hp I; cbn [parse_loop]; [by apply flush_consistent|].
  destruct (parse_optional p s) as [|oa n e|] eqn:O; [| |done].
  - destruct (consume_value s pend st) as [[pend1 st1]|c|] eqn:C; cbn [obind]; try done.
    destruct (consume_value_consistent _ _ _ _ _ Hp I C). by apply IH.
  - destruct (flush pend st) as [st1|c|] eqn:F; cbn [obind]; try done.
    pose proof (flush_consistent _ _ _ Hp I F) as I1.
    destruct (consume_optional p s oa n e st1) as [[pend2 st2]|c|] eqn:C; cbn [obind]; try done.
    destruct (consume_optional_consistent s oa n e st1 pend2 st2) as [? ?]; try done; [|by apply IH].
    intros a ->. by apply (parse_optional_in s a n e).
Qed.

Lemma defaults_lookup a : a ∈ p -> action a <> Help -> defaults p !! dest a = Some (dflt a).
Proof.
  intros Ha Na. unfold defaults. apply elem_of_list_to_map.
  - destruct W as [N _]. clear -N. induction p as [|b q IH]; [by constructor|]. rewrite fmap_cons, NoDup_cons in N.
    destruct N as [Nb N]. specialize (IH N). cbn [List.filter]. destruct (action b); try done; cbn [map fst fmap list_fmap];
      (constructor; [|done]); intros (c & Ec & Hc)%list_elem_of_fmap; apply list_elem_of_In, in_map_iff in Hc as (d & <- & Hd%filter_In);
      apply Nb; cbn [fst] in Ec; rewrite Ec; apply (list_elem_of_fmap_2 dest), list_elem_of_In; tauto.
  - apply list_elem_of_In, in_map_iff. exists a. split; [done|]. apply filter_In. split; [by apply list_elem_of_In|]. by destruct (action a).
Qed.

Lemma initial_consistent : consistent p (initial p).
Proof.
  split; cbn [initial ns seen excl pos].
  - intros a Ha Na. exists (dflt a). split; [by apply defaults_lookup|]. right. split; [by intros ?%elem_of_nil | done].
  - by intros a _ _ ?%elem_of_nil.
  - by intros d d' ?%elem_of_nil.
  - intros a [H _]%find_some. by apply list_elem_of_In.
Qed.
End Sound.

(** An accepted command line fills every attribute: with a value of the argument's
    own type and among its choices, or, if it is not required, with its default; and
    at most one option of an exclusive group is on. *)
Lemma accepted_conforms p argv m :
  well_formed p -> parse_args p argv = Args m ->
  (forall a, a ∈ p -> action a <> Help -> exists v, m !! dest a = Some v /\
     ((required a = false /\ v = dflt a) \/ admissible a v)) /\
  (forall a b, a ∈ p -> b ∈ p -> exclusive a = true -> exclusive b = true -> action a <> Help -> action b <> Help ->
     m !! dest a <> Some (dflt a) -> m !! dest b <> Some (dflt b) -> a = b).
Proof.
  intros W. unfold parse_args. destruct (existsb (String.eqb "--") argv); [done|].
  destruct (existsb (is_ambiguous p) argv); [done|].
  destruct (parse_loop p argv Ready (initial p)) as [st|c|] eqn:L; cbn [obind]; try done.
  destruct (existsb (fun a => required a && negb (given a st)) p) eqn:R; [done|].
  destruct (extras st); [|done]. intros [= <-].
  pose proof (parse_loop_consistent p W argv Ready _ st I (initial_consistent p W) L) as C. split.
  - intros a Ha Na. destruct (c_ns _ _ C a Ha Na) as (v & L' & [[_ S]|[S ->]]); exists v || exists (dflt a); split; try done; [by right|].
    left. split; [|done]. destruct (required a) eqn:Q; [|done]. exfalso.
    rewrite <- not_true_iff_false, existsb_exists in R. apply R. exists a. split; [by apply list_elem_of_In|]. rewrite Q. cbn [andb].
    apply negb_true_iff, not_true_iff_false. unfold given. rewrite existsb_exists. intros (d & Hd & <-%String.eqb_eq).
    by apply S, list_elem_of_In.
  - intros a b Ha Hb Xa Xb Na Nb Da Db. apply (same_dest p W a b Ha Hb).
    assert (forall c, c ∈ p -> exclusive c = true -> action c <> Help -> ns st !! dest c <> Some (dflt c) -> dest c ∈ excl st) as K.
    { intros c Hc Xc Nc Dc. apply (c_excl _ _ C c Hc Xc). destruct (c_ns _ _ C c Hc Nc) as (v & Lc & [[S _]|[_ ->]]); done. }
    apply (c_one _ _ C); by apply K.
Qed.

(** ** Command lines a program writes *)

(** One use of an argument: an option with its value, an option without one, and the
    positional argument. *)
Inductive piece : Type :=
| Given (flag : string) (s : string)
| On (flag : string)
| Bare (s : string).

Definition words_of (u : piece) : list string :=
  match u with Given f s => [f; s] | On f => [f] | Bare s => [s] end.

(** Nothing in it is taken for something else. *)
Definition piece_ok (p : parser) (u : piece) : Prop :=
  match u with
  | Given f s => String.prefix "-" f = true /\ f <> "--" /\ (exists a, find_option p f = Some a /\ nargs a = One) /\
      s <> "--" /\ parse_optional p s = Value
  | On f => String.prefix "-" f = true /\ f <> "--" /\ exists a, find_option p f = Some a /\ nargs a = NoValue
  | Bare s => s <> "--" /\ parse_optional p s = Value
  end.

(** What it does. *)
Definition use (p : parser) (u : piece) (st : state) : parse_outcome state :=
  match u with
  | Given f s => match find_option p f with Some a => take_action a [s] st | None => usage_error end
  | On f => match find_option p f with Some a => take_action a [] st | None => usage_error end
  | Bare s => match pos st with
      | Some a => take_action a [s] (drop_pos st)
      | None => Args (add_extra s st)
      end
  end.
Fixpoint use_all (p : parser) (us : list piece) (st : state) : parse_outcome state :=
  match us with [] => Args st | u :: us => obind (use p u st) (use_all p us) end.

Definition one_positional (p : parser) : Prop := forall a, pos (initial p) = Some a -> nargs a = One.

Lemma parse_flag p f a : String.prefix "-" f = true -> find_option p f = Some a -> parse_optional p f = Option (Some a) f None.
Proof.
  intros P F. destruct f as [|c rest]; [done|]. cbn [String.prefix] in P. unfold parse_optional.
  destruct (ascii_dec "-" c) as [<-|]; [|done]. cbn [Ascii.eqb Bool.eqb negb]. by rewrite F.
Qed.

Lemma pos_kept p u st st' a : use p u st = Args st' -> pos st' = Some a -> pos st = Some a.
Proof.
  assert (forall b strs s s', take_action b strs s = Args s' -> pos s' = pos s) as T.
  { intros b strs s s'. unfold take_action. repeat case_match; try done; by intros [= <-]. }
  unfold use. destruct u as [f s|f|s].
  1-2: destruct (find_option p f) as [b|]; [|done]; intros E; by rewrite (T _ _ _ _ E).
  destruct (pos st) as [b|] eqn:P; intros E; [by rewrite (T _ _ _ _ E)|]. injection E as <-. cbn [add_extra pos]. congruence.
Qed.

Lemma parse_loop_use p us : forall st rest,
  Forall (piece_ok p) us -> (forall a, pos st = Some a -> nargs a = One) ->
  parse_loop p (concat (map words_of us) ++ rest)%list Ready st = obind (use_all p us st) (parse_loop p rest Ready).
Proof.
  induction us as [|u us IH]; intros st rest F P; [done|]. apply Forall_cons in F as [Hu F].
  assert (forall st', use p u st = Args st' -> parse_loop p (concat (map words_of us) ++ rest)%list Ready st' =
    obind (use_all p us st') (parse_loop p rest Ready)) as K.
  { intros st' E. apply IH; [done|]. intros a Ha. by apply P, (pos_kept p u st st' a E). }
  cbn [map concat use_all]. rewrite <- app_assoc. destruct u as [f s|f|s]; cbn [words_of app piece_ok] in *.
  - destruct Hu as (Pf & _ & (a & Fa & Na) & _ & V). cbn [parse_loop]. rewrite (parse_flag p f a Pf Fa). cbn [flush obind].
    unfold consume_optional, start_option. rewrite Na. cbn [obind]. rewrite V. cbn [consume_value]. rewrite Na.
    cbn [take_all]. unfold use in K |- *. rewrite Fa in K |- *. destruct (take_action a [s] st); try done. by apply K.
  - destruct Hu as (Pf & _ & (a & Fa & Na)). cbn [parse_loop]. rewrite (parse_flag p f a Pf Fa). cbn [flush obind].
    unfold consume_optional, start_option. rewrite Na. cbn [obind take_all]. unfold use in K |- *. rewrite Fa in K |- *.
    destruct (take_action a [] st); try done. by apply K.
  - destruct Hu as (_ & V). cbn [parse_loop]. rewrite V. unfold consume_value, use in *.
    destruct (pos st) as [a|] eqn:E; [rewrite (P a eq_refl); destruct (take_action a [s] (drop_pos st)); try done|]; by apply K.
Qed.

(** The final checks of [parse_args]. *)
Definition finish (p : parser) (st : state) : parse_outcome namespace :=
  if existsb (fun a => required a && negb (given a st)) p then usage_error
  else match extras st with [] => Args (ns st) | _ => usage_error end.

(** A command line made of well-formed pieces does what the pieces say, in order. *)
Lemma parse_pieces p us :
  Forall (piece_ok p) us -> one_positional p ->
  parse_args p (concat (map words_of us)) = obind (use_all p us (initial p)) (finish p).
Proof.
  intros F P. unfold parse_args.
  assert (forall s, In s (concat (map words_of us)) -> s <> "--" /\ is_ambiguous p s = false) as K.
  { intros s (l & (u & <- & Hu)%in_map_iff & Hs)%in_concat. apply list_elem_of_In in Hu.
    pose proof (proj1 (Forall_forall _ _) F u Hu) as O. unfold is_ambiguous.
    destruct u as [f t|f|t]; cbn [words_of piece_ok] in *.
    - destruct O as (Pf & Nf & (a & Fa & _) & Nt & V). destruct Hs as [<-|[<-|[]]]; (split; [done|]).
      + by rewrite (parse_flag p f a Pf Fa). + by rewrite V.
    - destruct O as (Pf & Nf & (a & Fa & _)). destruct Hs as [<-|[]]. split; [done|]. by rewrite (parse_flag p f a Pf Fa).
    - destruct O as (Nt & V). destruct Hs as [<-|[]]. split; [done|]. by rewrite V. }
  assert (existsb (String.eqb "--") (concat (map words_of us)) = false) as ->.
  { apply not_true_iff_false. rewrite existsb_exists. intros (s & Hs & E%String.eqb_eq). by destruct (K s Hs). }
  assert (existsb (is_ambiguous p) (concat (map words_of us)) = false) as ->.
  { apply not_true_iff_false. rewrite existsb_exists. intros (s & Hs & E). destruct (K s Hs). congruence. }
  pose proof (parse_loop_use p us (initial p) [] F P) as L. rewrite app_nil_r in L. rewrite L.
  by destruct (use_all p us (initial p)).
Qed.

(** *** Strings that are values *)

Lemma plain_is_value p s : String.prefix "-" s = false -> s <> "--" /\ parse_optional p s = Value.
Proof.
  destruct s as [|c rest]; [done|]. cbn [String.prefix]. destruct (ascii_dec "-" c) as [<-|N]; [by destruct rest|].
  intros _. split; [congruence|]. unfold parse_optional. destruct (Ascii.eqb_spec c "-"); [congruence | done].
Qed.

(** No option looks like a negative number. *)
Definition second_digit (f : string) : bool :=
  match f with String _ (String d _) => is_digit d | _ => false end.
Definition no_number_flags (p : parser) : bool := forallb (fun fa => negb (second_digit (fst fa))) (option_strings p).

Lemma digits_no_eq s : all_chars is_digit s = true -> split_eq s = None.
Proof.
  induction s as [|c s IH]; [done|]. cbn [all_chars split_eq]. intros [D E]%andb_prop.
  destruct (Ascii.eqb_spec c "="); [by subst|]. by rewrite IH.
Qed.

Lemma digits_match s : all_chars is_digit s = true -> digits_then ends_here s = true.
Proof.
  induction s as [|c s IH]; [done|]. cbn [all_chars digits_then]. intros [D E]%andb_prop.
  rewrite D, IH by done. apply orb_true_r.
Qed.

(** What [str] makes of an integer is read as a value, even a negative one. *)
Lemma dec_is_value p n : no_number_flags p = true -> show_dec n <> "--" /\ parse_optional p (show_dec n) = Value.
Proof.
  intros NF. unfold show_dec. destruct (Z.ltb_spec n 0).
  2:{ destruct (show_base 10 n) as [|c s] eqn:E; [done|]. destruct (show_base_head n c s ltac:(lia) E) as [N _].
    apply plain_is_value. cbn [String.prefix]. by destruct (ascii_dec "-" c) as [<-|]. }
  assert (all_chars is_digit (show_base 10 (- n)) = true) as D.
  { apply show_base_chars; [lia..|]. intros d Hd. apply digit_char_spec; lia. }
  destruct (show_base 10 (- n)) as [|c s] eqn:E; [by apply show_nonempty in E|]. cbn [all_chars] in D.
  apply andb_prop in D as [Dc Ds].
  assert (forall f a, In (f, a) (option_strings p) -> second_digit f = false) as K.
  { intros f a H'. apply negb_true_iff. exact (proj1 (forallb_forall _ _) NF (f, a) H'). }
  split; [intros [= -> _]; done|]. unfold parse_optional. cbn [Ascii.eqb Bool.eqb negb].
  assert (find_option p (String "-" (String c s)) = None) as ->.
  { unfold find_option. destruct (List.find _ _) as [[f a]|] eqn:F; [|done]. apply find_some in F as [F E'%String.eqb_eq].
    cbn [fst] in E'. subst f. apply K in F. cbn [second_digit] in F. congruence. }
  cbn [String.eqb split_eq Ascii.eqb Bool.eqb]. destruct (Ascii.eqb_spec c "="); [by subst|]. rewrite (digits_no_eq s Ds).
  assert (option_tuples p (String "-" (String c s)) = []) as ->.
  { unfold option_tuples, long_flag. cbn [String.prefix]. destruct (ascii_dec "-" c) as [<-|_]; [done|].
    destruct (ascii_dec "-" "-") as [_|]; [|done]. induction (option_strings p) as [|[f a] l IH]; [done|].
    cbn [map concat fst snd]. rewrite IH by (by intros g b H'; apply (K g b); right).
    specialize (K f a (or_introl eq_refl)). destruct f as [|d [|e f]]; cbn [second_digit] in K;
      [done | |].
    { cbn [String.prefix substring]. destruct (String.eqb_spec (String d "") (String "-" (String c (substring 0 0 s)))); [done|].
      by destruct (ascii_dec "-" d). }
    assert (c <> e) by congruence. cbn [String.prefix substring].
    destruct (String.eqb_spec (String d (String e f)) (String "-" (String c (substring 0 0 s)))) as [[= _ -> _]|_]; [done|].
    destruct (ascii_dec "-" d); [|done]. by destruct (ascii_dec c e). }
  unfold negative_number_like, digits1_end. cbn [Ascii.eqb Bool.eqb andb]. by rewrite Dc, (digits_match s Ds).
Qed.

(** The effect of an option that stores its value, and of the positional argument. *)
Lemma use_given p f s a v st :
  find_option p f = Some a -> action a = Store -> exclusive a = false -> matched_value a [s] = Some v ->
  use p (Given f s) st = Args (set_attr a v st).
Proof. intros F A X M. unfold use. rewrite F. unfold take_action, conflict. by rewrite M, X, A. Qed.

Lemma use_bare p s a v st :
  pos st = Some a -> action a = Store -> exclusive a = false -> matched_value a [s] = Some v ->
  use p (Bare s) st = Args (set_attr a v (drop_pos st)).
Proof. intros P A X M. unfold use. rewrite P. unfold take_action, conflict. by rewrite M, X, A. Qed.

(** The values of strings and of printed integers. *)
Lemma str_value a s : nargs a = One -> arg_ty a = TStr -> choices a = None -> matched_value a [s] = Some (VStr s).
Proof. intros N T C. unfold matched_value, one_value. by rewrite N, T, C. Qed.

Lemma dec_value a n : nargs a = One -> arg_ty a <> TStr -> choices a = None -> matched_value a [show_dec n] = Some (VInt n).
Proof.
  intros N T C. unfold matched_value, one_value, convert. rewrite N, C, py_int10_dec, py_int0_dec. by destruct (arg_ty a).
Qed.
