(* ===== verification/AsmText.v ===== *)
(** * Assembling what was disassembled

    [assemble] reads back what [disasm] prints: for every instruction word the
    two tools agree on, assembling its disassembly gives the word again. *)

From Stdlib Require Import Ascii String.
From S2P Require Import Prelude Bits PyStr Asm Disasm.
Open Scope string_scope.
Open Scope Z_scope.

(** ** One line of text *)

Lemma commas_head b args : exists s, commas (b :: args) = (b ++ s)%string.
Proof. destruct args; [exists ""; by rewrite append_nil | by eexists]. Qed.

Lemma re_split_commas args :
  args <> [] -> Forall clean args -> re_split true (commas args) = args.
Proof.
  induction args as [|a args IH]; [done|]. intros _ Hc.
  assert (re_split true (commas (a :: args)) = re_split false (commas (a :: args))) as ->.
  { destruct (commas_head a args) as [s ->]. apply re_split_start. by apply Forall_cons_1 in Hc as []. }
  apply Forall_cons_1 in Hc as [[Hn Ha] Hc]. destruct args as [|b args]; [by apply re_split_last|].
  change (commas (a :: b :: args)) with (a ++ String "," (commas (b :: args)))%string.
  rewrite re_split_cut by done. f_equal. by apply IH.
Qed.

Lemma re_split_line mn args :
  clean mn -> args <> [] -> Forall clean args -> re_split false (line mn args) = mn :: args.
Proof.
  intros [Hn Hm] Ha Hc. unfold line. change (" " ++ commas args)%string with (String " " (commas args)).
  rewrite re_split_cut by done. f_equal. by apply re_split_commas.
Qed.

Lemma rstrip_commas p args :
  args <> [] -> Forall clean args -> rstrip (p ++ commas args)%string = (p ++ commas args)%string.
Proof.
  revert p. induction args as [|a args IH]; [done|]. intros p _ Hc.
  apply Forall_cons_1 in Hc as [Ha Hc]. destruct args as [|b args]; [by apply rstrip_app|].
  change (commas (a :: b :: args)) with (a ++ "," ++ commas (b :: args))%string.
  rewrite <- !append_assoc. by apply IH.
Qed.

Lemma strip_line mn args :
  clean mn -> args <> [] -> Forall clean args -> strip (line mn args) = line mn args.
Proof.
  intros Hm Ha Hc. unfold strip, line. rewrite lstrip_clean by done.
  rewrite <- append_assoc. by apply rstrip_commas.
Qed.

Lemma commas_chars p args :
  p ","%char = true -> Forall (fun t => all_chars p t = true) args -> all_chars p (commas args) = true.
Proof.
  intros Hp Hc. induction Hc as [|a args Ha Hc IH]; [done|].
  destruct args as [|b args]; [done|].
  change (commas (a :: b :: args)) with (a ++ String "," (commas (b :: args)))%string.
  rewrite all_chars_app, Ha.
  change (all_chars p (String "," ?t)) with (p ","%char && all_chars p t). by rewrite Hp, IH.
Qed.

Lemma line_chars (p : ascii -> bool) mn args :
  (forall c, tok_char c = true -> p c = true) -> p ","%char = true -> p " "%char = true ->
  clean mn -> Forall clean args -> all_chars p (line mn args) = true.
Proof.
  intros Hp H1 H2 [_ Hm] Hc. unfold line. rewrite all_chars_app, (all_chars_impl _ _ _ Hp Hm).
  change (" " ++ commas args)%string with (String " " (commas args)).
  change (all_chars p (String " " ?t)) with (p " "%char && all_chars p t). rewrite H2.
  apply commas_chars; [done|]. eapply Forall_impl; [exact Hc|].
  intros t [_ Ht]. by apply (all_chars_impl _ _ _ Hp).
Qed.

(** Assembling one printed line is encoding its operands. *)
Lemma assemble_line mn args xlen :
  clean mn -> lower mn = mn -> args <> [] -> Forall clean args ->
  assemble [line mn args] xlen = let! w := encode ∅ xlen 0 mn args in Ok [w].
Proof.
  intros Hm Hl Ha Hc. unfold assemble, pass1. cbn [foldl pass1_line].
  rewrite before_hash_id.
  2:{ apply line_chars; try done. intros c (_ & _ & -> & _)%tok_char_inv. done. }
  rewrite strip_line by done.
  assert (N : (line mn args =? "")%string = false).
  { destruct Hm as [Hn _]. destruct mn; [done|]. reflexivity. }
  rewrite N, no_colon_end.
  2:{ apply line_chars; try done. intros c (_ & _ & _ & ->)%tok_char_inv. done. }
  cbn [app assemble_all assemble_stmt]. rewrite strip_line, re_split_line, Hl by done.
  by destruct (encode _ _ _ _ _).
Qed.

(** ** Operands *)

(** A property of the first [n] integers, by evaluation. *)
Lemma by_cases (n : Z) (P : Z -> bool) i :
  forallb P (seqZ 0 n) = true -> 0 <= i < n -> P i = true.
Proof.
  intros H Hi. rewrite forallb_forall in H. apply H, list_elem_of_In, elem_of_seqZ. lia.
Qed.

Definition is_ok (r : result Z) (z : Z) : bool := match r with Ok v => v =? z | Err _ => false end.

Lemma is_ok_eq r z : is_ok r z = true -> r = Ok z.
Proof. destruct r; simpl; [by intros ->%Z.eqb_eq | done]. Qed.

Lemma reg_x n : 0 <= n < 32 -> reg (x_name n) = Ok n.
Proof.
  intros. apply is_ok_eq, (by_cases 32 (fun n => is_ok (reg (x_name n)) n)); [vm_compute; reflexivity | done].
Qed.

Lemma freg_f n : 0 <= n < 32 -> freg (f_name n) = Ok n.
Proof.
  intros. apply is_ok_eq, (by_cases 32 (fun n => is_ok (freg (f_name n)) n)); [vm_compute; reflexivity | done].
Qed.

Lemma x_clean n : clean (x_name n).
Proof. apply clean_cons; [done | apply show_dec_clean]. Qed.
Lemma f_clean n : clean (f_name n).
Proof. apply clean_cons; [done | apply show_dec_clean]. Qed.

Lemma at_base_clean offs base : clean (at_base offs base).
Proof.
  unfold at_base. destruct (show_dec_clean offs) as [Hn Hc]. split.
  - by destruct (show_dec offs).
  - rewrite all_chars_app, Hc. change ("(" ++ x_name base ++ ")")%string with (String "(" (x_name base ++ ")")%string).
    change (all_chars tok_char (String "(" ?t)) with (all_chars tok_char t).
    rewrite all_chars_app. by rewrite (proj2 (x_clean base)).
Qed.

Lemma span_cut p a c b :
  all_chars p a = true -> p c = false -> span p (a ++ String c b)%string = (a, String c b).
Proof.
  intros Ha Hc. induction a as [|d a IH]; simpl; [by rewrite Hc|].
  simpl in Ha. apply andb_true_iff in Ha as [-> Ha]. by rewrite IH.
Qed.

Lemma dec_words n : 0 <= n -> all_chars is_word (show_base 10 n) = true.
Proof. intros. apply show_base_chars; [lia | done |]. intros. apply digit_char_spec. lia. Qed.
Lemma dec_digits n : 0 <= n -> all_chars is_digit (show_base 10 n) = true.
Proof. intros. apply show_base_chars; [lia | done |]. intros. apply digit_char_spec; lia. Qed.

(** The part of [mem_operand] after the optional sign. *)
Definition mem_tail (sign rest : string) : option (string * string) :=
  let '(word, rest) := span is_word rest in
  match word, rest with
  | String _ _, String "(" (String "x" r) =>
      let '(ds, r) := span is_digit r in
      match ds, r with
      | String _ _, String ")" _ => Some (sign ++ word, String "x" ds)%string
      | _, _ => None
      end
  | _, _ => None
  end.

Lemma mem_tail_spec sign n base :
  0 <= n -> 0 <= base ->
  mem_tail sign (show_base 10 n ++ "(" ++ x_name base ++ ")")%string =
  Some (sign ++ show_base 10 n, x_name base)%string.
Proof.
  intros Hn Hb. unfold mem_tail. change ("(" ++ ?t)%string with (String "(" t).
  rewrite span_cut by (done || by apply dec_words).
  destruct (show_base 10 n) as [|c s] eqn:E; [by apply show_nonempty in E|].
  unfold x_name. change (String "x" ?t ++ ")")%string with (String "x" (t ++ String ")" "")).
  unfold show_dec. destruct (Z.ltb_spec base 0); [lia|].
  rewrite span_cut by (done || by apply dec_digits).
  destruct (show_base 10 base) as [|c' s'] eqn:E'; [by apply show_nonempty in E' | done].
Qed.

Lemma mem_operand_unsigned c s :
  c <> "-"%char -> mem_operand (String c s) = mem_tail "" (String c s).
Proof. intros H. destruct c as [[] [] [] [] [] [] [] []]; (reflexivity || done). Qed.

Lemma mem_operand_at_base offs base :
  0 <= base -> mem_operand (at_base offs base) = Some (show_dec offs, x_name base).
Proof.
  intros Hb. unfold at_base, show_dec. destruct (Z.ltb_spec offs 0).
  - change (mem_operand _) with
      (mem_tail "-" (show_base 10 (- offs) ++ "(" ++ x_name base ++ ")")%string).
    rewrite mem_tail_spec by lia. done.
  - pose proof (mem_tail_spec "" offs base ltac:(lia) Hb) as T.
    destruct (show_base 10 offs) as [|c s] eqn:E; [by apply show_nonempty in E|].
    destruct (show_base_head offs c s ltac:(lia) E) as [N _].
    change (String c s ++ ?t)%string with (String c (s ++ t)) in *.
    by rewrite mem_operand_unsigned.
Qed.

Lemma reg_arg_x args i n :
  args !! i = Some (x_name n) -> 0 <= n < 32 -> reg_arg args i = Ok n.
Proof. intros E Hn. unfold reg_arg, arg. rewrite E. simpl. by apply reg_x. Qed.

Lemma freg_arg_f args i n :
  args !! i = Some (f_name n) -> 0 <= n < 32 -> freg_arg args i = Ok n.
Proof. intros E Hn. unfold freg_arg, arg. rewrite E. simpl. by apply freg_f. Qed.

Lemma mem_arg_at args offs base :
  args !! 1%nat = Some (at_base offs base) -> 0 <= base < 32 ->
  mem_arg args = Ok (show_dec offs, base).
Proof.
  intros E Hb. unfold mem_arg, arg. rewrite E. cbn [rbind].
  rewrite mem_operand_at_base, reg_x by lia. done.
Qed.

(** Every CSR address but the float ones prints as something [csr_lookup] reads. *)
Lemma csr_lookup_name a :
  0 <= a < 4096 -> 3 < a \/ a = 0 ->
  csr_lookup (TStr (csr_name a)) = Ok a /\ clean (csr_name a).
Proof.
  intros Ha H. set (P := fun a => ((1 <=? a) && (a <=? 3)) ||
    (is_ok (csr_lookup (TStr (csr_name a))) a && negb (csr_name a =? "")%string &&
     all_chars tok_char (csr_name a))).
  assert (P a = true) as E by (apply (by_cases 4096); [vm_compute; reflexivity | done]).
  unfold P in E. apply orb_true_iff in E as [E|E]; py_bool; [lia|].
  split; [by apply is_ok_eq|]. split; [|done].
  intros N. by rewrite N in *.
Qed.

(** Rounding modes with a name. *)
Definition rm_valid (rm : Z) : bool := (rm <? 5) || (rm =? 7).

Lemma parse_rm_name args i rm :
  args !! i = Some (rm_name rm) -> 0 <= rm < 8 -> rm_valid rm = true ->
  parse_rm args i = Ok rm.
Proof.
  intros E H V. unfold parse_rm. rewrite E.
  assert (rm = 0 \/ rm = 1 \/ rm = 2 \/ rm = 3 \/ rm = 4 \/ rm = 5 \/ rm = 6 \/ rm = 7) as D by lia.
  repeat destruct D as [->|D]; try (by vm_compute in V); try reflexivity. subst. reflexivity.
Qed.

Lemma rm_clean rm : 0 <= rm -> clean (rm_name rm).
Proof.
  intros. unfold rm_name, dget, RM_NAMES, dfind.
  repeat (case_match; [by split|]). split; [done|]. simpl. apply show_dec_clean.
Qed.

Create HintDb asm.
#[export] Hint Resolve x_clean f_clean at_base_clean show_dec_clean show_plus_clean : asm.
