(* ===== verification/Roundtrip.v ===== *)
(** * Disassembling and assembling an instruction word

    For each instruction format, [assemble] applied to the text of [disasm] gives
    back the word. *)

From Stdlib Require Import Ascii String.
From S2P Require Import Prelude Bits PyStr Asm Disasm AsmText.
Open Scope string_scope.
Open Scope Z_scope.

Local Abbreviation rd w := ((w ≫ 7) .& 0x1F).
Local Abbreviation f3 w := ((w ≫ 12) .& 0x7).
Local Abbreviation rs1 w := ((w ≫ 15) .& 0x1F).
Local Abbreviation rs2 w := ((w ≫ 20) .& 0x1F).
Local Abbreviation f7 w := ((w ≫ 25) .& 0x7F).
Local Abbreviation op w := (w .& 0x7F).

(** ** Fields *)

Lemma field5 w k : 0 <= (w ≫ k) .& 0x1F < 32.
Proof. apply (land_range _ 5). lia. Qed.
Lemma field3 w k : 0 <= (w ≫ k) .& 0x7 < 8.
Proof. apply (land_range _ 3). lia. Qed.

(** A word is the disjunction of its R-format fields. *)
Lemma recompose w :
  is_u32 w ->
  (f7 w ≪ 25) .| (rs2 w ≪ 20) .| (rs1 w ≪ 15) .| (f3 w ≪ 12) .| (rd w ≪ 7) .| op w = w.
Proof. unfold is_u32. intros. fields. Qed.

(** The same with the immediates of the other formats. *)
Lemma recompose_i w :
  is_u32 w ->
  (u ((w ≫ 20) mod 2 ^ 12) 12 ≪ 20) .| (rs1 w ≪ 15) .| (f3 w ≪ 12) .| (rd w ≪ 7) .| op w = w.
Proof.
  unfold is_u32, u. intros. change ((1 ≪ 12) - 1) with 0xFFF.
  rewrite <- (land_lit (w ≫ 20) 0xFFF 12) by done. fields.
Qed.

Lemma recompose_shift6 w f6 :
  is_u32 w -> (w ≫ 26) .& 0x3F = f6 ->
  (u ((f6 ≪ 6) .| ((w ≫ 20) .& 0x3F)) 12 ≪ 20) .| (rs1 w ≪ 15) .| (f3 w ≪ 12) .| (rd w ≪ 7) .| op w = w.
Proof.
  unfold is_u32, u. intros ? <-. change ((1 ≪ 12) - 1) with 0xFFF. fields.
Qed.

Lemma recompose_shift5 w f :
  is_u32 w -> f7 w = f ->
  (u ((f ≪ 5) .| ((w ≫ 20) .& 0x1F)) 12 ≪ 20) .| (rs1 w ≪ 15) .| (f3 w ≪ 12) .| (rd w ≪ 7) .| op w = w.
Proof.
  unfold is_u32, u. intros ? <-. change ((1 ≪ 12) - 1) with 0xFFF. fields.
Qed.

Lemma recompose_s w :
  is_u32 w ->
  let v := (((w ≫ 25) ≪ 5) .| ((w ≫ 7) .& 0x1F)) mod 2 ^ 12 in
  (((v ≫ 5) .& 0x7F) ≪ 25) .| (rs2 w ≪ 20) .| (rs1 w ≪ 15) .| (f3 w ≪ 12) .| ((v .& 0x1F) ≪ 7) .| op w = w.
Proof. unfold is_u32. intros. cbv zeta. fields. Qed.

Lemma recompose_u w :
  is_u32 w -> (((w ≫ 12) .& 0xFFFFF) ≪ 12) .| (rd w ≪ 7) .| op w = w.
Proof. unfold is_u32. intros. fields. Qed.

(** The offset fields of a branch and of a jump, as [disasm] collects them. *)
Definition b_imm (w : Z) : Z :=
  (((w ≫ 31) .& 1) ≪ 12) .| (((w ≫ 7) .& 1) ≪ 11) .| (((w ≫ 25) .& 0x3F) ≪ 5) .| (((w ≫ 8) .& 0xF) ≪ 1).
Definition j_imm (w : Z) : Z :=
  (((w ≫ 31) .& 1) ≪ 20) .| (((w ≫ 12) .& 0xFF) ≪ 12) .| (((w ≫ 20) .& 1) ≪ 11) .| (((w ≫ 21) .& 0x3FF) ≪ 1).

Lemma b_imm_range w : 0 <= b_imm w < 2 ^ 13 /\ b_imm w .& 1 = 0.
Proof. unfold b_imm. split; [fields_norm; dlia | fields]. Qed.
Lemma j_imm_range w : 0 <= j_imm w < 2 ^ 21 /\ j_imm w .& 1 = 0.
Proof. unfold j_imm. split; [fields_norm; dlia | fields]. Qed.

Lemma recompose_b w :
  is_u32 w ->
  let v := b_imm w in
  (((v ≫ 12) .& 1) ≪ 31) .| (((v ≫ 5) .& 0x3F) ≪ 25) .| (rs2 w ≪ 20) .| (rs1 w ≪ 15) .| (f3 w ≪ 12) .|
  (((v ≫ 11) .& 1) ≪ 7) .| (((v ≫ 1) .& 0xF) ≪ 8) .| op w = w.
Proof.
  unfold is_u32, b_imm. intros. cbv zeta. rewrite (lor_swap _ (_ ≪ 7) (_ ≪ 8)).
  assert (H1 : (b_imm w ≫ 12) .& 1 = (w ≫ 31) .& 1) by (unfold b_imm; fields).
  assert (H2 : (b_imm w ≫ 5) .& 0x3F = (w ≫ 25) .& 0x3F) by (unfold b_imm; fields).
  assert (H3 : (b_imm w ≫ 11) .& 1 = (w ≫ 7) .& 1) by (unfold b_imm; fields).
  assert (H4 : (b_imm w ≫ 1) .& 0xF = (w ≫ 8) .& 0xF) by (unfold b_imm; fields).
  unfold b_imm in *. rewrite H1, H2, H3, H4. fields.
Qed.

Lemma recompose_j w :
  is_u32 w ->
  let v := j_imm w in
  (((v ≫ 20) .& 1) ≪ 31) .| (((v ≫ 12) .& 0xFF) ≪ 12) .| (((v ≫ 11) .& 1) ≪ 20) .|
  (((v ≫ 1) .& 0x3FF) ≪ 21) .| (rd w ≪ 7) .| op w = w.
Proof.
  unfold is_u32. intros. cbv zeta.
  assert (H1 : (j_imm w ≫ 20) .& 1 = (w ≫ 31) .& 1) by (unfold j_imm; fields).
  assert (H2 : (j_imm w ≫ 12) .& 0xFF = (w ≫ 12) .& 0xFF) by (unfold j_imm; fields).
  assert (H3 : (j_imm w ≫ 11) .& 1 = (w ≫ 20) .& 1) by (unfold j_imm; fields).
  assert (H4 : (j_imm w ≫ 1) .& 0x3FF = (w ≫ 21) .& 0x3FF) by (unfold j_imm; fields).
  rewrite H1, H2, H3, H4. rewrite (lor_swap (_ .| _) (_ ≪ 20) (_ ≪ 21)), (lor_swap _ (_ ≪ 12) (_ ≪ 21)).
  rewrite (lor_swap (_ .| _) (_ ≪ 12) (_ ≪ 20)). fields.
Qed.

(** Reading a printed immediate back. *)
Lemma imm_signed v bits :
  0 < bits -> imm (TStr (show_dec (sext v bits))) bits true = Ok (v mod 2 ^ bits).
Proof.
  intros Hb. unfold imm, operand_int. rewrite py_int0_dec. cbn [rbind].
  rewrite sext_signed by done. pose proof (signed_range v bits Hb) as R.
  rewrite (shiftl_1 (bits - 1)) by lia. destruct (Z.leb_spec (- 2 ^ (bits - 1)) (signed v bits)); [|lia].
  destruct (Z.leb_spec (signed v bits) (2 ^ (bits - 1) - 1)); [|lia]. cbn [andb].
  by rewrite land_ones_mod, signed_mod by lia.
Qed.

Lemma imm_int_signed v bits :
  0 < bits -> imm (TInt (sext v bits)) bits true = Ok (v mod 2 ^ bits).
Proof. intros Hb. rewrite <- (imm_signed v bits Hb). unfold imm, operand_int. by rewrite py_int0_dec. Qed.

Lemma imm_unsigned s v bits :
  0 <= bits -> py_int0 s = Ok v -> 0 <= v < 2 ^ bits -> imm (TStr s) bits false = Ok v.
Proof.
  intros Hb Hs Hv. unfold imm, operand_int. rewrite Hs. cbn [rbind]. rewrite shiftl_1 by done.
  destruct (Z.leb_spec 0 v); [|lia]. destruct (Z.leb_spec v (2 ^ bits - 1)); [|lia]. cbn [andb].
  by rewrite <- shiftl_1, land_ones_mod, Z.mod_small.
Qed.

(** ** The encodings both tools know *)

Definition fmt0 (w : Z) : bool := ((w ≫ 25) .& 3) =? 0.

Definition canonical_fp (w : Z) : bool :=
  let funct5 := (w ≫ 27) .& 0x1F in
  fmt0 w &&
  (if funct5 <? 4 then rm_valid (f3 w)
   else if funct5 =? 0x0B then (rs2 w =? 0) && rm_valid (f3 w)
   else if funct5 =? 4 then f3 w <? 3
   else if funct5 =? 5 then f3 w <? 2
   else if funct5 =? 0x14 then f3 w <? 3
   else if (funct5 =? 0x18) || (funct5 =? 0x1A) then (rs2 w <? 2) && rm_valid (f3 w)
   else if funct5 =? 0x1C then (rs2 w =? 0) && (f3 w <? 2)
   else if funct5 =? 0x1E then (rs2 w =? 0) && (f3 w =? 0)
   else false).

Definition canonical_system (w : Z) : bool :=
  let csr_addr := (w ≫ 20) .& 0xFFF in
  if f3 w =? 0 then
    (rd w =? 0) && (rs1 w =? 0) && ((csr_addr =? 0) || (csr_addr =? 1) || (csr_addr =? 0x302))
  else negb (f3 w =? 4) && ((3 <? csr_addr) || (csr_addr =? 0)).

Definition base_or_alt (v : Z) (alt : Z) : bool := (v =? 0) || (v =? alt).

Definition canonical (xlen w : Z) : bool :=
  if op w =? 0x33 then (f7 w =? 1) || (f7 w =? 0) || ((f7 w =? 0x20) && ((f3 w =? 0) || (f3 w =? 5)))
  else if op w =? 0x13 then
    let hi := if 64 <=? xlen then (w ≫ 26) .& 0x3F else f7 w in
    let alt := if 64 <=? xlen then 0x10 else 0x20 in
    if f3 w =? 1 then hi =? 0 else if f3 w =? 5 then base_or_alt hi alt else true
  else if op w =? 0x3B then
    if f7 w =? 1 then (f3 w =? 0) || (4 <=? f3 w)
    else ((f7 w =? 0) && ((f3 w =? 0) || (f3 w =? 1) || (f3 w =? 5))) ||
         ((f7 w =? 0x20) && ((f3 w =? 0) || (f3 w =? 5)))
  else if op w =? 0x1B then
    if f3 w =? 0 then true else if f3 w =? 1 then f7 w =? 0
    else (f3 w =? 5) && base_or_alt (f7 w) 0x20
  else if op w =? 0x03 then f3 w <? 7
  else if op w =? 0x23 then f3 w <? 4
  else if (op w =? 0x63) || (op w =? 0x6F) || (op w =? 0x37) || (op w =? 0x17) then true
  else if op w =? 0x67 then f3 w =? 0
  else if op w =? 0x2A then (f7 w =? 0x20) && (rs2 w =? 0) && (f3 w =? 7)
  else if op w =? 0x73 then canonical_system w
  else if (op w =? 0x07) || (op w =? 0x27) then f3 w =? 2
  else if (op w =? 0x43) || (op w =? 0x47) || (op w =? 0x4B) || (op w =? 0x4F) then
    fmt0 w && rm_valid (f3 w)
  else if op w =? 0x53 then canonical_fp w
  else false.

(** ** Tactics *)

(** Chooses the branch of the outermost [if] of the encoder's dispatch, whose
    conditions are closed. *)
Ltac eval_encode :=
  unfold encode, encode_fp;
  repeat match goal with
  | |- rbind (if ?b then ?p else ?q) _ = _ =>
      let v := eval vm_compute in b in
      lazymatch v with
      | true => change (if b then p else q) with p
      | false => change (if b then p else q) with q
      end
  end.

Ltac read_regs :=
  repeat first
    [ erewrite (reg_arg_x _ 0) by (reflexivity || apply field5)
    | erewrite (reg_arg_x _ 1) by (reflexivity || apply field5)
    | erewrite (reg_arg_x _ 2) by (reflexivity || apply field5)
    | erewrite (freg_arg_f _ 0) by (reflexivity || apply field5)
    | erewrite (freg_arg_f _ 1) by (reflexivity || apply field5)
    | erewrite (freg_arg_f _ 2) by (reflexivity || apply field5)
    | erewrite (freg_arg_f _ 3) by (reflexivity || apply field5)
    | erewrite mem_arg_at by (reflexivity || apply field5) ];
  cbn [rbind].

Ltac cleans := repeat (apply Forall_cons; split; [by auto with asm|]); apply Forall_nil; exact I.

(** From a printed line to the call of the encoder with the decoded operands. *)
Ltac reassemble :=
  rewrite assemble_line; [| by split | reflexivity | done | cleans];
  eval_encode; read_regs.

(** Splits on the values of [funct3]. *)
Ltac funct3_cases w H :=
  pose proof (field3 w 12);
  assert (f3 w = 0 \/ f3 w = 1 \/ f3 w = 2 \/ f3 w = 3 \/
          f3 w = 4 \/ f3 w = 5 \/ f3 w = 6 \/ f3 w = 7) as H by lia.

(** Evaluates the name tables at a known key. *)
Ltac named :=
  repeat match goal with
  | |- context [dget ?d ?k ?x] =>
      let v := eval vm_compute in (dfind d k) in
      lazymatch v with Some ?n => change (dget d k x) with n end
  | |- context [ffind ?d ?k] => let v := eval vm_compute in (ffind d k) in change (ffind d k) with v
  end;
  cbn [default from_option].

Ltac split8 F := destruct F as [F|[F|[F|[F|[F|[F|[F|F]]]]]]].

Section Formats.
  Context (xlen w : Z) (Hw : is_u32 w) (Hc : canonical xlen w = true).

Lemma roundtrip_r : op w = 0x33 -> assemble [disasm_r w] xlen = Ok [w].
Proof.
  intros Ho. unfold canonical in Hc. rewrite Ho in Hc. cbn [Z.eqb Pos.eqb] in Hc.
  pose proof (recompose w Hw) as R. rewrite Ho in R. unfold disasm_r. funct3_cases w F.
  destruct (Z.eqb_spec (f7 w) 1) as [E|_].
  { rewrite E in R. split8 F; rewrite F in *; named; reassemble;
      exact (f_equal (fun v => Ok [v]) R). }
  destruct (Z.eqb_spec (f7 w) 0) as [E|_].
  { rewrite E in *. cbn [Z.eqb andb]. split8 F; rewrite F in *; named; reassemble;
      exact (f_equal (fun v => Ok [v]) R). }
  cbn [orb] in Hc. destruct (Z.eqb_spec (f7 w) 0x20) as [E|_]; [|done].
  rewrite E in *. cbn [andb] in *.
  split8 F; rewrite F in *; cbn [Z.eqb Pos.eqb orb andb] in *; try done; named; reassemble;
    exact (f_equal (fun v => Ok [v]) R).
Qed.

Lemma roundtrip_op_32 : op w = 0x3B -> assemble [disasm_op_32 w] xlen = Ok [w].
Proof.
  intros Ho. unfold canonical in Hc. rewrite Ho in Hc. cbn [Z.eqb Pos.eqb] in Hc.
  pose proof (recompose w Hw) as R. rewrite Ho in R. unfold disasm_op_32. funct3_cases w F.
  destruct (Z.eqb_spec (f7 w) 1) as [E|_].
  { rewrite E in R. split8 F; rewrite F in *; try done; named; reassemble;
      exact (f_equal (fun v => Ok [v]) R). }
  destruct (Z.eqb_spec (f7 w) 0) as [E|_].
  { rewrite E in *. cbn [Z.eqb andb]. split8 F; rewrite F in *; try done; named; reassemble;
      exact (f_equal (fun v => Ok [v]) R). }
  cbn [orb andb] in Hc. destruct (Z.eqb_spec (f7 w) 0x20) as [E|_]; [|done].
  rewrite E in *. split8 F; rewrite F in *; try done; named; reassemble;
    exact (f_equal (fun v => Ok [v]) R).
Qed.

(** Reads the immediate operand of the encoder back. *)
Ltac read_imm :=
  rewrite ?imm_signed by done;
  repeat (erewrite imm_unsigned; [|lia | apply py_int0_dec | done]);
  cbn [rbind].

Ltac i_shift X := unfold i_type; cbn; rewrite X; read_imm.
Ltac i_plain := unfold i_type; cbn; read_imm.

Lemma roundtrip_i : op w = 0x13 -> assemble [disasm_i w xlen] xlen = Ok [w].
Proof.
  intros Ho. unfold canonical in Hc. rewrite Ho in Hc. cbn [Z.eqb Pos.eqb] in Hc.
  pose proof (recompose_i w Hw) as R. rewrite Ho in R.
  unfold disasm_i, base_or_alt in *. funct3_cases w F.
  assert (0 <= (w ≫ 20) .& 0x3F < 2 ^ 6) by by apply (land_range _ 6).
  assert (0 <= (w ≫ 20) .& 0x1F < 2 ^ 5) by by apply (land_range _ 5).
  destruct (64 <=? xlen) eqn:X.
  - pose proof (recompose_shift6 w _ Hw eq_refl) as R6. rewrite Ho in R6.
    split8 F; rewrite F in *; cbn [Z.eqb Pos.eqb orb] in *; named;
      try (reassemble; i_plain; exact (f_equal (fun v => Ok [v]) R)).
    + apply Z.eqb_eq in Hc. rewrite Hc in R6. reassemble. i_shift X.
      exact (f_equal (fun v => Ok [v]) R6).
    + apply orb_true_iff in Hc as [Hc|Hc]; apply Z.eqb_eq in Hc; rewrite Hc in *;
        cbn [Z.eqb Pos.eqb]; reassemble; i_shift X; exact (f_equal (fun v => Ok [v]) R6).
  - pose proof (recompose_shift5 w _ Hw eq_refl) as R5. rewrite Ho in R5.
    split8 F; rewrite F in *; cbn [Z.eqb Pos.eqb orb] in *; named;
      try (reassemble; i_plain; exact (f_equal (fun v => Ok [v]) R)).
    + apply Z.eqb_eq in Hc. rewrite Hc in R5. reassemble. i_shift X.
      exact (f_equal (fun v => Ok [v]) R5).
    + apply orb_true_iff in Hc as [Hc|Hc]; apply Z.eqb_eq in Hc; rewrite Hc in *;
        cbn [Z.eqb Pos.eqb]; reassemble; i_shift X; exact (f_equal (fun v => Ok [v]) R5).
Qed.

Lemma roundtrip_op_imm_32 : op w = 0x1B -> assemble [disasm_op_imm_32 w] xlen = Ok [w].
Proof.
  intros Ho. unfold canonical in Hc. rewrite Ho in Hc. cbn [Z.eqb Pos.eqb] in Hc.
  pose proof (recompose_i w Hw) as R. rewrite Ho in R.
  pose proof (recompose_shift5 w _ Hw eq_refl) as R5. rewrite Ho in R5.
  unfold disasm_op_imm_32, base_or_alt in *. funct3_cases w F.
  assert (0 <= (w ≫ 20) .& 0x1F < 2 ^ 5) by by apply (land_range _ 5).
  split8 F; rewrite F in *; cbn [Z.eqb Pos.eqb orb andb] in *; try done; named.
  - reassemble. unfold i_type_w. cbn. read_imm. exact (f_equal (fun v => Ok [v]) R).
  - apply Z.eqb_eq in Hc. rewrite Hc in R5. reassemble. unfold i_type_w. cbn. read_imm.
    exact (f_equal (fun v => Ok [v]) R5).
  - apply orb_true_iff in Hc as [Hc|Hc]; apply Z.eqb_eq in Hc; rewrite Hc in *;
      cbn [Z.eqb Pos.eqb]; reassemble; unfold i_type_w; cbn; read_imm;
      exact (f_equal (fun v => Ok [v]) R5).
Qed.

Lemma roundtrip_load :
  op w = 0x03 ->
  assemble [line (dget load_names (f3 w) "load?") [x_name (rd w); at_base (sext (w ≫ 20) 12) (rs1 w)]]
    xlen = Ok [w].
Proof.
  intros Ho. unfold canonical in Hc. rewrite Ho in Hc. cbn [Z.eqb Pos.eqb] in Hc.
  pose proof (recompose_i w Hw) as R. rewrite Ho in R. funct3_cases w F.
  split8 F; rewrite F in *; try done; named; reassemble; unfold load; read_imm;
    exact (f_equal (fun v => Ok [v]) R).
Qed.

Lemma roundtrip_store :
  op w = 0x23 ->
  assemble [line (dget store_names (f3 w) "store?")
              [x_name (rs2 w); at_base (sext (((w ≫ 25) ≪ 5) .| ((w ≫ 7) .& 0x1F)) 12) (rs1 w)]]
    xlen = Ok [w].
Proof.
  intros Ho. unfold canonical in Hc. rewrite Ho in Hc. cbn [Z.eqb Pos.eqb] in Hc.
  pose proof (recompose_s w Hw) as R. rewrite Ho in R. cbv zeta in R. funct3_cases w F.
  split8 F; rewrite F in *; try done; named; reassemble; unfold store; read_imm;
    exact (f_equal (fun v => Ok [v]) R).
Qed.

Lemma resolve_plus z : resolve ∅ (show_plus z) 0 = Ok z.
Proof.
  unfold resolve. rewrite lookup_empty, strip_clean by apply show_plus_clean. apply py_int0_plus.
Qed.

Lemma roundtrip_branch : op w = 0x63 -> assemble [disasm_branch w] xlen = Ok [w].
Proof.
  intros Ho. pose proof (recompose_b w Hw) as R. rewrite Ho in R. cbv zeta in R.
  destruct (b_imm_range w) as [B E]. unfold disasm_branch. cbv zeta. fold (b_imm w).
  funct3_cases w F.
  split8 F; rewrite F in *; named; reassemble; cbn [arg lookup list_lookup rbind];
    rewrite resolve_plus; cbn [rbind]; unfold branch; rewrite imm_int_signed by done;
    rewrite (Z.mod_small (b_imm w)) by done; cbn [rbind subscript get BRANCH String.eqb Ascii.eqb Bool.eqb];
    rewrite E; exact (f_equal (fun v => Ok [v]) R).
Qed.

Lemma roundtrip_jal : op w = 0x6F -> assemble [disasm_jal w] xlen = Ok [w].
Proof.
  intros Ho. pose proof (recompose_j w Hw) as R. rewrite Ho in R. cbv zeta in R.
  destruct (j_imm_range w) as [B E]. unfold disasm_jal. cbv zeta. fold (j_imm w).
  reassemble. cbn [arg lookup list_lookup rbind]. rewrite resolve_plus. cbn [rbind]. unfold jal.
  rewrite imm_int_signed by done. rewrite (Z.mod_small (j_imm w)) by done. cbn [rbind].
  rewrite E. exact (f_equal (fun v => Ok [v]) R).
Qed.

Lemma roundtrip_jalr :
  op w = 0x67 -> assemble [line "jalr" [x_name (rd w); at_base (sext (w ≫ 20) 12) (rs1 w)]] xlen = Ok [w].
Proof.
  intros Ho. unfold canonical in Hc. rewrite Ho in Hc. cbn [Z.eqb Pos.eqb orb] in Hc.
  apply Z.eqb_eq in Hc. pose proof (recompose_i w Hw) as R. rewrite Ho, Hc in R.
  change (0 ≪ 12) with 0 in R. rewrite Z.lor_0_r in R.
  reassemble. unfold jalr. read_imm. exact (f_equal (fun v => Ok [v]) R).
Qed.

Lemma hex_imm n : 0 <= n < 2 ^ 20 -> imm (TStr ("0x" ++ show_hex n)%string) 20 false = Ok n.
Proof. intros. apply imm_unsigned; [done | apply py_int0_hex; lia | done]. Qed.

Lemma roundtrip_upper mn opc :
  (mn = "lui" /\ opc = 0x37) \/ (mn = "auipc" /\ opc = 0x17) -> op w = opc ->
  assemble [line mn [x_name (rd w); ("0x" ++ show_hex ((w ≫ 12) .& 0xFFFFF))%string]] xlen = Ok [w].
Proof.
  intros Hm Ho. pose proof (recompose_u w Hw) as R. rewrite Ho in R.
  assert (B : 0 <= (w ≫ 12) .& 0xFFFFF < 2 ^ 20) by by apply (land_range _ 20).
  assert (HC : clean ("0x" ++ show_hex ((w ≫ 12) .& 0xFFFFF))%string) by (apply hex_clean; lia).
  set (h := ("0x" ++ show_hex ((w ≫ 12) .& 0xFFFFF))%string) in *.
  destruct Hm as [[-> ->]|[-> ->]]; reassemble; unfold arg, u_type; cbn [lookup list_lookup rbind];
    (unfold h; rewrite hex_imm by done); exact (f_equal (fun v => Ok [v]) R).
Qed.

Lemma roundtrip_ctz : op w = 0x2A -> assemble [line "ctz" [x_name (rd w); x_name (rs1 w)]] xlen = Ok [w].
Proof.
  intros Ho. unfold canonical in Hc. rewrite Ho in Hc. cbn [Z.eqb Pos.eqb orb] in Hc.
  apply andb_true_iff in Hc as [[E7 E2]%andb_true_iff E3]. apply Z.eqb_eq in E7, E2, E3.
  pose proof (recompose w Hw) as R. rewrite Ho, E7, E2, E3 in R.
  reassemble. exact (f_equal (fun v => Ok [v]) R).
Qed.

Lemma csr_word f :
  f3 w = f -> op w = 0x73 ->
  (u ((w ≫ 20) .& 0xFFF) 12 ≪ 20) .| (rs1 w ≪ 15) .| (f ≪ 12) .| (rd w ≪ 7) .| OP_SYSTEM = w.
Proof.
  intros Hf Ho. pose proof (recompose_i w Hw) as R. rewrite Hf, Ho in R.
  by rewrite <- (land_lit (w ≫ 20) 0xFFF 12) in R.
Qed.

Lemma roundtrip_system : op w = 0x73 -> assemble [disasm_system w] xlen = Ok [w].
Proof.
  intros Ho. unfold canonical in Hc. rewrite Ho in Hc. cbn [Z.eqb Pos.eqb orb] in Hc.
  unfold canonical_system in Hc. unfold disasm_system. cbv zeta in *.
  pose proof (fun f H => csr_word f H Ho) as R. funct3_cases w F.
  assert (B : 0 <= (w ≫ 20) .& 0xFFF < 4096) by by apply (land_range _ 12).
  destruct (Z.eqb_spec (f3 w) 0) as [E|E].
  { specialize (R _ E). apply andb_true_iff in Hc as [[Erd Ers]%andb_true_iff Hcsr].
    apply Z.eqb_eq in Erd, Ers. rewrite Erd, Ers in R.
    rewrite !orb_true_iff, !Z.eqb_eq in Hcsr. destruct Hcsr as [[Hcsr|Hcsr]|Hcsr]; rewrite Hcsr in *;
      rewrite <- R; vm_compute; reflexivity. }
  apply andb_true_iff in Hc as [N4 Ha]. apply negb_true_iff, Z.eqb_neq in N4.
  set (a := (w ≫ 20) .& 0xFFF) in *.
  destruct (csr_lookup_name a B) as [L C].
  { apply orb_true_iff in Ha as [Ha|Ha]; [left; by apply Z.ltb_lt | right; by apply Z.eqb_eq]. }
  assert (0 <= rs1 w < 2 ^ 5) by by apply (land_range _ 5).
  split8 F; rewrite F in *; try done; specialize (R _ eq_refl);
    [change (truthy (1 .& 4)) with false | change (truthy (2 .& 4)) with false
    | change (truthy (3 .& 4)) with false | change (truthy (5 .& 4)) with true
    | change (truthy (6 .& 4)) with true | change (truthy (7 .& 4)) with true];
    cbv iota; named; reassemble; unfold arg, csr_reg, csr_imm; cbn [lookup list_lookup rbind];
    try (erewrite (reg_arg_x _ 2) by (reflexivity || apply field5); cbn [rbind]);
    rewrite L; cbn [rbind]; read_imm; exact (f_equal (fun v => Ok [v]) R).
Qed.

Lemma roundtrip_flw :
  op w = 0x07 -> assemble [line "flw" [f_name (rd w); at_base (sext (w ≫ 20) 12) (rs1 w)]] xlen = Ok [w].
Proof.
  intros Ho. unfold canonical in Hc. rewrite Ho in Hc. cbn [Z.eqb Pos.eqb orb] in Hc.
  apply Z.eqb_eq in Hc. pose proof (recompose_i w Hw) as R. rewrite Ho, Hc in R.
  reassemble. unfold flw. read_imm. exact (f_equal (fun v => Ok [v]) R).
Qed.

Lemma roundtrip_fsw :
  op w = 0x27 ->
  assemble [line "fsw" [f_name (rs2 w); at_base (sext (((w ≫ 25) ≪ 5) .| ((w ≫ 7) .& 0x1F)) 12) (rs1 w)]]
    xlen = Ok [w].
Proof.
  intros Ho. unfold canonical in Hc. rewrite Ho in Hc. cbn [Z.eqb Pos.eqb orb] in Hc.
  apply Z.eqb_eq in Hc. pose proof (recompose_s w Hw) as R. rewrite Ho, Hc in R. cbv zeta in R.
  reassemble. unfold fsw. read_imm. exact (f_equal (fun v => Ok [v]) R).
Qed.

(** A word of the float formats, whose format field is zero. *)
Lemma recompose_fp :
  fmt0 w = true ->
  (((w ≫ 27) .& 0x1F) ≪ 27) .| (rs2 w ≪ 20) .| (rs1 w ≪ 15) .| (f3 w ≪ 12) .| (rd w ≪ 7) .| op w = w.
Proof.
  unfold fmt0. intros H%Z.eqb_eq. unfold is_u32 in Hw.
  rewrite <- (recompose w Hw) at 7.
  assert (f7 w = ((w ≫ 27) .& 0x1F) ≪ 2) as E.
  { transitivity ((((w ≫ 27) .& 0x1F) ≪ 2) .| ((w ≫ 25) .& 3)); [fields|].
    by rewrite H, Z.lor_0_r. }
  by rewrite E, Z.shiftl_shiftl.
Qed.

(** Reads the rounding-mode operand. *)
Ltac read_rm V :=
  first
    [ erewrite (parse_rm_name _ 2) by (reflexivity || apply field3 || exact V)
    | erewrite (parse_rm_name _ 3) by (reflexivity || apply field3 || exact V)
    | erewrite (parse_rm_name _ 4) by (reflexivity || apply field3 || exact V) ];
  cbn [rbind].

Lemma rm_field_clean : clean (rm_name (f3 w)).
Proof. apply rm_clean, field3. Qed.
#[local] Hint Resolve rm_field_clean : asm.

Lemma roundtrip_madd mn :
  dfind MADD_NAMES (op w) = Some mn ->
  assemble [line mn [f_name (rd w); f_name (rs1 w); f_name (rs2 w); f_name ((w ≫ 27) .& 0x1F);
                     rm_name (f3 w)]] xlen = Ok [w].
Proof.
  intros Hm. unfold dfind, MADD_NAMES in Hm. unfold canonical in Hc.
  repeat (case_match;
    [match goal with H : (op w =? ?k) = true |- _ => apply Z.eqb_eq in H as Ho end;
     rewrite Ho in Hc; cbn [Z.eqb Pos.eqb orb] in Hc; apply andb_true_iff in Hc as [Hf V];
     pose proof (recompose_fp Hf) as R; rewrite Ho in R; injection Hm as <-;
     reassemble; read_rm V; exact (f_equal (fun v => Ok [v]) R) |]).
  done.
Qed.

Ltac fp_done R := exact (f_equal (fun v => Ok [v]) R).
Ltac fp_rm V R := reassemble; read_rm V; fp_done R.

Lemma roundtrip_fp : op w = 0x53 -> assemble [disasm_fp w] xlen = Ok [w].
Proof.
  intros Ho. unfold canonical in Hc. rewrite Ho in Hc. cbn [Z.eqb Pos.eqb orb] in Hc.
  unfold canonical_fp in Hc. apply andb_true_iff in Hc as [Hf V].
  pose proof (recompose_fp Hf) as R. rewrite Ho in R. unfold disasm_fp. cbv zeta in *.
  pose proof (field5 w 27) as B. set (k := (w ≫ 27) .& 0x1F) in *.
  destruct (Z.ltb_spec k 4).
  { assert (k = 0 \/ k = 1 \/ k = 2 \/ k = 3) as K by lia.
    destruct K as [K|[K|[K|K]]]; rewrite K in R |- *; cbn [Z.eqb Pos.eqb orb]; named; fp_rm V R. }
  destruct (Z.eqb_spec k 0x0B) as [K|_].
  { rewrite K in R |- *. apply andb_true_iff in V as [E V]. apply Z.eqb_eq in E. rewrite E in R.
    cbn [Z.eqb Pos.eqb orb]. fp_rm V R. }
  replace ((k =? 0) || (k =? 1) || (k =? 2) || (k =? 3)) with false
    by (symmetry; rewrite !orb_false_iff, !Z.eqb_neq; lia).
  destruct (Z.eqb_spec k 4) as [K|_].
  { rewrite K in R. funct3_cases w F.
    split8 F; rewrite F in V, R |- *; try done; named; reassemble; fp_done R. }
  destruct (Z.eqb_spec k 5) as [K|_].
  { rewrite K in R. funct3_cases w F.
    split8 F; rewrite F in V, R |- *; try done; named; reassemble; fp_done R. }
  destruct (Z.eqb_spec k 0x14) as [K|_].
  { rewrite K in R. funct3_cases w F.
    split8 F; rewrite F in V, R |- *; try done; named; reassemble; fp_done R. }
  destruct ((k =? 0x18) || (k =? 0x1A)) eqn:C.
  { apply andb_true_iff in V as [E V]. apply Z.ltb_lt in E. pose proof (field5 w 20).
    assert (rs2 w = 0 \/ rs2 w = 1) as E2 by lia.
    apply orb_true_iff in C as [K|K]; apply Z.eqb_eq in K; rewrite K in R |- *; cbn [Z.eqb Pos.eqb];
      destruct E2 as [E2|E2]; rewrite E2 in R |- *; cbn [Z.eqb Pos.eqb]; fp_rm V R. }
  apply orb_false_iff in C as [-> ->].
  destruct (Z.eqb_spec k 0x1C) as [K|_].
  { rewrite K in R. apply andb_true_iff in V as [E V]. apply Z.eqb_eq in E. rewrite E in R.
    funct3_cases w F.
    split8 F; rewrite F in V, R |- *; try done; cbn [Z.eqb Pos.eqb]; reassemble; fp_done R. }
  destruct (Z.eqb_spec k 0x1E) as [K|_]; [|done].
  rewrite K in R. apply andb_true_iff in V as [E V]. apply Z.eqb_eq in E, V. rewrite E, V in R.
  change (0 ≪ 12) with 0 in R. rewrite Z.lor_0_r in R. reassemble. fp_done R.
Qed.

End Formats.

(** [canonical] words have a known opcode. *)
Lemma canonical_opcode xlen w :
  canonical xlen w = true ->
  In (op w) [0x33; 0x13; 0x3B; 0x1B; 0x03; 0x23; 0x63; 0x6F; 0x67; 0x37; 0x17; 0x2A; 0x73; 0x07; 0x27;
             0x43; 0x47; 0x4B; 0x4F; 0x53].
Proof.
  unfold canonical. cbn [In]. generalize (op w). intros k.
  repeat match goal with
  | |- context [k =? ?v] => destruct (Z.eqb_spec k v) as [E|_]; cbn [orb]; [intros _; subst k; tauto|]
  end.
  done.
Qed.

(** C4: for every instruction word of the encodings the two tools share, at
    either XLEN, [assemble] on the text that [disasm] prints returns that word:
    the printed mnemonic, registers, immediates, branch offsets, CSR names and
    rounding modes are all read back to the same bits. *)
Theorem asm_disasm_roundtrip xlen w :
  is_u32 w -> canonical xlen w = true -> assemble [disasm w xlen] xlen = Ok [w].
Proof.
  intros Hw Hc. pose proof (canonical_opcode _ _ Hc) as Ho. unfold disasm. cbv zeta.
  destruct (Z.eqb_spec w 0x13) as [->|_]; [vm_compute; reflexivity|].
  destruct (Z.eqb_spec w 0) as [->|_]; [by vm_compute in Hc|].
  destruct (Z.eqb_spec (op w) 0x33) as [E|?]; [exact (roundtrip_r xlen w Hw Hc E)|].
  destruct (Z.eqb_spec (op w) 0x13) as [E|?]; [exact (roundtrip_i xlen w Hw Hc E)|].
  destruct (Z.eqb_spec (op w) 0x3B) as [E|?]; [exact (roundtrip_op_32 xlen w Hw Hc E)|].
  destruct (Z.eqb_spec (op w) 0x1B) as [E|?]; [exact (roundtrip_op_imm_32 xlen w Hw Hc E)|].
  destruct (Z.eqb_spec (op w) 0x03) as [E|?]; [exact (roundtrip_load xlen w Hw Hc E)|].
  destruct (Z.eqb_spec (op w) 0x23) as [E|?]; [exact (roundtrip_store xlen w Hw Hc E)|].
  destruct (Z.eqb_spec (op w) 0x63) as [E|?]; [exact (roundtrip_branch xlen w Hw E)|].
  destruct (Z.eqb_spec (op w) 0x6F) as [E|?]; [exact (roundtrip_jal xlen w Hw E)|].
  destruct (Z.eqb_spec (op w) 0x67) as [E|?]; [exact (roundtrip_jalr xlen w Hw Hc E)|].
  destruct (Z.eqb_spec (op w) 0x37) as [E|?]; [exact (roundtrip_upper xlen w Hw _ _ (or_introl (conj eq_refl eq_refl)) E)|].
  destruct (Z.eqb_spec (op w) 0x17) as [E|?]; [exact (roundtrip_upper xlen w Hw _ _ (or_intror (conj eq_refl eq_refl)) E)|].
  destruct (Z.eqb_spec (op w) 0x2A) as [E|?]; [exact (roundtrip_ctz xlen w Hw Hc E)|].
  destruct (Z.eqb_spec (op w) 0x73) as [E|?]; [exact (roundtrip_system xlen w Hw Hc E)|].
  destruct (Z.eqb_spec (op w) 0x07) as [E|?]; [exact (roundtrip_flw xlen w Hw Hc E)|].
  destruct (Z.eqb_spec (op w) 0x27) as [E|?]; [exact (roundtrip_fsw xlen w Hw Hc E)|].
  destruct (dfind MADD_NAMES (op w)) as [mn|] eqn:E; [exact (roundtrip_madd xlen w Hw Hc mn E)|].
  destruct (Z.eqb_spec (op w) 0x53) as [F|?]; [exact (roundtrip_fp xlen w Hw Hc F)|].
  cbn [In] in Ho. destruct_or? Ho; try done; rewrite <- Ho in E; vm_compute in E; discriminate E.
Qed.

(** [fmadd.s f1,f2,f3,f4,rtz] and a backward branch. *)
Lemma asm_disasm_roundtrip_witness :
  assemble [disasm 0x203110C3 32] 32 = Ok [0x203110C3] /\
  assemble [disasm 0xFE209EE3 64] 64 = Ok [0xFE209EE3].
Proof.
  split; apply asm_disasm_roundtrip; (reflexivity || (unfold is_u32; lia)).
Defined.
