(* ===== verification/AsmLink.v ===== *)
(** * Labels, branches and the simulator

    What the first pass of [assemble] computes, and that the control-transfer
    words the second pass emits take the simulator's [step] to the labels. *)

From Stdlib Require Import Ascii String.
From S2P Require Import Prelude Bits Float32 Machine Mmu Exec PyStr Asm Disasm AsmText Roundtrip.
Open Scope string_scope.
Open Scope Z_scope.

(** ** The first pass *)

(** A source line is blank, a statement or a label definition. *)
Definition stmt_of (raw : string) : option string :=
  let line := strip (before_hash raw) in
  if (line =? "")%string then None else if ends_with_colon line then None else Some line.
Definition label_of (raw : string) : option string :=
  let line := strip (before_hash raw) in
  if (line =? "")%string then None
  else if ends_with_colon line then Some (strip (drop_last line)) else None.

(** The address of source line [i]: four bytes for each statement before it. *)
Definition line_addr (lines : list string) (i : nat) : Z :=
  4 * Z.of_nat (List.length (omap stmt_of (take i lines))).

(** The statements with their addresses. *)
Definition numbered (stmts : list string) : list (Z * string) :=
  imap (fun k s => (4 * Z.of_nat k, s)) stmts.

Lemma pass1_snoc lines raw : pass1 (lines ++ [raw]) = pass1_line (pass1 lines) raw.
Proof. unfold pass1. by rewrite foldl_app. Qed.

Lemma pass1_line_cases stmts addr labels raw :
  pass1_line (stmts, addr, labels) raw =
  match stmt_of raw, label_of raw with
  | Some line, _ => ((stmts ++ [(addr, line)])%list, addr + 4, labels)
  | None, Some l => (stmts, addr, <[l := addr]> labels)
  | None, None => (stmts, addr, labels)
  end.
Proof. unfold pass1_line, stmt_of, label_of. by repeat case_match. Qed.

Lemma stmt_not_label raw s : stmt_of raw = Some s -> label_of raw = None.
Proof. unfold stmt_of, label_of. by repeat case_match. Qed.

Lemma pass1_stmts lines :
  (pass1 lines).1 = (numbered (omap stmt_of lines), 4 * Z.of_nat (List.length (omap stmt_of lines))).
Proof.
  induction lines as [|raw lines IH] using rev_ind; [done|].
  rewrite pass1_snoc, omap_app. destruct (pass1 lines) as [[stmts addr] labels].
  injection IH as -> ->. rewrite pass1_line_cases. simpl omap.
  destruct (stmt_of raw) as [line|]; [|by destruct (label_of raw); rewrite app_nil_r].
  unfold numbered. rewrite imap_app, length_app. simpl. rewrite Nat.add_0_r. f_equal. lia.
Qed.

(** A label's address is that of its last definition. *)
Definition defined_at (lines : list string) (l : string) (j : nat) : Prop :=
  lines !! j ≫= label_of = Some l /\
  forall i, (j < i)%nat -> lines !! i ≫= label_of <> Some l.

Lemma pass1_labels lines l j :
  defined_at lines l j -> (pass1 lines).2 !! l = Some (line_addr lines j).
Proof.
  induction lines as [|raw lines IH] using rev_ind; [by intros [? _]|].
  intros [Hj Hl]. rewrite pass1_snoc. pose proof (pass1_stmts lines) as S.
  destruct (pass1 lines) as [[stmts addr] labels]. injection S as -> ->.
  rewrite pass1_line_cases.
  destruct (decide (j = List.length lines)) as [->|Hne].
  - rewrite list_lookup_middle in Hj by done. simpl in Hj.
    destruct (stmt_of raw) eqn:E; [by apply stmt_not_label in E; rewrite E in Hj|].
    rewrite Hj. simpl. rewrite lookup_insert_eq. unfold line_addr. by rewrite take_app_length.
  - assert (j < List.length lines)%nat as Hlt.
    { destruct (decide (j < List.length lines)%nat); [done|]. exfalso.
      rewrite lookup_ge_None_2 in Hj by (rewrite length_app; simpl; lia). done. }
    assert (labels !! l = Some (line_addr (lines ++ [raw]) j)) as HL.
    { unfold line_addr. rewrite take_app_le by lia. apply IH. split.
      - by rewrite lookup_app_l in Hj.
      - intros i Hi. destruct (decide (i < List.length lines)%nat).
        + specialize (Hl i Hi). by rewrite lookup_app_l in Hl.
        + by rewrite lookup_ge_None_2 by lia. }
    assert (label_of raw <> Some l) as Hr.
    { specialize (Hl (List.length lines) Hlt). by rewrite list_lookup_middle in Hl. }
    destruct (stmt_of raw); [done|]. destruct (label_of raw) as [l'|] eqn:E; [|done].
    simpl. rewrite lookup_insert_ne by congruence. done.
Qed.

(** ** The second pass *)

Lemma assemble_all_lookup labels xl stmts words k s :
  assemble_all labels xl stmts = Ok words -> stmts !! k = Some s ->
  exists w, words !! k = Some w /\ assemble_stmt labels xl s = Ok w.
Proof.
  revert words k. induction stmts as [|t stmts IH]; intros words k E Hk; [done|].
  simpl in E. destruct (assemble_stmt labels xl t) as [w|] eqn:W; [|done].
  destruct (assemble_all labels xl stmts) as [ws|] eqn:WS; [|done]. injection E as <-.
  destruct k as [|k]; simpl in *; [injection Hk as <-; eauto | by eapply IH].
Qed.

Lemma assemble_all_length labels xl stmts words :
  assemble_all labels xl stmts = Ok words -> List.length words = List.length stmts.
Proof.
  revert words. induction stmts as [|t stmts IH]; intros words E; simpl in E; [by injection E as <-|].
  destruct (assemble_stmt labels xl t); [|done].
  destruct (assemble_all labels xl stmts); [|done]. injection E as <-. simpl. f_equal. by apply IH.
Qed.

(** The word of the statement on source line [i] is at that line's address. *)
Lemma assemble_lookup lines xl words i raw s :
  assemble lines xl = Ok words -> lines !! i = Some raw -> stmt_of raw = Some s ->
  exists w, words !! Z.to_nat (line_addr lines i / 4) = Some w /\
            assemble_stmt (pass1 lines).2 xl (line_addr lines i, s) = Ok w.
Proof.
  unfold assemble. pose proof (pass1_stmts lines) as S.
  destruct (pass1 lines) as [[stmts addr] labels]. injection S as -> _. intros E Hi Hs. cbn [snd].
  eapply assemble_all_lookup; [exact E|].
  assert (omap stmt_of lines !! List.length (omap stmt_of (take i lines)) = Some s) as L.
  { pose proof (f_equal (omap stmt_of) (take_drop_middle lines i raw Hi)) as D.
    rewrite omap_app in D. simpl in D. rewrite Hs in D. rewrite <- D. by apply list_lookup_middle. }
  unfold numbered, line_addr. rewrite Z.mul_comm, Z.div_mul, Nat2Z.id by lia.
  rewrite list_lookup_imap, L. simpl. do 2 f_equal. lia.
Qed.

(** ** Branch and jump words *)

(** The value [imm] accepts and the field it returns. *)
Lemma imm_ok z bits (sg : bool) v :
  0 < bits -> imm (TInt z) bits sg = Ok v ->
  v = z mod 2 ^ bits /\
  (if sg then - 2 ^ (bits - 1) <= z < 2 ^ (bits - 1) else 0 <= z < 2 ^ bits).
Proof.
  intros Hb. unfold imm, operand_int. cbn [rbind]. rewrite !shiftl_1 by lia.
  destruct (_ && _) eqn:E; [|done]. intros [= <-]. py_bool.
  split; [by rewrite <- land_ones_mod, shiftl_1 by lia | destruct sg; lia].
Qed.

Lemma imm_signed_cases z bits :
  0 < bits ->
  imm (TInt z) bits true =
  if (- 2 ^ (bits - 1) <=? z) && (z <? 2 ^ (bits - 1)) then Ok (z mod 2 ^ bits) else Err ValueError.
Proof.
  intros Hb. unfold imm, operand_int. cbn [rbind]. rewrite land_ones_mod, (shiftl_1 (bits - 1)) by lia.
  replace (z <=? 2 ^ (bits - 1) - 1) with (z <? 2 ^ (bits - 1)); [done|].
  apply eq_true_iff_eq. rewrite Z.ltb_lt, Z.leb_le. lia.
Qed.

Lemma odd_field z n : 0 < n -> truthy ((z mod 2 ^ n) .& 1) = negb (z mod 2 =? 0).
Proof.
  intros. unfold truthy. rewrite (land_lit _ 1 1) by done. change (2 ^ 1) with 2.
  rewrite Z.mod_mod_divide; [done|]. exists (2 ^ (n - 1)). rewrite (pow2_double n) by done. lia.
Qed.

Lemma branch_off_imm w : branch_off w = sext (b_imm w) 13.
Proof. reflexivity. Qed.
Lemma jal_off_imm w : jal_off w = sext (j_imm w) 21.
Proof. reflexivity. Qed.

(** Decoding a word made of branch-format fields. *)
Lemma branch_word a31 a25 a20 a15 a12 a8 a7 :
  0 <= a31 < 2 -> 0 <= a25 < 64 -> 0 <= a20 < 32 -> 0 <= a15 < 32 -> 0 <= a12 < 8 -> 0 <= a8 < 16 ->
  0 <= a7 < 2 ->
  let w := (a31 ≪ 31) .| (a25 ≪ 25) .| (a20 ≪ 20) .| (a15 ≪ 15) .| (a12 ≪ 12) .| (a7 ≪ 7) .| (a8 ≪ 8) .| 0x63 in
  is_u32 w /\ op_of w = 0x63 /\ f3_of w = a12 /\ rs1_of w = a15 /\ rs2_of w = a20 /\
  b_imm w = (a31 ≪ 12) .| (a7 ≪ 11) .| (a25 ≪ 5) .| (a8 ≪ 1).
Proof.
  intros. unfold w. clear w. rewrite (lor_swap _ (a7 ≪ 7) (a8 ≪ 8)).
  set (w := _ .| 0x63).
  assert (w = a31 * 2 ^ 31 + a25 * 2 ^ 25 + a20 * 2 ^ 20 + a15 * 2 ^ 15 + a12 * 2 ^ 12 + a8 * 2 ^ 8 +
              a7 * 2 ^ 7 + 0x63) as W by (unfold w; fields_norm; lia).
  clearbody w. unfold is_u32, op_of, f3_of, rs1_of, rs2_of, b_imm.
  assert ((w ≫ 31) .& 1 = a31) as -> by fields. assert ((w ≫ 7) .& 1 = a7) as -> by fields.
  assert ((w ≫ 25) .& 0x3F = a25) as -> by fields. assert ((w ≫ 8) .& 0xF = a8) as -> by fields.
  repeat split; try fields; lia.
Qed.

(** The fields the simulator decodes from a branch word are the operands. *)
Lemma branch_fields mn f r1 r2 off w :
  get BRANCH mn = Some f -> 0 <= f < 8 -> 0 <= r1 < 32 -> 0 <= r2 < 32 ->
  branch mn r1 r2 off = Ok w ->
  is_u32 w /\ op_of w = 0x63 /\ f3_of w = f /\ rs1_of w = r1 /\ rs2_of w = r2 /\ branch_off w = off.
Proof.
  intros Hg Hf H1 H2. unfold branch, subscript. rewrite Hg. cbn [rbind].
  destruct (imm _ _ _) as [v|] eqn:E; [|done]. apply imm_ok in E as [Ev R]; [|done]. cbn [rbind].
  destruct (truthy _) eqn:T; [done|]. apply negb_false_iff, Z.eqb_eq in T. intros [= <-].
  assert (0 <= v < 2 ^ 13) as B by (subst v; dlia).
  edestruct (branch_word ((v ≫ 12) .& 1) ((v ≫ 5) .& 0x3F) r2 r1 f ((v ≫ 1) .& 0xF) ((v ≫ 11) .& 1))
    as (U & O & F & S1 & S2 & I); try done;
    try (by apply (land_range _ 1)); try (by apply (land_range _ 6)); try (by apply (land_range _ 4)).
  cbv zeta in *. repeat (split; [assumption|]).
  unfold Asm.OP_BRANCH. rewrite branch_off_imm, I, sext_signed by done.
  apply signed_unique; [done | exact R |]. rewrite <- Ev.
  clear - B T. revert T. fields.
Qed.

(** The same for [jal]. *)
Lemma jal_word a31 a21 a20 a12 a7 :
  0 <= a31 < 2 -> 0 <= a21 < 1024 -> 0 <= a20 < 2 -> 0 <= a12 < 256 -> 0 <= a7 < 32 ->
  let w := (a31 ≪ 31) .| (a12 ≪ 12) .| (a20 ≪ 20) .| (a21 ≪ 21) .| (a7 ≪ 7) .| 0x6F in
  is_u32 w /\ op_of w = 0x6F /\ rd_of w = a7 /\
  j_imm w = (a31 ≪ 20) .| (a12 ≪ 12) .| (a20 ≪ 11) .| (a21 ≪ 1).
Proof.
  intros. unfold w. clear w.
  rewrite (lor_swap (_ .| _) (a20 ≪ 20) (a21 ≪ 21)), (lor_swap _ (a12 ≪ 12) (a21 ≪ 21)),
    (lor_swap (_ .| _) (a12 ≪ 12) (a20 ≪ 20)).
  set (w := _ .| 0x6F).
  assert (w = a31 * 2 ^ 31 + a21 * 2 ^ 21 + a20 * 2 ^ 20 + a12 * 2 ^ 12 + a7 * 2 ^ 7 + 0x6F) as W
    by (unfold w; fields_norm; lia).
  clearbody w. unfold is_u32, op_of, rd_of, j_imm.
  assert ((w ≫ 31) .& 1 = a31) as -> by fields. assert ((w ≫ 12) .& 0xFF = a12) as -> by fields.
  assert ((w ≫ 20) .& 1 = a20) as -> by fields. assert ((w ≫ 21) .& 0x3FF = a21) as -> by fields.
  repeat split; try fields; lia.
Qed.

Lemma jal_fields rd off w :
  0 <= rd < 32 -> jal rd off = Ok w -> is_u32 w /\ op_of w = 0x6F /\ rd_of w = rd /\ jal_off w = off.
Proof.
  intros Hr. unfold jal.
  destruct (imm _ _ _) as [v|] eqn:E; [|done]. apply imm_ok in E as [Ev R]; [|done]. cbn [rbind].
  destruct (truthy _) eqn:T; [done|]. apply negb_false_iff, Z.eqb_eq in T. intros [= <-].
  assert (0 <= v < 2 ^ 21) as B by (subst v; dlia).
  edestruct (jal_word ((v ≫ 20) .& 1) ((v ≫ 1) .& 0x3FF) ((v ≫ 11) .& 1) ((v ≫ 12) .& 0xFF) rd)
    as (U & O & D & I); try done;
    try (by apply (land_range _ 1)); try (by apply (land_range _ 8)); try (by apply (land_range _ 10)).
  cbv zeta in *. repeat (split; [assumption|]).
  unfold Asm.OP_JAL. rewrite jal_off_imm, I, sext_signed by done.
  apply signed_unique; [done | exact R |]. rewrite <- Ev.
  clear - B T. revert T. fields.
Qed.

(** ** Dispatch *)

Lemma encode_branch labels xl a mn f args :
  get BRANCH mn = Some f ->
  0 <= f < 8 /\
  encode labels xl a mn args =
    let! rs1 := reg_arg args 0 in let! rs2 := reg_arg args 1 in
    let! a2 := arg args 2 in let! off := resolve labels a2 a in branch mn rs1 rs2 off.
Proof.
  intros H. unfold get, BRANCH in H.
  repeat (case_match;
    [match goal with E : (_ =? _)%string = true |- _ => apply String.eqb_eq in E; subst end;
     injection H as <-; split; [lia | reflexivity]|]).
  done.
Qed.

Lemma reg_range_ok t r : reg t = Ok r -> 0 <= r < 32.
Proof.
  unfold reg, reg_with. destruct (strip t) as [|c [|d s]]; try done.
  destruct (_ && _); [|done]. cbv zeta. destruct (_ && _) eqn:E; [|done]. py_bool.
  assert (0 <= dec_value 0 (String d s) < 32) as R by lia. by intros [= <-].
Qed.

Lemma resolve_label labels l a cur : labels !! strip l = Some a -> resolve labels l cur = Ok (a - cur).
Proof. unfold resolve. by intros ->. Qed.

Lemma step_branch w st : op_of w = 0x63 -> step w st = exec_branch w st.
Proof.
  intros H. unfold step. destruct (Z.eqb_spec w 0) as [->|_]; [done|]. cbv zeta. by rewrite H.
Qed.
Lemma step_jal w st : op_of w = 0x6F -> step w st = exec_jal w st.
Proof.
  intros H. unfold step. destruct (Z.eqb_spec w 0) as [->|_]; [done|]. cbv zeta. by rewrite H.
Qed.


(** A loop that counts down and a branch back over two statements. *)
Definition countdown : list string :=
  ["# count x1 down"; "  addi x1, x0, 3"; "loop:"; "addi x1,x1,-1"; "  BNE x1, x0, loop  # again"; "done:"; "jal x0, done"].


(** A [jal] to a label, on source line [i], assembles to a word at that
    line's address which the simulator executes by writing the return address to
    the link register ([x0] stays 0) and going to the label's address. *)
Theorem jal_reaches_label lines xl words i raw s mn t1 l rd j st :
  assemble lines xl = Ok words ->
  lines !! i = Some raw -> stmt_of raw = Some s ->
  re_split false (strip s) = [mn; t1; l] -> lower mn = "jal" -> reg t1 = Ok rd ->
  defined_at lines (strip l) j ->
  pc st = line_addr lines i ->
  exists w,
    words !! Z.to_nat (pc st / 4) = Some w /\
    step w st = Ok (with_pc (uxlen st (line_addr lines j)) (wr rd (pc st + 4) st)).
Proof.
  intros HA Hi Hs Hsplit Hm H1 Hl Hpc.
  destruct (assemble_lookup _ _ _ _ _ _ HA Hi Hs) as (w & Hw & E). exists w. rewrite Hpc. split; [done|].
  unfold assemble_stmt in E. rewrite Hsplit, Hm in E.
  change ((let! rd := reg t1 in let! off := resolve (pass1 lines).2 l (line_addr lines i) in jal rd off) = Ok w)
    in E.
  rewrite H1 in E. cbn [rbind] in E.
  rewrite (resolve_label _ _ (line_addr lines j)) in E by by apply pass1_labels. cbn [rbind] in E.
  apply jal_fields in E as (_ & O & R & Off); [| by eapply reg_range_ok].
  rewrite step_jal by done. unfold exec_jal, next_pc. by rewrite R, Off, Hpc, Zplus_minus.
Qed.

(** A forward call over a data word. *)
Lemma jal_reaches_label_witness :
  exists w, [0x008000EF; 0xDEADBEEF; 0x00000013] !! 0%nat = Some w /\
  step w (init 64 64) = Ok (with_pc 8 (wr 1 4 (init 64 64))).
Proof.
  apply (jal_reaches_label ["jal x1,f"; "word 0xDEADBEEF"; "f:"; "nop"] 64 _ 0 "jal x1,f" "jal x1,f"
           "jal" "x1" "f" 1 2 (init 64 64)); try reflexivity.
  split; [reflexivity|]. intros i Hi. destruct i as [|[|[|[|i]]]]; (lia || discriminate).
Defined.

(** The encoders accept exactly the even offsets in range. *)
Lemma branch_encodes mn f r1 r2 off :
  get BRANCH mn = Some f -> 0 <= r1 < 32 -> 0 <= r2 < 32 ->
  if (-4096 <=? off) && (off <? 4096) && (off mod 2 =? 0)
  then exists w, branch mn r1 r2 off = Ok w /\ branch_off w = off
  else branch mn r1 r2 off = Err ValueError.
Proof.
  intros Hf H1 H2. destruct (encode_branch ∅ 32 0 mn f [] Hf) as [Bf _].
  pose proof (fun w => branch_fields mn f r1 r2 off w Hf Bf H1 H2) as D. revert D.
  unfold branch, subscript. rewrite Hf. cbn [rbind]. rewrite imm_signed_cases by done.
  change (- 2 ^ (13 - 1)) with (-4096). change (2 ^ (13 - 1)) with 4096.
  destruct ((-4096 <=? off) && (off <? 4096)); [|done]. cbn [rbind andb].
  rewrite odd_field by done. destruct (off mod 2 =? 0); [|done]. cbn [negb].
  intros D. eexists. split; [reflexivity|]. by apply D.
Qed.

Lemma jal_encodes rd off :
  0 <= rd < 32 ->
  if (-1048576 <=? off) && (off <? 1048576) && (off mod 2 =? 0)
  then exists w, jal rd off = Ok w /\ jal_off w = off
  else jal rd off = Err ValueError.
Proof.
  intros Hd. pose proof (fun w => jal_fields rd off w Hd) as D. revert D.
  unfold jal. rewrite imm_signed_cases by done. change (- 2 ^ (21 - 1)) with (-1048576). change (2 ^ (21 - 1)) with 1048576.
  destruct ((-1048576 <=? off) && (off <? 1048576)); [|done]. cbn [rbind andb].
  rewrite odd_field by done. destruct (off mod 2 =? 0); [|done]. cbn [negb].
  intros D. eexists. split; [reflexivity|]. by apply D.
Qed.

(** No branch or jump offset is silently truncated: the encoders return a
    word exactly for the even offsets that fit their signed 13- and 21-bit
    fields, and raise [ValueError] for every other; the simulator decodes the
    word back to the offset. *)
Theorem transfer_offsets_checked mn f r1 r2 rd off :
  get BRANCH mn = Some f -> 0 <= r1 < 32 -> 0 <= r2 < 32 -> 0 <= rd < 32 ->
  (if (-4096 <=? off) && (off <? 4096) && (off mod 2 =? 0)
   then exists w, branch mn r1 r2 off = Ok w /\ branch_off w = off
   else branch mn r1 r2 off = Err ValueError) /\
  (if (-1048576 <=? off) && (off <? 1048576) && (off mod 2 =? 0)
   then exists w, jal rd off = Ok w /\ jal_off w = off
   else jal rd off = Err ValueError).
Proof.
  intros Hf H1 H2 Hd. split; [by apply (branch_encodes mn f) | by apply jal_encodes].
Qed.

Lemma transfer_offsets_checked_witness :
  (exists w, branch "bgeu" 5 6 (-4096) = Ok w /\ branch_off w = -4096) /\
  (exists w, jal 1 (-4096) = Ok w /\ jal_off w = -4096).
Proof. apply (transfer_offsets_checked "bgeu" 7 5 6 1 (-4096)); (reflexivity || lia). Defined.
