(* ===== verification/AsmImage.v ===== *)
(** * The assembled image

    Every word [assemble] returns fits 32 bits, and [write_mem] lays the words
    out so that the little-endian loads of the simulator read them back. *)

From Stdlib Require Import Ascii String.
From S2P Require Import Prelude Bits Float32 Machine Mmu Exec PyStr Asm AsmLink.
Open Scope string_scope.
Open Scope Z_scope.

(** ** Words fit 32 bits *)

Create HintDb u32.

Lemma lor_u32 a b : is_u32 a -> is_u32 b -> is_u32 (a .| b).
Proof.
  unfold is_u32. intros Ha Hb. split; [apply Z.lor_nonneg; lia|].
  destruct (Z.eq_dec (a .| b) 0) as [->|N]; [done|].
  assert (0 <= a .| b) by (apply Z.lor_nonneg; lia).
  apply Z.log2_lt_pow2; [lia|]. rewrite Z.log2_lor by lia.
  assert (L : forall x, 0 <= x < 2 ^ 32 -> Z.log2 x < 32).
  { intros x Hx. destruct (Z.eq_dec x 0) as [->|]; [done|]. apply Z.log2_lt_pow2; lia. }
  apply Z.max_lub_lt; by apply L.
Qed.

(** A field of [k] bits placed at bit [s]. *)
Lemma field_u32 a s k : 0 <= a < 2 ^ k -> 0 <= k -> 0 <= s -> k + s <= 32 -> is_u32 (a ≪ s).
Proof.
  intros Ha Hk Hs H. unfold is_u32. rewrite Z.shiftl_mul_pow2 by done.
  assert (2 ^ k * 2 ^ s <= 2 ^ 32) by (rewrite <- Z.pow_add_r by done; by apply Z.pow_le_mono_r).
  pose proof (pow2_pos s Hs). nia.
Qed.

Lemma u_range v bits : 0 <= bits -> 0 <= u v bits < 2 ^ bits.
Proof. intros. unfold u. rewrite land_ones_mod by done. apply Z.mod_pos_bound, pow2_pos; lia. Qed.

Lemma imm_range t bits sg v : 0 <= bits -> imm t bits sg = Ok v -> 0 <= v < 2 ^ bits.
Proof.
  intros Hb. unfold imm. destruct (operand_int t) as [z|]; [|done]. cbn [rbind].
  destruct (_ && _); [|done]. intros [= <-]. by apply u_range.
Qed.

Lemma subscript_Forall {A} (P : A -> Prop) d k v :
  subscript d k = Ok v -> Forall P (map snd d) -> P v.
Proof.
  unfold subscript. induction d as [|[k' v'] d IH]; simpl; [done|].
  intros E [Hv Hd]%Forall_cons_1. destruct (k =? k')%string; [by injection E as <- | by apply IH].
Qed.

Lemma freg_range_ok t r : freg t = Ok r -> 0 <= r < 32.
Proof.
  unfold freg, reg_with. destruct (strip t) as [|c [|d s]]; try done.
  destruct (_ && _); [|done]. cbv zeta. destruct (_ && _) eqn:E; [|done]. py_bool.
  assert (0 <= dec_value 0 (String d s) < 32) as R by lia. by intros [= <-].
Qed.

Lemma reg_arg_range args i r : reg_arg args i = Ok r -> 0 <= r < 2 ^ 5.
Proof. unfold reg_arg. destruct (arg args i); [|done]. apply reg_range_ok. Qed.
Lemma freg_arg_range args i r : freg_arg args i = Ok r -> 0 <= r < 2 ^ 5.
Proof. unfold freg_arg. destruct (arg args i); [|done]. apply freg_range_ok. Qed.
Lemma mem_arg_range args p : mem_arg args = Ok p -> 0 <= p.2 < 2 ^ 5.
Proof.
  unfold mem_arg. destruct (arg args 1) as [a|]; [|done]. cbn [rbind].
  destruct (mem_operand a) as [[o b]|]; [|done]. destruct (reg b) as [r|] eqn:E; [|done].
  cbn [rbind]. intros [= <-]. by apply reg_range_ok in E.
Qed.
Lemma parse_rm_range args i rm : parse_rm args i = Ok rm -> 0 <= rm < 2 ^ 3.
Proof.
  unfold parse_rm. intros H.
  assert (exists k, subscript RM_NAMES k = Ok rm) as [k Hk].
  { destruct (args !! i) as [a|]; [|by eexists].
    destruct (strip a =? "")%string; [by eexists|].
    destruct (get RM_NAMES (lower (strip a))) eqn:E; [|done].
    exists (lower (strip a)). unfold subscript. by rewrite E. }
  apply (subscript_Forall (fun v => 0 <= v < 2 ^ 3) _ _ _ Hk). repeat constructor; simpl; lia.
Qed.

(** Takes an encoder apart down to the word it returns. *)
Ltac operands :=
  repeat match goal with
  | H : rbind _ _ = Ok _ |- _ => apply rbind_Ok in H as (? & ? & ?)
  | H : Ok _ = Ok _ |- _ => apply Ok_inj in H; subst
  | H : Err _ = Ok _ |- _ => discriminate H
  | H : (if ?b then _ else _) = Ok _ |- _ => destruct b eqn:?
  | H : (let '(_, _) := ?p in _) = Ok _ |- _ => destruct p; cbv beta iota in H
  end.

(** Checks every row of a table. *)
Ltac all_rows := repeat (apply Forall_cons_2; [by vm_compute|]); apply Forall_nil_2.

(** The range of every operand read on the way. *)
Ltac ranges :=
  repeat match goal with
  | H : reg_arg _ _ = Ok _ |- _ => apply reg_arg_range in H
  | H : freg_arg _ _ = Ok _ |- _ => apply freg_arg_range in H
  | H : mem_arg _ = Ok _ |- _ => apply mem_arg_range in H; cbn [snd] in H
  | H : parse_rm _ _ = Ok _ |- _ => apply parse_rm_range in H
  | H : imm _ _ _ = Ok _ |- _ => apply imm_range in H; [|lia]
  | H : subscript R_TYPE _ = Ok _ |- _ =>
      apply (subscript_Forall (fun v => 0 <= v.1 < 2 ^ 7 /\ 0 <= v.2 < 2 ^ 3)) in H as [??];
      [|all_rows]
  | H : subscript R_TYPE_W _ = Ok _ |- _ =>
      apply (subscript_Forall (fun v => 0 <= v.1 < 2 ^ 7 /\ 0 <= v.2 < 2 ^ 3)) in H as [??];
      [|all_rows]
  | H : subscript SYSTEM_IMM12 _ = Ok _ |- _ =>
      apply (subscript_Forall (fun v => 0 <= v < 2 ^ 12)) in H; [|all_rows]
  | H : subscript FP_ARITH _ = Ok _ |- _ =>
      apply (subscript_Forall (fun v => 0 <= v < 2 ^ 5)) in H; [|all_rows]
  | H : subscript MADD_OPCODES _ = Ok _ |- _ =>
      apply (subscript_Forall is_u32) in H; [|all_rows]
  | H : subscript _ _ = Ok _ |- _ =>
      apply (subscript_Forall (fun v => 0 <= v < 2 ^ 3)) in H; [|all_rows]
  end; cbn [fst snd] in *.

Ltac field_range :=
  first [ eassumption | by apply u_range
        | by apply (land_range _ 1) | by apply (land_range _ 4) | by apply (land_range _ 5)
        | by apply (land_range _ 6) | by apply (land_range _ 7) | by apply (land_range _ 8)
        | by apply (land_range _ 10) ].

Ltac fits :=
  repeat lazymatch goal with
  | |- is_u32 (_ .| _) => apply lor_u32
  | |- is_u32 (?a ≪ _) =>
      first [ eapply field_u32; [field_range | lia | lia | lia] | split; [by vm_compute | by vm_compute] ]
  | |- is_u32 _ => first [ assumption | split; [by vm_compute | by vm_compute] ]
  end.

Lemma r_type_u32 mn rd rs1 rs2 w : 0 <= rd < 2 ^ 5 -> 0 <= rs1 < 2 ^ 5 -> 0 <= rs2 < 2 ^ 5 -> r_type mn rd rs1 rs2 = Ok w -> is_u32 w.
Proof. unfold r_type. intros. operands; ranges; fits. Qed.
Lemma i_type_u32 mn rd rs1 t xl w : 0 <= rd < 2 ^ 5 -> 0 <= rs1 < 2 ^ 5 -> i_type mn rd rs1 t xl = Ok w -> is_u32 w.
Proof. unfold i_type. intros. operands; ranges; fits. Qed.
Lemma r_type_w_u32 mn rd rs1 rs2 w : 0 <= rd < 2 ^ 5 -> 0 <= rs1 < 2 ^ 5 -> 0 <= rs2 < 2 ^ 5 -> r_type_w mn rd rs1 rs2 = Ok w -> is_u32 w.
Proof. unfold r_type_w. intros. operands; ranges; fits. Qed.
Lemma i_type_w_u32 mn rd rs1 t w : 0 <= rd < 2 ^ 5 -> 0 <= rs1 < 2 ^ 5 -> i_type_w mn rd rs1 t = Ok w -> is_u32 w.
Proof. unfold i_type_w. intros. operands; ranges; fits. Qed.
Lemma load_u32 mn rd t rs1 w : 0 <= rd < 2 ^ 5 -> 0 <= rs1 < 2 ^ 5 -> load mn rd t rs1 = Ok w -> is_u32 w.
Proof. unfold load. intros. operands; ranges; fits. Qed.
Lemma store_u32 mn rs2 t rs1 w : 0 <= rs2 < 2 ^ 5 -> 0 <= rs1 < 2 ^ 5 -> store mn rs2 t rs1 = Ok w -> is_u32 w.
Proof. unfold store. intros. operands; ranges; fits. Qed.
Lemma jalr_u32 rd t rs1 w : 0 <= rd < 2 ^ 5 -> 0 <= rs1 < 2 ^ 5 -> jalr rd t rs1 = Ok w -> is_u32 w.
Proof. unfold jalr. intros. operands; ranges; fits. Qed.
Lemma branch_u32 mn rs1 rs2 off w : 0 <= rs1 < 2 ^ 5 -> 0 <= rs2 < 2 ^ 5 -> branch mn rs1 rs2 off = Ok w -> is_u32 w.
Proof. unfold branch. intros. operands; ranges; fits. Qed.
Lemma jal_u32 rd off w : 0 <= rd < 2 ^ 5 -> jal rd off = Ok w -> is_u32 w.
Proof. unfold jal. intros. operands; ranges; fits. Qed.
Lemma flw_u32 rd t rs1 w : 0 <= rd < 2 ^ 5 -> 0 <= rs1 < 2 ^ 5 -> flw rd t rs1 = Ok w -> is_u32 w.
Proof. unfold flw. intros. operands; ranges; fits. Qed.
Lemma fsw_u32 rs2 t rs1 w : 0 <= rs2 < 2 ^ 5 -> 0 <= rs1 < 2 ^ 5 -> fsw rs2 t rs1 = Ok w -> is_u32 w.
Proof. unfold fsw. intros. operands; ranges; fits. Qed.
Lemma csr_reg_u32 mn rd t rs1 w : 0 <= rd < 2 ^ 5 -> 0 <= rs1 < 2 ^ 5 -> csr_reg mn rd t rs1 = Ok w -> is_u32 w.
Proof. unfold csr_reg. intros. operands; ranges; fits. Qed.
Lemma csr_imm_u32 mn rd t t' w : 0 <= rd < 2 ^ 5 -> csr_imm mn rd t t' = Ok w -> is_u32 w.
Proof. unfold csr_imm. intros. operands; ranges; fits. Qed.
Lemma system_noarg_u32 mn w : system_noarg mn = Ok w -> is_u32 w.
Proof. unfold system_noarg. intros. operands; ranges; fits. Qed.
Lemma fp_sgnj_u32 mn rd rs1 rs2 w : 0 <= rd < 2 ^ 5 -> 0 <= rs1 < 2 ^ 5 -> 0 <= rs2 < 2 ^ 5 -> fp_sgnj mn rd rs1 rs2 = Ok w -> is_u32 w.
Proof. unfold fp_sgnj. intros. operands; ranges; fits. Qed.
Lemma fp_minmax_u32 mn rd rs1 rs2 w : 0 <= rd < 2 ^ 5 -> 0 <= rs1 < 2 ^ 5 -> 0 <= rs2 < 2 ^ 5 -> fp_minmax mn rd rs1 rs2 = Ok w -> is_u32 w.
Proof. unfold fp_minmax. intros. operands; ranges; fits. Qed.
Lemma fp_cmp_u32 mn rd rs1 rs2 w : 0 <= rd < 2 ^ 5 -> 0 <= rs1 < 2 ^ 5 -> 0 <= rs2 < 2 ^ 5 -> fp_cmp mn rd rs1 rs2 = Ok w -> is_u32 w.
Proof. unfold fp_cmp. intros. operands; ranges; fits. Qed.
Lemma u_type_u32 opc rd t w : is_u32 opc -> 0 <= rd < 2 ^ 5 -> u_type opc rd t = Ok w -> is_u32 w.
Proof. unfold u_type. intros. operands; ranges; fits. Qed.
Lemma ctz_u32 rd rs1 : 0 <= rd < 2 ^ 5 -> 0 <= rs1 < 2 ^ 5 -> is_u32 (ctz rd rs1).
Proof. unfold ctz. intros. fits. Qed.
Lemma fp_r_type_u32 f5 rd rs1 rs2 rm : 0 <= f5 < 2 ^ 5 -> 0 <= rd < 2 ^ 5 -> 0 <= rs1 < 2 ^ 5 -> 0 <= rs2 < 2 ^ 5 -> 0 <= rm < 2 ^ 3 -> is_u32 (fp_r_type f5 rd rs1 rs2 rm).
Proof. unfold fp_r_type. intros. fits. Qed.
Lemma fp_sqrt_u32 rd rs1 rm : 0 <= rd < 2 ^ 5 -> 0 <= rs1 < 2 ^ 5 -> 0 <= rm < 2 ^ 3 -> is_u32 (fp_sqrt rd rs1 rm).
Proof. unfold fp_sqrt. intros. fits. Qed.
Lemma fp_cvt_w_s_u32 b rd rs1 rm : 0 <= rd < 2 ^ 5 -> 0 <= rs1 < 2 ^ 5 -> 0 <= rm < 2 ^ 3 -> is_u32 (fp_cvt_w_s b rd rs1 rm).
Proof. unfold fp_cvt_w_s. intros. destruct b; fits. Qed.
Lemma fp_cvt_s_w_u32 b rd rs1 rm : 0 <= rd < 2 ^ 5 -> 0 <= rs1 < 2 ^ 5 -> 0 <= rm < 2 ^ 3 -> is_u32 (fp_cvt_s_w b rd rs1 rm).
Proof. unfold fp_cvt_s_w. intros. destruct b; fits. Qed.
Lemma fp_mv_x_w_u32 rd rs1 : 0 <= rd < 2 ^ 5 -> 0 <= rs1 < 2 ^ 5 -> is_u32 (fp_mv_x_w rd rs1).
Proof. unfold fp_mv_x_w. intros. fits. Qed.
Lemma fp_class_u32 rd rs1 : 0 <= rd < 2 ^ 5 -> 0 <= rs1 < 2 ^ 5 -> is_u32 (fp_class rd rs1).
Proof. unfold fp_class. intros. fits. Qed.
Lemma fp_mv_w_x_u32 rd rs1 : 0 <= rd < 2 ^ 5 -> 0 <= rs1 < 2 ^ 5 -> is_u32 (fp_mv_w_x rd rs1).
Proof. unfold fp_mv_w_x. intros. fits. Qed.
Lemma fp_r4_type_u32 opc rd rs1 rs2 rs3 rm :
  is_u32 opc -> 0 <= rd < 2 ^ 5 -> 0 <= rs1 < 2 ^ 5 -> 0 <= rs2 < 2 ^ 5 -> 0 <= rs3 < 2 ^ 5 -> 0 <= rm < 2 ^ 3 ->
  is_u32 (fp_r4_type opc rd rs1 rs2 rs3 rm).
Proof. unfold fp_r4_type. intros. fits. Qed.
Lemma sfence_vma_u32 rs1 rs2 : 0 <= rs1 < 2 ^ 5 -> 0 <= rs2 < 2 ^ 5 -> is_u32 (sfence_vma rs1 rs2).
Proof. unfold sfence_vma. intros. fits. Qed.

#[export] Hint Resolve r_type_u32 i_type_u32 r_type_w_u32 i_type_w_u32 load_u32 store_u32 jalr_u32
  branch_u32 jal_u32 flw_u32 fsw_u32 csr_reg_u32 csr_imm_u32 system_noarg_u32 fp_sgnj_u32
  fp_minmax_u32 fp_cmp_u32 ctz_u32 fp_r_type_u32 fp_sqrt_u32 fp_cvt_w_s_u32 fp_cvt_s_w_u32
  fp_mv_x_w_u32 fp_class_u32 fp_mv_w_x_u32 fp_r4_type_u32 sfence_vma_u32 : u32.

(** Splits the dispatch without entering the encoders. *)
Ltac dispatch H :=
  repeat lazymatch type of H with
  | rbind _ _ = Ok _ => apply rbind_Ok in H as (? & ? & H)
  | (if ?b then _ else _) = Ok _ => destruct b
  | (let '(_, _) := ?p in _) = Ok _ => destruct p; cbv beta iota in H
  end.

Lemma encode_fp_u32 mn args w : encode_fp mn args = Ok w -> is_u32 w.
Proof.
  unfold encode_fp. intros H. dispatch H; ranges; try discriminate H;
    try (apply Ok_inj in H; subst w); eauto 2 with u32.
Qed.

Lemma encode_u32 labels xl a mn args w : encode labels xl a mn args = Ok w -> is_u32 w.
Proof.
  unfold encode. intros H. dispatch H;
    repeat match goal with
    | H : (if _ then reg_arg _ _ else Ok 0) = Ok ?v |- _ =>
        assert (0 <= v < 2 ^ 5) by
          (case_match; [by eapply reg_arg_range | by apply Ok_inj in H; subst]); clear H
    end;
    ranges; try (apply Ok_inj in H; subst w); eauto 2 with u32.
  all: try (eapply u_type_u32; [| |exact H]; (done || by vm_compute)).
  all: try (by apply u_range).
  all: try (by eapply encode_fp_u32).
  all: split; by vm_compute.
Qed.

(** ** The image *)

(** Little-endian value of four bytes. *)
Definition word_at (data : list Z) (i : nat) : Z :=
  let o := 4 * Z.of_nat i in
  zget data o .| (zget data (o + 1) ≪ 8) .| (zget data (o + 2) ≪ 16) .| (zget data (o + 3) ≪ 24).

Lemma assemble_u32 lines xl words : assemble lines xl = Ok words -> Forall is_u32 words.
Proof.
  unfold assemble. destruct (pass1 lines) as [[stmts n] labels]. revert words.
  induction stmts as [|[a s] stmts IH]; intros words E; simpl in E; [by injection E as <-|].
  destruct (re_split false (strip s)) as [|mn args]; [done|].
  destruct (encode _ _ _ _ _) as [w|] eqn:W; [|done].
  destruct (assemble_all _ _ _) as [ws|]; [|done]. injection E as <-.
  apply Forall_cons_2; [by eapply encode_u32 | by apply IH].
Qed.

(** Byte [p] of the image. *)
Definition image_byte (words : list Z) (p : Z) : Z := (zget words (p / 4) ≫ (8 * (p mod 4))) .& 0xFF.

Lemma zget_cons w ws k : 0 < k -> zget (w :: ws) k = zget ws (k - 1).
Proof.
  intros. unfold zget. replace (Z.to_nat k) with (S (Z.to_nat (k - 1))) by lia. done.
Qed.

(** The four assignments of one iteration. *)
Definition put_word (off w : Z) (data : list Z) : list Z :=
  zset (zset (zset (zset data (off + 0) (w .& 0xFF)) (off + 1) ((w ≫ 8) .& 0xFF))
    (off + 2) ((w ≫ 16) .& 0xFF)) (off + 3) ((w ≫ 24) .& 0xFF).

Lemma put_word_byte i w data p :
  0 <= i -> 4 * i + 4 <= Z.of_nat (List.length data) -> 0 <= p ->
  zget (put_word (i * 4) w data) p =
  if p / 4 =? i then (w ≫ (8 * (p mod 4))) .& 0xFF else zget data p.
Proof.
  intros Hi Hl Hp. unfold put_word. rewrite !zget_zset by (rewrite ?length_zset; lia).
  destruct (Z.eqb_spec (p / 4) i) as [E|E].
  - assert (p mod 4 = 0 \/ p mod 4 = 1 \/ p mod 4 = 2 \/ p mod 4 = 3) as M by dlia.
    assert (p = i * 4 + p mod 4) as P by dlia.
    destruct M as [M|[M|[M|M]]]; rewrite M in P |- *; rewrite P; repeat case_match; py_bool; try lia; done.
  - repeat (case_match; py_bool; [exfalso; dlia|]). done.
Qed.

Lemma write_words_spec size words : forall i data,
  0 <= i -> Z.of_nat (List.length data) = size -> i * 4 <= size ->
  if (i + Z.of_nat (List.length words)) * 4 <=? size then
    exists out, write_words size i words data = Ok out /\ Z.of_nat (List.length out) = size /\
      forall p, 0 <= p ->
        zget out p = if (i <=? p / 4) && (p / 4 <? i + Z.of_nat (List.length words))
                     then image_byte words (p - i * 4) else zget data p
  else write_words size i words data = Err ValueError.
Proof.
  induction words as [|w words IH]; intros i data Hi Hd Hs; cbn [write_words List.length].
  { rewrite Z.add_0_r. destruct (Z.leb_spec (i * 4) size); [|lia]. exists data. split_and!; [done..|].
    intros p Hp. destruct (Z.leb_spec i (p / 4)), (Z.ltb_spec (p / 4) i); (lia || done). }
  destruct (Z.ltb_spec size (i * 4 + 4)).
  { destruct (Z.leb_spec ((i + Z.of_nat (S (List.length words))) * 4) size); [lia | done]. }
  specialize (IH (i + 1) (put_word (i * 4) w data) ltac:(lia)
    ltac:(unfold put_word; rewrite !length_zset; done) ltac:(lia)).
  replace (i + Z.of_nat (S (List.length words))) with (i + 1 + Z.of_nat (List.length words)) by lia.
  destruct (_ <=? size); [|exact IH]. destruct IH as (out & E & L & B). exists out. split_and!; [done..|].
  intros p Hp. rewrite B, put_word_byte by lia. unfold image_byte.
  assert ((p - i * 4) / 4 = p / 4 - i /\ (p - i * 4) mod 4 = p mod 4) as [-> ->] by dlia.
  destruct (Z.eqb_spec (p / 4) i) as [->|Ne].
  - rewrite Z.sub_diag. destruct (Z.leb_spec (i + 1) i); [lia|]. destruct (Z.leb_spec i i); [|lia].
    destruct (Z.ltb_spec i (i + 1 + Z.of_nat (List.length words))); [done | lia].
  - destruct (Z.leb_spec (i + 1) (p / 4)), (Z.leb_spec i (p / 4)); try lia; [|done].
    cbn [andb]. destruct (_ <? _); [|done]. rewrite zget_cons by lia.
    assert ((p - (i + 1) * 4) / 4 = p / 4 - i - 1 /\ (p - (i + 1) * 4) mod 4 = p mod 4) as [-> ->] by dlia.
    done.
Qed.

Lemma bytes_word w :
  is_u32 w ->
  (w ≫ 0) .& 0xFF .| (((w ≫ 8) .& 0xFF) ≪ 8) .| (((w ≫ 16) .& 0xFF) ≪ 16) .| (((w ≫ 24) .& 0xFF) ≪ 24) = w.
Proof. unfold is_u32. intros. fields. Qed.

(** The words of an image that was written. *)
Lemma write_mem_image words size :
  Forall is_u32 words -> 0 <= size ->
  if 4 * Z.of_nat (List.length words) <=? size then
    exists data, write_mem words size = Ok data /\ Z.of_nat (List.length data) = size /\
      (forall k w, words !! k = Some w -> word_at data k = w) /\
      (forall p, 4 * Z.of_nat (List.length words) <= p -> zget data p = 0)
  else write_mem words size = Err ValueError.
Proof.
  intros HA Hs.
  pose proof (write_words_spec size words 0 (replicate (Z.to_nat size) 0) ltac:(lia)
    ltac:(rewrite length_replicate; lia) ltac:(lia)) as W.
  rewrite Z.add_0_l, Z.mul_comm in W. destruct (_ <=? size); [|exact W].
  destruct W as (data & E & L & B). exists data. split_and!; [done | done | |].
  - intros k w Hk. pose proof (lookup_lt_Some _ _ _ Hk). unfold word_at.
    rewrite !B by lia. rewrite !Z.sub_0_r.
    assert (forall b, 0 <= b < 4 -> (4 * Z.of_nat k + b) / 4 = Z.of_nat k /\ (4 * Z.of_nat k + b) mod 4 = b)
      as D by (intros; dlia).
    destruct (D 0 ltac:(lia)) as [D0 M0]. rewrite Z.add_0_r in D0, M0.
    destruct (D 1 ltac:(lia)) as [D1 M1], (D 2 ltac:(lia)) as [D2 M2], (D 3 ltac:(lia)) as [D3 M3].
    unfold image_byte. rewrite D0, D1, D2, D3, M0, M1, M2, M3.
    destruct (Z.leb_spec 0 (Z.of_nat k)); [|lia].
    destruct (Z.ltb_spec (Z.of_nat k) (Z.of_nat (List.length words))); [|lia].
    unfold zget. rewrite Nat2Z.id, Hk. apply (bytes_word w). by eapply Forall_lookup_1 in Hk.
  - intros p Hp. rewrite B, zget_replicate by lia.
    destruct (Z.ltb_spec (p / 4) (Z.of_nat (List.length words))); [dlia | by rewrite andb_false_r].
Qed.

Lemma assembled_word_at lines xl words size data :
  assemble lines xl = Ok words -> 0 <= size -> write_mem words size = Ok data ->
  forall k w, words !! k = Some w -> word_at data k = w.
Proof.
  intros HA%assemble_u32 Hs E. pose proof (write_mem_image words size HA Hs) as W.
  destruct (_ <=? _); [|congruence]. destruct W as (d & E' & _ & H & _). rewrite E in E'.
  by injection E' as <-.
Qed.

(** C29: the image [write_mem] writes for an assembled program has exactly the
    requested size, holds word [k] at byte [4k] in little-endian order, and is
    zero after the last word; a program that does not fit raises [ValueError]
    and nothing is truncated. *)
Theorem assembled_image lines xl words size :
  assemble lines xl = Ok words -> 0 <= size ->
  if 4 * Z.of_nat (List.length words) <=? size then
    exists data, write_mem words size = Ok data /\ Z.of_nat (List.length data) = size /\
      (forall k w, words !! k = Some w -> word_at data k = w) /\
      (forall p, 4 * Z.of_nat (List.length words) <= p -> zget data p = 0)
  else write_mem words size = Err ValueError.
Proof.
  intros HA%assemble_u32 Hs. by apply write_mem_image.
Qed.

Lemma assembled_image_witness :
  exists data, write_mem [0x00300093; 0xFFF08093; 0xFE009EE3; 0x0000006F] 24 = Ok data /\
    Z.of_nat (List.length data) = 24 /\
    (forall k w, [0x00300093; 0xFFF08093; 0xFE009EE3; 0x0000006F] !! k = Some w -> word_at data k = w) /\
    (forall p, 16 <= p -> zget data p = 0).
Proof.
  apply (assembled_image countdown 32 [0x00300093; 0xFFF08093; 0xFE009EE3; 0x0000006F] 24);
    (reflexivity || lia).
Defined.
