(* ===== verification/MemFile.v ===== *)
(** * The [.mem] text format

    One line of eight binary digits per byte.  The writers are the loops at the
    end of [write_mem] in [src/sim/tools/asm.py] and [elf2mem.py]; the readers are
    [read_mem] of [build_linux_boot.py] and the function [load_words] that
    [debugger.py], [run_random_tests.py] and [bench_runner.py] each carry.  A file
    is the list of its lines. *)

From Stdlib Require Import Ascii String.
From S2P Require Import Prelude Bits PyStr Asm Disasm AsmText AsmLink AsmImage.
Open Scope string_scope.
Open Scope Z_scope.

(** ** Writing and reading *)

(** [f"{b:08b}"] *)
Definition bin8 (b : Z) : string := pad 8 (show_base 2 b).
Definition mem_lines (data : list Z) : list string := map bin8 data.

(** [int(s, 2)] *)
Definition magnitude2 (s : string) : option Z :=
  match s with
  | String "0" (String c s') =>
      if (c =? "b")%char || (c =? "B")%char then digits_after_prefix 2 s' else digits 2 0 true s
  | _ => digits 2 0 true s
  end.
Definition signed_magnitude2 (s : string) : option Z :=
  match s with
  | String "-" s => Z.opp <$> magnitude2 s
  | String "+" s => magnitude2 s
  | s => magnitude2 s
  end.
Definition py_int2 (s : string) : result Z :=
  match signed_magnitude2 (strip s) with Some z => Ok z | None => Err ValueError end.

(** The loop over groups of four lines; a short last group ends it. *)
Fixpoint group_words (lines : list string) : result (list Z) :=
  match lines with
  | b0 :: b1 :: b2 :: b3 :: rest =>
      let! w := py_int2 (b0 ++ b1 ++ b2 ++ b3)%string in
      let! ws := group_words rest in
      Ok (w :: ws)
  | _ => Ok []
  end.

Definition load_words (file : list string) : result (list Z) :=
  group_words (filter (fun l => l <> "") (map strip file)).

(** The enumeration of [read_mem]: a blank line keeps its place, a line past the
    end of the buffer raises, and so does a value that is not a byte. *)
Fixpoint read_lines (i : Z) (file : list string) (buf : list Z) : result (list Z) :=
  match file with
  | [] => Ok buf
  | line :: rest =>
      let line := strip line in
      if (line =? "")%string then read_lines (i + 1) rest buf
      else
        let! b := py_int2 line in
        if negb (i <? Z.of_nat (List.length buf)) then Err IndexError
        else if negb ((0 <=? b) && (b <? 256)) then Err ValueError
        else read_lines (i + 1) rest (zset buf i b)
  end.

Definition read_mem (file : list string) (size : Z) : result (list Z) :=
  read_lines 0 file (replicate (Z.to_nat size) 0).

(** [swap_instruction_words] of [elf2mem.py], under its assertion. *)
Fixpoint swap_groups (data : list Z) : list Z :=
  match data with
  | a :: b :: c :: d :: rest => d :: c :: b :: a :: swap_groups rest
  | _ => data
  end.
Definition swap_instruction_words (data : list Z) : result (list Z) :=
  if (Z.of_nat (List.length data) mod 4 =? 0) then Ok (swap_groups data) else Err AssertionError.

(** ** One byte *)

Definition bit_char (b : bool) : ascii := if b then "1"%char else "0"%char.

(** The digits and the value of a byte, bit by bit. *)
Definition bits_text (b : Z) (s : string) : string :=
  let bit i := bit_char (Z.testbit b i) in
  String (bit 7) (String (bit 6) (String (bit 5) (String (bit 4)
    (String (bit 3) (String (bit 2) (String (bit 1) (String (bit 0) s))))))).
Definition bits_value (b : Z) : Z :=
  let bit i := Z.b2z (Z.testbit b i) in
  128 * bit 7 + 64 * bit 6 + 32 * bit 5 + 16 * bit 4 + 8 * bit 3 + 4 * bit 2 + 2 * bit 1 + bit 0.

Lemma bin8_bits b : is_byte b -> bin8 b = bits_text b "".
Proof.
  intros Hb. apply String.eqb_eq.
  apply (by_cases 256 (fun b => (bin8 b =? bits_text b "")%string)); [vm_compute; reflexivity | exact Hb].
Qed.

Lemma byte_bits b : is_byte b -> bits_value b = b.
Proof.
  intros Hb. apply Z.eqb_eq.
  apply (by_cases 256 (fun b => bits_value b =? b)); [vm_compute; reflexivity | exact Hb].
Qed.

Lemma digits2_bit acc us t s :
  digits 2 acc us (String (bit_char t) s) = digits 2 (acc * 2 + Z.b2z t) false s.
Proof. by destruct t. Qed.

(** Eight digits shift the accumulator by a byte. *)
Lemma digits2_byte acc us b s :
  is_byte b -> digits 2 acc us (bin8 b ++ s) = digits 2 (acc * 256 + b) false s.
Proof.
  intros Hb. rewrite bin8_bits by done. unfold bits_text. cbn [String.append]. rewrite !digits2_bit.
  f_equal. pose proof (byte_bits b Hb) as V. unfold bits_value in V. lia.
Qed.

Lemma tok_bit t : tok_char (bit_char t) = true.
Proof. by destruct t. Qed.

Lemma bin8_clean b : is_byte b -> clean (bin8 b).
Proof.
  intros Hb. rewrite bin8_bits by done. unfold bits_text. split; [done|].
  cbn [all_chars]. by rewrite !tok_bit.
Qed.

(** Text that starts with a byte has neither a sign nor a base prefix. *)
Lemma signed_magnitude2_byte b s :
  is_byte b -> signed_magnitude2 (bin8 b ++ s) = digits 2 0 true (bin8 b ++ s).
Proof.
  intros Hb. rewrite bin8_bits by done. unfold bits_text. cbn [String.append].
  by destruct (Z.testbit b 7), (Z.testbit b 6).
Qed.

Lemma py_int2_byte b : is_byte b -> py_int2 (bin8 b) = Ok b.
Proof.
  intros Hb. unfold py_int2. rewrite strip_clean by by apply bin8_clean.
  pose proof (signed_magnitude2_byte b "" Hb) as M. pose proof (digits2_byte 0 true b "" Hb) as D.
  rewrite append_nil in M, D. rewrite M, D. done.
Qed.

Lemma clean_app a b : clean a -> clean b -> clean (a ++ b)%string.
Proof.
  intros [Na Ca] [Nb Cb]. split; [by destruct a|]. by rewrite all_chars_app, Ca, Cb.
Qed.

(** Four lines, most significant byte first. *)
Lemma py_int2_word a b c d :
  is_byte a -> is_byte b -> is_byte c -> is_byte d ->
  py_int2 (bin8 a ++ bin8 b ++ bin8 c ++ bin8 d)%string = Ok (a * 2 ^ 24 + b * 2 ^ 16 + c * 2 ^ 8 + d).
Proof.
  intros Ha Hb Hc Hd. unfold py_int2.
  rewrite strip_clean by (do 3 (apply clean_app; [by apply bin8_clean|]); by apply bin8_clean).
  rewrite signed_magnitude2_byte, !digits2_byte by done.
  rewrite <- (append_nil (bin8 d)), digits2_byte by done. cbn [digits]. f_equal. lia.
Qed.

(** ** Whole files *)

Lemma filter_lines data :
  Forall is_byte data -> filter (fun l => l <> "") (map strip (mem_lines data)) = mem_lines data.
Proof.
  induction 1 as [|b data Hb _ IH]; [done|]. simpl. rewrite strip_clean by by apply bin8_clean.
  rewrite filter_cons_True by by apply bin8_clean. by rewrite IH.
Qed.

(** Reading the bytes of a file four at a time, most significant first. *)
Fixpoint be_words (data : list Z) : list Z :=
  match data with
  | a :: b :: c :: d :: rest => a * 2 ^ 24 + b * 2 ^ 16 + c * 2 ^ 8 + d :: be_words rest
  | _ => []
  end.

Lemma load_words_be data : Forall is_byte data -> load_words (mem_lines data) = Ok (be_words data).
Proof.
  intros H. unfold load_words. rewrite filter_lines by done.
  induction data as [data IH] using (induction_ltof1 _ (@List.length Z)). unfold ltof in IH.
  destruct data as [|a [|b [|c [|d rest]]]]; try done.
  rewrite !Forall_cons in H. destruct H as (Ha & Hb & Hc & Hd & H).
  cbn [mem_lines map group_words be_words]. rewrite py_int2_word by done. cbn [rbind].
  change (map bin8 rest) with (mem_lines rest). rewrite IH by (simpl; lia || done). done.
Qed.

Lemma read_lines_spec data : forall i buf,
  Forall is_byte data -> 0 <= i ->
  read_lines i (mem_lines data) buf =
  if i + Z.of_nat (List.length data) <=? Z.of_nat (List.length buf)
  then Ok (take (Z.to_nat i) buf ++ data ++ drop (Z.to_nat i + List.length data) buf)%list
  else if (0 <? Z.of_nat (List.length data)) then Err IndexError else Ok buf.
Proof.
  induction data as [|b data IH]; intros i buf H Hi.
  { cbn [mem_lines map read_lines List.length]. rewrite Z.add_0_r, Nat.add_0_r. cbn [app].
    rewrite take_drop. by case_match. }
  apply Forall_cons in H as [Hb H]. cbn [mem_lines map read_lines List.length].
  rewrite strip_clean by by apply bin8_clean.
  destruct (bin8 b =? "")%string eqn:N; [apply String.eqb_eq in N; by destruct (bin8_clean b Hb)|].
  rewrite py_int2_byte by done. cbn [rbind]. unfold is_byte in Hb.
  change (map bin8 data) with (mem_lines data).
  destruct (Z.ltb_spec i (Z.of_nat (List.length buf))); cbn [negb].
  2:{ destruct (Z.leb_spec (i + Z.of_nat (S (List.length data))) (Z.of_nat (List.length buf))); [lia|].
      destruct (Z.ltb_spec 0 (Z.of_nat (S (List.length data)))); [done | lia]. }
  destruct (Z.leb_spec 0 b); [|lia]. destruct (Z.ltb_spec b 256); [|lia]. cbn [andb negb].
  rewrite IH, length_zset by (done || lia).
  replace (i + 1 + Z.of_nat (List.length data)) with (i + Z.of_nat (S (List.length data))) by lia.
  replace (Z.to_nat (i + 1)) with (S (Z.to_nat i)) by lia.
  destruct (Z.leb_spec (i + Z.of_nat (S (List.length data))) (Z.of_nat (List.length buf))).
  - f_equal. unfold zset. rewrite (take_S_r _ _ b) by (apply list_lookup_insert_eq; lia).
    rewrite take_insert_ge, drop_insert_lt by lia. by rewrite <- app_assoc, Nat.add_succ_r.
  - destruct (Z.ltb_spec 0 (Z.of_nat (S (List.length data)))); [|lia].
    destruct (Z.ltb_spec 0 (Z.of_nat (List.length data))); [done | lia].
Qed.

(** A whole file, which may be shorter than the buffer. *)
Lemma read_mem_lines data size :
  Forall is_byte data -> 0 <= size ->
  read_mem (mem_lines data) size =
  if Z.of_nat (List.length data) <=? size
  then Ok (data ++ replicate (Z.to_nat size - List.length data) 0)%list
  else Err IndexError.
Proof.
  intros H Hs. unfold read_mem. rewrite read_lines_spec by (done || lia).
  rewrite length_replicate, Z2Nat.id by done. simpl Z.to_nat. rewrite Z.add_0_l, drop_replicate. simpl.
  destruct (Z.leb_spec (Z.of_nat (List.length data)) size); [done|].
  destruct (Z.ltb_spec 0 (Z.of_nat (List.length data))); [done | lia].
Qed.

Lemma read_mem_same data size :
  Forall is_byte data -> Z.of_nat (List.length data) = size -> read_mem (mem_lines data) size = Ok data.
Proof.
  intros H L. rewrite read_mem_lines by (done || lia). rewrite L, Z.leb_refl.
  replace (Z.to_nat size - List.length data)%nat with O by lia. by rewrite app_nil_r.
Qed.

(** C30: the [.mem] format loses nothing: reading with [read_mem] the file
    written for a list of bytes gives those bytes, padded with zeros to the size
    of the buffer, and a file longer than the buffer raises [IndexError]. *)
Theorem mem_file_roundtrip data size :
  Forall is_byte data -> 0 <= size ->
  read_mem (mem_lines data) size =
  if Z.of_nat (List.length data) <=? size
  then Ok (data ++ replicate (Z.to_nat size - List.length data) 0)%list
  else Err IndexError.
Proof. apply read_mem_lines. Qed.

Lemma mem_file_roundtrip_witness :
  Forall is_byte [0x93; 0x00; 0x30; 0xFF] /\
  read_mem (mem_lines [0x93; 0x00; 0x30; 0xFF]) 6 = Ok [0x93; 0x00; 0x30; 0xFF; 0; 0].
Proof.
  assert (Forall is_byte [0x93; 0x00; 0x30; 0xFF]) as H by (repeat constructor; unfold is_byte; lia).
  split; [exact H|]. apply (mem_file_roundtrip [0x93; 0x00; 0x30; 0xFF] 6 H). lia.
Defined.

(** ** The byte order of [load_words] *)

(** A word with its four bytes in the opposite order. *)
Definition bswap32 (w : Z) : Z :=
  ((w .& 0xFF) ≪ 24) .| (((w ≫ 8) .& 0xFF) ≪ 16) .| (((w ≫ 16) .& 0xFF) ≪ 8) .| ((w ≫ 24) .& 0xFF).

(** The same loop, least significant byte first. *)
Fixpoint le_words (data : list Z) : list Z :=
  match data with
  | a :: b :: c :: d :: rest => a + b * 2 ^ 8 + c * 2 ^ 16 + d * 2 ^ 24 :: le_words rest
  | _ => []
  end.

(** Induction by groups of four. *)
Lemma four_ind (P : list Z -> Prop) :
  (forall l, (List.length l < 4)%nat -> P l) ->
  (forall a b c d l, P l -> P (a :: b :: c :: d :: l)) -> forall l, P l.
Proof.
  intros H0 H4 l. induction l as [l IH] using (induction_ltof1 _ (@List.length Z)). unfold ltof in IH.
  destruct l as [|a [|b [|c [|d l]]]]; try (apply H0; simpl; lia). apply H4, IH. simpl. lia.
Qed.

Lemma be_of_swapped data : be_words (swap_groups data) = le_words data.
Proof.
  induction data as [l Hl|a b c d l IH] using four_ind.
  - by destruct l as [|? [|? [|? [|? l]]]]; try done; simpl in Hl; lia.
  - cbn [swap_groups be_words le_words]. rewrite IH. f_equal. lia.
Qed.

Lemma zget_skip4 a b c d l k : 4 <= k -> zget (a :: b :: c :: d :: l) k = zget l (k - 4).
Proof. intros. rewrite !zget_cons by lia. f_equal. lia. Qed.

Lemma le_words_lookup data : forall k,
  Forall is_byte data -> 4 * Z.of_nat k + 4 <= Z.of_nat (List.length data) ->
  le_words data !! k = Some (word_at data k) /\ be_words data !! k = Some (bswap32 (word_at data k)).
Proof.
  induction data as [l Hl|a b c d l IH] using four_ind; intros k H Hk; [lia|].
  rewrite !Forall_cons in H. destruct H as (Ha & Hb & Hc & Hd & H). unfold is_byte in *.
  cbn [le_words be_words]. destruct k as [|k].
  - cbn [lookup list_lookup]. unfold word_at. change (4 * Z.of_nat 0) with 0.
    change (zget _ 0) with a. change (zget _ (0 + 1)) with b. change (zget _ (0 + 2)) with c.
    change (zget _ (0 + 3)) with d. unfold bswap32. split; f_equal.
    + fields.
    + assert (a .| b ≪ 8 .| c ≪ 16 .| d ≪ 24 = a + b * 2 ^ 8 + c * 2 ^ 16 + d * 2 ^ 24) as -> by fields.
      set (w := a + _ + _ + _).
      assert (w .& 0xFF = a) as -> by (unfold w; fields).
      assert ((w ≫ 8) .& 0xFF = b) as -> by (unfold w; fields).
      assert ((w ≫ 16) .& 0xFF = c) as -> by (unfold w; fields).
      assert ((w ≫ 24) .& 0xFF = d) as -> by (unfold w; fields). fields.
  - cbn [lookup list_lookup]. simpl List.length in Hk.
    assert (word_at (a :: b :: c :: d :: l) (S k) = word_at l k) as ->.
    { unfold word_at. replace (4 * Z.of_nat (S k)) with (4 * Z.of_nat k + 4) by lia.
      rewrite !zget_skip4 by lia. do 3 f_equal; repeat (f_equal; try lia). }
    apply IH; [done | lia].
Qed.

Lemma write_mem_ok words size data :
  0 <= size -> write_mem words size = Ok data ->
  Forall is_byte data /\ Z.of_nat (List.length data) = size /\ 4 * Z.of_nat (List.length words) <= size.
Proof.
  intros Hs E. unfold write_mem in E.
  pose proof (write_words_spec size words 0 (replicate (Z.to_nat size) 0) ltac:(lia)
    ltac:(rewrite length_replicate; lia) ltac:(lia)) as W.
  destruct (Z.leb_spec ((0 + Z.of_nat (List.length words)) * 4) size); [|congruence].
  destruct W as (out & E' & L & B). rewrite E in E'. injection E' as <-. split_and!; [|done|lia].
  apply Forall_lookup. intros i b Hi. specialize (B (Z.of_nat i) ltac:(lia)).
  rewrite zget_replicate in B. unfold zget in B. rewrite Nat2Z.id, Hi in B. simpl in B. subst b.
  case_match; [by apply (land_range _ 8) | done].
Qed.

Lemma swap_bytes data :
  Forall is_byte data ->
  Forall is_byte (swap_groups data) /\ List.length (swap_groups data) = List.length data.
Proof.
  induction data as [l Hl|a b c d l IH] using four_ind; intros H.
  - by destruct l as [|? [|? [|? [|? l]]]]; try done; simpl in Hl; lia.
  - rewrite !Forall_cons in H. destruct H as (Ha & Hb & Hc & Hd & H). destruct (IH H) as [B L].
    cbn [swap_groups List.length]. rewrite L, !Forall_cons. by split_and!.
Qed.

(** [load_words], which the random tests, the benchmarks and the debugger
    use to feed the simulator, reads the file [write_mem] wrote with every word's
    bytes reversed, since it takes the first line of a group as the most
    significant byte.  It reads the program back exactly from the byte order
    [swap_instruction_words] produces. *)
Theorem load_words_byte_order lines xl words size data :
  assemble lines xl = Ok words -> 0 <= size -> size mod 4 = 0 -> write_mem words size = Ok data ->
  exists ws swapped ws',
    load_words (mem_lines data) = Ok ws /\
    (forall k w, words !! k = Some w -> ws !! k = Some (bswap32 w)) /\
    swap_instruction_words data = Ok swapped /\ load_words (mem_lines swapped) = Ok ws' /\
    (forall k w, words !! k = Some w -> ws' !! k = Some w).
Proof.
  intros HA Hs Hm E. destruct (write_mem_ok _ _ _ Hs E) as (B & L & F).
  destruct (swap_bytes data B) as [B' _].
  pose proof (assembled_word_at lines xl words size data HA Hs E) as W.
  exists (be_words data), (swap_groups data), (le_words data).
  rewrite load_words_be by done. split_and!; [done | | | |].
  - intros k w Hk. pose proof (lookup_lt_Some _ _ _ Hk). rewrite <- (W k w Hk).
    apply le_words_lookup; [done | lia].
  - unfold swap_instruction_words. by rewrite L, Hm.
  - by rewrite load_words_be, be_of_swapped.
  - intros k w Hk. pose proof (lookup_lt_Some _ _ _ Hk). rewrite <- (W k w Hk) at 1.
    apply le_words_lookup; [done | lia].
Qed.

(** [addi x1,x0,3] is read as [0x93003000]. *)
Lemma load_words_byte_order_witness :
  exists ws swapped ws',
    load_words (mem_lines [0x93; 0x00; 0x30; 0x00]) = Ok ws /\
    (forall k w, [0x00300093] !! k = Some w -> ws !! k = Some (bswap32 w)) /\
    swap_instruction_words [0x93; 0x00; 0x30; 0x00] = Ok swapped /\
    load_words (mem_lines swapped) = Ok ws' /\
    (forall k w, [0x00300093] !! k = Some w -> ws' !! k = Some w).
Proof.
  apply (load_words_byte_order ["addi x1,x0,3"] 32 [0x00300093] 4 [0x93; 0x00; 0x30; 0x00]);
    (reflexivity || lia).
Defined.
