(* ===== verification/Fdt.v ===== *)
(** * The device-tree writer and its checker

    [src/sim/tools/gen_dtb.py]: class [FdtBuilder], [build_this_core_dtb] and
    [parse_and_validate].  [bytes] and [bytearray] are lists of integers; a method
    of the builder is a function from builder to builder. *)

From Stdlib Require Import Ascii String.
From S2P Require Import Prelude Bits PyStr.
Open Scope string_scope.
Open Scope Z_scope.

Definition FDT_MAGIC := 0xd00dfeed.
Definition FDT_VERSION := 17.
Definition FDT_LAST_COMP_VERSION := 16.
Definition FDT_BEGIN_NODE := 0x1.
Definition FDT_END_NODE := 0x2.
Definition FDT_PROP := 0x3.
Definition FDT_END := 0x9.

(** ** The [struct] module and [bytes] *)

Definition blen (data : list Z) : Z := Z.of_nat (List.length data).

(** The big-endian bytes of [struct.pack(">I", v)] and [struct.pack(">Q", v)],
    which raise when [v] does not fit. *)
Definition be32 (v : Z) : list Z :=
  [(v ≫ 24) .& 0xFF; (v ≫ 16) .& 0xFF; (v ≫ 8) .& 0xFF; v .& 0xFF].
Definition pack_I (v : Z) : result (list Z) :=
  if (0 <=? v) && (v <? 2 ^ 32) then Ok (be32 v) else Err StructError.
Definition pack_Q (v : Z) : result (list Z) :=
  if (0 <=? v) && (v <? 2 ^ 64) then Ok (be32 (v ≫ 32) ++ be32 (v .& 0xFFFFFFFF))%list else Err StructError.

(** [struct.pack(">II...", *vs)] *)
Fixpoint pack_Is (vs : list Z) : result (list Z) :=
  match vs with
  | [] => Ok []
  | v :: vs => let! b := pack_I v in let! bs := pack_Is vs in Ok (b ++ bs)%list
  end.

(** [struct.unpack(">I", data)] and [struct.unpack(">Q", data)], which raise
    unless [data] has exactly the size of the format. *)
Definition word_be (a b c d : Z) : Z := (a ≪ 24) .| (b ≪ 16) .| (c ≪ 8) .| d.
Definition unpack_I (data : list Z) : result Z :=
  match data with [a; b; c; d] => Ok (word_be a b c d) | _ => Err StructError end.
Definition unpack_Q (data : list Z) : result Z :=
  match data with
  | [a; b; c; d; e; f; g; h] => Ok ((word_be a b c d ≪ 32) .| word_be e f g h)
  | _ => Err StructError
  end.

(** [data[i:j]], which clamps to the length. *)
Definition slice (data : list Z) (i j : Z) : list Z :=
  take (Z.to_nat (j - i)) (drop (Z.to_nat i) data).

(** [struct.unpack(">nI", data)] *)
Fixpoint unpack_Is (n : nat) (data : list Z) : result (list Z) :=
  match n with
  | O => match data with [] => Ok [] | _ => Err StructError end
  | S n =>
      let! v := unpack_I (take 4 data) in
      let! vs := unpack_Is n (drop 4 data) in
      Ok (v :: vs)
  end.

(** [data.index(b"\x00", i)], from the bytes at [i] on. *)
Fixpoint index0 (i : Z) (rest : list Z) : result Z :=
  match rest with
  | [] => Err ValueError
  | b :: rest => if b =? 0 then Ok i else index0 (i + 1) rest
  end.

(** [name.encode("ascii")] *)
Definition bytes_of (s : string) : list Z := map code (list_ascii_of_string s).
Definition encode_ascii (s : string) : result (list Z) :=
  if forallb (fun b => b <? 128) (bytes_of s) then Ok (bytes_of s) else Err ValueError.

Definition align4 (data : list Z) : list Z :=
  (data ++ replicate (Z.to_nat ((- blen data) mod 4)) 0)%list.

(** ** [FdtBuilder] *)

Record FdtBuilder : Type := mkFdt {
  fstruct : list Z;
  fstrings : list Z;
  string_offsets : gmap string Z
}.

Definition new_builder : FdtBuilder := mkFdt [] [] ∅.

Definition add_struct (data : list Z) (b : FdtBuilder) : FdtBuilder :=
  mkFdt (fstruct b ++ data)%list (fstrings b) (string_offsets b).

Definition string_off (name : string) (b : FdtBuilder) : result (Z * FdtBuilder) :=
  match string_offsets b !! name with
  | Some off => Ok (off, b)
  | None =>
      let off := blen (fstrings b) in
      let! enc := encode_ascii name in
      Ok (off, mkFdt (fstruct b) (fstrings b ++ enc ++ [0])%list (<[name := off]> (string_offsets b)))
  end.

Definition begin_node (name : string) (b : FdtBuilder) : result FdtBuilder :=
  let! tok := pack_I FDT_BEGIN_NODE in
  let! enc := encode_ascii name in
  Ok (add_struct (align4 (enc ++ [0])%list) (add_struct tok b)).

Definition end_node (b : FdtBuilder) : result FdtBuilder :=
  let! tok := pack_I FDT_END_NODE in Ok (add_struct tok b).

Definition prop_raw (name : string) (value : list Z) (b : FdtBuilder) : result FdtBuilder :=
  let! (off, b) := string_off name b in
  let! tok := pack_I FDT_PROP in
  let! hdr := pack_Is [blen value; off] in
  Ok (add_struct (align4 value) (add_struct hdr (add_struct tok b))).

Definition prop_empty (name : string) (b : FdtBuilder) : result FdtBuilder := prop_raw name [] b.

Definition prop_u32 (name : string) (val : Z) (b : FdtBuilder) : result FdtBuilder :=
  let! v := pack_I (val .& 0xFFFFFFFF) in prop_raw name v b.

Definition prop_u64 (name : string) (val : Z) (b : FdtBuilder) : result FdtBuilder :=
  let! v := pack_Q (val .& 0xFFFFFFFFFFFFFFFF) in prop_raw name v b.

Definition prop_cells (name : string) (cells : list Z) (b : FdtBuilder) : result FdtBuilder :=
  let! v := pack_Is (map (fun c => c .& 0xFFFFFFFF) cells) in prop_raw name v b.

Definition prop_str (name val : string) (b : FdtBuilder) : result FdtBuilder :=
  let! v := encode_ascii val in prop_raw name (v ++ [0])%list b.

(** [b"".join(v.encode("ascii") + b"\x00" for v in vals)] *)
Fixpoint encode_list (vals : list string) : result (list Z) :=
  match vals with
  | [] => Ok []
  | v :: vals => let! e := encode_ascii v in let! es := encode_list vals in Ok (e ++ [0] ++ es)%list
  end.

Definition prop_strlist (name : string) (vals : list string) (b : FdtBuilder) : result FdtBuilder :=
  let! v := encode_list vals in prop_raw name v b.

Definition build (b : FdtBuilder) : result (list Z) :=
  let! fin := pack_I FDT_END in
  let b := add_struct fin b in
  let! r0 := pack_Q 0 in
  let! r1 := pack_Q 0 in
  let rsvmap := (r0 ++ r1)%list in
  let off_mem_rsvmap := 40 in
  let off_dt_struct := off_mem_rsvmap + blen rsvmap in
  let off_dt_strings := off_dt_struct + blen (fstruct b) in
  let totalsize := off_dt_strings + blen (fstrings b) in
  let! header := pack_Is [FDT_MAGIC; totalsize; off_dt_struct; off_dt_strings; off_mem_rsvmap;
                          FDT_VERSION; FDT_LAST_COMP_VERSION; 0;
                          blen (fstrings b); blen (fstruct b)] in
  Ok (header ++ rsvmap ++ fstruct b ++ fstrings b)%list.

(** ** [build_this_core_dtb] *)

(** [m >>> f]: the next call on the builder. *)
Notation "m >>> f" := (rbind m f) (at level 50, left associativity) : py_scope.

Definition cpus_node (timebase_freq : Z) (fdt : FdtBuilder) : result FdtBuilder :=
  begin_node "cpus" fdt
  >>> prop_u32 "#address-cells" 1
  >>> prop_u32 "#size-cells" 0
  >>> prop_u32 "timebase-frequency" timebase_freq
  >>> begin_node "cpu@0"
  >>> prop_u32 "phandle" 1
  >>> prop_str "device_type" "cpu"
  >>> prop_u32 "reg" 0
  >>> prop_str "status" "okay"
  >>> prop_str "compatible" "riscv"
  >>> prop_str "riscv,isa" "rv64imafd"
  >>> prop_str "mmu-type" "riscv,sv39"
  >>> begin_node "interrupt-controller"
  >>> prop_u32 "#interrupt-cells" 1
  >>> prop_empty "interrupt-controller"
  >>> prop_str "compatible" "riscv,cpu-intc"
  >>> prop_u32 "phandle" 2
  >>> end_node >>> end_node >>> end_node.

Definition memory_node (mem_size_bytes : Z) (fdt : FdtBuilder) : result FdtBuilder :=
  begin_node "memory@0" fdt
  >>> prop_str "device_type" "memory"
  >>> prop_cells "reg" [0; 0; 0; mem_size_bytes]
  >>> end_node.

Definition soc_node (uart_clock_freq : Z) (fdt : FdtBuilder) : result FdtBuilder :=
  begin_node "soc" fdt
  >>> prop_u32 "#address-cells" 2
  >>> prop_u32 "#size-cells" 2
  >>> prop_str "compatible" "simple-bus"
  >>> prop_empty "ranges"
  >>> begin_node "uart@10000000"
  >>> prop_str "compatible" "ns16550a"
  >>> prop_cells "reg" [0; 0x10000000; 0; 0x20]
  >>> prop_u32 "clock-frequency" uart_clock_freq
  >>> prop_u32 "reg-shift" 2
  >>> prop_u32 "reg-io-width" 4
  >>> end_node
  >>> begin_node "clint@10100000"
  >>> prop_str "compatible" "riscv,clint0"
  >>> prop_cells "reg" [0; 0x10100000; 0; 0x10000]
  >>> prop_cells "interrupts-extended" [2; 3; 2; 7]
  >>> end_node
  >>> end_node.

Definition chosen_node (bootargs : string) (initrd_start initrd_end : option Z) (fdt : FdtBuilder)
  : result FdtBuilder :=
  begin_node "chosen" fdt
  >>> prop_str "bootargs" bootargs
  >>> prop_str "stdout-path" "/soc/uart@10000000"
  >>> (fun fdt =>
         match initrd_start, initrd_end with
         | Some s, Some e =>
             prop_cells "linux,initrd-start" [s ≫ 32; s .& 0xFFFFFFFF] fdt
             >>> prop_cells "linux,initrd-end" [e ≫ 32; e .& 0xFFFFFFFF]
         | _, _ => Ok fdt
         end)
  >>> end_node.

Definition build_this_core_dtb (mem_size_bytes timebase_freq uart_clock_freq : Z) (bootargs : string)
    (initrd_start initrd_end : option Z) : result (list Z) :=
  begin_node "" new_builder
  >>> prop_u32 "#address-cells" 2
  >>> prop_u32 "#size-cells" 2
  >>> prop_str "compatible" "5-stage-pipelined-processor"
  >>> prop_str "model" "5-stage-pipelined-processor,rv64"
  >>> cpus_node timebase_freq
  >>> memory_node mem_size_bytes
  >>> soc_node uart_clock_freq
  >>> chosen_node bootargs initrd_start initrd_end
  >>> end_node
  >>> build.

(** ** [parse_and_validate] *)

Definition passert (b : bool) : result unit := if b then Ok tt else Err AssertionError.

Record walk : Type := mkWalk {
  w_i : Z; w_depth : Z; w_max_depth : Z; w_prop_count : Z; w_saw_end : bool
}.

(** [(n + 3) & ~3] *)
Definition round4 (n : Z) : Z := (n + 3) .& Z.lnot 3.

(** One iteration of the [while] loop, after its guard. *)
Definition walk_token (struct_bytes strings_bytes : list Z) (w : walk) : result walk :=
  let i := w_i w in
  let! tok := unpack_I (slice struct_bytes i (i + 4)) in
  let i := i + 4 in
  if tok =? FDT_BEGIN_NODE then
    let depth := w_depth w + 1 in
    let max_depth := Z.max (w_max_depth w) depth in
    let! fin := index0 i (drop (Z.to_nat i) struct_bytes) in
    let name_len := fin - i + 1 in
    Ok (mkWalk (i + round4 name_len) depth max_depth (w_prop_count w) (w_saw_end w))
  else if tok =? FDT_END_NODE then
    let depth := w_depth w - 1 in
    let! _ := passert (0 <=? depth) in
    Ok (mkWalk i depth (w_max_depth w) (w_prop_count w) (w_saw_end w))
  else if tok =? FDT_PROP then
    let prop_count := w_prop_count w + 1 in
    let! plen := unpack_I (slice (slice struct_bytes i (i + 8)) 0 4) in
    let! nameoff := unpack_I (slice (slice struct_bytes i (i + 8)) 4 8) in
    let i := i + 8 in
    let! _ := passert (nameoff <? blen strings_bytes) in
    Ok (mkWalk (i + round4 plen) (w_depth w) (w_max_depth w) prop_count (w_saw_end w))
  else if tok =? FDT_END then
    Ok (mkWalk i (w_depth w) (w_max_depth w) (w_prop_count w) true)
  else Err AssertionError.

(** The loop; [break] is the exit with [w_saw_end] set.  [None] is out of fuel. *)
Fixpoint walk_loop (fuel : nat) (struct_bytes strings_bytes : list Z) (w : walk) : option (result walk) :=
  if negb (w_i w <? blen struct_bytes) then Some (Ok w)
  else
    match fuel with
    | O => None
    | S n =>
        match walk_token struct_bytes strings_bytes w with
        | Err e => Some (Err e)
        | Ok w' =>
            if w_saw_end w' then Some (Ok w') else walk_loop n struct_bytes strings_bytes w'
        end
    end.

Record info : Type := mkInfo { max_depth : Z; prop_count : Z; total_size : Z }.

(** Every iteration moves at least four bytes on, so one round per byte is
    enough fuel. *)
Definition parse_and_validate (blob : list Z) : result info :=
  let! hdr := unpack_Is 10 (slice blob 0 40) in
  match hdr with
  | [magic; totalsize; off_struct; off_strings; off_rsvmap; version; last_comp; boot_cpuid;
     size_strings; size_struct] =>
      let! _ := passert (magic =? FDT_MAGIC) in
      let! _ := passert (totalsize =? blen blob) in
      let! _ := passert (off_rsvmap =? 40) in
      let! _ := passert (off_struct =? off_rsvmap + 16) in
      let! _ := passert (off_strings =? off_struct + size_struct) in
      let! _ := passert (off_strings + size_strings =? totalsize) in
      let! rsvmap_addr := unpack_Q (slice (slice blob off_rsvmap (off_rsvmap + 16)) 0 8) in
      let! rsvmap_size := unpack_Q (slice (slice blob off_rsvmap (off_rsvmap + 16)) 8 16) in
      let! _ := passert ((rsvmap_addr =? 0) && (rsvmap_size =? 0)) in
      let struct_bytes := slice blob off_struct (off_struct + size_struct) in
      let strings_bytes := slice blob off_strings (off_strings + size_strings) in
      match walk_loop (List.length struct_bytes) struct_bytes strings_bytes (mkWalk 0 0 0 0 false) with
      | None => Err RuntimeError
      | Some r =>
          let! w := r in
          let! _ := passert (w_depth w =? 0) in
          let! _ := passert (w_saw_end w) in
          let! _ := passert (2 <=? w_max_depth w) in
          let! _ := passert (0 <? w_prop_count w) in
          Ok (mkInfo (w_max_depth w) (w_prop_count w) totalsize)
      end
  | _ => Err StructError
  end.
