(* ===== verification/FdtRead.v ===== *)
(** * Reading a device tree back

    A flattened tree as a sequence of events, an independent reader of the binary
    format, and the proofs that what [FdtBuilder] writes is read back, and that
    [parse_and_validate] accepts exactly the well-nested trees it is meant to. *)

From Stdlib Require Import Ascii String.
From S2P Require Import Prelude Bits PyStr Fdt.
Open Scope string_scope.
Open Scope Z_scope.

(** ** Events *)

(** What a caller of the builder asks for: every [prop_*] method is a property
    with the bytes of its value. *)
Inductive event : Type :=
| Begin (name : string)
| Prop_ (name : string) (value : list Z)
| End_.

Definition run_event (e : event) (b : FdtBuilder) : result FdtBuilder :=
  match e with
  | Begin name => begin_node name b
  | Prop_ name value => prop_raw name value b
  | End_ => end_node b
  end.

Fixpoint run_events (es : list event) (b : FdtBuilder) : result FdtBuilder :=
  match es with
  | [] => Ok b
  | e :: es => let! b := run_event e b in run_events es b
  end.

(** ** A reader of the format *)

(** The bytes up to the first zero, and what follows it. *)
Fixpoint cut0 (rest : list Z) : option (list Z * list Z) :=
  match rest with
  | [] => None
  | b :: rest =>
      if b =? 0 then Some ([], rest)
      else match cut0 rest with Some (s, r) => Some (b :: s, r) | None => None end
  end.

Definition string_of_bytes (bs : list Z) : string := string_of_list_ascii (map chr bs).

Definition be_value (bs : list Z) : Z := foldl (fun acc b => acc * 256 + b) 0 bs.

(** Property names are zero-terminated strings of the strings block. *)
Definition name_at (strings : list Z) (off : Z) : option string :=
  match cut0 (drop (Z.to_nat off) strings) with
  | Some (s, _) => Some (string_of_bytes s)
  | None => None
  end.

(** Bytes of padding after [n] bytes. *)
Definition padding (n : nat) : nat := Z.to_nat ((- Z.of_nat n) mod 4).

Fixpoint read_events (fuel : nat) (strings rest : list Z) : option (list event) :=
  match fuel with
  | O => None
  | S n =>
      let tok := be_value (take 4 rest) in
      let rest := drop 4 rest in
      if tok =? 9 then Some []
      else if tok =? 1 then
        match cut0 rest with
        | Some (s, r) =>
            cons (Begin (string_of_bytes s)) <$>
              read_events n strings (drop (padding (S (List.length s))) r)
        | None => None
        end
      else if tok =? 2 then cons End_ <$> read_events n strings rest
      else if tok =? 3 then
        let len := Z.to_nat (be_value (take 4 rest)) in
        let body := drop 8 rest in
        match name_at strings (be_value (take 4 (drop 4 rest))) with
        | Some name =>
            cons (Prop_ name (take len body)) <$>
              read_events n strings (drop (len + padding len) body)
        | None => None
        end
      else None
  end.

(** The blocks are found through the header. *)
Definition read_tree (blob : list Z) : option (list event) :=
  let field k := be_value (take 4 (drop (4 * k) blob)) in
  if negb (field 0%nat =? 0xd00dfeed) then None
  else read_events (List.length blob) (drop (Z.to_nat (field 3%nat)) blob)
         (drop (Z.to_nat (field 2%nat)) blob).

(** ** Bytes *)

Lemma be32_value v : is_u32 v -> be_value (be32 v) = v.
Proof. unfold is_u32, be_value, be32. intros. cbn [foldl]. fields. Qed.

Lemma unpack_be32 v : is_u32 v -> unpack_I (be32 v) = Ok v.
Proof. unfold is_u32, be32, unpack_I, word_be. intros. f_equal. fields. Qed.

Lemma pack_I_ok v bs : pack_I v = Ok bs -> is_u32 v /\ bs = be32 v.
Proof.
  unfold pack_I, is_u32. destruct (_ && _) eqn:E; [|done]. intros [= <-]. py_bool. done.
Qed.

Lemma round4_pad n : 0 <= n -> round4 n = n + (- n) mod 4.
Proof.
  intros. unfold round4. rewrite <- Z.ldiff_land. change 3 with (Z.ones 2) at 2.
  rewrite Z.ldiff_ones_r by lia. fields.
Qed.

Lemma align4_length data : blen (align4 data) = round4 (blen data).
Proof.
  unfold align4, blen. rewrite length_app, length_replicate, round4_pad by lia.
  pose proof (Z.mod_pos_bound (- Z.of_nat (List.length data)) 4 ltac:(lia)). lia.
Qed.

Lemma round4_mod n : 0 <= n -> round4 n mod 4 = 0 /\ n <= round4 n.
Proof. intros. rewrite round4_pad by done. dlia. Qed.

(** *** Names *)

Definition name_ok (s : string) : Prop := all_chars (fun c => (0 <? code c) && (code c <? 128)) s = true.

Lemma chr_code c : chr (code c) = c.
Proof. unfold chr, code. by rewrite N2Z.id, ascii_N_embedding. Qed.

Lemma string_of_bytes_of s : string_of_bytes (bytes_of s) = s.
Proof.
  unfold string_of_bytes, bytes_of. rewrite map_map.
  rewrite (map_ext _ id) by (intros; apply chr_code). rewrite map_id.
  apply string_of_list_ascii_of_string.
Qed.

Lemma cut0_name s rest : name_ok s -> cut0 (bytes_of s ++ 0 :: rest) = Some (bytes_of s, rest).
Proof.
  unfold name_ok. induction s as [|c s IH]; [done|]. intros H. simpl in H. py_bool.
  change (bytes_of (String c s)) with (code c :: bytes_of s). cbn [app cut0].
  destruct (Z.eqb_spec (code c) 0); [lia|]. by rewrite IH.
Qed.

Lemma index0_name s rest i :
  name_ok s -> index0 i (bytes_of s ++ 0 :: rest) = Ok (i + blen (bytes_of s)).
Proof.
  unfold name_ok. revert i. induction s as [|c s IH]; intros i H.
  { cbn. by rewrite Z.add_0_r. }
  simpl in H. py_bool. change (bytes_of (String c s)) with (code c :: bytes_of s). cbn [app index0].
  destruct (Z.eqb_spec (code c) 0); [lia|]. rewrite IH by done. unfold blen. cbn [List.length].
  f_equal. lia.
Qed.

Lemma encode_ascii_bytes s bs : encode_ascii s = Ok bs -> bs = bytes_of s.
Proof. unfold encode_ascii. destruct (forallb _ _); [by intros [= <-] | done]. Qed.

(** ** What the builder emits *)

(** [name] is the zero-terminated string at [off] of the strings block. *)
Definition string_at (strings : list Z) (off : Z) (name : string) : Prop :=
  exists pre post, strings = (pre ++ bytes_of name ++ 0 :: post)%list /\ blen pre = off.

Inductive emits (strings : list Z) : list event -> list Z -> Prop :=
| emits_nil : emits strings [] []
| emits_begin name es bs :
    name_ok name -> emits strings es bs ->
    emits strings (Begin name :: es) (be32 1 ++ align4 (bytes_of name ++ [0]) ++ bs)
| emits_end es bs : emits strings es bs -> emits strings (End_ :: es) (be32 2 ++ bs)
| emits_prop name value off es bs :
    name_ok name -> is_u32 (blen value) -> is_u32 off -> string_at strings off name ->
    emits strings es bs ->
    emits strings (Prop_ name value :: es)
      (be32 3 ++ be32 (blen value) ++ be32 off ++ align4 value ++ bs).

Lemma string_at_app strings ext off name :
  string_at strings off name -> string_at (strings ++ ext) off name.
Proof.
  intros (pre & post & -> & E). exists pre, (post ++ ext)%list. split; [|done].
  by rewrite <- !app_assoc, <- app_comm_cons.
Qed.

Lemma emits_app strings ext es bs : emits strings es bs -> emits (strings ++ ext) es bs.
Proof. induction 1; constructor; auto using string_at_app. Qed.

(** Every cached offset is right. *)
Definition offsets_ok (b : FdtBuilder) : Prop :=
  map_Forall (fun name off => string_at (fstrings b) off name) (string_offsets b).

Lemma string_off_ok name b off b' :
  offsets_ok b -> string_off name b = Ok (off, b') ->
  offsets_ok b' /\ string_at (fstrings b') off name /\ fstruct b' = fstruct b /\
  exists ext, fstrings b' = (fstrings b ++ ext)%list.
Proof.
  unfold string_off. intros H E. destruct (string_offsets b !! name) as [o|] eqn:L.
  { injection E as <- <-. split_and!; [done | by apply H | done |]. exists []. by rewrite app_nil_r. }
  destruct (encode_ascii name) as [enc|] eqn:A; [|done]. apply encode_ascii_bytes in A. subst enc.
  injection E as <- <-. assert (string_at (fstrings b ++ bytes_of name ++ [0]) (blen (fstrings b)) name) as S.
  { by exists (fstrings b), []. }
  split_and!; [| exact S | done | by eexists].
  intros n o Hn. cbn [string_offsets fstrings] in *. apply lookup_insert_Some in Hn as [[-> <-]|[_ Hn]].
  - exact S.
  - by apply string_at_app, H.
Qed.

Definition event_ok (e : event) : Prop :=
  match e with Begin name | Prop_ name _ => name_ok name | End_ => True end.

(** One call of the builder. *)
Lemma run_event_emits e b b' :
  offsets_ok b -> event_ok e -> run_event e b = Ok b' ->
  offsets_ok b' /\ exists ext bs, fstrings b' = (fstrings b ++ ext)%list /\
    fstruct b' = (fstruct b ++ bs)%list /\
    forall strings es rest,
      (exists ext', strings = fstrings b' ++ ext')%list -> emits strings es rest ->
      emits strings (e :: es) (bs ++ rest).
Proof.
  intros H Hok E. destruct e as [name|name value|]; simpl in E, Hok.
  - unfold begin_node in E. destruct (encode_ascii name) as [enc|] eqn:A; [|done].
    apply encode_ascii_bytes in A. subst enc. injection E as <-. split; [done|].
    exists [], (be32 1 ++ align4 (bytes_of name ++ [0]))%list.
    cbn [fstruct fstrings add_struct]. rewrite app_nil_r.
    split_and!; [done | by rewrite <- app_assoc |].
    intros strings es rest _ He. rewrite <- app_assoc. by constructor.
  - unfold prop_raw in E. destruct (string_off name b) as [[off b1]|] eqn:S; [|done].
    apply string_off_ok in S as (H1 & S & St & ext & Hext); [|done]. cbn [rbind pack_Is] in E.
    destruct (pack_I (blen value)) as [l|] eqn:L; [|done]. apply pack_I_ok in L as [Lu ->].
    destruct (pack_I off) as [o|] eqn:O; [|done]. apply pack_I_ok in O as [Ou ->].
    injection E as <-. split; [done|].
    exists ext, (be32 3 ++ be32 (blen value) ++ be32 off ++ align4 value)%list.
    split_and!; [done | cbn [fstruct add_struct]; rewrite St, ?app_nil_r, <- !app_assoc; done |].
    intros strings es rest [ext' ->] He. rewrite <- !app_assoc. constructor; try done.
    by apply string_at_app.
  - injection E as <-. split; [done|]. exists [], (be32 2).
    cbn [fstruct fstrings add_struct]. rewrite app_nil_r.
    split_and!; [done..|]. intros. by constructor.
Qed.

Lemma run_events_emits es : forall b b',
  offsets_ok b -> Forall event_ok es -> run_events es b = Ok b' ->
  offsets_ok b' /\ exists ext bs, fstrings b' = (fstrings b ++ ext)%list /\
    fstruct b' = (fstruct b ++ bs)%list /\ emits (fstrings b') es bs.
Proof.
  induction es as [|e es IH]; intros b b' H Hok E.
  { injection E as <-. split; [done|]. exists [], []. rewrite !app_nil_r.
    split_and!; [done..|]. constructor. }
  apply Forall_cons in Hok as [He Hes]. simpl in E. destruct (run_event e b) as [b1|] eqn:E1; [|done].
  apply run_event_emits in E1 as (H1 & x1 & s1 & X1 & S1 & W1); [|done|done].
  cbn [rbind] in E. apply IH in E as (H2 & x2 & s2 & X2 & S2 & W2); [|done|done].
  split; [done|]. exists (x1 ++ x2)%list, (s1 ++ s2)%list. rewrite X2, X1, S2, S1, !app_assoc.
  split_and!; [done | done |]. rewrite <- X1. apply W1; [|by rewrite <- X2]. by exists x2.
Qed.

(** ** The blob *)

Definition struct_block (b : FdtBuilder) : list Z := (fstruct b ++ be32 9)%list.

Definition header (b : FdtBuilder) : list Z :=
  let size := blen (struct_block b) in
  let total := 56 + size + blen (fstrings b) in
  (be32 FDT_MAGIC ++ be32 total ++ be32 56 ++ be32 (56 + size) ++ be32 40 ++ be32 17 ++ be32 16 ++
   be32 0 ++ be32 (blen (fstrings b)) ++ be32 size)%list.

Lemma pack_Is_cons v vs bs :
  pack_Is (v :: vs) = Ok bs -> is_u32 v /\ exists bs', pack_Is vs = Ok bs' /\ bs = (be32 v ++ bs')%list.
Proof.
  simpl. destruct (pack_I v) as [x|] eqn:E; [|done]. apply pack_I_ok in E as [U ->]. cbn [rbind].
  destruct (pack_Is vs) as [bs'|]; [|done]. intros [= <-]. eauto.
Qed.

Lemma build_blob b blob :
  build b = Ok blob ->
  is_u32 (blen blob) /\ blen blob = 56 + blen (struct_block b) + blen (fstrings b) /\
  blob = (header b ++ replicate 16 0 ++ struct_block b ++ fstrings b)%list.
Proof.
  unfold build. change (pack_I FDT_END) with (Ok (be32 9)).
  change (pack_Q 0) with (Ok (replicate 8 0)). cbn [rbind].
  change (blen (replicate 8 0 ++ replicate 8 0)) with 16.
  change (fstruct (add_struct (be32 9) b)) with (struct_block b).
  change (fstrings (add_struct (be32 9) b)) with (fstrings b). cbv zeta.
  change (40 + 16) with 56. intros E.
  destruct (pack_Is _) as [h|] eqn:P; [|done]. injection E as <-.
  apply pack_Is_cons in P as (_ & h1 & P & ->). apply pack_Is_cons in P as (U & h2 & P & ->).
  do 8 (apply pack_Is_cons in P as (_ & ? & P & ->)). injection P as <-.
  assert (blen (header b ++ replicate 16 0 ++ struct_block b ++ fstrings b) =
          56 + blen (struct_block b) + blen (fstrings b)) as L.
  { unfold blen, header. rewrite !length_app, length_replicate. cbn [be32 List.length]. lia. }
  match goal with |- is_u32 (blen ?d) /\ _ =>
    assert (d = header b ++ replicate 16 0 ++ struct_block b ++ fstrings b)%list as ->
      by (unfold header; rewrite <- !app_assoc; reflexivity)
  end.
  split_and!; [by rewrite L | exact L | done].
Qed.

(** The fields of the header and the blocks. *)
Lemma blob_field k v (rest pre : list Z) :
  blen pre = 4 * Z.of_nat k -> is_u32 v -> be_value (take 4 (drop (4 * k) (pre ++ be32 v ++ rest))) = v.
Proof.
  intros L U. rewrite drop_app_length' by (unfold blen in L; lia). by apply be32_value.
Qed.

Lemma drop_block (pre rest : list Z) n : blen pre = n -> drop (Z.to_nat n) (pre ++ rest) = rest.
Proof. intros <-. apply drop_app_length'. unfold blen. lia. Qed.

(** *** The independent reader *)

Lemma read_emits strings es bs : emits strings es bs -> forall fuel tail,
  (List.length es < fuel)%nat -> read_events fuel strings (bs ++ be32 9 ++ tail) = Some es.
Proof.
  induction 1 as [|name es bs Hn _ IH|es bs _ IH|name value off es bs Hn Lu Ou S _ IH];
    intros fuel tail Hf; (destruct fuel as [|fuel]; [lia|]); simpl in Hf; rewrite <- ?app_assoc;
    cbn [read_events].
  - done.
  - change (be_value (take 4 (be32 1 ++ _))) with 1. change (drop 4 (be32 1 ++ ?r)) with r.
    cbn [Z.eqb Pos.eqb]. unfold align4. rewrite <- !app_assoc. cbn [app]. rewrite cut0_name by done.
    rewrite string_of_bytes_of. rewrite drop_app_length'.
    + rewrite IH by lia. done.
    + unfold padding, blen. rewrite length_replicate, length_app. cbn [List.length]. do 3 f_equal. lia.
  - change (be_value (take 4 (be32 2 ++ _))) with 2. change (drop 4 (be32 2 ++ ?r)) with r.
    cbn [Z.eqb Pos.eqb]. by rewrite IH by lia.
  - change (be_value (take 4 (be32 3 ++ _))) with 3. change (drop 4 (be32 3 ++ ?r)) with r.
    cbn [Z.eqb Pos.eqb].
    change (take 4 (be32 (blen value) ++ _)) with (be32 (blen value)).
    change (drop 8 (be32 (blen value) ++ be32 off ++ ?r)) with r.
    change (drop 4 (be32 (blen value) ++ ?r)) with r. change (take 4 (be32 off ++ _)) with (be32 off).
    rewrite !be32_value by done. destruct S as (pre & post & -> & Hp). unfold name_at.
    rewrite (drop_block _ _ off Hp), cut0_name, string_of_bytes_of by done. unfold align4.
    rewrite <- app_assoc. unfold blen. rewrite !Nat2Z.id, take_app_length.
    rewrite <- drop_drop, drop_app_length, drop_app_length' by by rewrite length_replicate.
    by rewrite IH by lia.
Qed.

Lemma header_length b : blen (header b) = 40.
Proof. reflexivity. Qed.

(** The blocks of a blob the builder returned. *)
Lemma blob_blocks b blob :
  build b = Ok blob ->
  drop 56 blob = (struct_block b ++ fstrings b)%list /\
  drop (Z.to_nat (56 + blen (struct_block b))) blob = fstrings b.
Proof.
  intros (_ & _ & ->)%build_blob.
  assert (drop 56 (header b ++ replicate 16 0 ++ struct_block b ++ fstrings b) =
          (struct_block b ++ fstrings b)%list) as E by reflexivity.
  split; [exact E|]. replace (Z.to_nat (56 + blen (struct_block b)))
    with (56 + List.length (struct_block b))%nat by (unfold blen; lia).
  by rewrite <- drop_drop, E, drop_app_length.
Qed.

Lemma emits_length strings es bs : emits strings es bs -> (List.length es <= List.length bs)%nat.
Proof. induction 1; rewrite ?length_app; cbn [be32 List.length]; lia. Qed.

Lemma read_built es b blob :
  Forall event_ok es -> run_events es new_builder = Ok b -> build b = Ok blob ->
  read_tree blob = Some es.
Proof.
  intros Hok R B. apply run_events_emits in R as (_ & ext & bs & _ & S & E); [| done | done].
  pose proof (blob_blocks b blob B) as [D2 D3]. apply build_blob in B as (U & L & Eq).
  assert (is_u32 (56 + blen (struct_block b))) as U3.
  { unfold is_u32, blen in *. lia. }
  unfold read_tree.
  assert (take 4 (drop (4 * 0) blob) = be32 FDT_MAGIC) as -> by by rewrite Eq.
  assert (take 4 (drop (4 * 2) blob) = be32 56) as -> by by rewrite Eq.
  assert (take 4 (drop (4 * 3) blob) = be32 (56 + blen (struct_block b))) as -> by by rewrite Eq.
  rewrite (be32_value (56 + _)) by done. change (be_value (be32 FDT_MAGIC)) with FDT_MAGIC.
  change (Z.to_nat (be_value (be32 56))) with 56%nat. rewrite D2, D3. cbn [Z.eqb Pos.eqb negb FDT_MAGIC].
  unfold struct_block. rewrite S. cbn [new_builder fstruct app]. rewrite <- app_assoc.
  apply read_emits; [done|]. apply emits_length in E. unfold blen, struct_block in L.
  rewrite S in L. cbn [new_builder fstruct app] in L. rewrite length_app in L. lia.
Qed.

(** C32: the flattened tree is faithful: for any sequence of builder calls with
    names of ASCII characters (none of them NUL), a reader that knows only the
    format finds in the blob of [build] the same calls in the same order, with
    the name and the value of every property, whatever names were shared through
    the deduplicated strings block. *)
Theorem fdt_roundtrip es b blob :
  Forall event_ok es -> run_events es new_builder = Ok b -> build b = Ok blob ->
  read_tree blob = Some es.
Proof. apply read_built. Qed.

(** A node with two properties, one of them named like the other's value. *)
Definition sample : list event :=
  [Begin ""; Prop_ "reg" [0; 0; 0; 1]; Begin "cpu@0"; Prop_ "status" (bytes_of "reg" ++ [0]);
   Prop_ "reg" [1; 2]; End_; End_].

Lemma fdt_roundtrip_witness :
  exists b blob, run_events sample new_builder = Ok b /\ build b = Ok blob /\ read_tree blob = Some sample.
Proof.
  destruct (run_events sample new_builder) as [b|] eqn:R; [|discriminate].
  destruct (build b) as [blob|] eqn:B.
  - exists b, blob. split_and!; [done..|].
    apply (fdt_roundtrip sample b blob); [|exact R|exact B]. repeat constructor.
  - exfalso. vm_compute in R. injection R as <-. vm_compute in B. discriminate.
Defined.

(** ** The checker *)

(** Depth, greatest depth and number of properties after a sequence of events;
    [None] when a node is closed that was not opened. *)
Fixpoint scan (d m c : Z) (es : list event) : option (Z * Z * Z) :=
  match es with
  | [] => Some (d, m, c)
  | Begin _ :: es => scan (d + 1) (Z.max m (d + 1)) c es
  | Prop_ _ _ :: es => scan d m (c + 1) es
  | End_ :: es => if d =? 0 then None else scan (d - 1) m c es
  end.

Lemma slice_at pre rest n :
  slice (pre ++ rest) (blen pre) (blen pre + n) = take (Z.to_nat n) rest.
Proof. unfold slice. rewrite drop_block by done. do 2 f_equal. lia. Qed.

Lemma slice_at4 pre v rest :
  is_u32 v -> unpack_I (slice (pre ++ be32 v ++ rest) (blen pre) (blen pre + 4)) = Ok v.
Proof. intros. rewrite slice_at. change (take _ (be32 v ++ rest)) with (be32 v). by apply unpack_be32. Qed.

Lemma blen_app a b : blen (a ++ b) = blen a + blen b.
Proof. unfold blen. rewrite length_app. lia. Qed.

(** The walk of one event's bytes, at the end of the bytes before it. *)
Section Walk.
  Context (strings pre : list Z) (d m c : Z).
  Local Abbreviation w := (mkWalk (blen pre) d m c false).

Lemma walk_begin name rest :
  name_ok name ->
  walk_token (pre ++ be32 1 ++ align4 (bytes_of name ++ [0]) ++ rest) strings w =
  Ok (mkWalk (blen (pre ++ be32 1 ++ align4 (bytes_of name ++ [0]))) (d + 1) (Z.max m (d + 1)) c false).
Proof.
  intros Hn. unfold walk_token. cbn [w_i w_depth w_max_depth w_prop_count w_saw_end].
  rewrite slice_at4 by done. cbn [rbind Z.eqb Pos.eqb FDT_BEGIN_NODE].
  replace (blen pre + 4) with (blen (pre ++ be32 1)) by by rewrite blen_app.
  rewrite (app_assoc pre). rewrite drop_block by done. unfold align4 at 1. rewrite <- !app_assoc.
  cbn [app]. rewrite index0_name by done. cbn [rbind].
  rewrite !blen_app, align4_length, blen_app. change (blen [0]) with 1. change (blen (be32 1)) with 4.
  do 2 f_equal. rewrite <- Z.add_assoc. do 3 f_equal. lia.
Qed.

Lemma walk_end rest :
  0 <= d ->
  walk_token (pre ++ be32 2 ++ rest) strings w =
  if d =? 0 then Err AssertionError else Ok (mkWalk (blen (pre ++ be32 2)) (d - 1) m c false).
Proof.
  intros Hd. unfold walk_token. cbn [w_i w_depth w_max_depth w_prop_count w_saw_end].
  rewrite slice_at4 by done. cbn [rbind Z.eqb Pos.eqb FDT_BEGIN_NODE FDT_END_NODE].
  rewrite blen_app. change (blen (be32 2)) with 4.
  destruct (Z.eqb_spec d 0) as [->|]; [done|]. unfold passert. by destruct (Z.leb_spec 0 (d - 1)); [|lia].
Qed.

Lemma walk_prop value off rest :
  is_u32 (blen value) -> is_u32 off -> off < blen strings ->
  walk_token (pre ++ be32 3 ++ be32 (blen value) ++ be32 off ++ align4 value ++ rest) strings w =
  Ok (mkWalk (blen (pre ++ be32 3 ++ be32 (blen value) ++ be32 off ++ align4 value)) d m (c + 1) false).
Proof.
  intros Lu Ou Ho. unfold walk_token. cbn [w_i w_depth w_max_depth w_prop_count w_saw_end].
  rewrite slice_at4 by done. cbn [rbind Z.eqb Pos.eqb FDT_BEGIN_NODE FDT_END_NODE FDT_PROP].
  replace (blen pre + 4) with (blen (pre ++ be32 3)) by by rewrite blen_app.
  rewrite (app_assoc pre), slice_at.
  change (take _ (be32 (blen value) ++ be32 off ++ _)) with (be32 (blen value) ++ be32 off)%list.
  change (slice (be32 (blen value) ++ be32 off) 0 4) with (be32 (blen value)).
  change (slice (be32 (blen value) ++ be32 off) 4 8) with (be32 off).
  rewrite !unpack_be32 by done. cbn [rbind]. unfold passert.
  destruct (Z.ltb_spec off (blen strings)); [|lia]. cbn [rbind].
  rewrite !blen_app, align4_length. change (blen (be32 _)) with 4. do 2 f_equal. lia.
Qed.

End Walk.

Lemma string_at_bound strings off name : string_at strings off name -> off < blen strings.
Proof.
  intros (pre & post & -> & <-). rewrite !blen_app. unfold blen. cbn [List.length]. lia.
Qed.

(** The loop over emitted bytes computes [scan]. *)
Lemma walk_emits strings es bs : emits strings es bs -> forall fuel pre d m c,
  0 <= d -> (List.length es <= fuel)%nat ->
  exists fuel', (fuel <= fuel' + List.length es)%nat /\
  walk_loop fuel (pre ++ bs ++ be32 9) strings (mkWalk (blen pre) d m c false) =
  match scan d m c es with
  | None => Some (Err AssertionError)
  | Some (d', m', c') =>
      walk_loop fuel' (pre ++ bs ++ be32 9) strings (mkWalk (blen (pre ++ bs)) d' m' c' false)
  end.
Proof.
  assert (forall pre bs, (blen pre <? blen (pre ++ bs ++ be32 9)) = true) as G.
  { intros. rewrite !blen_app. change (blen (be32 9)) with 4. apply Z.ltb_lt. unfold blen. lia. }
  induction 1 as [|name es bs Hn _ IH|es bs _ IH|name value off es bs Hn Lu Ou S _ IH];
    intros fuel pre d m c Hd Hf; cbn [scan List.length] in *.
  { exists fuel. rewrite app_nil_r. split; [lia | done]. }
  all: (destruct fuel as [|fuel]; [lia|]); cbn [walk_loop w_i]; rewrite G; cbn [negb];
    rewrite <- ?app_assoc.
  - rewrite walk_begin by done. cbn [w_saw_end].
    edestruct (IH fuel (pre ++ be32 1 ++ align4 (bytes_of name ++ [0]))%list (d + 1)) as (f & Hf' & E);
      [lia..|]. exists f. split; [lia|]. rewrite <- !app_assoc in E. exact E.
  - rewrite walk_end by done. destruct (Z.eqb_spec d 0); [exists fuel; split; [lia | done]|].
    cbn [w_saw_end].
    edestruct (IH fuel (pre ++ be32 2)%list (d - 1)) as (f & Hf' & E); [lia..|].
    exists f. split; [lia|]. rewrite <- !app_assoc in E. exact E.
  - rewrite walk_prop by (done || by eapply string_at_bound). cbn [w_saw_end].
    edestruct (IH fuel (pre ++ be32 3 ++ be32 (blen value) ++ be32 off ++ align4 value)%list d)
      as (f & Hf' & E); [lia..|]. exists f. split; [lia|]. rewrite <- !app_assoc in E. exact E.
Qed.

(** *** The loop ends *)

Lemma index0_ge rest : forall i j, index0 i rest = Ok j -> i <= j.
Proof.
  induction rest as [|b rest IH]; intros i j; simpl; [done|].
  destruct (b =? 0); [intros [= ->]; lia|]. intros ?%IH. lia.
Qed.

Lemma unpack_I_nonneg data v : Forall is_byte data -> unpack_I data = Ok v -> 0 <= v.
Proof.
  unfold unpack_I. intros H. destruct data as [|a [|b [|c [|d [|]]]]]; try done. intros [= <-].
  rewrite !Forall_cons in H. destruct H as (Ha & Hb & Hc & Hd & _). unfold is_byte, word_be in *.
  rewrite !Z.lor_nonneg, !Z.shiftl_nonneg. lia.
Qed.

Lemma slice_bytes data i j : Forall is_byte data -> Forall is_byte (slice data i j).
Proof. intros. by apply Forall_take, Forall_drop. Qed.

Lemma walk_token_moves struct_bytes strings w w' :
  Forall is_byte struct_bytes -> walk_token struct_bytes strings w = Ok w' -> w_i w + 4 <= w_i w'.
Proof.
  intros H. unfold walk_token.
  destruct (unpack_I _) as [tok|]; [|done]. cbn [rbind]. unfold passert.
  destruct (tok =? FDT_BEGIN_NODE).
  { destruct (index0 _ _) as [j|] eqn:J; [|done]. apply index0_ge in J. cbn [rbind]. intros [= <-].
    cbn [w_i]. pose proof (round4_mod (j - (w_i w + 4) + 1) ltac:(lia)). lia. }
  destruct (tok =? FDT_END_NODE).
  { destruct (0 <=? _); [|done]. intros [= <-]. cbn. lia. }
  destruct (tok =? FDT_PROP).
  { destruct (unpack_I (slice _ 0 4)) as [plen|] eqn:P; [|done].
    apply unpack_I_nonneg in P; [|by do 2 apply slice_bytes]. cbn [rbind].
    destruct (unpack_I (slice _ 4 8)); [|done]. cbn [rbind]. destruct (_ <? _); [|done].
    intros [= <-]. cbn [w_i].
    pose proof (round4_mod plen P). lia. }
  destruct (tok =? FDT_END); [|done]. intros [= <-]. cbn. lia.
Qed.

(** One round per remaining byte is enough, on any bytes at all. *)
Lemma walk_loop_total struct_bytes strings fuel : forall w,
  Forall is_byte struct_bytes -> 0 <= w_i w -> blen struct_bytes - w_i w <= Z.of_nat fuel ->
  is_Some (walk_loop fuel struct_bytes strings w).
Proof.
  induction fuel as [|fuel IH]; intros w H Hi Hf; cbn [walk_loop];
    destruct (Z.ltb_spec (w_i w) (blen struct_bytes)); cbn [negb]; try (by eexists); [lia|].
  destruct (walk_token _ _ w) as [w'|] eqn:E; [|by eexists]. apply walk_token_moves in E; [|done].
  destruct (w_saw_end w'); [by eexists|]. apply IH; [done | lia | lia].
Qed.

(** The last token. *)
Lemma walk_fdt_end fuel pre strings d m c :
  walk_loop (S fuel) (pre ++ be32 9) strings (mkWalk (blen pre) d m c false) =
  Some (Ok (mkWalk (blen (pre ++ be32 9)) d m c true)).
Proof.
  cbn [walk_loop w_i]. rewrite blen_app. change (blen (be32 9)) with 4.
  destruct (Z.ltb_spec (blen pre) (blen pre + 4)); [|lia]. cbn [negb]. unfold walk_token. cbn [w_i].
  pose proof (slice_at4 pre 9 [] ltac:(done)) as E. rewrite app_nil_r in E. by rewrite E.
Qed.

(** What the checker says of a blob, from the events in it. *)
Definition verdict (es : list event) (size : Z) : result info :=
  match scan 0 0 0 es with
  | Some (d, m, c) =>
      if (d =? 0) && (2 <=? m) && (0 <? c) then Ok (mkInfo m c size) else Err AssertionError
  | None => Err AssertionError
  end.

Lemma unpack_Is_cons n v rest :
  is_u32 v -> unpack_Is (S n) (be32 v ++ rest) = let! vs := unpack_Is n rest in Ok (v :: vs).
Proof. intros U. cbn [unpack_Is]. change (take 4 (be32 v ++ rest)) with (be32 v). by rewrite unpack_be32. Qed.

(** The loop on a whole structure block. *)
Lemma walk_struct strings es bs :
  emits strings es bs ->
  walk_loop (List.length (bs ++ be32 9)) (bs ++ be32 9) strings (mkWalk 0 0 0 0 false) =
  match scan 0 0 0 es with
  | None => Some (Err AssertionError)
  | Some (d, m, c) => Some (Ok (mkWalk (blen (bs ++ be32 9)) d m c true))
  end.
Proof.
  intros E. pose proof (emits_length _ _ _ E) as Le.
  destruct (walk_emits _ _ _ E (List.length (bs ++ be32 9)) [] 0 0 0) as (f & Hf & W);
    [lia | rewrite length_app; lia |].
  cbn [app] in W. change (blen []) with 0 in W. rewrite W.
  destruct (scan 0 0 0 es) as [[[d m] c]|]; [|done].
  rewrite length_app in Hf. cbn [be32 List.length] in Hf. destruct f as [|f]; [lia|].
  apply walk_fdt_end.
Qed.

(** The checks of the header pass. *)
Lemma header_checked b blob :
  build b = Ok blob ->
  parse_and_validate blob =
  match walk_loop (List.length (struct_block b)) (struct_block b) (fstrings b) (mkWalk 0 0 0 0 false) with
  | None => Err RuntimeError
  | Some r =>
      let! w := r in
      let! _ := passert (w_depth w =? 0) in
      let! _ := passert (w_saw_end w) in
      let! _ := passert (2 <=? w_max_depth w) in
      let! _ := passert (0 <? w_prop_count w) in
      Ok (mkInfo (w_max_depth w) (w_prop_count w) (blen blob))
  end.
Proof.
  intros B. pose proof (blob_blocks b blob B) as [D2 D3]. apply build_blob in B as (U & L & Eq).
  assert (is_u32 (56 + blen (struct_block b)) /\ is_u32 (blen (struct_block b)) /\
          is_u32 (blen (fstrings b))) as (U3 & Us & Ut) by (unfold is_u32, blen in *; lia).
  unfold parse_and_validate.
  assert (slice blob 0 40 = header b) as -> by by rewrite Eq.
  unfold header. rewrite <- L.
  rewrite !unpack_Is_cons, <- (app_nil_r (be32 (blen (struct_block b)))), unpack_Is_cons by done.
  cbn [unpack_Is rbind]. unfold passert at 1 2 3 4 5 6.
  rewrite !Z.eqb_refl. cbn [rbind].
  change (40 =? 40) with true. change (56 =? 40 + 16) with true.
  rewrite <- L, Z.eqb_refl. cbn [rbind].
  assert (slice blob 40 (40 + 16) = replicate 16 0) as -> by by rewrite Eq.
  change (unpack_Q (slice (replicate 16 0) 0 8)) with (Ok 0).
  change (unpack_Q (slice (replicate 16 0) 8 16)) with (Ok 0). cbn [rbind].
  change (passert ((0 =? 0) && (0 =? 0))) with (Ok tt). cbn [rbind].
  assert (slice blob 56 (56 + blen (struct_block b)) = struct_block b) as ->.
  { unfold slice. change (Z.to_nat 56) with 56%nat. rewrite D2. apply take_app_length'. unfold blen. lia. }
  assert (slice blob (56 + blen (struct_block b)) (blen blob) = fstrings b) as ->; [|done].
  unfold slice. rewrite D3. apply take_ge. unfold blen in *. lia.
Qed.

Lemma check_built es b blob :
  Forall event_ok es -> run_events es new_builder = Ok b -> build b = Ok blob ->
  parse_and_validate blob = verdict es (blen blob).
Proof.
  intros Hok R B. apply run_events_emits in R as (_ & ext & bs & _ & S & E); [| done | done].
  rewrite (header_checked b blob B). unfold struct_block. rewrite S. cbn [new_builder fstruct app].
  rewrite (walk_struct _ _ _ E). unfold verdict. destruct (scan 0 0 0 es) as [[[d m] c]|]; [|done].
  cbn [rbind w_depth w_saw_end w_max_depth w_prop_count]. unfold passert.
  by destruct (d =? 0), (2 <=? m), (0 <? c).
Qed.

(** C33: on every blob [FdtBuilder.build] returns, [parse_and_validate] accepts
    exactly when the nodes are properly nested and closed, the tree is at least
    two deep and has a property, and then it reports the true depth, number of
    properties and size; otherwise it raises [AssertionError] and nothing else.
    In particular no header field, string offset or padding it checks is ever
    wrong. *)
Theorem fdt_checker_exact es b blob :
  Forall event_ok es -> run_events es new_builder = Ok b -> build b = Ok blob ->
  parse_and_validate blob = verdict es (blen blob).
Proof. apply check_built. Qed.

Lemma fdt_checker_exact_witness :
  exists b blob, run_events sample new_builder = Ok b /\ build b = Ok blob /\
    parse_and_validate blob = Ok (mkInfo 2 3 147).
Proof.
  destruct (run_events sample new_builder) as [b|] eqn:R; [|discriminate].
  destruct (build b) as [blob|] eqn:B.
  - exists b, blob. split_and!; [done..|].
    rewrite (fdt_checker_exact sample b blob); [|repeat constructor|exact R|exact B].
    vm_compute in R. injection R as <-. vm_compute in B. injection B as <-. reflexivity.
  - exfalso. vm_compute in R. injection R as <-. vm_compute in B. discriminate.
Defined.
