(* ===== verification/FdtCore.v ===== *)
(** * The device tree of this core

    [build_this_core_dtb] as a sequence of events, and what it promises: the blob
    is always produced, passes the self-check of [main], and describes the core
    whatever sizes, frequencies and boot arguments it is given. *)

From Stdlib Require Import Ascii String.
From S2P Require Import Prelude Bits PyStr Fdt FdtRead.
Open Scope string_scope.
Open Scope Z_scope.

(** ** When the builder cannot fail *)

(** Bytes an event can add to the two blocks. *)
Definition event_size (e : event) : Z :=
  match e with
  | Begin name => 8 + blen (bytes_of name)
  | Prop_ name value => 16 + blen (bytes_of name) + blen value
  | End_ => 4
  end.
Definition events_size (es : list event) : Z := foldr (fun e n => event_size e + n) 0 es.

Definition used (b : FdtBuilder) : Z := blen (fstruct b) + blen (fstrings b).

Lemma blen_nonneg data : 0 <= blen data.
Proof. unfold blen. lia. Qed.

Lemma encode_name s : name_ok s -> encode_ascii s = Ok (bytes_of s).
Proof.
  unfold name_ok, encode_ascii. intros H.
  assert (forallb (fun b => b <? 128) (bytes_of s) = true) as ->; [|done].
  induction s as [|c s IH]; [done|]. simpl in H. py_bool.
  change (bytes_of (String c s)) with (code c :: bytes_of s). cbn [forallb].
  rewrite IH by done. destruct (Z.ltb_spec (code c) 128); [done | lia].
Qed.

Lemma pack_I_in v : is_u32 v -> pack_I v = Ok (be32 v).
Proof.
  unfold is_u32, pack_I. intros H. destruct (Z.leb_spec 0 v); [|lia].
  destruct (Z.ltb_spec v (2 ^ 32)); [done | lia].
Qed.

Lemma align4_size data : blen (align4 data) <= blen data + 3.
Proof.
  rewrite align4_length, round4_pad by apply blen_nonneg.
  pose proof (Z.mod_pos_bound (- blen data) 4 ltac:(lia)). lia.
Qed.

Lemma string_off_used name b :
  name_ok name -> offsets_ok b ->
  exists off b', string_off name b = Ok (off, b') /\ 0 <= off <= used b /\ fstruct b' = fstruct b /\
    used b' <= used b + blen (bytes_of name) + 1.
Proof.
  intros Hn Hb. unfold string_off. pose proof (blen_nonneg (bytes_of name)).
  pose proof (blen_nonneg (fstruct b)). pose proof (blen_nonneg (fstrings b)).
  destruct (string_offsets b !! name) as [off|] eqn:L.
  - exists off, b. pose proof (Hb name off L) as S. pose proof (string_at_bound _ _ _ S).
    destruct S as (pre & _ & _ & <-). pose proof (blen_nonneg pre). unfold used in *.
    split_and!; (done || lia).
  - rewrite encode_name by done. eexists _, _. split; [reflexivity|]. unfold used. cbn [fstruct fstrings].
    rewrite !blen_app. change (blen [0]) with 1. split_and!; (done || lia).
Qed.

Lemma run_event_ok e b :
  event_ok e -> offsets_ok b -> used b + event_size e < 2 ^ 32 ->
  exists b', run_event e b = Ok b' /\ used b' <= used b + event_size e.
Proof.
  intros He Hb Hs. pose proof (blen_nonneg (fstruct b)). pose proof (blen_nonneg (fstrings b)).
  destruct e as [name|name value|]; simpl in He |- *; unfold event_size in *.
  - unfold begin_node. change (pack_I FDT_BEGIN_NODE) with (Ok (be32 1)).
    rewrite encode_name by done. cbn [rbind]. eexists. split; [reflexivity|].
    unfold used. cbn [fstruct fstrings add_struct]. rewrite !blen_app.
    pose proof (align4_size (bytes_of name ++ [0])). rewrite blen_app in *.
    change (blen [0]) with 1 in *. change (blen (be32 1)) with 4. lia.
  - unfold prop_raw. change (pack_I FDT_PROP) with (Ok (be32 3)). destruct (string_off_used name b He Hb) as (off & b1 & -> & Ho & St & U).
    pose proof (blen_nonneg value). pose proof (blen_nonneg (bytes_of name)). cbn [rbind pack_Is].
    assert (0 <= used b) by (unfold used; lia).
    rewrite (pack_I_in (blen value)), (pack_I_in off) by (unfold is_u32; lia).
    eexists. split; [reflexivity|]. unfold used in *. cbn [fstruct fstrings add_struct].
    rewrite !blen_app. pose proof (align4_size value). change (blen (be32 _)) with 4.
    change (blen []) with 0. lia.
  - unfold end_node. change (pack_I FDT_END_NODE) with (Ok (be32 2)). cbn [rbind].
    eexists. split; [reflexivity|]. unfold used. cbn [fstruct fstrings add_struct]. rewrite blen_app.
    change (blen (be32 2)) with 4. lia.
Qed.

Lemma event_size_nonneg e : 0 <= event_size e.
Proof. destruct e; simpl; pose proof blen_nonneg; unfold blen in *; lia. Qed.

Lemma run_events_ok es : forall b,
  Forall event_ok es -> offsets_ok b -> used b + events_size es < 2 ^ 32 ->
  exists b', run_events es b = Ok b' /\ used b' <= used b + events_size es.
Proof.
  induction es as [|e es IH]; intros b He Hb Hs; cbn [events_size foldr run_events] in *.
  { exists b. split; [done | lia]. }
  change (foldr _ 0 es) with (events_size es) in *. apply Forall_cons in He as [He Hes].
  assert (0 <= events_size es).
  { clear. unfold events_size. induction es as [|e es IH]; simpl; [lia|].
    pose proof (event_size_nonneg e). lia. }
  destruct (run_event_ok e b He Hb) as (b1 & E1 & U1); [lia|]. rewrite E1. cbn [rbind].
  destruct (run_event_emits e b b1 Hb He E1) as [H1 _].
  destruct (IH b1 Hes H1) as (b2 & E2 & U2); [lia|]. exists b2. split; [done | lia].
Qed.

Lemma build_ok b : used b < 2 ^ 32 - 60 -> exists blob, build b = Ok blob.
Proof.
  intros H. pose proof (blen_nonneg (fstruct b)). pose proof (blen_nonneg (fstrings b)). unfold build.
  change (pack_I FDT_END) with (Ok (be32 9)). change (pack_Q 0) with (Ok (replicate 8 0)).
  cbn [rbind fstruct fstrings add_struct]. change (blen (replicate 8 0 ++ replicate 8 0)) with 16.
  rewrite blen_app. change (blen (be32 9)) with 4. unfold used in H. cbn [pack_Is].
  rewrite !pack_I_in by (unfold is_u32; (lia || done)). cbn [rbind]. by eexists.
Qed.

(** ** The calls of [build_this_core_dtb] *)

(** Values: 32-bit cells and zero-terminated text. *)
Definition cells (cs : list Z) : list Z := concat (map (fun c => be32 (c mod 2 ^ 32)) cs).
Definition text (s : string) : list Z := (bytes_of s ++ [0])%list.

Definition cpus_events (timebase_freq : Z) : list event :=
  [Begin "cpus"; Prop_ "#address-cells" (cells [1]); Prop_ "#size-cells" (cells [0]);
   Prop_ "timebase-frequency" (cells [timebase_freq]);
   Begin "cpu@0"; Prop_ "phandle" (cells [1]); Prop_ "device_type" (text "cpu"); Prop_ "reg" (cells [0]);
   Prop_ "status" (text "okay"); Prop_ "compatible" (text "riscv");
   Prop_ "riscv,isa" (text "rv64imafd"); Prop_ "mmu-type" (text "riscv,sv39");
   Begin "interrupt-controller"; Prop_ "#interrupt-cells" (cells [1]); Prop_ "interrupt-controller" [];
   Prop_ "compatible" (text "riscv,cpu-intc"); Prop_ "phandle" (cells [2]); End_; End_; End_].

Definition memory_events (mem_size_bytes : Z) : list event :=
  [Begin "memory@0"; Prop_ "device_type" (text "memory");
   Prop_ "reg" (cells [0; 0; 0; mem_size_bytes]); End_].

Definition soc_events (uart_clock_freq : Z) : list event :=
  [Begin "soc"; Prop_ "#address-cells" (cells [2]); Prop_ "#size-cells" (cells [2]);
   Prop_ "compatible" (text "simple-bus"); Prop_ "ranges" [];
   Begin "uart@10000000"; Prop_ "compatible" (text "ns16550a");
   Prop_ "reg" (cells [0; 0x10000000; 0; 0x20]); Prop_ "clock-frequency" (cells [uart_clock_freq]);
   Prop_ "reg-shift" (cells [2]); Prop_ "reg-io-width" (cells [4]); End_;
   Begin "clint@10100000"; Prop_ "compatible" (text "riscv,clint0");
   Prop_ "reg" (cells [0; 0x10100000; 0; 0x10000]);
   Prop_ "interrupts-extended" (cells [2; 3; 2; 7]); End_; End_].

(** A 64-bit address as two cells. *)
Definition address (a : Z) : list Z := cells [a / 2 ^ 32; a].

Definition chosen_events (bootargs : string) (initrd : option (Z * Z)) : list event :=
  [Begin "chosen"; Prop_ "bootargs" (text bootargs); Prop_ "stdout-path" (text "/soc/uart@10000000")] ++
  match initrd with
  | Some (s, e) => [Prop_ "linux,initrd-start" (address s); Prop_ "linux,initrd-end" (address e)]
  | None => []
  end ++ [End_].

Definition core_events (mem_size_bytes timebase_freq uart_clock_freq : Z) (bootargs : string)
    (initrd : option (Z * Z)) : list event :=
  ([Begin ""; Prop_ "#address-cells" (cells [2]); Prop_ "#size-cells" (cells [2]);
    Prop_ "compatible" (text "5-stage-pipelined-processor");
    Prop_ "model" (text "5-stage-pipelined-processor,rv64")] ++
   cpus_events timebase_freq ++ memory_events mem_size_bytes ++ soc_events uart_clock_freq ++
   chosen_events bootargs initrd ++ [End_])%list.

(** The initrd is described only when both ends are given. *)
Definition both (s e : option Z) : option (Z * Z) :=
  match s, e with Some s, Some e => Some (s, e) | _, _ => None end.

Lemma mask32 v : v .& 0xFFFFFFFF = v mod 2 ^ 32.
Proof. by apply land_lit. Qed.

Lemma mod_u32 v : is_u32 (v mod 2 ^ 32).
Proof. by apply Z.mod_pos_bound. Qed.

Lemma prop_u32_raw name v b : prop_u32 name v b = prop_raw name (cells [v]) b.
Proof. unfold prop_u32, cells. rewrite mask32, pack_I_in by apply mod_u32. reflexivity. Qed.

Lemma pack_cells cs : pack_Is (map (fun c => c .& 0xFFFFFFFF) cs) = Ok (cells cs).
Proof.
  induction cs as [|c cs IH]; [done|]. cbn [map pack_Is]. rewrite mask32, pack_I_in by apply mod_u32.
  by rewrite IH.
Qed.

Lemma prop_cells_raw name cs b : prop_cells name cs b = prop_raw name (cells cs) b.
Proof. unfold prop_cells. by rewrite pack_cells. Qed.

Lemma prop_address name a b :
  prop_cells name [a ≫ 32; a .& 0xFFFFFFFF] b = prop_raw name (address a) b.
Proof.
  rewrite prop_cells_raw. unfold address, cells. cbn [map]. rewrite mask32, Z.shiftr_div_pow2 by done.
  by rewrite Zmod_mod.
Qed.

Lemma run_events_app xs ys b : run_events (xs ++ ys) b = rbind (run_events xs b) (run_events ys).
Proof. revert b. induction xs as [|x xs IH]; intros b; simpl; [done|]. by destruct (run_event x b); simpl. Qed.

Lemma rbind_assoc {A B C} (m : result A) (f : A -> result B) (g : B -> result C) :
  rbind (rbind m f) g = rbind m (fun x => rbind (f x) g).
Proof. by destruct m. Qed.

Lemma rbind_ext {A B} (m : result A) (f g : A -> result B) :
  (forall x, f x = g x) -> rbind m f = rbind m g.
Proof. intros H. destruct m; [apply H | done]. Qed.

Lemma rbind_ret {A} (m : result A) : rbind m Ok = m.
Proof. by destruct m. Qed.

(** Matches the calls of the left side with the events of the right one. *)
Ltac calls :=
  cbn [run_events run_event app]; rewrite ?rbind_assoc;
  repeat (apply rbind_ext; intros ?; rewrite ?rbind_assoc, ?prop_u32_raw, ?prop_cells_raw);
  rewrite ?rbind_ret; try reflexivity.

Lemma cpus_node_events tb b : cpus_node tb b = run_events (cpus_events tb) b.
Proof. unfold cpus_node, cpus_events. calls. Qed.
Lemma memory_node_events n b : memory_node n b = run_events (memory_events n) b.
Proof. unfold memory_node, memory_events. calls. Qed.
Lemma soc_node_events f b : soc_node f b = run_events (soc_events f) b.
Proof. unfold soc_node, soc_events. calls. Qed.

Lemma chosen_node_events bootargs s e b :
  encode_ascii bootargs = Ok (bytes_of bootargs) ->
  chosen_node bootargs s e b = run_events (chosen_events bootargs (both s e)) b.
Proof.
  intros Ha. unfold chosen_node, chosen_events. cbn [app run_events run_event].
  rewrite ?rbind_assoc. apply rbind_ext. intros b1. rewrite ?rbind_assoc.
  assert (prop_str "bootargs" bootargs b1 = prop_raw "bootargs" (text bootargs) b1) as ->
    by (unfold prop_str; by rewrite Ha).
  apply rbind_ext. intros b2. rewrite ?rbind_assoc. apply rbind_ext. intros b3.
  destruct s as [s|], e as [e|]; cbn [both app run_events run_event rbind]; rewrite ?rbind_ret; try done.
  rewrite prop_address, rbind_assoc. apply rbind_ext. intros b4. rewrite prop_address.
  apply rbind_ext. intros b5. by rewrite rbind_ret.
Qed.

Lemma core_dtb_events mem tb uart bootargs s e :
  encode_ascii bootargs = Ok (bytes_of bootargs) ->
  build_this_core_dtb mem tb uart bootargs s e =
  let! b := run_events (core_events mem tb uart bootargs (both s e)) new_builder in build b.
Proof.
  intros Ha. unfold build_this_core_dtb, core_events. rewrite !run_events_app.
  cbn [run_events run_event]. rewrite ?rbind_assoc.
  do 5 (apply rbind_ext; intros ?; rewrite ?rbind_assoc, ?prop_u32_raw; try reflexivity).
  cbn [rbind]. rewrite cpus_node_events, ?run_events_app, ?rbind_assoc. apply rbind_ext. intros b1.
  rewrite memory_node_events, ?run_events_app, ?rbind_assoc. apply rbind_ext. intros b2.
  rewrite soc_node_events, ?run_events_app, ?rbind_assoc. apply rbind_ext. intros b3.
  rewrite chosen_node_events, ?run_events_app, ?rbind_assoc by done. apply rbind_ext. intros b4.
  cbn [run_events run_event]. by rewrite rbind_ret.
Qed.

(** Number of properties described. *)
Definition core_props (initrd : option (Z * Z)) : Z := match initrd with Some _ => 36 | None => 34 end.

Lemma core_scan mem tb uart bootargs initrd :
  scan 0 0 0 (core_events mem tb uart bootargs initrd) = Some (0, 4, core_props initrd).
Proof. by destruct initrd as [[]|]. Qed.

Lemma core_events_ok mem tb uart bootargs initrd :
  Forall event_ok (core_events mem tb uart bootargs initrd).
Proof.
  unfold core_events, cpus_events, memory_events, soc_events, chosen_events.
  destruct initrd as [[]|]; cbn [app]; repeat (apply Forall_cons_2; [done || reflexivity|]); done.
Qed.

Lemma events_size_app xs ys : events_size (xs ++ ys) = events_size xs + events_size ys.
Proof. unfold events_size. induction xs as [|x xs IH]; simpl; lia. Qed.

Lemma core_events_size mem tb uart bootargs initrd :
  events_size (core_events mem tb uart bootargs initrd) <= 2000 + blen (bytes_of bootargs).
Proof.
  unfold core_events. rewrite !events_size_app.
  assert (events_size (cpus_events tb) <= 700) by (vm_compute; discriminate).
  assert (events_size (memory_events mem) <= 100) by (vm_compute; discriminate).
  assert (events_size (soc_events uart) <= 700) by (vm_compute; discriminate).
  assert (events_size (chosen_events bootargs initrd) <= 300 + blen (bytes_of bootargs)).
  { unfold chosen_events. rewrite !events_size_app.
    assert (events_size (match initrd with
      | Some (s, e) => [Prop_ "linux,initrd-start" (address s); Prop_ "linux,initrd-end" (address e)]
      | None => [] end) <= 100) by (destruct initrd as [[]|]; vm_compute; discriminate).
    change (events_size [End_]) with 4. cbn [events_size foldr event_size]. unfold text.
    rewrite !blen_app. change (blen [0]) with 1.
    change (blen (bytes_of "chosen")) with 6. change (blen (bytes_of "bootargs")) with 8.
    change (blen (bytes_of "stdout-path")) with 11. change (blen (bytes_of "/soc/uart@10000000")) with 18. lia. }
  match goal with |- ?a + _ <= _ => assert (a <= 190) by (vm_compute; discriminate) end.
  change (events_size [End_]) with 4. lia.
Qed.

(** The calls before the boot arguments. *)
Definition early_events (mem tb uart : Z) : list event :=
  ([Begin ""; Prop_ "#address-cells" (cells [2]); Prop_ "#size-cells" (cells [2]);
    Prop_ "compatible" (text "5-stage-pipelined-processor");
    Prop_ "model" (text "5-stage-pipelined-processor,rv64")] ++
   cpus_events tb ++ memory_events mem ++ soc_events uart ++ [Begin "chosen"])%list.

Lemma core_dtb_non_ascii mem tb uart bootargs s e :
  encode_ascii bootargs = Err ValueError -> build_this_core_dtb mem tb uart bootargs s e = Err ValueError.
Proof.
  intros Ha. destruct (run_events_ok (early_events mem tb uart) new_builder) as (b & R & _).
  { unfold early_events, cpus_events, memory_events, soc_events. cbn [app].
    repeat (apply Forall_cons_2; [done || reflexivity|]). done. }
  { done. }
  { vm_compute. reflexivity. }
  transitivity (let! _ := run_events (early_events mem tb uart) new_builder in @Err (list Z) ValueError).
  2:{ by rewrite R. }
  unfold build_this_core_dtb, early_events. rewrite !run_events_app.
  cbn [run_events run_event]. rewrite ?rbind_assoc.
  do 5 (apply rbind_ext; intros ?; rewrite ?rbind_assoc, ?prop_u32_raw; try reflexivity).
  cbn [rbind]. rewrite cpus_node_events, ?run_events_app, ?rbind_assoc. apply rbind_ext. intros b1.
  rewrite memory_node_events, ?run_events_app, ?rbind_assoc. apply rbind_ext. intros b2.
  rewrite soc_node_events, ?run_events_app, ?rbind_assoc. apply rbind_ext. intros b3.
  unfold chosen_node. rewrite ?rbind_assoc. cbn [run_events run_event]. rewrite rbind_ret.
  apply rbind_ext. intros b4. unfold prop_str. by rewrite Ha.
Qed.

(** ** The blob is made of bytes *)

Definition builder_bytes (b : FdtBuilder) : Prop := Forall is_byte (fstruct b) /\ Forall is_byte (fstrings b).
Definition event_bytes (e : event) : Prop := match e with Prop_ _ value => Forall is_byte value | _ => True end.

Lemma be32_bytes v : Forall is_byte (be32 v).
Proof. repeat constructor; apply (land_range _ 8); lia. Qed.
Lemma bytes_of_bytes s : Forall is_byte (bytes_of s).
Proof.
  unfold bytes_of. rewrite Forall_map. apply Forall_true. intros c. unfold compose, is_byte, code.
  pose proof (N_ascii_bounded c). lia.
Qed.
Lemma cells_bytes cs : Forall is_byte (cells cs).
Proof. unfold cells. apply Forall_concat. rewrite Forall_map. apply Forall_true. intros. apply be32_bytes. Qed.
Lemma text_bytes s : Forall is_byte (text s).
Proof. unfold text. rewrite Forall_app. split; [apply bytes_of_bytes|]. repeat constructor; lia. Qed.
Lemma align4_bytes data : Forall is_byte data -> Forall is_byte (align4 data).
Proof. intros. unfold align4. rewrite Forall_app. split; [done|]. apply Forall_replicate. unfold is_byte. lia. Qed.
Lemma pack_I_bytes v bs : pack_I v = Ok bs -> Forall is_byte bs.
Proof. unfold pack_I. case_match; [|done]. intros [= <-]. apply be32_bytes. Qed.
Lemma pack_Is_bytes vs : forall bs, pack_Is vs = Ok bs -> Forall is_byte bs.
Proof.
  induction vs as [|v vs IH]; intros bs E; simpl in E; [by injection E as <-|].
  destruct (pack_I v) eqn:E1; [|done]. destruct (pack_Is vs) eqn:E2; [|done]. injection E as <-.
  rewrite Forall_app. eauto using pack_I_bytes.
Qed.
Lemma encode_bytes s bs : encode_ascii s = Ok bs -> Forall is_byte bs.
Proof. unfold encode_ascii. case_match; [|done]. intros [= <-]. apply bytes_of_bytes. Qed.
Lemma zero_byte : Forall is_byte [0].
Proof. repeat constructor; lia. Qed.
Create HintDb fdt_bytes.
#[local] Hint Resolve be32_bytes cells_bytes text_bytes align4_bytes pack_I_bytes pack_Is_bytes encode_bytes
  zero_byte Forall_app_2 : fdt_bytes.

Lemma add_struct_bytes data b : Forall is_byte data -> builder_bytes b -> builder_bytes (add_struct data b).
Proof. intros H [S T]. split; [by apply Forall_app_2 | done]. Qed.
#[local] Hint Resolve add_struct_bytes : fdt_bytes.

Lemma string_off_bytes name b off b' : string_off name b = Ok (off, b') -> builder_bytes b -> builder_bytes b'.
Proof.
  unfold string_off. case_match; [by intros [= <- <-]|]. destruct (encode_ascii name) eqn:E; [|done].
  intros [= <- <-] [S T]. split; cbn; eauto with fdt_bytes.
Qed.

Lemma run_event_bytes e b b' : run_event e b = Ok b' -> event_bytes e -> builder_bytes b -> builder_bytes b'.
Proof.
  intros E He Hb. destruct e as [name|name value|]; simpl in E, He.
  - unfold begin_node in E. destruct (pack_I _) eqn:E1; [|done]. destruct (encode_ascii _) eqn:E2; [|done].
    injection E as <-. eauto 8 with fdt_bytes.
  - unfold prop_raw in E. destruct (string_off name b) as [[off b1]|] eqn:E1; [|done].
    apply string_off_bytes in E1; [|done]. cbn [rbind] in E.
    destruct (pack_I _) eqn:E2; [|done]. destruct (pack_Is _) eqn:E3; [|done]. injection E as <-.
    eauto 8 with fdt_bytes.
  - unfold end_node in E. destruct (pack_I _) eqn:E1; [|done]. injection E as <-. eauto with fdt_bytes.
Qed.

Lemma run_events_bytes es : forall b b',
  run_events es b = Ok b' -> Forall event_bytes es -> builder_bytes b -> builder_bytes b'.
Proof.
  induction es as [|e es IH]; intros b b' E He Hb; simpl in E; [by injection E as <-|].
  apply Forall_cons in He as [He Hes]. destruct (run_event e b) as [b1|] eqn:E1; [|done].
  eauto using run_event_bytes.
Qed.

Lemma build_bytes b blob : build b = Ok blob -> builder_bytes b -> Forall is_byte blob.
Proof.
  intros E [S T]. apply build_blob in E as (_ & _ & ->). unfold header, struct_block.
  rewrite !Forall_app. split_and!; try done; try apply be32_bytes.
  apply Forall_replicate. unfold is_byte. lia.
Qed.

Lemma core_events_bytes mem tb uart bootargs initrd :
  Forall event_bytes (core_events mem tb uart bootargs initrd).
Proof.
  unfold core_events, cpus_events, memory_events, soc_events, chosen_events, address.
  destruct initrd as [[]|]; cbn [app];
    repeat (apply Forall_cons_2; [cbn [event_bytes]; auto using cells_bytes, text_bytes|]); done.
Qed.

(** Everything about the blob of this core. *)
Lemma core_dtb_built mem tb uart bootargs s e :
  blen (bytes_of bootargs) < 2 ^ 31 -> forallb (fun b => b <? 128) (bytes_of bootargs) = true ->
  exists blob, build_this_core_dtb mem tb uart bootargs s e = Ok blob /\
    parse_and_validate blob = Ok (mkInfo 4 (core_props (both s e)) (blen blob)) /\
    read_tree blob = Some (core_events mem tb uart bootargs (both s e)) /\
    Forall is_byte blob /\ blen blob <= 2060 + blen (bytes_of bootargs).
Proof.
  intros Hl A. assert (encode_ascii bootargs = Ok (bytes_of bootargs)) as Ha by (unfold encode_ascii; by rewrite A).
  rewrite core_dtb_events by done. set (es := core_events _ _ _ _ _).
  assert (Forall event_ok es) as Hok by apply core_events_ok.
  pose proof (core_events_size mem tb uart bootargs (both s e)) as Hs. fold es in Hs.
  destruct (run_events_ok es new_builder Hok) as (b & R & U); [done | change (used new_builder) with 0; lia|].
  change (used new_builder) with 0 in U. destruct (build_ok b) as [blob B]; [lia|].
  exists blob. rewrite R. split_and!; [done | | by eapply read_built | |].
  - rewrite (check_built es b blob Hok R B). unfold verdict, es. rewrite core_scan.
    clear. destruct (both s e) as [[]|]; reflexivity.
  - apply (build_bytes b blob B), (run_events_bytes es new_builder b R); [apply core_events_bytes | split; constructor].
  - apply build_blob in B as (_ & -> & _). unfold struct_block. rewrite blen_app. unfold used in U.
    change (blen (be32 _)) with 4. lia.
Qed.

(** C34: for every memory size, clock frequency and pair of initrd ends, and any
    ASCII boot arguments that leave the tree under 4 GiB, [build_this_core_dtb]
    returns a blob, the self-check that [main] runs on it succeeds with depth 4
    and 34 properties (36 with an initrd), and reading the blob gives the
    intended tree, in which every number appears modulo 2^32 in its cell.  Boot
    arguments that are not ASCII raise [ValueError]. *)
Theorem core_dtb_valid mem tb uart bootargs s e :
  blen (bytes_of bootargs) < 2 ^ 31 ->
  if forallb (fun b => b <? 128) (bytes_of bootargs) then
    exists blob, build_this_core_dtb mem tb uart bootargs s e = Ok blob /\
      parse_and_validate blob = Ok (mkInfo 4 (core_props (both s e)) (blen blob)) /\
      read_tree blob = Some (core_events mem tb uart bootargs (both s e))
  else build_this_core_dtb mem tb uart bootargs s e = Err ValueError.
Proof.
  intros Hl. destruct (forallb _ _) eqn:A.
  - destruct (core_dtb_built mem tb uart bootargs s e Hl A) as (blob & ? & ? & ? & _). by exists blob.
  - apply core_dtb_non_ascii. unfold encode_ascii. by rewrite A.
Qed.

Lemma core_dtb_valid_witness :
  exists blob, build_this_core_dtb 0x2000000 1000000 1843200 "console=ttyS0" (Some 0x84000000) (Some 0x1_0000_0000) = Ok blob /\
    parse_and_validate blob = Ok (mkInfo 4 36 (blen blob)) /\
    read_tree blob =
      Some (core_events 0x2000000 1000000 1843200 "console=ttyS0" (Some (0x84000000, 0x1_0000_0000))).
Proof.
  apply (core_dtb_valid 0x2000000 1000000 1843200 "console=ttyS0" (Some 0x84000000) (Some 0x1_0000_0000)).
  vm_compute. reflexivity.
Defined.
