(* ===== verification/ElfImage.v ===== *)
(** * From an ELF file to memory images

    [src/sim/tools/elf2mem.py].  The [objcopy], [objdump] and [nm] it runs are the
    parameter [run_tool]: what a command line exits with, prints, and writes to
    the temporary file named on it. *)

From Stdlib Require Import Ascii String.
From S2P Require Import Prelude Bits PyStr Asm Disasm PyText AsmText AsmLink AsmImage MemFile Fdt.
Open Scope string_scope.
Open Scope Z_scope.

(** A completed [subprocess.run]. *)
Record proc : Type := mkProc { returncode : Z; stdout : string; written : list Z }.

(** ** The tool *)

Section Elf2mem.
Variable run_tool : list string -> proc.
Variable tmp_path : string.

Definition extract_raw (objcopy elf_path section : string) : result (list Z) :=
  let r := run_tool [objcopy; "-O"; "binary"; "--only-section"; section; elf_path; tmp_path] in
  if negb (returncode r =? 0) then Err RuntimeError else Ok (written r).

(** [b"".join(...)] over the sections *)
Fixpoint extract_all (objcopy elf_path : string) (sections : list string) : result (list Z) :=
  match sections with
  | [] => Ok []
  | s :: rest =>
      let! raw := extract_raw objcopy elf_path s in
      let! data := extract_all objcopy elf_path rest in
      Ok (raw ++ data)%list
  end.

Definition extract_binary (objcopy elf_path : string) (sections : list string) (size : Z) : result (list Z) :=
  let! data := extract_all objcopy elf_path sections in
  if size <? blen data then Err ValueError
  else Ok (data ++ replicate (Z.to_nat (size - blen data)) 0)%list.

Fixpoint find_vma (section : string) (lines : list string) : result (option Z) :=
  match lines with
  | [] => Ok None
  | line :: rest =>
      let parts := split_ws "" line in
      if (4 <=? Z.of_nat (List.length parts)) && (nth 1 parts "" =? section)%string
      then let! vma := py_int16 (nth 3 parts "") in Ok (Some vma)
      else find_vma section rest
  end.
Definition get_section_vma (objdump elf_path section : string) : result (option Z) :=
  let r := run_tool [objdump; "-h"; elf_path] in
  if negb (returncode r =? 0) then Err RuntimeError else find_vma section (splitlines (stdout r)).

Fixpoint find_symbol (name : string) (lines : list string) : result Z :=
  match lines with
  | [] => Err ValueError
  | line :: rest =>
      let parts := split_ws "" line in
      if (3 <=? Z.of_nat (List.length parts)) && (List.last parts "" =? name)%string
      then py_int16 (nth 0 parts "")
      else find_symbol name rest
  end.
Definition get_symbol (nm elf_path name : string) : result Z :=
  let r := run_tool [nm; elf_path] in
  if negb (returncode r =? 0) then Err RuntimeError else find_symbol name (splitlines (stdout r)).

(** [mem[off:off + len(blob)] = blob] under the size check both loops make. *)
Definition place_blob (size off : Z) (blob mem : list Z) : result (list Z) :=
  if size <? off + blen blob then Err ValueError
  else Ok (slice_assign mem off (off + blen blob) blob).

(** The loop over the instruction sections. *)
Fixpoint place_sections (objcopy objdump elf_path : string) (size : Z) (sections : list string)
    (imem : list Z) : result (list Z) :=
  match sections with
  | [] => Ok imem
  | section :: rest =>
      let! raw := extract_raw objcopy elf_path section in
      match raw with
      | [] => place_sections objcopy objdump elf_path size rest imem
      | _ =>
          let! vma := get_section_vma objdump elf_path section in
          match vma with
          | None => Err ValueError
          | Some vma =>
              let! imem := place_blob size vma raw imem in
              place_sections objcopy objdump elf_path size rest imem
          end
      end
  end.

(** [get_symbol(...) if raw else 0] *)
Definition symbol_if (raw : list Z) (nm elf_path name : string) : result Z :=
  match raw with [] => Ok 0 | _ => get_symbol nm elf_path name end.

Definition place_data (size : Z) (rodata data : Z * list Z) (dmem : list Z) : result (list Z) :=
  let! dmem := place_blob size (fst rodata) (snd rodata) dmem in
  place_blob size (fst data) (snd data) dmem.

(** [main], up to the text of the two files it writes. *)
Definition elf2mem (elf objcopy imem_sections : string) (imem_size dmem_size : Z)
  : result (list string * list string) :=
  let nm := py_replace "objcopy" "nm" 0 objcopy in
  let objdump := py_replace "objcopy" "objdump" 0 objcopy in
  let! imem := bytearray imem_size in
  let! imem := place_sections objcopy objdump elf imem_size (split_on "," "" imem_sections) imem in
  let! rodata_raw := extract_raw objcopy elf ".rodata" in
  let! data_raw := extract_raw objcopy elf ".data" in
  let! rodata_off := symbol_if rodata_raw nm elf "_rodata_start" in
  let! data_off := symbol_if data_raw nm elf "_data_start" in
  let! dmem := bytearray dmem_size in
  let! dmem := place_data dmem_size (rodata_off, rodata_raw) (data_off, data_raw) dmem in
  Ok (mem_lines imem, mem_lines dmem).
End Elf2mem.

(** ** Images as parts

    What an image should be: parts at their offsets, a later one over an earlier
    one, and zero everywhere else. *)

Definition covers (a : Z) (p : Z * list Z) : bool := (fst p <=? a) && (a <? fst p + blen (snd p)).
Definition image_at (parts : list (Z * list Z)) (a : Z) : Z :=
  fold_left (fun b p => if covers a p then zget (snd p) (a - fst p) else b) parts 0.
Definition fits (size : Z) (p : Z * list Z) : bool := fst p + blen (snd p) <=? size.
Definition is_image (parts : list (Z * list Z)) (size : Z) (mem : list Z) : Prop :=
  blen mem = size /\ forall a, 0 <= a < size -> zget mem a = image_at parts a.

Lemma image_at_snoc parts p a :
  image_at (parts ++ [p]) a = if covers a p then zget (snd p) (a - fst p) else image_at parts a.
Proof. unfold image_at. by rewrite fold_left_app. Qed.

Lemma slice_assign_in {A} (l : list A) off (blob : list A) :
  0 <= off -> off + Z.of_nat (List.length blob) <= Z.of_nat (List.length l) ->
  slice_assign l off (off + Z.of_nat (List.length blob)) blob =
  (take (Z.to_nat off) l ++ blob ++ drop (Z.to_nat off + List.length blob) l)%list.
Proof.
  intros H0 H1. unfold slice_assign, clamp.
  destruct (Z.ltb_spec off 0); [lia|]. destruct (Z.ltb_spec (off + Z.of_nat (List.length blob)) 0); [lia|].
  rewrite !Z.min_l, Z.max_r by lia. repeat f_equal. lia.
Qed.

Lemma length_slice_assign {A} (l : list A) off (blob : list A) :
  0 <= off -> off + Z.of_nat (List.length blob) <= Z.of_nat (List.length l) ->
  List.length (slice_assign l off (off + Z.of_nat (List.length blob)) blob) = List.length l.
Proof. intros. rewrite slice_assign_in by done. rewrite !length_app, length_take, length_drop. lia. Qed.

Lemma lookup_slice_assign {A} (l : list A) off (blob : list A) (k : nat) :
  0 <= off -> off + Z.of_nat (List.length blob) <= Z.of_nat (List.length l) ->
  slice_assign l off (off + Z.of_nat (List.length blob)) blob !! k =
  if decide (off <= Z.of_nat k < off + Z.of_nat (List.length blob)) then blob !! (k - Z.to_nat off)%nat
  else l !! k.
Proof.
  intros H0 H1. rewrite slice_assign_in by done.
  assert (List.length (take (Z.to_nat off) l) = Z.to_nat off) as T by (rewrite length_take; lia).
  case_decide as D.
  - rewrite lookup_app_r, T by lia. rewrite lookup_app_l by lia. done.
  - destruct (decide (Z.of_nat k < off)).
    + rewrite lookup_app_l by lia. by rewrite lookup_take_lt by lia.
    + rewrite lookup_app_r, T by lia. rewrite lookup_app_r by lia. rewrite lookup_drop. f_equal. lia.
Qed.

Lemma zget_slice_assign mem off blob a :
  0 <= off -> off + blen blob <= blen mem -> 0 <= a ->
  zget (slice_assign mem off (off + blen blob) blob) a =
  if covers a (off, blob) then zget blob (a - off) else zget mem a.
Proof.
  unfold blen. intros H0 H1 Ha. unfold zget. rewrite lookup_slice_assign by done.
  unfold covers, blen. cbn [fst snd].
  case_decide; destruct (Z.leb_spec off a), (Z.ltb_spec a (off + Z.of_nat (List.length blob)));
    cbn [andb]; try lia; [|done..].
  do 2 f_equal. lia.
Qed.

Lemma bytes_slice_assign mem off blob j :
  Forall is_byte mem -> Forall is_byte blob -> Forall is_byte (slice_assign mem off j blob).
Proof. intros. unfold slice_assign. rewrite !Forall_app. auto using Forall_take, Forall_drop. Qed.

(** Placing one more part. *)
Lemma place_blob_spec parts size off blob mem :
  is_image parts size mem -> Forall is_byte mem -> Forall is_byte blob -> 0 <= off ->
  if fits size (off, blob) then
    exists mem', place_blob size off blob mem = Ok mem' /\
      is_image (parts ++ [(off, blob)]) size mem' /\ Forall is_byte mem'
  else place_blob size off blob mem = Err ValueError.
Proof.
  intros [L I] Bm Bb H0. unfold fits, place_blob. cbn [fst snd].
  destruct (Z.leb_spec (off + blen blob) size), (Z.ltb_spec size (off + blen blob)); try lia; [|done].
  eexists. split; [done|]. split; [|by apply bytes_slice_assign]. split.
  - unfold blen in *. rewrite length_slice_assign by lia. done.
  - intros a Ha. rewrite zget_slice_assign by lia. rewrite image_at_snoc. cbn [fst snd].
    destruct (covers a (off, blob)); [done | by apply I].
Qed.

Lemma empty_image size : 0 <= size -> is_image [] size (replicate (Z.to_nat size) 0).
Proof.
  intros. split; [unfold blen; rewrite length_replicate; lia|]. intros. by rewrite zget_replicate.
Qed.

Lemma zero_bytes n : Forall is_byte (replicate n 0).
Proof. apply Forall_replicate. unfold is_byte. lia. Qed.

Lemma bytearray_ok n : 0 <= n -> bytearray n = Ok (replicate (Z.to_nat n) 0).
Proof. intros. unfold bytearray. by destruct (Z.ltb_spec n 0); [lia|]. Qed.

(** A part with no bytes covers nothing. *)
Lemma image_at_skip parts off a : image_at (parts ++ [(off, [])]) a = image_at parts a.
Proof.
  rewrite image_at_snoc. unfold covers, blen. cbn [fst snd List.length].
  destruct (Z.leb_spec off a), (Z.ltb_spec a (off + Z.of_nat 0)); try done; lia.
Qed.

(** Reading back a part that no later part touches. *)
Definition apart (p q : Z * list Z) : bool :=
  (fst p + blen (snd p) <=? fst q) || (fst q + blen (snd q) <=? fst p).

Lemma apart_covers p q a : apart p q = true -> covers a p = true -> covers a q = false.
Proof.
  unfold apart, covers. destruct p as [o b], q as [o' b']. cbn [fst snd]. intros H1 H2.
  apply orb_true_iff in H1. apply andb_true_iff in H2 as [].
  apply andb_false_iff. destruct H1; py_bool; [left | right]; lia.
Qed.

Lemma image_at_app parts rest a :
  Forall (fun q => covers a q = false) rest -> image_at (parts ++ rest) a = image_at parts a.
Proof.
  induction rest as [|q rest IH] using rev_ind; intros H; [by rewrite app_nil_r|].
  rewrite Forall_app, Forall_singleton in H. destruct H as [H Hq].
  by rewrite (app_assoc parts rest [q]), image_at_snoc, Hq, IH.
Qed.

Lemma image_at_part before p after a :
  Forall (fun q => apart p q = true) after -> covers a p = true ->
  image_at (before ++ p :: after) a = zget (snd p) (a - fst p).
Proof.
  intros H C. change (p :: after) with ([p] ++ after)%list. rewrite (app_assoc before [p] after), image_at_app.
  - by rewrite image_at_snoc, C.
  - apply (Forall_impl _ _ _ H). intros q Hq. by apply (apart_covers p).
Qed.

Lemma slice_ext (mem blob : list Z) off :
  0 <= off -> off + blen blob <= blen mem ->
  (forall k, 0 <= k < blen blob -> zget mem (off + k) = zget blob k) ->
  py_slice mem off (off + blen blob) = blob.
Proof.
  unfold blen. intros H0 H1 H. unfold py_slice, clamp.
  destruct (Z.ltb_spec off 0); [lia|]. destruct (Z.ltb_spec (off + Z.of_nat (List.length blob)) 0); [lia|].
  rewrite !Z.min_l by lia.
  replace (Z.to_nat (off + Z.of_nat (List.length blob) - off)) with (List.length blob) by lia.
  apply list_eq. intros k. destruct (decide (k < List.length blob)%nat) as [K|K].
  - rewrite lookup_take_lt, lookup_drop by done. specialize (H (Z.of_nat k) ltac:(lia)). unfold zget in H.
    replace (Z.to_nat (off + Z.of_nat k)) with (Z.to_nat off + k)%nat in H by lia. rewrite Nat2Z.id in H.
    destruct (lookup_lt_is_Some_2 mem (Z.to_nat off + k) ltac:(lia)) as [x Hx].
    destruct (lookup_lt_is_Some_2 blob k ltac:(lia)) as [y Hy]. rewrite Hx, Hy in *. simpl in H. congruence.
  - rewrite lookup_take_ge, lookup_ge_None_2 by lia. done.
Qed.

(** A part of an image, read as a slice. *)
Lemma image_slice before p after size mem :
  is_image (before ++ p :: after) size mem -> 0 <= fst p -> fits size p = true ->
  Forall (fun q => apart p q = true) after ->
  py_slice mem (fst p) (fst p + blen (snd p)) = snd p.
Proof.
  intros [L I] H0 F H. unfold fits in F. py_bool. apply slice_ext; [done | lia|].
  intros k Hk. rewrite I by lia. rewrite image_at_part; [f_equal; lia | done|].
  unfold covers. apply andb_true_iff. split; [apply Z.leb_le | apply Z.ltb_lt]; lia.
Qed.

(** ** What the tool writes *)

Section Spec.
Context (run_tool : list string -> proc) (tmp_path elf objcopy : string).
Local Abbreviation nm := (py_replace "objcopy" "nm" 0 objcopy).
Local Abbreviation objdump := (py_replace "objcopy" "objdump" 0 objcopy).

(** What the binary utilities say of a section: its bytes and, if it has any, the
    address [find] reads in their output, which is never negative. *)
Definition reported (find : result Z) (section : string) (p : Z * list Z) : Prop :=
  extract_raw run_tool tmp_path objcopy elf section = Ok (snd p) /\ Forall is_byte (snd p) /\
  0 <= fst p /\ match snd p with [] => fst p = 0 | _ => find = Ok (fst p) end.

Definition section_address (section : string) : result Z :=
  let! vma := get_section_vma run_tool objdump elf section in
  match vma with Some v => Ok v | None => Err ValueError end.

Definition section_part (section : string) (p : Z * list Z) : Prop :=
  reported (section_address section) section p.
Definition data_part (section symbol : string) (p : Z * list Z) : Prop :=
  reported (get_symbol run_tool nm elf symbol) section p.

Lemma place_sections_spec size sections parts :
  Forall2 section_part sections parts -> forall before mem,
  is_image before size mem -> Forall is_byte mem -> 0 <= size ->
  if forallb (fits size) parts then
    exists mem', place_sections run_tool tmp_path objcopy objdump elf size sections mem = Ok mem' /\
      is_image (before ++ parts) size mem' /\ Forall is_byte mem'
  else place_sections run_tool tmp_path objcopy objdump elf size sections mem = Err ValueError.
Proof.
  induction 1 as [|section [off raw] sections parts (E & B & H0 & A) _ IH]; intros before mem I Bm Hs.
  { cbn. rewrite app_nil_r. eauto. }
  cbn [forallb place_sections fst snd] in *. rewrite E. cbn [rbind].
  pose proof (place_blob_spec before size off raw mem I Bm B H0) as P.
  change ((off, raw) :: parts) with ([(off, raw)] ++ parts)%list. rewrite (app_assoc before).
  destruct raw as [|b raw].
  - subst off. destruct (Z.leb_spec (0 + blen []) size) as [|C]; [|unfold blen in C; simpl in C; lia].
    unfold fits at 1. cbn [fst snd]. destruct (Z.leb_spec (0 + blen []) size); [|lia]. cbn [andb].
    apply IH; [|done..]. destruct I as [L I]. split; [done|]. intros a Ha. by rewrite image_at_skip, I.
  - unfold section_address in A.
    destruct (get_section_vma run_tool objdump elf section) as [[vma|]|] eqn:G; try done.
    cbn [rbind] in A |- *. injection A as ->.
    destruct (fits size (off, b :: raw)); cbn [andb].
    + destruct P as (mem' & -> & I' & B'). cbn [rbind]. by apply IH.
    + by rewrite P.
Qed.

Lemma symbol_if_spec section symbol p :
  data_part section symbol p -> symbol_if run_tool (snd p) nm elf symbol = Ok (fst p).
Proof.
  intros (E & _ & H0 & A). unfold symbol_if. destruct p as [off raw]. cbn [fst snd] in *.
  destruct raw; [by subst off | done].
Qed.

Lemma place_data_spec size rodata data :
  data_part ".rodata" "_rodata_start" rodata -> data_part ".data" "_data_start" data -> 0 <= size ->
  if fits size rodata && fits size data then
    exists mem, place_data size rodata data (replicate (Z.to_nat size) 0) = Ok mem /\
      is_image [rodata; data] size mem /\ Forall is_byte mem
  else place_data size rodata data (replicate (Z.to_nat size) 0) = Err ValueError.
Proof.
  intros (_ & Br & Hr & _) (_ & Bd & Hd & _) Hs. unfold place_data.
  pose proof (place_blob_spec [] size (fst rodata) (snd rodata) _ (empty_image size Hs) (zero_bytes _) Br Hr) as P.
  rewrite <- surjective_pairing in P. destruct (fits size rodata); cbn [andb]; [|by rewrite P].
  destruct P as (m & -> & I & B). cbn [rbind].
  pose proof (place_blob_spec _ size (fst data) (snd data) m I B Bd Hd) as P.
  rewrite <- surjective_pairing in P. by destruct (fits size data).
Qed.

(** [elf2mem] against the images of the parts the tools report. *)
Lemma elf2mem_spec imem_sections imem_size dmem_size parts rodata data :
  Forall2 section_part (split_on "," "" imem_sections) parts ->
  data_part ".rodata" "_rodata_start" rodata -> data_part ".data" "_data_start" data ->
  0 <= imem_size -> 0 <= dmem_size ->
  if forallb (fits imem_size) parts && forallb (fits dmem_size) [rodata; data] then
    exists imem dmem,
      elf2mem run_tool tmp_path elf objcopy imem_sections imem_size dmem_size = Ok (mem_lines imem, mem_lines dmem) /\
      is_image parts imem_size imem /\ Forall is_byte imem /\
      is_image [rodata; data] dmem_size dmem /\ Forall is_byte dmem
  else elf2mem run_tool tmp_path elf objcopy imem_sections imem_size dmem_size = Err ValueError.
Proof.
  intros HP HR HD Hi Hd. unfold elf2mem.
  rewrite (bytearray_ok imem_size), (bytearray_ok dmem_size) by done. cbn [rbind].
  pose proof (place_sections_spec imem_size _ _ HP [] _ (empty_image _ Hi) (zero_bytes _) Hi) as P.
  destruct (forallb (fits imem_size) parts); cbn [andb]; [|by rewrite P].
  destruct P as (imem & -> & I & B). cbn [rbind]. rewrite (proj1 HR), (proj1 HD). cbn [rbind].
  rewrite (symbol_if_spec _ _ _ HR), (symbol_if_spec _ _ _ HD). cbn [rbind]. rewrite <- !surjective_pairing.
  pose proof (place_data_spec dmem_size rodata data HR HD Hd) as Q.
  cbn [forallb]. rewrite andb_true_r. destruct (fits dmem_size rodata && fits dmem_size data); [|by rewrite Q].
  destruct Q as (dmem & -> & I' & B'). cbn [rbind]. exists imem, dmem. by split_and!.
Qed.
End Spec.

(** C14: [elf2mem] writes two files that read back as exactly the intended memory
    images: every instruction section the ELF has is at the address [objdump -h]
    reports, [.rodata] and [.data] are at the addresses of their symbols, a later
    part lies over an earlier one, and every other byte is zero; each part that no
    later one touches is there byte for byte.  It raises [ValueError] exactly when
    some part ends beyond its memory. *)
Theorem elf_image_placed run_tool tmp_path elf objcopy imem_sections imem_size dmem_size parts rodata data :
  Forall2 (section_part run_tool tmp_path elf objcopy) (split_on "," "" imem_sections) parts ->
  data_part run_tool tmp_path elf objcopy ".rodata" "_rodata_start" rodata ->
  data_part run_tool tmp_path elf objcopy ".data" "_data_start" data ->
  0 <= imem_size -> 0 <= dmem_size ->
  if forallb (fits imem_size) parts && forallb (fits dmem_size) [rodata; data] then
    exists imem_file dmem_file imem dmem,
      elf2mem run_tool tmp_path elf objcopy imem_sections imem_size dmem_size = Ok (imem_file, dmem_file) /\
      read_mem imem_file imem_size = Ok imem /\ read_mem dmem_file dmem_size = Ok dmem /\
      is_image parts imem_size imem /\ is_image [rodata; data] dmem_size dmem /\
      (forall before p after, parts = (before ++ p :: after)%list -> Forall (fun q => apart p q = true) after ->
         py_slice imem (fst p) (fst p + blen (snd p)) = snd p)
  else elf2mem run_tool tmp_path elf objcopy imem_sections imem_size dmem_size = Err ValueError.
Proof.
  intros HP HR HD Hi Hd. pose proof (elf2mem_spec _ _ _ _ _ _ _ _ _ _ HP HR HD Hi Hd) as S.
  destruct (forallb (fits imem_size) parts) eqn:F; cbn [andb] in S |- *; [|exact S].
  destruct (forallb (fits dmem_size) [rodata; data]); [|exact S].
  destruct S as (imem & dmem & E & I & B & I' & B'). exists (mem_lines imem), (mem_lines dmem), imem, dmem.
  split_and!; [done | by apply read_mem_same; [|apply I] | by apply read_mem_same; [|apply I'] | done | done |].
  intros before p after -> A. rewrite forallb_app in F. cbn [forallb] in F. py_bool.
  apply (image_slice before p after imem_size); [done | | done | done].
  apply Forall2_app_inv_r in HP as (s1 & s2 & _ & HP & _). inversion HP as [|? ? ? ? (_ & _ & ? & _)]. done.
Qed.

(** A program of two instructions with a string and a word of data, as the
    binary utilities print it. *)
Definition demo_headers : string := "
prog.elf:     file format elf32-littleriscv

Sections:
Idx Name          Size      VMA       LMA       File off  Algn
  0 .text.init    00000004  00000000  00000000  00001000  2**2
                  CONTENTS, ALLOC, LOAD, READONLY, CODE
  1 .text         00000004  00000004  00000004  00001004  2**2
                  CONTENTS, ALLOC, LOAD, READONLY, CODE
".
Definition demo_symbols : string := "00000000 T _start
00000008 R _rodata_start
0000000c D _data_start
".
Definition demo_sections : list (string * list Z) :=
  [(".text.init", [0x93; 0x00; 0x30; 0x00]); (".text", [0x6F; 0; 0; 0]); (".rodata", [104; 105; 0]);
   (".data", [1; 0; 0; 0])].
Definition demo_tool (cmd : list string) : proc :=
  match cmd with
  | [_; _; _; _; section; _; _] =>
      mkProc 0 "" (match List.find (fun p => (fst p =? section)%string) demo_sections with Some p => snd p | None => [] end)
  | [_; _; _] => mkProc 0 demo_headers []
  | _ => mkProc 0 demo_symbols []
  end.

Lemma elf_image_placed_witness :
  exists imem_file dmem_file imem dmem,
    elf2mem demo_tool "t" "prog.elf" "riscv-none-elf-objcopy" ".text.init,.text" 16 16 = Ok (imem_file, dmem_file) /\
    read_mem imem_file 16 = Ok imem /\ read_mem dmem_file 16 = Ok dmem /\
    is_image [(0, [0x93; 0x00; 0x30; 0x00]); (4, [0x6F; 0; 0; 0])] 16 imem /\
    is_image [(8, [104; 105; 0]); (12, [1; 0; 0; 0])] 16 dmem /\
    (forall before p after,
       [(0, [0x93; 0x00; 0x30; 0x00]); (4, [0x6F; 0; 0; 0])] = (before ++ p :: after)%list ->
       Forall (fun q => apart p q = true) after -> py_slice imem (fst p) (fst p + blen (snd p)) = snd p).
Proof.
  refine (elf_image_placed demo_tool "t" "prog.elf" "riscv-none-elf-objcopy" ".text.init,.text" 16 16
    [(0, [0x93; 0x00; 0x30; 0x00]); (4, [0x6F; 0; 0; 0])] (8, [104; 105; 0]) (12, [1; 0; 0; 0]) _ _ _ _ _);
    try lia.
  - repeat constructor; try (by vm_compute); try (unfold is_byte; lia); cbn; lia.
  - repeat constructor; try (by vm_compute); try (unfold is_byte; lia); cbn; lia.
  - repeat constructor; try (by vm_compute); try (unfold is_byte; lia); cbn; lia.
Defined.
