(* ===== verification/BootImage.v ===== *)
(** * Boot images

    The image builders [src/sim/tools/build_sbi_firmware.py] and
    [build_linux_boot.py]: they compile the firmware, convert it with [elf2mem.py],
    write a device tree with [gen_dtb.py], and lay everything out in the images of
    the two memories.  The compiler is part of the parameter [run_tool] of
    [ElfImage]; the two Python tools they run as processes are the definitions of
    [ElfImage] and [Fdt], whose exceptions the caller sees as a failed command. *)

From Stdlib Require Import Ascii String.
From S2P Require Import Prelude Bits PyStr Asm Disasm PyText AsmText AsmLink AsmImage MemFile Fdt FdtRead FdtCore.
From S2P Require Import ElfImage.
Open Scope string_scope.
Open Scope Z_scope.

(** [gen_dtb.py]'s [main], up to the bytes it writes. *)
Definition gen_dtb (mem_size timebase_freq uart_clock_freq : Z) (bootargs : string)
    (initrd_start initrd_end : option Z) : result (list Z) :=
  let! blob := build_this_core_dtb mem_size timebase_freq uart_clock_freq bootargs initrd_start initrd_end in
  let! _ := parse_and_validate blob in
  Ok blob.
(** The defaults of its options. *)
Definition TIMEBASE_FREQ := 1000000.
Definition UART_CLOCK_FREQ := 1843200.
Definition DEFAULT_BOOTARGS := "console=ttyS0 earlycon".

(** [run] on a Python script: any exception of the script is a non-zero exit. *)
Definition run_script {A} (m : result A) : result A := match m with Ok a => Ok a | Err _ => Err RuntimeError end.

(** ** Both builders' compile steps *)

Section Build.
Variable run_tool : list string -> proc.
Variable tmp_path HERE : string.

Definition FW_DIR : string := path_join (path_join HERE "..") "firmware".

Definition run_cmd (cmd : list string) : result proc :=
  let r := run_tool cmd in if negb (returncode r =? 0) then Err RuntimeError else Ok r.

(** The loop that compiles each source to an object of its own name. *)
Fixpoint compile_objects (gcc build_dir : string) (cflags sources : list string) : result (list string) :=
  match sources with
  | [] => Ok []
  | src :: rest =>
      let obj := path_join build_dir (file_stem src ++ ".o") in
      let! _ := run_cmd ([gcc] ++ cflags ++ ["-c"; path_join FW_DIR src; "-o"; obj])%list in
      let! objects := compile_objects gcc build_dir cflags rest in
      Ok (obj :: objects)
  end.
Definition build_elf (gcc build_dir elf_path : string) (cflags sources : list string) : result string :=
  let! objects := compile_objects gcc build_dir cflags sources in
  let! _ := run_cmd ([gcc] ++ cflags ++ objects ++ ["-o"; elf_path])%list in
  Ok elf_path.

(** ** [build_sbi_firmware.py] *)

Definition SBI_MEM_SIZE := 32768.
Definition SBI_DTB_ADDR := 0x4000.
Definition SBI_BUILD_DIR : string := path_join FW_DIR "build".

(** The loop that writes the lines of the blob. *)
Fixpoint overlay_lines (addr : Z) (dtb : list Z) (lines : list string) : result (list string) :=
  match dtb with
  | [] => Ok lines
  | b :: dtb => let! lines := py_set lines addr (bin8 b) in overlay_lines (addr + 1) dtb lines
  end.
Definition overlay_dtb_into_dmem (lines : list string) (dtb : list Z) (dtb_addr : Z) : result (list string) :=
  if Z.of_nat (List.length lines) <? dtb_addr + blen dtb then Err ValueError
  else overlay_lines dtb_addr dtb lines.

Definition sbi_cflags (spec_version : Z) : list string :=
  ["-march=rv64imafd_zicsr"; "-mabi=lp64"; "-nostdlib"; "-nostartfiles"; "-ffreestanding";
   "-msmall-data-limit=0"; "-O1"; "-DSPEC_VERSION_TO_REPORT=" ++ show_dec spec_version;
   "-Wl,-T," ++ path_join FW_DIR "link_sbi.ld"; "-I"; FW_DIR].
Definition sbi_sources : list string := ["boot.S"; "trap_entry.S"; "sbi.c"; "payload_start.S"; "payload.c"].

Definition build_sbi_firmware (gcc objcopy : string) (spec_version : Z) : result (list string * list string) :=
  let elf_path := path_join SBI_BUILD_DIR "sbi_firmware.elf" in
  let! elf := build_elf gcc SBI_BUILD_DIR elf_path (sbi_cflags spec_version) sbi_sources in
  let! (imem, dmem) :=
    run_script (elf2mem run_tool tmp_path elf objcopy ".text.boot,.text.payload" SBI_MEM_SIZE SBI_MEM_SIZE) in
  let! dtb := run_script (gen_dtb SBI_MEM_SIZE TIMEBASE_FREQ UART_CLOCK_FREQ DEFAULT_BOOTARGS None None) in
  let! dmem := overlay_dtb_into_dmem dmem dtb SBI_DTB_ADDR in
  Ok (imem, dmem).

(** ** [build_linux_boot.py] *)

Definition MEM_SIZE_BYTES := 64 * 1024 * 1024.
Definition FW_LINK_SIZE := 32768.
Definition KERNEL_LOAD_ADDR := 0x200000.
Definition INITRD_ADDR := 0x1000000.
Definition DTB_ADDR_KERNEL := 0x1500000.
Definition LINUX_BUILD_DIR : string := path_join FW_DIR "build_linux".
Definition LINUX_BOOTARGS := "earlycon=uart8250,mmio,0x10000000,1000000n8 console=ttyS0 rdinit=/init".

(** [struct.unpack_from("<Q", data, off)[0]] *)
Fixpoint le_int (bs : list Z) : Z := match bs with [] => 0 | b :: bs => b + 256 * le_int bs end.
Definition unpack_from_Q (data : list Z) (off : Z) : result Z :=
  if blen data <? off + 8 then Err StructError else Ok (le_int (py_slice data off (off + 8))).

(** The checks on the kernel and the sizes: the magic is ["RISCV\0\0\0"]. *)
Definition RISCV_MAGIC : list Z := [82; 73; 83; 67; 86; 0; 0; 0].
Definition check_inputs (kernel_bytes initramfs_bytes : list Z) : result unit :=
  let! text_offset := unpack_from_Q kernel_bytes 0x08 in
  let magic := py_slice kernel_bytes 0x30 0x38 in
  if negb (bool_decide (magic = RISCV_MAGIC)) then Err ValueError
  else if negb (text_offset =? KERNEL_LOAD_ADDR) then Err ValueError
  else if INITRD_ADDR <? KERNEL_LOAD_ADDR + blen kernel_bytes then Err ValueError
  else if DTB_ADDR_KERNEL <? INITRD_ADDR + blen initramfs_bytes then Err ValueError
  else Ok tt.

Definition linux_cflags : list string :=
  ["-march=rv64imafd_zicsr"; "-mabi=lp64"; "-nostdlib"; "-nostartfiles"; "-ffreestanding";
   "-msmall-data-limit=0"; "-O1"; "-DSPEC_VERSION_TO_REPORT=2";
   "-DKERNEL_ENTRY=0x" ++ show_hex KERNEL_LOAD_ADDR; "-DKERNEL_DTB_ADDR=0x" ++ show_hex DTB_ADDR_KERNEL;
   "-Wl,-T," ++ path_join FW_DIR "link_sbi.ld"; "-I"; FW_DIR].
Definition linux_sources : list string := ["boot.S"; "trap_entry.S"; "sbi.c"].

(** [mem[off:off + len(blob)] = blob] *)
Definition put (off : Z) (blob mem : list Z) : list Z := slice_assign mem off (off + blen blob) blob.

Definition combine_images (fw_imem fw_dmem kernel_bytes initramfs_bytes dtb_bytes : list Z)
  : result (list Z * list Z * Z) :=
  let content_end := DTB_ADDR_KERNEL + blen dtb_bytes in
  let zero_init_limit := ((content_end + 4095) / 4096) * 4096 in
  let! imem := bytearray zero_init_limit in
  let imem := put 0 fw_imem imem in
  let imem := put KERNEL_LOAD_ADDR kernel_bytes imem in
  let! dmem := bytearray zero_init_limit in
  let dmem := put 0 fw_dmem dmem in
  let dmem := put KERNEL_LOAD_ADDR kernel_bytes dmem in
  let dmem := put INITRD_ADDR initramfs_bytes dmem in
  let dmem := put DTB_ADDR_KERNEL dtb_bytes dmem in
  Ok (imem, dmem, zero_init_limit).

(** [main]: the two files and the limit it prints. *)
Definition build_linux_boot (gcc objcopy : string) (kernel_bytes initramfs_bytes : list Z) (mem_size : Z)
  : result (list string * list string * Z) :=
  let! _ := check_inputs kernel_bytes initramfs_bytes in
  let fw_elf := path_join LINUX_BUILD_DIR "fw.elf" in
  let! fw_elf := build_elf gcc LINUX_BUILD_DIR fw_elf linux_cflags linux_sources in
  let! (fw_imem_file, fw_dmem_file) :=
    run_script (elf2mem run_tool tmp_path fw_elf objcopy ".text.boot" FW_LINK_SIZE FW_LINK_SIZE) in
  let! fw_imem := read_mem fw_imem_file FW_LINK_SIZE in
  let! fw_dmem := read_mem fw_dmem_file FW_LINK_SIZE in
  let! dtb_bytes :=
    run_script (gen_dtb mem_size TIMEBASE_FREQ UART_CLOCK_FREQ LINUX_BOOTARGS
                  (Some INITRD_ADDR) (Some (INITRD_ADDR + blen initramfs_bytes))) in
  if mem_size <? DTB_ADDR_KERNEL + blen dtb_bytes then Err ValueError
  else
    let! (imem, dmem, limit) := combine_images fw_imem fw_dmem kernel_bytes initramfs_bytes dtb_bytes in
    Ok (mem_lines imem, mem_lines dmem, limit).
End Build.

(** ** Lemmas *)

Lemma put_image parts size off blob mem :
  is_image parts size mem -> Forall is_byte mem -> Forall is_byte blob -> 0 <= off -> off + blen blob <= size ->
  is_image (parts ++ [(off, blob)]) size (put off blob mem) /\ Forall is_byte (put off blob mem).
Proof.
  intros I B Bb H0 H1. pose proof (place_blob_spec parts size off blob mem I B Bb H0) as P.
  unfold fits, place_blob in P. cbn [fst snd] in P.
  destruct (Z.leb_spec (off + blen blob) size), (Z.ltb_spec size (off + blen blob)); try lia.
  destruct P as (mem' & [= <-] & P). exact P.
Qed.

Lemma put_cons off b blob mem :
  0 <= off -> off + blen (b :: blob) <= blen mem ->
  put off (b :: blob) mem = put (off + 1) blob (<[Z.to_nat off := b]> mem).
Proof.
  unfold put, blen. cbn [List.length]. intros H0 H1.
  pose proof (slice_assign_in mem off (b :: blob) H0) as E. cbn [List.length] in E. rewrite E by lia. clear E.
  rewrite (slice_assign_in (<[_:=_]> mem)) by (rewrite ?length_insert; lia).
  replace (Z.to_nat (off + 1)) with (S (Z.to_nat off)) by lia.
  rewrite (take_S_r _ _ b) by (apply list_lookup_insert_eq; lia).
  rewrite take_insert_ge, drop_insert_lt by lia. rewrite <- app_assoc. by rewrite Nat.add_succ_r.
Qed.

Lemma py_set_in {A} (l : list A) n v :
  0 <= n < Z.of_nat (List.length l) -> py_set l n v = Ok (<[Z.to_nat n := v]> l).
Proof.
  intros H. unfold py_set. destruct (Z.ltb_spec n 0); [lia|].
  destruct (Z.ltb_spec n 0), (Z.leb_spec (Z.of_nat (List.length l)) n); try lia. done.
Qed.

(** Overlaying the lines of a file overlays its bytes. *)
Lemma overlay_spec dtb : forall addr data,
  0 <= addr -> addr + blen dtb <= blen data ->
  overlay_lines addr dtb (mem_lines data) = Ok (mem_lines (put addr dtb data)).
Proof.
  induction dtb as [|b dtb IH]; intros addr data H0 H1; cbn [overlay_lines].
  { unfold put. change (blen []) with (Z.of_nat (List.length (@nil Z))) in *. unfold blen in H1.
    rewrite slice_assign_in by done. cbn [List.length app]. by rewrite Nat.add_0_r, take_drop. }
  assert (0 <= blen dtb) by (unfold blen; lia).
  assert (blen (b :: dtb) = blen dtb + 1) as L by (unfold blen; cbn [List.length]; lia).
  rewrite py_set_in by (unfold mem_lines; rewrite length_map; unfold blen in *; lia). cbn [rbind].
  rewrite put_cons by lia.
  replace (<[Z.to_nat addr := bin8 b]> (mem_lines data)) with (mem_lines (<[Z.to_nat addr := b]> data))
    by apply list_fmap_insert.
  apply IH; [lia|]. unfold blen in *. rewrite length_insert. lia.
Qed.

(** The device tree the builders get. *)
Lemma gen_dtb_ok mem tb uart bootargs s e :
  blen (bytes_of bootargs) < 2 ^ 31 -> forallb (fun b => b <? 128) (bytes_of bootargs) = true ->
  exists dtb, gen_dtb mem tb uart bootargs s e = Ok dtb /\
    read_tree dtb = Some (core_events mem tb uart bootargs (both s e)) /\
    Forall is_byte dtb /\ blen dtb <= 2060 + blen (bytes_of bootargs).
Proof.
  intros H1 H2. destruct (core_dtb_built mem tb uart bootargs s e H1 H2) as (blob & B & P & R & F & L).
  exists blob. unfold gen_dtb. rewrite B. cbn [rbind]. by rewrite P.
Qed.

Section Compile.
Context (run_tool : list string -> proc) (HERE gcc : string).
Hypothesis gcc_ok : forall args, returncode (run_tool (gcc :: args)) = 0.

Lemma build_elf_ok build_dir elf cflags sources :
  build_elf run_tool HERE gcc build_dir elf cflags sources = Ok elf.
Proof.
  unfold build_elf.
  assert (exists objs, compile_objects run_tool HERE gcc build_dir cflags sources = Ok objs) as [objs ->].
  { induction sources as [|s ss [objs IH]]; [by eexists|]. cbn [compile_objects]. unfold run_cmd.
    cbn [app]. rewrite gcc_ok, IH. by eexists. }
  unfold run_cmd. cbn [rbind app]. by rewrite gcc_ok.
Qed.
End Compile.

Lemma limit_spec n : 0 <= n ->
  let limit := ((n + 4095) / 4096) * 4096 in limit mod 4096 = 0 /\ n <= limit < n + 4096.
Proof.
  intros H. cbv zeta. split; [apply Z_mod_mult|].
  pose proof (Z.div_mod (n + 4095) 4096 ltac:(lia)). pose proof (Z.mod_pos_bound (n + 4095) 4096 ltac:(lia)). lia.
Qed.

(** A part that starts beyond every other is the whole of its slice. *)
Lemma apart_sym p q : apart p q = apart q p.
Proof. unfold apart. apply orb_comm. Qed.

(** ** The Linux image *)

(** Every precondition [main] checks on the files it is given. *)
Definition bootable (kernel initramfs : list Z) : bool :=
  (16 <=? blen kernel) && bool_decide (py_slice kernel 0x30 0x38 = RISCV_MAGIC) &&
  (le_int (py_slice kernel 8 16) =? KERNEL_LOAD_ADDR) &&
  (KERNEL_LOAD_ADDR + blen kernel <=? INITRD_ADDR) && (INITRD_ADDR + blen initramfs <=? DTB_ADDR_KERNEL).

Lemma check_inputs_spec kernel initramfs :
  check_inputs kernel initramfs =
  if bootable kernel initramfs then Ok tt else Err (if blen kernel <? 16 then StructError else ValueError).
Proof.
  unfold check_inputs, bootable, unpack_from_Q. change (8 + 8) with 16.
  destruct (Z.ltb_spec (blen kernel) 16), (Z.leb_spec 16 (blen kernel)); try lia; [done|].
  cbn [rbind andb]. destruct (bool_decide _); cbn [negb andb]; [|done].
  destruct (_ =? KERNEL_LOAD_ADDR); cbn [negb andb]; [|done].
  destruct (Z.ltb_spec INITRD_ADDR (KERNEL_LOAD_ADDR + blen kernel)),
    (Z.leb_spec (KERNEL_LOAD_ADDR + blen kernel) INITRD_ADDR); try lia; [done|]. cbn [andb].
  destruct (Z.ltb_spec DTB_ADDR_KERNEL (INITRD_ADDR + blen initramfs)),
    (Z.leb_spec (INITRD_ADDR + blen initramfs) DTB_ADDR_KERNEL); try lia; done.
Qed.

Definition linux_imem (fw kernel : list Z) : list (Z * list Z) := [(0, fw); (KERNEL_LOAD_ADDR, kernel)].
Definition linux_dmem (fw kernel initramfs dtb : list Z) : list (Z * list Z) :=
  [(0, fw); (KERNEL_LOAD_ADDR, kernel); (INITRD_ADDR, initramfs); (DTB_ADDR_KERNEL, dtb)].

(** Pairwise disjoint parts, each the slice of an image of them at its address. *)
Definition holds_all (parts : list (Z * list Z)) (mem : list Z) : Prop :=
  Forall (fun p => py_slice mem (fst p) (fst p + blen (snd p)) = snd p) parts.

Lemma image_holds parts size mem :
  is_image parts size mem -> Forall (fun p => 0 <= fst p) parts -> forallb (fits size) parts = true ->
  ForallOrdPairs (fun p q => apart p q = true) parts -> holds_all parts mem.
Proof.
  intros I H0 F A. assert (exists before, is_image (before ++ parts) size mem) as [before I'] by by exists [].
  clear I. revert before I'. induction A as [|p parts Ap _ IH]; intros before I; [constructor|].
  apply Forall_cons in H0 as [Hp H0]. cbn [forallb] in F. apply andb_true_iff in F as [Fp F]. constructor.
  - by apply (image_slice before p parts size).
  - apply (IH H0 F (before ++ [p])%list). by rewrite <- app_assoc.
Qed.

Section LinuxSpec.
Context (fw_imem fw_dmem kernel initramfs dtb : list Z).
Hypothesis (Bi : Forall is_byte fw_imem) (Bd : Forall is_byte fw_dmem) (Bk : Forall is_byte kernel)
  (Br : Forall is_byte initramfs) (Bt : Forall is_byte dtb).
Hypothesis (Li : blen fw_imem = FW_LINK_SIZE) (Ld : blen fw_dmem = FW_LINK_SIZE).
Hypothesis (Hk : KERNEL_LOAD_ADDR + blen kernel <= INITRD_ADDR).
Hypothesis (Hr : INITRD_ADDR + blen initramfs <= DTB_ADDR_KERNEL).

Lemma combine_images_spec :
  exists imem dmem limit,
    combine_images fw_imem fw_dmem kernel initramfs dtb = Ok (imem, dmem, limit) /\
    limit mod 4096 = 0 /\ DTB_ADDR_KERNEL + blen dtb <= limit < DTB_ADDR_KERNEL + blen dtb + 4096 /\
    is_image (linux_imem fw_imem kernel) limit imem /\ Forall is_byte imem /\
    is_image (linux_dmem fw_dmem kernel initramfs dtb) limit dmem /\ Forall is_byte dmem.
Proof.
  assert (forall l, 0 <= blen l) as N by (intros; unfold blen; lia).
  destruct (limit_spec (DTB_ADDR_KERNEL + blen dtb)) as [M1 M2]; [specialize (N dtb); unfold DTB_ADDR_KERNEL; lia|].
  unfold combine_images. set (limit := (_ + 4095) / 4096 * 4096) in *.
  pose proof (N dtb). pose proof (N initramfs). pose proof (N kernel).
  unfold DTB_ADDR_KERNEL, INITRD_ADDR, KERNEL_LOAD_ADDR, FW_LINK_SIZE in *.
  rewrite bytearray_ok by lia. cbn [rbind]. do 3 eexists. split; [reflexivity|].
  pose proof (empty_image limit ltac:(lia)) as I0. pose proof (zero_bytes (Z.to_nat limit)) as B0.
  destruct (put_image [] limit 0 fw_imem _ I0 B0 Bi) as [I1 B1]; [lia..|].
  destruct (put_image _ limit KERNEL_LOAD_ADDR kernel _ I1 B1 Bk) as [I2 B2]; [unfold KERNEL_LOAD_ADDR; lia..|].
  destruct (put_image [] limit 0 fw_dmem _ I0 B0 Bd) as [J1 C1]; [lia..|].
  destruct (put_image _ limit KERNEL_LOAD_ADDR kernel _ J1 C1 Bk) as [J2 C2]; [unfold KERNEL_LOAD_ADDR; lia..|].
  destruct (put_image _ limit INITRD_ADDR initramfs _ J2 C2 Br) as [J3 C3]; [unfold INITRD_ADDR; lia..|].
  destruct (put_image _ limit DTB_ADDR_KERNEL dtb _ J3 C3 Bt) as [J4 C4]; [unfold DTB_ADDR_KERNEL; lia..|].
  split_and!; (done || lia).
Qed.

Lemma linux_dmem_holds limit dmem :
  is_image (linux_dmem fw_dmem kernel initramfs dtb) limit dmem -> DTB_ADDR_KERNEL + blen dtb <= limit ->
  holds_all (linux_dmem fw_dmem kernel initramfs dtb) dmem.
Proof.
  intros I Hl. assert (forall l, 0 <= blen l) as N by (intros; unfold blen; lia).
  pose proof (N dtb). pose proof (N initramfs). pose proof (N kernel).
  unfold DTB_ADDR_KERNEL, INITRD_ADDR, KERNEL_LOAD_ADDR, FW_LINK_SIZE in *.
  apply (image_holds _ limit); [done | | |].
  - unfold linux_dmem, DTB_ADDR_KERNEL, INITRD_ADDR, KERNEL_LOAD_ADDR.
    rewrite !Forall_cons. cbn [fst]. split_and!; (apply Forall_nil_2 || lia).
  - unfold linux_dmem, fits, DTB_ADDR_KERNEL, INITRD_ADDR, KERNEL_LOAD_ADDR. cbn [forallb fst snd].
    rewrite !andb_true_iff, !Z.leb_le. lia.
  - unfold linux_dmem, apart, DTB_ADDR_KERNEL, INITRD_ADDR, KERNEL_LOAD_ADDR.
    repeat apply FOP_cons; try apply FOP_nil; rewrite ?Forall_cons; cbn [fst snd];
      rewrite ?orb_true_iff, ?Z.leb_le; split_and?; (apply Forall_nil_2 || (left; lia)).
Qed.
End LinuxSpec.

Lemma is_image_len parts size mem : is_image parts size mem -> Z.of_nat (List.length mem) = size.
Proof. by intros [L _]. Qed.

(** C19: the Linux boot image, from the files to the memories.  With a compiler
    that accepts its commands and firmware that fits its 32 KiB, the builder checks
    the kernel header and the sizes, raising [struct.error] on a header that is cut
    short and [ValueError] on any other failed check; then it writes two images, of
    the least multiple of 4096 bytes that holds the content, whose bytes are: in the
    instruction memory the firmware's and the kernel's, in the data memory the
    firmware's, the kernel's, the initramfs and the device tree, each whole and at
    its own address, and zero elsewhere.  The device tree is the one that says where
    the initramfs starts and ends, in at most 2130 bytes; only if it ends beyond the memory is [ValueError]
    raised. *)
Theorem linux_image_laid_out run_tool tmp_path HERE gcc objcopy kernel initramfs mem_size text rodata data :
  let fw_elf := path_join (LINUX_BUILD_DIR HERE) "fw.elf" in
  (forall args, returncode (run_tool (gcc :: args)) = 0) ->
  Forall2 (section_part run_tool tmp_path fw_elf objcopy) [".text.boot"] [text] ->
  data_part run_tool tmp_path fw_elf objcopy ".rodata" "_rodata_start" rodata ->
  data_part run_tool tmp_path fw_elf objcopy ".data" "_data_start" data ->
  forallb (fits FW_LINK_SIZE) [text; rodata; data] = true ->
  Forall is_byte kernel -> Forall is_byte initramfs ->
  let boot := build_linux_boot run_tool tmp_path HERE gcc objcopy kernel initramfs mem_size in
  if bootable kernel initramfs then
    exists dtb,
      read_tree dtb = Some (core_events mem_size TIMEBASE_FREQ UART_CLOCK_FREQ LINUX_BOOTARGS
                              (Some (INITRD_ADDR, INITRD_ADDR + blen initramfs))) /\
      blen dtb <= 2130 /\
      if DTB_ADDR_KERNEL + blen dtb <=? mem_size then
        exists imem_file dmem_file limit imem dmem fw_imem fw_dmem,
          boot = Ok (imem_file, dmem_file, limit) /\
          limit mod 4096 = 0 /\ DTB_ADDR_KERNEL + blen dtb <= limit < DTB_ADDR_KERNEL + blen dtb + 4096 /\
          read_mem imem_file limit = Ok imem /\ read_mem dmem_file limit = Ok dmem /\
          is_image [text] FW_LINK_SIZE fw_imem /\ is_image [rodata; data] FW_LINK_SIZE fw_dmem /\
          is_image (linux_imem fw_imem kernel) limit imem /\
          is_image (linux_dmem fw_dmem kernel initramfs dtb) limit dmem /\
          holds_all (linux_dmem fw_dmem kernel initramfs dtb) dmem
      else boot = Err ValueError
  else boot = Err (if blen kernel <? 16 then StructError else ValueError).
Proof.
  intros fw_elf G HT HR HD F Bk Bi boot. unfold boot, build_linux_boot. rewrite check_inputs_spec.
  destruct (bootable kernel initramfs) eqn:HB; [|done]. unfold bootable in HB. py_bool. cbn [rbind].
  rewrite build_elf_ok by done. cbn [rbind]. fold fw_elf. cbn [forallb] in F. rewrite !andb_true_iff in F.
  destruct F as (F1 & F2 & F3 & _).
  pose proof (elf2mem_spec run_tool tmp_path fw_elf objcopy ".text.boot" FW_LINK_SIZE FW_LINK_SIZE
    [text] rodata data HT HR HD ltac:(done) ltac:(done)) as S.
  cbn [forallb] in S. rewrite F1, F2, F3 in S. cbn [andb] in S.
  destruct S as (fi & fd & -> & Ii & Bfi & Id & Bfd). cbn [rbind run_script].
  rewrite !read_mem_same by (done || by eapply is_image_len). cbn [rbind].
  destruct (gen_dtb_ok mem_size TIMEBASE_FREQ UART_CLOCK_FREQ LINUX_BOOTARGS (Some INITRD_ADDR)
    (Some (INITRD_ADDR + blen initramfs))) as (dtb & -> & R & Bt & Lt); [done | done|].
  cbn [rbind run_script]. exists dtb. split; [exact R|]. split; [exact Lt|].
  destruct (Z.leb_spec (DTB_ADDR_KERNEL + blen dtb) mem_size), (Z.ltb_spec mem_size (DTB_ADDR_KERNEL + blen dtb));
    try lia; [|done].
  destruct (combine_images_spec fi fd kernel initramfs dtb) as (imem & dmem & limit & -> & M & L & I & BI & D & BD);
    try done; try (by eapply is_image_len). cbn [rbind].
  exists (mem_lines imem), (mem_lines dmem), limit, imem, dmem, fi, fd.
  split_and!; try done; try lia; try (apply read_mem_same; [done | by eapply is_image_len]).
  apply (linux_dmem_holds fd kernel initramfs dtb) with (limit := limit); try done; [by eapply is_image_len | lia].
Qed.

(** A compiler and binary utilities for firmware of one instruction, and a kernel
    that is a header only. *)
Definition boot_headers : string := "Idx Name          Size      VMA               LMA
  0 .text.boot    00000004  0000000000000000  0000000000000000  00001000  2**2
".
Definition boot_tool (cmd : list string) : proc :=
  match cmd with
  | [_; _; _; _; section; _; _] => mkProc 0 "" (if (section =? ".text.boot")%string then [0x6F; 0; 0; 0] else [])
  | _ => mkProc 0 boot_headers []
  end.
Definition header_only : list Z :=
  (replicate 8 0 ++ [0; 0; 0x20; 0; 0; 0; 0; 0] ++ replicate 32 0 ++ RISCV_MAGIC ++ replicate 8 0)%list.

Lemma linux_image_laid_out_witness :
  exists imem_file dmem_file limit,
    build_linux_boot boot_tool "t" "tools" "gcc" "objcopy" header_only [1; 2; 3] MEM_SIZE_BYTES =
    Ok (imem_file, dmem_file, limit).
Proof.
  destruct (linux_image_laid_out boot_tool "t" "tools" "gcc" "objcopy" header_only [1; 2; 3] MEM_SIZE_BYTES
    (0, [0x6F; 0; 0; 0]) (0, []) (0, [])) as (dtb & _ & L & H).
  - intros args. do 7 (destruct args as [|? args]; [reflexivity|]). reflexivity.
  - repeat constructor; try (by vm_compute); try (unfold is_byte; lia).
  - repeat constructor; try (by vm_compute).
  - repeat constructor; try (by vm_compute).
  - reflexivity.
  - apply Forall_forall. intros b Hb. unfold header_only, RISCV_MAGIC in Hb. cbn in Hb.
    repeat (apply elem_of_cons in Hb as [->|Hb]; [unfold is_byte; lia|]). by apply elem_of_nil in Hb.
  - repeat constructor; unfold is_byte; lia.
  - destruct (Z.leb_spec (DTB_ADDR_KERNEL + blen dtb) MEM_SIZE_BYTES) as [_|C];
      [|unfold DTB_ADDR_KERNEL, MEM_SIZE_BYTES in C; lia].
    destruct H as (i & d & limit & _ & _ & _ & _ & E & _). exists i, d, limit. exact E.
Defined.

(** ** The SBI firmware image *)

(** The firmware image is the converted ELF with the device tree over it at
    [DTB_ADDR], and is written exactly when the sections fit. *)
Lemma sbi_image run_tool tmp_path HERE gcc objcopy spec_version parts rodata data :
  let elf := path_join (SBI_BUILD_DIR HERE) "sbi_firmware.elf" in
  (forall args, returncode (run_tool (gcc :: args)) = 0) ->
  Forall2 (section_part run_tool tmp_path elf objcopy) [".text.boot"; ".text.payload"] parts ->
  data_part run_tool tmp_path elf objcopy ".rodata" "_rodata_start" rodata ->
  data_part run_tool tmp_path elf objcopy ".data" "_data_start" data ->
  let built := build_sbi_firmware run_tool tmp_path HERE gcc objcopy spec_version in
  if forallb (fits SBI_MEM_SIZE) parts && forallb (fits SBI_MEM_SIZE) [rodata; data] then
    exists imem dmem dtb,
      built = Ok (mem_lines imem, mem_lines dmem) /\
      is_image parts SBI_MEM_SIZE imem /\ is_image [rodata; data; (SBI_DTB_ADDR, dtb)] SBI_MEM_SIZE dmem /\
      read_tree dtb = Some (core_events SBI_MEM_SIZE TIMEBASE_FREQ UART_CLOCK_FREQ DEFAULT_BOOTARGS None)
  else built = Err RuntimeError.
Proof.
  intros elf G HP HR HD built. unfold built, build_sbi_firmware. rewrite build_elf_ok by done. cbn [rbind]. fold elf.
  pose proof (elf2mem_spec run_tool tmp_path elf objcopy ".text.boot,.text.payload" SBI_MEM_SIZE SBI_MEM_SIZE
    parts rodata data HP HR HD ltac:(done) ltac:(done)) as S.
  destruct (forallb (fits SBI_MEM_SIZE) parts && forallb (fits SBI_MEM_SIZE) [rodata; data]);
    [|by rewrite S]. destruct S as (imem & dmem & -> & Ii & Bi & Id & Bd). cbn [rbind run_script].
  destruct (gen_dtb_ok SBI_MEM_SIZE TIMEBASE_FREQ UART_CLOCK_FREQ DEFAULT_BOOTARGS None None)
    as (dtb & -> & R & Bt & Lt); [done | done|]. cbn [rbind run_script].
  change (blen (bytes_of DEFAULT_BOOTARGS)) with 22 in Lt. unfold overlay_dtb_into_dmem, mem_lines at 1.
  rewrite length_map, (is_image_len _ _ _ Id). unfold SBI_MEM_SIZE, SBI_DTB_ADDR in *.
  destruct (Z.ltb_spec 32768 (0x4000 + blen dtb)); [lia|].
  rewrite overlay_spec by (try lia; rewrite (proj1 Id); lia). cbn [rbind].
  exists imem, (put 0x4000 dtb dmem), dtb. split_and!; try done.
  apply (put_image [rodata; data] 32768 0x4000 dtb dmem Id Bd Bt); lia.
Qed.
