(* ===== verification/RandGen.v ===== *)
(** * The random program generator

    [src/sim/tools/random_gen.py].  The draws of [random.Random] are an argument:
    a list of integers, one for each call that asks for randomness (zeros once the
    list is used up), reduced to the range of the call.  Every value a call can
    return is the reduction of some integer, so a statement for all lists is a
    statement for all seeds.  A program is the list of its lines; [text] joins
    them as the module does. *)

From Stdlib Require Import Ascii String.
From S2P Require Import Prelude Bits PyStr Asm Disasm PyText.
Open Scope string_scope.
Open Scope Z_scope.

Definition GP_REGS : list Z := seqZ 1 30.
Definition FREGS : list Z := seqZ 0 32.
Definition BASE_REG := 31.

Module Pool.
Definition R_TYPE := ["add"; "sub"; "sll"; "slt"; "sltu"; "xor"; "srl"; "sra"; "or"; "and";
  "mul"; "mulh"; "mulhsu"; "mulhu"; "div"; "divu"; "rem"; "remu"].
Definition I_TYPE := ["addi"; "slti"; "sltiu"; "xori"; "ori"; "andi"].
Definition SHIFT_I := ["slli"; "srli"; "srai"].
Definition BRANCH := ["beq"; "bne"; "blt"; "bge"; "ble"; "bgt"; "bltu"; "bgeu"].
Definition CSR_REG_OP := ["csrrw"; "csrrs"; "csrrc"].
Definition CSR_IMM_OP := ["csrrwi"; "csrrsi"; "csrrci"].
Definition CSR_NAMES := ["mstatus"; "mtvec"; "mscratch"; "mepc"; "mcause"].
Definition FP_ARITH := ["fadd.s"; "fsub.s"; "fmul.s"; "fdiv.s"].
Definition FP_SGNJ := ["fsgnj.s"; "fsgnjn.s"; "fsgnjx.s"].
Definition FP_MINMAX := ["fmin.s"; "fmax.s"].
Definition FP_CMP := ["feq.s"; "flt.s"; "fle.s"].
Definition FP_CVT_TO_INT := ["fcvt.w.s"; "fcvt.wu.s"].
Definition FP_CVT_FROM_INT := ["fcvt.s.w"; "fcvt.s.wu"].
Definition FMADD_FAMILY := ["fmadd.s"; "fmsub.s"; "fnmsub.s"; "fnmadd.s"].
Definition RM_NAMES := ["rne"; "rtz"; "rdn"; "rup"; "rmm"; "dyn"].
(** [FCSR_ADDR[name] for name in FCSR_NAMES] *)
Definition FCSR_ADDRS := ["0x1"; "0x2"; "0x3"].
Definition R_TYPE_W := ["addw"; "subw"; "sllw"; "srlw"; "sraw"; "mulw"; "divw"; "divuw"; "remw"; "remuw"].
Definition I_TYPE_W := ["addiw"; "slliw"; "srliw"; "sraiw"].
End Pool.

Definition FLOAT_SEED_BITS : list Z :=
  [0x00000000; 0x3F800000; 0xBF800000; 0x7F800000; 0x7FC00000; 0x00400000].

(** ** Constants *)

(** [f"{mn} {a}, {b}, ..."] *)
Fixpoint spaced_args (args : list string) : string :=
  match args with
  | [] => ""
  | [a] => a
  | a :: rest => (a ++ ", " ++ spaced_args rest)%string
  end.
Definition ins (mn : string) (args : list string) : string := (mn ++ " " ++ spaced_args args)%string.
(** [f"{n:#x}"] *)
Definition hex (n : Z) : string := ("0x" ++ show_hex n)%string.

Definition const_to_reg_instrs (rd bits32 : Z) : list string :=
  let lo := bits32 .& 0xFFF in
  let hi := (bits32 ≫ 12) .& 0xFFFFF in
  let hi := if truthy (lo .& 0x800) then (hi + 1) .& 0xFFFFF else hi in
  let lines := [ins "lui" [x_name rd; hex hi]] in
  if negb (lo =? 0) then
    let lo_signed := if truthy (lo .& 0x800) then lo - 0x1000 else lo in
    (lines ++ [ins "addi" [x_name rd; x_name rd; show_dec lo_signed]])%list
  else lines.

Definition const64_to_reg_instrs (rd rd_scratch bits64 : Z) : list string :=
  let hi32 := (bits64 ≫ 32) .& 0xFFFFFFFF in
  let lo32 := bits64 .& 0xFFFFFFFF in
  (const_to_reg_instrs rd hi32 ++
   [ins "slli" [x_name rd; x_name rd; "32"]] ++
   const_to_reg_instrs rd_scratch lo32 ++
   [ins "slli" [x_name rd_scratch; x_name rd_scratch; "32"];
    ins "srli" [x_name rd_scratch; x_name rd_scratch; "32"];
    ins "or" [x_name rd; x_name rd; x_name rd_scratch]])%list.

Definition sext32 (v : Z) : Z :=
  let v := v .& 0xFFFFFFFF in if truthy (v .& 0x80000000) then v - (1 ≪ 32) else v.

Definition self_check_const64 (bits64 : Z) : result unit :=
  let hi32 := (bits64 ≫ 32) .& 0xFFFFFFFF in
  let lo32 := bits64 .& 0xFFFFFFFF in
  let MASK64 := (1 ≪ 64) - 1 in
  let rd := sext32 hi32 .& MASK64 in
  let rd := (rd ≪ 32) .& MASK64 in
  let scratch := sext32 lo32 .& MASK64 in
  let scratch := (scratch ≪ 32) .& MASK64 in
  let scratch := scratch ≫ 32 in
  let rd := (rd .| scratch) .& MASK64 in
  if rd =? (bits64 .& MASK64) then Ok tt else Err AssertionError.

(** ** Randomness *)

Definition rand (A : Type) : Type := list Z -> result (A * list Z).
Definition rret {A} (a : A) : rand A := fun ds => Ok (a, ds).
Definition rraise {A} (e : exn) : rand A := fun _ => Err e.
Definition rthen {A B} (m : rand A) (k : A -> rand B) : rand B :=
  fun ds => let! (a, ds) := m ds in k a ds.

Declare Scope rand_scope.
Delimit Scope rand_scope with rand.
Notation "'do!' x := m 'in' k" := (rthen m (fun x => k))
  (at level 10, x pattern, m at level 100, k at level 200) : rand_scope.
Open Scope rand_scope.

Definition draw : rand Z := fun ds => match ds with [] => Ok (0, []) | d :: ds => Ok (d, ds) end.

(** [rnd.randint(a, b)] *)
Definition randint (a b : Z) : rand Z :=
  if b <? a then rraise ValueError else do! d := draw in rret (a + d mod (b - a + 1)).

(** [rnd.randrange(0, stop, step)] *)
Definition randrange (stop step : Z) : rand Z :=
  let n := (stop + step - 1) / step in
  if n <=? 0 then rraise ValueError else do! d := draw in rret (step * (d mod n)).

(** [rnd.choice(seq)] *)
Definition choice {A} (l : list A) : rand A :=
  do! d := draw in
  match l !! Z.to_nat (d mod Z.of_nat (List.length l)) with
  | Some a => rret a
  | None => rraise IndexError
  end.

(** [rnd.choices(names, weights=weights)[0]]: the first name whose cumulative
    weight exceeds the draw. *)
Fixpoint pick {A} (d : Z) (l : list (A * Z)) : option A :=
  match l with
  | [] => None
  | (a, w) :: l => if d <? w then Some a else pick (d - w) l
  end.
Definition choices {A} (l : list (A * Z)) : rand A :=
  let total := foldr (fun p n => snd p + n) 0 l in
  do! d := draw in
  match pick (d mod total) l with Some a => rret a | None => rraise ValueError end.

(** [rnd.random() < 0.5] *)
Definition coin : rand bool := do! d := draw in rret (d mod 2 =? 0).

(** ** One random instruction *)

(** A finished line, or a branch or jump that waits for its target. *)
Inductive item : Type :=
| Line (s : string)
| BranchI (mn : string) (rs1 rs2 : Z)
| JalI (rd : Z).

Inductive kind : Type :=
| k_r | k_i | k_shift | k_load | k_store | k_branch | k_jal | k_csr
| k_fp_arith | k_fp_sqrt | k_fp_sgnj | k_fp_minmax | k_fp_cmp
| k_fp_cvt_to_int | k_fp_cvt_from_int | k_fp_madd | k_fload | k_fstore | k_fcsr
| k_rw | k_iw.

Definition kinds (xlen csr_weight : Z) : list (kind * Z) :=
  ([(k_r, 24); (k_i, 16); (k_shift, 8); (k_load, 10); (k_store, 10); (k_branch, 8); (k_jal, 5);
    (k_csr, csr_weight);
    (k_fp_arith, 10); (k_fp_sqrt, 4); (k_fp_sgnj, 4); (k_fp_minmax, 4); (k_fp_cmp, 4);
    (k_fp_cvt_to_int, 4); (k_fp_cvt_from_int, 4); (k_fp_madd, 6); (k_fload, 6); (k_fstore, 6);
    (k_fcsr, 4)] ++
   if 64 <=? xlen then [(k_rw, 12); (k_iw, 8)] else [])%list.

(** Mnemonics with their widths. *)
Definition load_mnemonics (xlen : Z) : list (string * Z) :=
  ([("lb", 1); ("lh", 2); ("lw", 4); ("lbu", 1); ("lhu", 2)] ++
   if 64 <=? xlen then [("ld", 8); ("lwu", 4)] else [])%list.
Definition store_mnemonics (xlen : Z) : list (string * Z) :=
  ([("sb", 1); ("sh", 2); ("sw", 4)] ++ if 64 <=? xlen then [("sd", 8)] else [])%list.

Section Program.
  Context (n_instrs base_addr mem_size : Z) (interrupt : option string) (mmu : bool) (xlen : Z).

Definition addr_space : Z := if mmu then Z.min mem_size 4096 else mem_size.

Definition offset_for (width : Z) : rand Z :=
  let max_off := Z.min (addr_space - base_addr - width) 2047 in
  if 0 <=? max_off then randrange (max_off + 1) width else rret 0.

Definition csr_names_pool : list string :=
  match interrupt with
  | None => Pool.CSR_NAMES
  | Some _ => filter (fun n => negb (one_of n ["mstatus"; "mepc"; "mcause"; "mtvec"])) Pool.CSR_NAMES
  end.

(** The two forms of a CSR instruction, after the register and the name. *)
Definition gen_csr_ins (csr : string) : rand item :=
  do! rd := choice GP_REGS in
  do! c := coin in
  if c then
    do! mn := choice Pool.CSR_REG_OP in
    do! rs1 := choice GP_REGS in
    rret (Line (ins mn [x_name rd; csr; x_name rs1]))
  else
    do! mn := choice Pool.CSR_IMM_OP in
    do! uimm := randint 0 31 in
    rret (Line (ins mn [x_name rd; csr; show_dec uimm])).

(** Three registers of a file, or two. *)
Definition gen_fff (pool : list string) : rand item :=
  do! mn := choice pool in
  do! rd := choice FREGS in do! rs1 := choice FREGS in do! rs2 := choice FREGS in
  rret (Line (ins mn [f_name rd; f_name rs1; f_name rs2])).
Definition gen_xxx (pool : list string) : rand item :=
  do! mn := choice pool in
  do! rd := choice GP_REGS in do! rs1 := choice GP_REGS in do! rs2 := choice GP_REGS in
  rret (Line (ins mn [x_name rd; x_name rs1; x_name rs2])).

Definition gen_item (k : kind) : rand item :=
  match k with
  | k_r => gen_xxx Pool.R_TYPE
  | k_rw => gen_xxx Pool.R_TYPE_W
  | k_i =>
      do! mn := choice Pool.I_TYPE in
      do! rd := choice GP_REGS in do! rs1 := choice GP_REGS in
      do! imm := randint (-2048) 2047 in
      rret (Line (ins mn [x_name rd; x_name rs1; show_dec imm]))
  | k_iw =>
      do! mn := choice Pool.I_TYPE_W in
      do! rd := choice GP_REGS in do! rs1 := choice GP_REGS in
      do! imm := (if (mn =? "addiw")%string then randint (-2048) 2047 else randint 0 31) in
      rret (Line (ins mn [x_name rd; x_name rs1; show_dec imm]))
  | k_shift =>
      do! mn := choice Pool.SHIFT_I in
      do! rd := choice GP_REGS in do! rs1 := choice GP_REGS in
      do! shamt := (if 64 <=? xlen then randint 0 63 else randint 0 31) in
      rret (Line (ins mn [x_name rd; x_name rs1; show_dec shamt]))
  | k_load =>
      do! (mn, width) := choice (load_mnemonics xlen) in
      do! rd := choice GP_REGS in
      do! off := offset_for width in
      rret (Line (ins mn [x_name rd; at_base off BASE_REG]))
  | k_store =>
      do! (mn, width) := choice (store_mnemonics xlen) in
      do! rs2 := choice GP_REGS in
      do! off := offset_for width in
      rret (Line (ins mn [x_name rs2; at_base off BASE_REG]))
  | k_branch =>
      do! mn := choice Pool.BRANCH in
      do! rs1 := choice GP_REGS in do! rs2 := choice GP_REGS in
      rret (BranchI mn rs1 rs2)
  | k_csr => do! csr := choice csr_names_pool in gen_csr_ins csr
  | k_jal => do! rd := choice GP_REGS in rret (JalI rd)
  | k_fp_arith =>
      do! mn := choice Pool.FP_ARITH in
      do! rd := choice FREGS in do! rs1 := choice FREGS in do! rs2 := choice FREGS in
      do! rm := choice Pool.RM_NAMES in
      rret (Line (ins mn [f_name rd; f_name rs1; f_name rs2; rm]))
  | k_fp_sqrt =>
      do! rd := choice FREGS in do! rs1 := choice FREGS in
      do! rm := choice Pool.RM_NAMES in
      rret (Line (ins "fsqrt.s" [f_name rd; f_name rs1; rm]))
  | k_fp_sgnj => gen_fff Pool.FP_SGNJ
  | k_fp_minmax => gen_fff Pool.FP_MINMAX
  | k_fp_cmp =>
      do! mn := choice Pool.FP_CMP in
      do! rd := choice GP_REGS in do! rs1 := choice FREGS in do! rs2 := choice FREGS in
      rret (Line (ins mn [x_name rd; f_name rs1; f_name rs2]))
  | k_fp_cvt_to_int =>
      do! mn := choice Pool.FP_CVT_TO_INT in
      do! rd := choice GP_REGS in do! rs1 := choice FREGS in
      do! rm := choice Pool.RM_NAMES in
      rret (Line (ins mn [x_name rd; f_name rs1; rm]))
  | k_fp_cvt_from_int =>
      do! mn := choice Pool.FP_CVT_FROM_INT in
      do! rd := choice FREGS in do! rs1 := choice GP_REGS in
      do! rm := choice Pool.RM_NAMES in
      rret (Line (ins mn [f_name rd; x_name rs1; rm]))
  | k_fp_madd =>
      do! mn := choice Pool.FMADD_FAMILY in
      do! rd := choice FREGS in do! rs1 := choice FREGS in
      do! rs2 := choice FREGS in do! rs3 := choice FREGS in
      do! rm := choice Pool.RM_NAMES in
      rret (Line (ins mn [f_name rd; f_name rs1; f_name rs2; f_name rs3; rm]))
  | k_fload =>
      do! rd := choice FREGS in
      do! off := offset_for 4 in
      rret (Line (ins "flw" [f_name rd; at_base off BASE_REG]))
  | k_fstore =>
      do! rs2 := choice FREGS in
      do! off := offset_for 4 in
      rret (Line (ins "fsw" [f_name rs2; at_base off BASE_REG]))
  | k_fcsr => do! csr := choice Pool.FCSR_ADDRS in gen_csr_ins csr
  end.

Definition csr_weight : Z := if mmu then 0 else 6.

(** [for _ in range(n_instrs)] *)
Fixpoint gen_items (n : nat) : rand (list item) :=
  match n with
  | O => rret []
  | S n =>
      do! k := choices (kinds xlen csr_weight) in
      do! i := gen_item k in
      do! rest := gen_items n in
      rret (i :: rest)
  end.

(** ** Labels *)

Definition label_name (t : Z) : string := ("__L" ++ show_dec t)%string.

(** [labels_at], with [labels_at.setdefault(t, f"__L{t}")]. *)
Definition setdefault (t : Z) (labels_at : gmap Z string) : gmap Z string :=
  match labels_at !! t with Some _ => labels_at | None => <[t := label_name t]> labels_at end.

Definition label_line (t : Z) (labels_at : gmap Z string) : list string :=
  match labels_at !! t with Some l => [(l ++ ":")%string] | None => [] end.

(** One iteration of the second pass: the lines it appends. *)
Definition place_item (count cur_idx : Z) (i : item) (labels_at : gmap Z string)
  : rand (list string * gmap Z string) :=
  match i with
  | BranchI mn rs1 rs2 =>
      do! target_idx := randint (Z.min (cur_idx + 1) count) count in
      let labels_at := setdefault target_idx labels_at in
      rret ((ins mn [x_name rs1; x_name rs2; label_name target_idx] :: label_line (cur_idx + 1) labels_at),
            labels_at)
  | JalI rd =>
      do! target_idx := randint (Z.min (cur_idx + 1) count) count in
      let labels_at := setdefault target_idx labels_at in
      rret ((ins "jal" [x_name rd; label_name target_idx] :: label_line (cur_idx + 1) labels_at), labels_at)
  | Line s => rret ((s :: label_line (cur_idx + 1) labels_at), labels_at)
  end.

Fixpoint place_items (count cur_idx : Z) (items : list item) (labels_at : gmap Z string)
  : rand (list string * gmap Z string) :=
  match items with
  | [] => rret ([], labels_at)
  | i :: items =>
      do! (out, labels_at) := place_item count cur_idx i labels_at in
      do! (rest, labels_at) := place_items count (cur_idx + 1) items labels_at in
      rret ((out ++ rest)%list, labels_at)
  end.

(** ** The fixed parts *)

Fixpoint seed_floats (fr : Z) (bits : list Z) : list string :=
  match bits with
  | [] => []
  | b :: bits =>
      (const_to_reg_instrs 30 b ++ [ins "fmv.w.x" [f_name fr; "x30"]] ++ seed_floats (fr + 1) bits)%list
  end.

Definition seed_lines : list string :=
  (seed_floats 1 FLOAT_SEED_BITS ++
   if 64 <=? xlen then const64_to_reg_instrs 29 30 0xDEADBEEF12345678 else [])%list.

Definition source_cost (s : string) : result Z :=
  subscript [("timer", 4); ("uart", 3); ("msi", 3); ("both", 7)] s.

(** The budget check, which raises before anything is generated. *)
Definition check_budget : result unit :=
  let! interrupt_prefix_cost :=
    match interrupt with
    | None => Ok 0
    | Some s => let! c := source_cost s in Ok (5 + c + 2)
    end in
  let mmu_prefix_cost := if mmu then (if 64 <=? xlen then 24 else 13) else 0 in
  let xlen64_seed_cost := if 64 <=? xlen then 8 else 0 in
  let budget := 1 + 2 * Z.of_nat (List.length FLOAT_SEED_BITS) + xlen64_seed_cost + n_instrs + 1 +
                interrupt_prefix_cost + mmu_prefix_cost in
  if mem_size / 4 <? budget then Err ValueError else Ok tt.

(** The random program without any prefix: [out] before the mode is looked at. *)
Definition gen_core : rand (list string) :=
  do! instrs := gen_items (Z.to_nat n_instrs) in
  let count := Z.of_nat (List.length instrs) in
  do! (body, labels_at) := place_items count 1 instrs ∅ in
  rret ([ins "addi" [x_name BASE_REG; "x0"; show_dec base_addr]] ++ seed_lines ++ body ++
        label_line count labels_at ++ ["fence"; "__halt:"; "jal x0, __halt"])%list.

(** Lines that are not labels: [not l.rstrip().endswith(":")]. *)
Definition instr_count (lines : list string) : Z :=
  Z.of_nat (List.length (filter (fun l => negb (ends_with_colon (rstrip l))) lines)).

Definition replace_all (old new : string) (lines : list string) : list string :=
  map (py_replace old new 0) lines.

(** The tail of both translated modes: enter the program in U-mode. *)
Definition enter_u : list string :=
  ["addi x1, x0, __MEPC_PLACEHOLDER__"; "csrrw x0, mepc, x1"; "mret"].

Definition sv39_prefix : list string :=
  (const_to_reg_instrs 1 0x401 ++ ["sw x1, 0(x0)"] ++
   ["lui x4, 0x1"] ++ const_to_reg_instrs 2 0x801 ++ ["sw x2, 0(x4)"] ++
   ["lui x5, 0x2"] ++ const_to_reg_instrs 3 0x1F ++ ["sw x3, 0(x5)"] ++
   ["fence"] ++ const64_to_reg_instrs 1 6 (8 ≪ 60) ++ ["csrrw x0, 0x180, x1"] ++ enter_u)%list.

Definition sv32_prefix : list string :=
  (const_to_reg_instrs 1 0x401 ++ ["sw x1, 0(x0)"] ++
   ["lui x3, 0x1"] ++ const_to_reg_instrs 2 0x1F ++ ["sw x2, 0(x3)"] ++
   ["fence"] ++ const_to_reg_instrs 1 0x80000000 ++ ["csrrw x0, 0x180, x1"] ++ enter_u)%list.

Definition mmu_prefix : list string :=
  let prefix := if 64 <=? xlen then sv39_prefix else sv32_prefix in
  replace_all "__MEPC_PLACEHOLDER__" (show_dec (instr_count prefix * 4)) prefix.

(** The prefix of an interrupt mode and the cause the simulator is told. *)
Definition interrupt_prefix (s : string) (interrupt_k : Z) : result (list string * Z) :=
  let mtimecmp_est := 100 + interrupt_k * 10 in
  if (s =? "timer")%string then
    Ok ((["lui   x2, 0x10104"; "addi  x5, x0, __MTVEC_PLACEHOLDER__"; "csrrw x0, mtvec, x5";
          "addi  x6, x0, 128"; "csrrw x0, mie, x6"] ++
         const_to_reg_instrs 7 mtimecmp_est ++
         ["sw    x7, 0(x2)"; "csrrsi x0, mstatus, 8"])%list, 0x80000007)
  else if (s =? "uart")%string then
    Ok (["lui   x1, 0x10000"; "addi  x5, x0, __MTVEC_PLACEHOLDER__"; "csrrw x0, mtvec, x5";
         "addi  x6, x0, -2048"; "csrrw x0, mie, x6"; "addi  x8, x0, 1"; "sw    x8, 4(x1)";
         "csrrsi x0, mstatus, 8"], 0x8000000B)
  else if (s =? "msi")%string then
    Ok (["lui   x2, 0x10100"; "addi  x5, x0, __MTVEC_PLACEHOLDER__"; "csrrw x0, mtvec, x5";
         "addi  x6, x0, 8"; "csrrw x0, mie, x6"; "addi  x7, x0, 1"; "sw    x7, 0(x2)";
         "csrrsi x0, mstatus, 8"], 0x80000003)
  else if (s =? "both")%string then
    Ok ((["lui   x1, 0x10000"; "lui   x2, 0x10104"; "addi  x5, x0, __MTVEC_PLACEHOLDER__";
          "csrrw x0, mtvec, x5"; "addi  x6, x0, -1920"; "csrrw x0, mie, x6"] ++
         const_to_reg_instrs 7 mtimecmp_est ++
         ["sw    x7, 0(x2)"; "addi  x8, x0, 1"; "sw    x8, 4(x1)"; "csrrsi x0, mstatus, 8"])%list,
        0x8000000B)
  else Err ValueError.

(** [gen_program]: the lines, and the [after] and [cause] of the interrupt. *)
Definition gen_program (ds : list Z) : result (list string * option (Z * Z)) :=
  match interrupt, mmu with
  | Some _, true => Err ValueError
  | _, _ =>
      let! _ := check_budget in
      let! (interrupt_k, ds) :=
        match interrupt with None => Ok (0, ds) | Some _ => randint 1 n_instrs ds end in
      let! (out, ds) := gen_core ds in
      if mmu then Ok ((mmu_prefix ++ out)%list, None)
      else
        match interrupt with
        | None => Ok (out, None)
        | Some s =>
            let! (prefix, cause) := interrupt_prefix s interrupt_k in
            let handler_addr := (instr_count prefix + instr_count out) * 4 in
            let prefix := replace_all "__MTVEC_PLACEHOLDER__" (show_dec handler_addr) prefix in
            Ok ((prefix ++ out ++ ["handler:"; "csrrw x0, mie, x0"; "mret"])%list,
                Some (interrupt_k, cause))
        end
  end.

End Program.

(** ["\n".join(lines) + "\n"] *)
Definition text (lines : list string) : string :=
  fold_right (fun l acc => (l ++ String (chr 10) acc)%string) "" lines.
