(* ===== verification/Forward.v ===== *)
(** * Programs that only go forward

    Instruction words that in M-mode never trap, never raise and fall through to
    the next address, and what [run] does with a program made of such words and
    of branches and jumps to later addresses: it halts. *)

From S2P Require Import Prelude Bits Float32 Machine Mmu Exec Run Csr Privilege PageTable Reach Raises.
Open Scope Z_scope.

(** ** Straight-line words *)

Definition straight_ops : list Z :=
  [0x33; 0x3B; 0x13; 0x1B; 0x03; 0x23; 0x37; 0x17; 0x07; 0x27; 0x53; 0x43; 0x47; 0x4B; 0x4F].

Definition straight (w : Z) : bool :=
  negb (w =? 0) && negb (reserved w) &&
  (bool_decide (op_of w ∈ straight_ops) ||
   ((op_of w =? 0x73) && negb (f3_of w =? 0)) || ((op_of w =? 0x0F) && (f3_of w =? 0))).

(** The offset and the width in bytes of a load or a store. *)
Definition access_of (w : Z) : option (Z * Z) :=
  if op_of w =? 0x03 then Some (imm_i_of w, 2 ^ (f3_of w mod 4))
  else if op_of w =? 0x23 then Some (imm_s_of w, 2 ^ (f3_of w mod 4))
  else if op_of w =? 0x07 then Some (imm_i_of w, 4)
  else if op_of w =? 0x27 then Some (imm_s_of w, 4)
  else None.

(** The CSRs whose value no control transfer depends on, and the words that use
    no others. *)
Definition quiet_csrs : list Z := [CSR_MSCRATCH; CSR_FFLAGS; CSR_FRM; CSR_FCSR].
Definition quiet (w : Z) : Prop := op_of w = 0x73 -> csr_addr_of w ∈ quiet_csrs.

(** The CSRs that may be used in U-mode. *)
Definition user_csrs : list Z := [CSR_FFLAGS; CSR_FRM; CSR_FCSR].
Definition unprivileged (w : Z) : Prop := op_of w = 0x73 -> csr_addr_of w ∈ user_csrs.

(** The state a straight-line word leaves alone; [r] is the integer register it
    may write. *)
Definition keeps (r : Z) (st st' : ISS) : Prop :=
  priv_mode st' = priv_mode st /\ xlen st' = xlen st /\ pending_interrupt st' = pending_interrupt st /\
  (0 <= r -> r <> 31 -> zget (regs st') 31 = zget (regs st) 31).

Lemma keeps_refl r st : keeps r st st.
Proof. done. Qed.
Lemma keeps_wr r st v s : keeps r st s -> keeps r st (wr r v s).
Proof.
  intros (H1 & H2 & H3 & H4). unfold wr. case_match; [done|]. split_and!; [done..|].
  intros ? ?. simpl. rewrite zget_zset_ne by lia. by apply H4.
Qed.
Lemma keeps_pc r st p s : keeps r st s -> keeps r st (with_pc p s).
Proof. done. Qed.
Lemma keeps_freg r st rd v s : keeps r st s -> keeps r st (set_freg rd v s).
Proof. done. Qed.
Lemma keeps_fflags r st f s : keeps r st s -> keeps r st (set_fflags f s).
Proof. done. Qed.
Lemma keeps_store r st a v s : keeps r st s -> keeps r st (store_mem_byte a v s).
Proof. unfold store_mem_byte. by case_match. Qed.
Lemma keeps_csr_write r st a v s : keeps r st s -> keeps r st (csr_write a v s).
Proof. unfold csr_write, csr_store. cbv zeta. intros. repeat case_match; done. Qed.

Create HintDb keeps.
#[export] Hint Resolve keeps_refl keeps_wr keeps_pc keeps_freg keeps_fflags keeps_store
  keeps_csr_write : keeps.

Lemma keeps_store_le r st a v n s : keeps r st s -> keeps r st (store_le a v n s).
Proof.
  unfold store_le. revert s. generalize (seqZ 0 (Z.of_nat n)) as l.
  induction l as [|i l IH]; intros s H; simpl; auto with keeps.
Qed.
Lemma keeps_put_f r st rd rf s : keeps r st s -> keeps r st (put_f rd rf s).
Proof. unfold put_f. auto with keeps. Qed.
Lemma keeps_put_x r st rf s : keeps r st s -> keeps r st (put_x r rf s).
Proof. unfold put_x. auto with keeps. Qed.
#[export] Hint Resolve keeps_store_le keeps_put_f keeps_put_x : keeps.

Definition advances (r : Z) (st st' : ISS) : Prop := pc st' = pc st + 4 /\ keeps r st st'.

Lemma advances_pc r st s : keeps r st s -> advances r st (with_pc (next_pc st) s).
Proof. done. Qed.
#[export] Hint Resolve advances_pc : keeps.

(** The integer register a word writes ([x0], which is never written, for a word
    that writes none). *)
Definition no_dest_ops : list Z := [0x63; 0x23; 0x27; 0x07; 0x43; 0x47; 0x4B; 0x4F].
Definition dest (w : Z) : Z :=
  if bool_decide (op_of w ∈ no_dest_ops) then 0
  else if (op_of w =? 0x53) && negb (bool_decide ((w ≫ 27) .& 0x1F ∈ [0x14; 0x18; 0x1C])) then 0
  else rd_of w.

Lemma dest_range w : 0 <= dest w < 32.
Proof. unfold dest. pose proof (rd_range w). repeat case_match; lia. Qed.

Section Arms.
  Context (w r : Z) (st st' : ISS) (HM : priv_mode st = PRIV_M).

Lemma advance_load : exec_load w st = Ok st' -> advances (rd_of w) st st'.
Proof. unfold exec_load. rewrite translate_M by done. intros E. ok_inv. auto with keeps. Qed.
Lemma advance_flw : exec_flw w st = Ok st' -> advances r st st'.
Proof. unfold exec_flw. rewrite translate_M by done. intros E. ok_inv. auto with keeps. Qed.
Lemma advance_store : exec_store w st = Ok st' -> advances r st st'.
Proof.
  unfold exec_store, store_value. rewrite translate_M by done. intros E. ok_inv; auto 6 with keeps.
Qed.
Lemma advance_fsw : exec_fsw w st = Ok st' -> advances r st st'.
Proof. unfold exec_fsw. rewrite translate_M by done. intros E. ok_inv. auto with keeps. Qed.
Lemma advance_fmadd : exec_fmadd w st = Ok st' -> advances r st st'.
Proof. unfold exec_fmadd. cbv zeta. intros E. ok_inv. auto 8 with keeps. Qed.
Lemma advance_op_fp : op_of w = 0x53 -> exec_op_fp w st = Ok st' -> advances (dest w) st st'.
Proof.
  intros Ho. unfold dest. rewrite Ho. unfold exec_op_fp, op_fp. cbv zeta.
  generalize ((w ≫ 27) .& 0x1F) as f5. intros f5 E. ok_inv; py_bool; subst; auto 6 with keeps.
Qed.
Lemma advance_csr : f3_of w <> 0 -> exec_system w st = Ok st' -> advances (rd_of w) st st'.
Proof.
  intros H. unfold exec_system, exec_csr. cbv zeta. destruct (Z.eqb_spec (f3_of w) 0); [done|].
  pose proof (land_range (csr_addr_of w ≫ 8) 2 ltac:(lia)) as B. change (Z.ones 2) with 3 in B.
  rewrite HM. unfold PRIV_M. destruct (Z.ltb_spec 3 ((csr_addr_of w ≫ 8) .& 3)); [lia|].
  intros E. ok_inv. auto 6 with keeps.
Qed.

End Arms.

(** The register of a word of a known opcode. *)
Lemma dest_at w op b :
  op_of w = op -> op <> 0x53 -> bool_decide (op ∈ no_dest_ops) = b ->
  dest w = if b then 0 else rd_of w.
Proof.
  intros <- H <-. unfold dest. destruct (bool_decide _); [done|].
  destruct (Z.eqb_spec (op_of w) 0x53); done.
Qed.

(** In M-mode a straight-line word goes to the next address. *)
Lemma straight_step w st :
  straight w = true -> priv_mode st = PRIV_M -> exists st', step w st = Ok st' /\ advances (dest w) st st'.
Proof.
  unfold straight. intros [[N0 NR]%andb_true_iff Hop]%andb_true_iff HM.
  apply negb_true_iff in N0, NR. pose proof (step_agrees w st) as A. unfold step_exn in A. rewrite NR in A.
  assert (is_ecall w && bad_priv (priv_mode st) = false) as Ne by (by rewrite HM, andb_false_r).
  rewrite Ne in A. destruct A as [st' E]. exists st'. split; [done|]. revert E.
  unfold step. rewrite N0. cbv zeta. pose proof (advance_op_fp w st st') as L5.
  pose proof (advance_csr w st st' HM) as L6.
  apply orb_true_iff in Hop as [[Hop|Hop]%orb_true_iff|Hop].
  - apply bool_decide_eq_true in Hop. unfold straight_ops in Hop.
    repeat (apply elem_of_cons in Hop as [Hop|Hop];
      [try rewrite (dest_at w _ _ Hop ltac:(done) eq_refl); rewrite Hop; cbn -[step]; intros E;
       first [by apply L5 | by apply advance_load in E | by eapply advance_store in E
         | by eapply advance_flw in E | by eapply advance_fsw in E | by eapply advance_fmadd in E
         | unfold exec_op, exec_op_32, exec_op_imm, exec_op_imm_32, exec_lui, exec_auipc in E;
           cbv zeta in E; ok_inv; auto 8 with keeps]|]).
    by apply elem_of_nil in Hop.
  - py_bool. match goal with H : op_of w = _ |- _ =>
      rewrite (dest_at w _ _ H ltac:(done) eq_refl); rewrite H end.
    intros E. by apply L6.
  - py_bool. match goal with H : op_of w = _ |- _ => rewrite H end.
    match goal with H : f3_of w = 0 |- _ => rewrite H end. intros E.
    change (Ok (with_pc (next_pc st) st) = Ok st') in E. ok_inv. auto with keeps.
Qed.

(** ** Forward programs *)

(** Word [k] of a program of [n] words is straight-line, or transfers control to
    a later word of the program. *)
Inductive goes_forward (n k : Z) (w : Z) : Prop :=
| fwd_straight : straight w = true -> goes_forward n k w
| fwd_branch d : op_of w = 0x63 -> branch_off w = 4 * d -> 0 < d -> k + d < n -> goes_forward n k w
| fwd_jal d : op_of w = 0x6F -> jal_off w = 4 * d -> 0 < d -> k + d < n -> goes_forward n k w.

Definition forward (words : list Z) : Prop :=
  exists body last, words = (body ++ [last])%list /\ self_loop last = true /\
    forall k w, body !! k = Some w -> goes_forward (Z.of_nat (length words)) (Z.of_nat k) w.

(** The program counter is at a word of the program, in M-mode, with no
    interrupt to come. *)
Definition at_word (words : list Z) (k : Z) (st : ISS) : Prop :=
  pc st = 4 * k /\ 0 <= k < Z.of_nat (length words) /\ 4 * Z.of_nat (length words) <= 2 ^ xlen st /\
  0 <= xlen st /\ priv_mode st = PRIV_M /\ pending_interrupt st = None.

Lemma uxlen_small st v : 0 <= xlen st -> 0 <= v < 2 ^ xlen st -> uxlen st v = v.
Proof. apply uXLEN_id. Qed.

Lemma forward_step words k w st :
  at_word words k st -> k + 1 < Z.of_nat (length words) -> goes_forward (Z.of_nat (length words)) k w ->
  exists st' k', step w st = Ok st' /\ at_word words k' st' /\ k < k' /\
    (dest w <> 31 -> zget (regs st') 31 = zget (regs st) 31).
Proof.
  intros (Hpc & Hk & Hn & Hx & HM & HI) Hlast [S|d O F Hd Hd'|d O F Hd Hd'].
  - destruct (straight_step w st S HM) as (st' & E & P & K1 & K2 & K3 & K4).
    exists st', (k + 1). split_and!; [done | | lia |].
    + unfold at_word. rewrite P, K1, K2, K3. split_and!; (done || lia).
    + intros H. apply K4; [apply dest_range | done].
  - assert (step w st = exec_branch w st) as ->.
    { unfold step. destruct (Z.eqb_spec w 0) as [->|_]; [done|]. cbv zeta. by rewrite O. }
    unfold exec_branch. rewrite F, Hpc. destruct (branch_taken _ _ _ _).
    + exists (with_pc (4 * (k + d)) st), (k + d). rewrite uxlen_small by lia.
      split_and!; [do 2 f_equal; lia | | lia | done]. unfold at_word. simpl. split_and!; (done || lia).
    + exists (with_pc (4 * (k + 1)) st), (k + 1).
      split_and!; [unfold next_pc; rewrite Hpc; do 2 f_equal; lia | | lia | done].
      unfold at_word. simpl. split_and!; (done || lia).
  - assert (step w st = exec_jal w st) as ->.
    { unfold step. destruct (Z.eqb_spec w 0) as [->|_]; [done|]. cbv zeta. by rewrite O. }
    unfold exec_jal. rewrite F, Hpc, uxlen_small by lia. eexists _, (k + d). split; [reflexivity|].
    pose proof (keeps_wr (rd_of w) st (next_pc st) st (keeps_refl _ _)) as (K1 & K2 & K3 & K4).
    split_and!; [| lia |].
    + unfold at_word. simpl. rewrite K1, K2, K3. split_and!; (done || lia).
    + rewrite (dest_at w _ _ O ltac:(done) eq_refl). intros H. simpl. apply K4; [apply rd_range | done].
Qed.

(** ** Running them *)

Lemma zget_lookup (l : list Z) (k : nat) w : l !! k = Some w -> zget l (Z.of_nat k) = w.
Proof. intros H. unfold zget. by rewrite Nat2Z.id, H. Qed.

(** A round fetches the word the program counter is at. *)
Lemma round_at words mx steps k st :
  at_word words k st -> steps < mx ->
  run_round words mx steps st =
  let w := zget words k in
  if self_loop w then inr (Finished steps st)
  else match step w st with
       | Ok st' => inl (steps + 1, st')
       | Err e => inr (Raised e st)
       end.
Proof.
  intros (Hpc & Hk & Hn & Hx & HM & HI) Hs. unfold run_round.
  destruct (Z.ltb_spec steps mx); [|lia]. cbn [negb]. unfold interrupt_due. rewrite HI.
  rewrite translate_M, Hpc, uxlen_small by (done || lia).
  destruct (Z.leb_spec (Z.of_nat (length words) * 4) (4 * k)); [lia|].
  by rewrite Z.mul_comm, Z.div_mul by lia.
Qed.

(** The word at a position, and whether it is the last. *)
Lemma forward_word words k :
  forward words -> 0 <= k < Z.of_nat (length words) ->
  (k + 1 = Z.of_nat (length words) /\ self_loop (zget words k) = true) \/
  (k + 1 < Z.of_nat (length words) /\ goes_forward (Z.of_nat (length words)) k (zget words k)).
Proof.
  intros (body & last & -> & Hl & Hb) Hk. rewrite length_app in *. cbn [length] in *.
  destruct (decide (k = Z.of_nat (length body))) as [->|].
  - left. split; [lia|]. erewrite zget_lookup; [exact Hl|]. by apply list_lookup_middle.
  - right. split; [lia|]. destruct (lookup_lt_is_Some_2 body (Z.to_nat k)) as [w Hw]; [lia|].
    specialize (Hb _ _ Hw). rewrite Z2Nat.id in Hb by lia.
    replace (zget (body ++ [last]) k) with w; [done|].
    unfold zget. by rewrite lookup_app_l, Hw by lia.
Qed.

Lemma self_loop_not_forward n k w : goes_forward n k w -> self_loop w = false.
Proof.
  intros [S|d O F Hd _|d O F Hd _]; unfold self_loop; change (w .& 0x7F) with (op_of w).
  - destruct (Z.eqb_spec (op_of w) 0x6F) as [O|]; [|done].
    unfold straight in S. rewrite O in S. by rewrite andb_false_r in S.
  - by rewrite O.
  - rewrite F. destruct (Z.eqb_spec (4 * d) 0); [lia | by rewrite andb_false_r].
Qed.

(** A forward program halts: it ends in its self-loop after at most one step for
    each word before it, whatever the registers and the memory hold. *)
Lemma forward_halts words (Hf : forward words) (n : nat) : forall k st mx steps fuel,
  at_word words k st -> Z.of_nat (length words) - k = Z.of_nat n ->
  steps + Z.of_nat n <= mx -> (n <= fuel)%nat ->
  exists steps' st', run_loop fuel words mx steps st = Finished steps' st' /\
    steps <= steps' < steps + Z.of_nat n /\ pc st' = 4 * (Z.of_nat (length words) - 1).
Proof.
  induction n as [n IH] using lt_wf_ind. intros k st mx steps fuel Hat Hn Hmx Hfuel.
  pose proof Hat as (Hpc & Hk & _). destruct fuel as [|fuel]; [lia|]. cbn [run_loop].
  rewrite (round_at _ _ _ k) by (done || lia). cbv zeta.
  destruct (forward_word words k Hf Hk) as [[Hlast L]|[Hlast G]].
  - rewrite L. exists steps, st. split_and!; [done | lia | lia | lia].
  - rewrite (self_loop_not_forward _ _ _ G).
    destruct (forward_step _ _ _ _ Hat Hlast G) as (st' & k' & E & Hat' & Hk' & _). rewrite E.
    pose proof Hat' as (_ & Hb' & _).
    destruct (IH (Z.to_nat (Z.of_nat (length words) - k')) ltac:(lia) k' st' mx (steps + 1) fuel)
      as (s & st'' & R & Hs & Hp); [done | lia | lia | lia |].
    exists s, st''. split_and!; [done | lia | lia | lia].
Qed.

(** What holds in every state of the run: a register [31] set by the first word
    and written by no other keeps its value. *)
Lemma forward_base words mx base st0 p q :
  forward words -> rtc (round_rel words mx) p q ->
  (forall k w, words !! k = Some w -> (0 < k)%nat -> dest w <> 31) ->
  (forall w st', words !! 0%nat = Some w -> step w st0 = Ok st' -> zget (regs st') 31 = base) ->
  (exists k, at_word words k p.2 /\ (k = 0 /\ p.2 = st0 \/ 0 < k /\ zget (regs p.2) 31 = base)) ->
  exists k, at_word words k q.2 /\ (k = 0 /\ q.2 = st0 \/ 0 < k /\ zget (regs q.2) 31 = base).
Proof.
  intros Hf Hr Hrd H0. induction Hr as [p|[s0 st] [s1 st1] q R _ IH]; intros Hp; [done|].
  apply IH. clear IH. destruct Hp as (k & Hat & Hb). cbn [snd] in *.
  unfold round_rel in R. cbn [fst snd] in R.
  destruct (Z.lt_ge_cases s0 mx).
  2:{ exfalso. unfold run_round in R. destruct (Z.ltb_spec s0 mx); [lia | done]. }
  rewrite (round_at _ _ _ k) in R by done. cbv zeta in R. pose proof Hat as (_ & Hk & _).
  destruct (forward_word words k Hf Hk) as [[_ L]|[Hlast G]]; [by rewrite L in R|].
  rewrite (self_loop_not_forward _ _ _ G) in R.
  destruct (forward_step _ _ _ _ Hat Hlast G) as (st' & k' & E & Hat' & Hk' & K). rewrite E in R.
  injection R as <- <-. exists k'. split; [done|]. right. split; [lia|].
  destruct (lookup_lt_is_Some_2 words (Z.to_nat k)) as [w Hw]; [lia|].
  replace (zget words k) with w in *; [|unfold zget; by rewrite Hw].
  destruct Hb as [[-> ->]|[Hk0 Hb]]; [by eapply H0|]. rewrite K; [done|].
  apply (Hrd _ _ Hw). lia.
Qed.

(** ** Rounds of the loop, by evaluation *)

Fixpoint rounds (n : nat) (words : list Z) (mx : Z) (p : Z * ISS) : option (Z * ISS) :=
  match n with
  | O => Some p
  | S n =>
      match run_round words mx p.1 p.2 with
      | inl q => rounds n words mx q
      | inr _ => None
      end
  end.

Lemma rounds_rtc n words mx p q : rounds n words mx p = Some q -> rtc (round_rel words mx) p q.
Proof.
  revert p. induction n as [|n IH]; intros p E; simpl in E; [by injection E as <-|].
  destruct (run_round _ _ _ _) as [r|] eqn:R; [|done]. eapply rtc_l; [|by apply IH].
  unfold round_rel. rewrite R. by destruct r.
Qed.

(** A run goes on from where its first rounds lead. *)
Lemma rounds_run n fuel ws mx p q :
  rounds n ws mx p = Some q -> run_loop (n + fuel) ws mx p.1 p.2 = run_loop fuel ws mx q.1 q.2.
Proof.
  revert p. induction n as [|n IH]; intros p E; simpl in E; [by injection E as <-|].
  cbn [Nat.add run_loop]. destruct (run_round ws mx p.1 p.2) as [[s st]|]; [|done]. by apply (IH (s, st)).
Qed.

(** ** Words executed one after the other *)

Fixpoint exec_all (words : list Z) (st : ISS) : result ISS :=
  match words with
  | [] => Ok st
  | w :: words => let! st' := step w st in exec_all words st'
  end.

Lemma exec_all_app a b st : exec_all (a ++ b) st = let! st' := exec_all a st in exec_all b st'.
Proof.
  revert st. induction a as [|w a IH]; intros st; [done|]. simpl.
  destruct (step w st); [apply IH | done].
Qed.

Lemma wf_exec_all ws st st' : wf st -> exec_all ws st = Ok st' -> wf st'.
Proof.
  revert st. induction ws as [|w ws IH]; intros st W E; cbn [exec_all] in E; [by injection E as <-|].
  destruct (step w st) as [s|] eqn:Es; [|done]. eapply IH; [by eapply wf_step | exact E].
Qed.
