(* ===== verification/Interrupted.v ===== *)
(** * Interrupted programs

    What an interrupt does to a program that only goes forward and leaves the CSRs
    of the trap mechanism alone: nothing.  A run that takes the interrupt ends like
    the run that does not, with the same registers, memory and float state. *)

From S2P Require Import Prelude Bits Float32 Machine Mmu Exec Run Csr Privilege PageTable Reach Raises Forward.
Open Scope Z_scope.

(** ** The state with other CSRs, another interrupt to come and another mode *)

Definition over (c : gmap Z Z) (p : option (Z * Z)) (m : Z) (st : ISS) : ISS := with_priv m (with_pending p (with_csr c st)).

Definition rmap {A B} (f : A -> B) (r : result A) : result B :=
  match r with Ok a => Ok (f a) | Err e => Err e end.

Section Over.
  Context (c : gmap Z Z) (p : option (Z * Z)) (m : Z).
  Local Abbreviation ov := (over c p m).

Lemma over_regs st : regs (ov st) = regs st. Proof. done. Qed.
Lemma over_fregs st : fregs (ov st) = fregs st. Proof. done. Qed.
Lemma over_xlen st : xlen (ov st) = xlen st. Proof. done. Qed.
Lemma over_pc st : pc (ov st) = pc st. Proof. done. Qed.
Lemma over_next st : next_pc (ov st) = next_pc st. Proof. done. Qed.
Lemma over_A st w : reg_A (ov st) w = reg_A st w. Proof. done. Qed.
Lemma over_B st w : reg_B (ov st) w = reg_B st w. Proof. done. Qed.
Lemma over_uxlen st v : uxlen (ov st) v = uxlen st v. Proof. done. Qed.
Lemma over_rm st f : resolve_rm (ov st) f = resolve_rm st f. Proof. done. Qed.
Lemma over_load st a f3 : load_value (ov st) f3 a = load_value st f3 a. Proof. done. Qed.
Lemma over_load4 st a : load4 (ov st) a = load4 st a. Proof. done. Qed.
Lemma over_with_pc v st : with_pc v (ov st) = ov (with_pc v st). Proof. done. Qed.
Lemma over_freg rd v st : set_freg rd v (ov st) = ov (set_freg rd v st). Proof. done. Qed.
Lemma over_fflags f st : set_fflags f (ov st) = ov (set_fflags f st). Proof. done. Qed.
Lemma over_put_f rd rf st : put_f rd rf (ov st) = ov (put_f rd rf st). Proof. done. Qed.
Lemma over_wr rd v st : wr rd v (ov st) = ov (wr rd v st).
Proof. unfold wr. by destruct (rd =? 0). Qed.
Lemma over_put_x rd rf st : put_x rd rf (ov st) = ov (put_x rd rf st).
Proof. unfold put_x. by rewrite over_wr. Qed.
Lemma over_store a v st : store_mem_byte a v (ov st) = ov (store_mem_byte a v st).
Proof. unfold store_mem_byte. by destruct (MMIO_BASE <=? a). Qed.
Lemma over_store_le a v n st : store_le a v n (ov st) = ov (store_le a v n st).
Proof.
  unfold store_le. revert st. induction (seqZ 0 (Z.of_nat n)) as [|i l IH]; intros st; [done|].
  cbn [foldl]. by rewrite over_store, IH.
Qed.
Lemma over_store_value f3 a v st : store_value f3 a v (ov st) = rmap ov (store_value f3 a v st).
Proof. unfold store_value. rewrite !over_store_le, !over_store. by repeat case_match. Qed.

End Over.

Create Rewrite HintDb over.
#[export] Hint Rewrite over_regs over_fregs over_xlen over_pc over_next over_A over_B over_uxlen over_rm over_load
  over_load4 over_with_pc over_freg over_fflags over_put_f over_wr over_put_x over_store over_store_le over_store_value : over.

(** Words whose step looks at no CSR. *)
Definition csr_free (w : Z) : bool :=
  bool_decide (op_of w ∈ straight_ops ++ [0x63; 0x6F]) || ((op_of w =? 0x0F) && (f3_of w =? 0)).

Ltac commute :=
  cbv zeta; repeat (autorewrite with over; cbn [rbind rmap];
    try match goal with
    | |- context [match ?x with _ => _ end] => destruct x
    | |- context [rbind ?x _] => lazymatch x with context [rbind _ _] => fail | rmap _ _ => fail | _ => destruct x end
    end); try done.

(** The address is mapped to itself, for every access. *)
Definition mapped (st : ISS) (va : Z) : Prop := forall a, translate va a st = (Some va, st).

Lemma uxlen_uxlen st v : uxlen st (uxlen st v) = uxlen st v.
Proof. unfold uxlen, uXLEN. by rewrite <- Z.land_assoc, Z.land_diag. Qed.

Lemma mapped_M st v : priv_mode st = PRIV_M -> mapped st (uxlen st v).
Proof. intros HM a. by rewrite translate_M, uxlen_uxlen. Qed.

(** The memory access of a word, if it has one, is mapped. *)
Definition access_mapped (w : Z) (st : ISS) : Prop :=
  forall off width, access_of w = Some (off, width) -> mapped st (uxlen st (reg_A st w + off)).

Lemma access_mapped_M w st : priv_mode st = PRIV_M -> access_mapped w st.
Proof. intros HM off width _. by apply mapped_M. Qed.

(** A word whose accesses are mapped does the same in any mode. *)
Section Commute.
  Context (c : gmap Z Z) (p : option (Z * Z)) (m : Z) (w : Z) (st : ISS) (HM : priv_mode st = PRIV_M).
  Local Abbreviation ov := (over c p m).
  Context (Hm : access_mapped w (ov st)).

Lemma over_exec_op : exec_op w (ov st) = rmap ov (exec_op w st).
Proof. unfold exec_op. commute. Qed.
Lemma over_exec_op_32 : exec_op_32 w (ov st) = rmap ov (exec_op_32 w st).
Proof. unfold exec_op_32. commute. Qed.
Lemma over_exec_op_imm : exec_op_imm w (ov st) = rmap ov (exec_op_imm w st).
Proof. unfold exec_op_imm. commute. Qed.
Lemma over_exec_op_imm_32 : exec_op_imm_32 w (ov st) = rmap ov (exec_op_imm_32 w st).
Proof. unfold exec_op_imm_32. commute. Qed.
Lemma over_exec_jal : exec_jal w (ov st) = rmap ov (exec_jal w st).
Proof. unfold exec_jal. commute. Qed.
Lemma over_exec_lui : exec_lui w (ov st) = rmap ov (exec_lui w st).
Proof. unfold exec_lui. commute. Qed.
Lemma over_exec_auipc : exec_auipc w (ov st) = rmap ov (exec_auipc w st).
Proof. unfold exec_auipc. commute. Qed.
Lemma over_translate off width a :
  access_of w = Some (off, width) ->
  translate (uxlen (ov st) (reg_A (ov st) w + off)) a (ov st) = (Some (uxlen st (reg_A st w + off)), ov st).
Proof. intros H. apply (Hm off width H). Qed.

Ltac translated H :=
  erewrite over_translate by (unfold access_of; rewrite H; reflexivity); rewrite translate_M, uxlen_uxlen by done; commute.
Lemma over_exec_load : op_of w = 0x03 -> exec_load w (ov st) = rmap ov (exec_load w st).
Proof. intros H. unfold exec_load. translated H. Qed.
Lemma over_exec_store : op_of w = 0x23 -> exec_store w (ov st) = rmap ov (exec_store w st).
Proof. intros H. unfold exec_store. translated H. Qed.
Lemma over_exec_flw : op_of w = 0x07 -> exec_flw w (ov st) = rmap ov (exec_flw w st).
Proof. intros H. unfold exec_flw. translated H. Qed.
Lemma over_exec_fsw : op_of w = 0x27 -> exec_fsw w (ov st) = rmap ov (exec_fsw w st).
Proof. intros H. unfold exec_fsw. translated H. Qed.
Lemma over_exec_op_fp : exec_op_fp w (ov st) = rmap ov (exec_op_fp w st).
Proof. unfold exec_op_fp, op_fp. commute. Qed.
Lemma over_exec_fmadd : exec_fmadd w (ov st) = rmap ov (exec_fmadd w st).
Proof. unfold exec_fmadd. commute. Qed.

Lemma step_over : csr_free w = true -> step w (ov st) = rmap ov (step w st).
Proof.
  unfold csr_free, step. destruct (w =? 0); [done|]. cbv zeta. intros [H|H]%orb_true_iff.
  - apply bool_decide_eq_true in H. cbn [straight_ops app] in H.
    repeat (apply elem_of_cons in H as [H|H];
      [rewrite H; first [apply over_exec_op | apply over_exec_op_32 | apply over_exec_op_imm | apply over_exec_op_imm_32
        | by apply over_exec_load | by apply over_exec_store | apply over_exec_lui | apply over_exec_auipc | by apply over_exec_flw
        | by apply over_exec_fsw | apply over_exec_op_fp | apply over_exec_fmadd | apply over_exec_jal | done]|]).
    by apply elem_of_nil in H.
  - apply andb_true_iff in H as [H%Z.eqb_eq F]. by rewrite H, F.
Qed.

End Commute.

(** ** CSR instructions *)

Lemma over_id st : over (csr st) (pending_interrupt st) (priv_mode st) st = st.
Proof. by destruct st. Qed.

Lemma csr_free_keeps w st st' :
  csr_free w = true -> priv_mode st = PRIV_M -> step w st = Ok st' ->
  csr st' = csr st /\ pending_interrupt st' = pending_interrupt st /\ priv_mode st' = priv_mode st.
Proof.
  intros F HM E. pose proof (step_over (csr st) (pending_interrupt st) (priv_mode st) w st HM) as O. rewrite over_id, E in O.
  specialize (O (access_mapped_M w st HM) F). injection O as O. by rewrite O.
Qed.

(** A word that goes forward is free of CSRs or a CSR instruction. *)
Lemma forward_csr n k w :
  goes_forward n k w -> csr_free w = true \/ (op_of w = 0x73 /\ f3_of w <> 0 /\ forall st, step w st = exec_csr w st).
Proof.
  intros [S|d O _ _ _|d O _ _ _].
  - unfold straight in S. apply andb_true_iff in S as [[N _]%andb_true_iff S]. unfold csr_free.
    apply orb_true_iff in S as [[S|S]%orb_true_iff|S]; [left|right|left].
    + apply bool_decide_eq_true in S. apply orb_true_iff. left. apply bool_decide_eq_true, elem_of_app. by left.
    + apply andb_true_iff in S as [O%Z.eqb_eq F%negb_true_iff]. split_and!; [done | by apply Z.eqb_neq|].
      intros st. unfold step, exec_system. apply negb_true_iff in N. rewrite N. cbv zeta. by rewrite O, F.
    + rewrite S. by rewrite orb_true_r.
  - left. unfold csr_free. by rewrite O.
  - left. unfold csr_free. by rewrite O.
Qed.

(** In M-mode a CSR instruction reads the CSR, writes it and goes on. *)
Definition csr_done (w : Z) (st : ISS) : ISS :=
  let old := csr_read st (csr_addr_of w) in
  let src := if truthy (f3_of w .& 4) then rs1_of w else reg_A st w in
  with_pc (next_pc st) (wr (rd_of w) old (csr_write (csr_addr_of w) (csr_op_value (f3_of w) old src) st)).

Lemma exec_csr_M w st : priv_mode st = PRIV_M -> exec_csr w st = Ok (csr_done w st).
Proof.
  intros HM. unfold exec_csr. cbv zeta. pose proof (land_range (csr_addr_of w ≫ 8) 2 ltac:(lia)) as B.
  change (Z.ones 2) with 3 in B. rewrite HM. unfold PRIV_M. by destruct (Z.ltb_spec 3 ((csr_addr_of w ≫ 8) .& 3)); [lia|].
Qed.

(** ** Before the interrupt: only the schedule differs *)

Lemma csr_write_pending a v p st : csr_write a v (with_pending p st) = with_pending p (csr_write a v st).
Proof. unfold csr_write, csr_store. cbv zeta. cbn [csr with_pending]. repeat case_match; done. Qed.
Lemma wr_pending rd v p st : wr rd v (with_pending p st) = with_pending p (wr rd v st).
Proof. unfold wr. by destruct (rd =? 0). Qed.

Lemma step_pending n k w p st :
  goes_forward n k w -> priv_mode st = PRIV_M -> step w (with_pending p st) = rmap (with_pending p) (step w st).
Proof.
  intros G HM. destruct (forward_csr n k w G) as [F|(_ & _ & S)].
  - change (with_pending p st) with (over (csr st) p (priv_mode st) st). rewrite step_over by (done || by apply access_mapped_M).
    destruct (step w st) as [st'|] eqn:E; [|done]. cbn [rmap]. destruct (csr_free_keeps w st st' F HM E) as (C & _ & M).
    f_equal. by rewrite <- C, <- M.
  - rewrite !S, !exec_csr_M by done. cbn [rmap]. f_equal. unfold csr_done. cbv zeta.
    rewrite csr_write_pending, wr_pending. reflexivity.
Qed.

(** ** After it: the CSRs of the trap mechanism differ *)

Definition alike (st st' : ISS) : Prop :=
  exists c, st' = over c (pending_interrupt st) (priv_mode st) st /\ c !! CSR_MSCRATCH = csr st !! CSR_MSCRATCH.

#[export] Instance alike_equivalence : Equivalence alike.
Proof.
  split.
  - intros st. exists (csr st). by rewrite over_id.
  - intros st st' (c & -> & E). exists (csr st). split; [symmetry; exact (over_id st) | done].
  - intros st st' st'' (c & -> & E) (d & -> & E'). exists d. split; [done|]. by rewrite E'.
Qed.

Lemma alike_step w n k st1 st2 st1' :
  goes_forward n k w -> quiet w -> priv_mode st1 = PRIV_M -> alike st1 st2 -> step w st1 = Ok st1' ->
  exists st2', step w st2 = Ok st2' /\ alike st1' st2'.
Proof.
  intros G Q HM (c & -> & Ec) E. destruct (forward_csr n k w G) as [F|(O & _ & S)].
  - rewrite step_over, E by (done || by apply access_mapped_M). cbn [rmap]. eexists. split; [reflexivity|].
    destruct (csr_free_keeps w st1 st1' F HM E) as (C & P & M). exists c. by rewrite P, C, M.
  - rewrite S, exec_csr_M in * by done. eexists. split; [reflexivity|]. injection E as <-. specialize (Q O).
    unfold csr_done. cbv zeta. unfold quiet_csrs in Q.
    repeat (apply elem_of_cons in Q as [->|Q]; [|]); [| | | |by apply elem_of_nil in Q].
    + change (csr_read ?s CSR_MSCRATCH) with (csr_at s CSR_MSCRATCH).
      assert (csr_at (over c (pending_interrupt st1) (priv_mode st1) st1) CSR_MSCRATCH = csr_at st1 CSR_MSCRATCH) as ->
        by (unfold csr_at; by rewrite <- Ec).
      rewrite over_A. generalize (csr_op_value (f3_of w) (csr_at st1 CSR_MSCRATCH)
        (if truthy (f3_of w .& 4) then rs1_of w else reg_A st1 w)). intros v.
      change (csr_write CSR_MSCRATCH ?x ?s) with (csr_store CSR_MSCRATCH x s). unfold csr_store.
      change (csr (over c (pending_interrupt st1) (priv_mode st1) st1)) with c. rewrite Ec.
      destruct (csr st1 !! CSR_MSCRATCH) as [v0|] eqn:E0.
      * exists (<[CSR_MSCRATCH := u32 v]> c). unfold wr. destruct (rd_of w =? 0); cbn; by rewrite !lookup_insert_eq.
      * exists c. rewrite over_wr. unfold wr. destruct (rd_of w =? 0); cbn; by rewrite Ec, E0.
    + exists c. unfold wr. by destruct (rd_of w =? 0).
    + exists c. unfold wr. by destruct (rd_of w =? 0).
    + exists c. unfold wr. by destruct (rd_of w =? 0).
Qed.

(** ** The handler *)

(** [csrrw x0, mie, x0] and [mret]. *)
Definition DISARM : Z := 0x30401073.
Definition MRET : Z := 0x30200073.

(** The mode [mret] returns to after a trap taken in M-mode. *)
Lemma trap_mpp m mie : ((u32 (m .| (mie .| (PRIV_M ≪ MSTATUS_MPP_LO)))) ≫ MSTATUS_MPP_LO) .& 3 = PRIV_M.
Proof.
  unfold u32. change 0xFFFFFFFF with (Z.ones 32). change 3 with (Z.ones 2). change (PRIV_M ≪ MSTATUS_MPP_LO) with (Z.ones 2 ≪ 11).
  change MSTATUS_MPP_LO with 11. change PRIV_M with (Z.ones 2). apply Z.bits_inj'. intros i Hi.
  rewrite Z.land_spec, Z.shiftr_spec, Z.land_spec, !Z.lor_spec, Z.shiftl_spec by lia.
  replace (i + 11 - 11) with i by lia. rewrite !Z.testbit_ones_nonneg by lia.
  destruct (Z.ltb_spec i 2), (Z.ltb_spec (i + 11) 32); try lia; by rewrite ?orb_true_r, ?andb_false_r.
Qed.

(** A trap in M-mode, and its return, on the CSRs. *)
Lemma trap_M cause st :
  priv_mode st = PRIV_M ->
  exists m v, (m ≫ MSTATUS_MPP_LO) .& 3 = PRIV_M /\
    trap cause 0 st = with_pc (csr_at st CSR_MTVEC)
      (with_csr (<[CSR_MSTATUS := m]> (<[CSR_MTVAL := 0]> (<[CSR_MCAUSE := v]> (<[CSR_MEPC := pc st]> (csr st))))) st).
Proof.
  intros HM. unfold trap, trap_to_s. rewrite HM. cbn [Z.eqb Pos.eqb PRIV_M negb andb]. eexists _, _.
  split; [apply trap_mpp|]. destruct st; cbn in *. subst. f_equal.
  unfold csr_at. cbn. by rewrite !lookup_insert_ne by done.
Qed.

Lemma disarm_step st :
  priv_mode st = PRIV_M ->
  exists c, step DISARM st = Ok (with_pc (pc st + 4) (with_csr c st)) /\ forall k, k <> CSR_MIE -> c !! k = csr st !! k.
Proof.
  intros HM. change (step DISARM st) with (exec_csr DISARM st). rewrite exec_csr_M by done. unfold csr_done. cbv zeta.
  change (csr_addr_of DISARM) with CSR_MIE. generalize (csr_op_value (f3_of DISARM) (csr_read st CSR_MIE)
    (if truthy (f3_of DISARM .& 4) then rs1_of DISARM else reg_A st DISARM)). intros v.
  change (csr_write CSR_MIE v st) with (csr_store CSR_MIE (v .& MIE_MASK) st). unfold csr_store. unfold wr.
  change (rd_of DISARM =? 0) with true. cbv iota. destruct (csr st !! CSR_MIE) as [e|] eqn:E.
  - eexists. split; [reflexivity|]. intros k Hk. by rewrite lookup_insert_ne.
  - exists (csr st). split; [by destruct st | done].
Qed.

Lemma mret_step st :
  priv_mode st = PRIV_M -> (csr_at st CSR_MSTATUS ≫ MSTATUS_MPP_LO) .& 3 = PRIV_M ->
  exists c, step MRET st = Ok (with_pc (csr_at st CSR_MEPC) (with_csr c st)) /\ forall k, k <> CSR_MSTATUS -> c !! k = csr st !! k.
Proof.
  intros HM HP. assert (step MRET st = Ok (mret st)) as ->.
  { unfold step, exec_system, exec_priv. change (MRET =? 0) with false. cbv zeta. change (op_of MRET) with 0x73. cbn.
    by rewrite HM. }
  unfold mret. cbv zeta. rewrite HP. eexists (<[CSR_MSTATUS := _]> (csr st)). split.
  - destruct st; cbn in *. subst. do 2 f_equal. unfold csr_at. cbn. by rewrite lookup_insert_ne.
  - intros k Hk. by rewrite lookup_insert_ne.
Qed.

(** The two words undo the trap, but for the CSRs of the trap mechanism. *)
Lemma handler_undoes p cause st :
  priv_mode st = PRIV_M -> pending_interrupt st = None ->
  let t := with_pending None (trap cause 0 (with_pending p st)) in
  exists t' h, step DISARM t = Ok t' /\ step MRET t' = Ok h /\ alike st h /\
    pc t = csr_at st CSR_MTVEC /\ pc t' = csr_at st CSR_MTVEC + 4 /\
    Forall (fun s => priv_mode s = PRIV_M /\ xlen s = xlen st /\ pending_interrupt s = None) [t; t'].
Proof.
  intros HM HP t. destruct (trap_M cause (with_pending p st) HM) as (m & v & Hm & Et).
  destruct (disarm_step t) as (c & E & Hc); [unfold t; by rewrite Et|].
  destruct (mret_step (with_pc (pc t + 4) (with_csr c t))) as (d & E' & Hd); [unfold t; by rewrite Et | |].
  { unfold csr_at. cbn. rewrite Hc by done. unfold t. rewrite Et. cbn. by rewrite lookup_insert_eq. }
  eexists _, _. split; [exact E|]. split; [exact E'|]. split; [|unfold t; rewrite Et; split_and!; try done;
    apply Forall_cons; split; [done|]; apply Forall_cons; split; [done|]; constructor].
  exists d. split.
  - unfold csr_at. cbn. rewrite Hc by done. unfold t. rewrite Et. destruct st; cbn in *. subst. cbn.
    do 3 (rewrite lookup_insert_ne by done). by rewrite lookup_insert_eq.
  - rewrite Hd by done. cbn. rewrite Hc by done. unfold t. rewrite Et. cbn. by rewrite !lookup_insert_ne by done.
Qed.

(** ** Runs with and without the interrupt *)

Lemma goes_forward_mono n n' k w : n <= n' -> goes_forward n k w -> goes_forward n' k w.
Proof. intros H [S|d O F P B|d O F P B]; [by apply fwd_straight | eapply fwd_branch | eapply fwd_jal]; (done || lia). Qed.

(** A program [prog] that goes forward, with the handler behind its final loop.
    Interrupts are off up to word [armed] and on behind it, where [mtvec] has been
    set ([Inv]) and only quiet words stand. *)
Section Interrupted.
  Context (prog : list Z) (armed : Z) (Inv : Z -> ISS -> Prop).
  Local Abbreviation words := (prog ++ [DISARM; MRET])%list.
  Local Abbreviation len := (Z.of_nat (length prog)).
  Local Abbreviation last := (len - 1).

(** At word [k] of [prog], and of the whole program. *)
Definition ready (k : Z) (st : ISS) : Prop := at_word prog k st /\ at_word words k st.

  Context (Hf : forward prog) (Harmed : armed < last).
  Context (Hquiet : forall k w, prog !! k = Some w -> armed < Z.of_nat k -> quiet w).
  Context (Hinv : forall k k' st st', ready k st -> Inv k st -> k < last -> step (zget prog k) st = Ok st' ->
     ready k' st' -> k < k' -> Inv k' st').
  Context (Henabled : forall k st, ready k st -> Inv k st -> truthy ((csr_at st CSR_MSTATUS ≫ 3) .& 1) = (armed <? k)).
  Context (Hvector : forall k st, ready k st -> Inv k st -> armed < k -> csr_at st CSR_MTVEC = 4 * len).

(** The states from word [k] to the final loop, and their number. *)
Inductive path : Z -> ISS -> nat -> ISS -> Prop :=
| path_end st : ready last st -> path last st 0 st
| path_next k k' st st' m st0 :
    ready k st -> k < last -> step (zget prog k) st = Ok st' -> k < k' -> path k' st' m st0 -> path k st (S m) st0.

Lemma path_ready k st m st0 : path k st m st0 -> ready k st.
Proof. by destruct 1. Qed.

Lemma word_before_last k : 0 <= k < last -> goes_forward len k (zget prog k).
Proof. intros Hk. destruct (forward_word prog k Hf ltac:(lia)) as [[E _]|[_ G]]; [lia | done]. Qed.

Lemma zget_words k : 0 <= k < len -> zget words k = zget prog k.
Proof. intros H. unfold zget. by rewrite lookup_app_l by lia. Qed.

Lemma ready_step k st : ready k st -> k < last ->
  exists st' k', step (zget prog k) st = Ok st' /\ ready k' st' /\ k < k'.
Proof.
  intros [A B] Hk. pose proof A as (_ & R & _). pose proof (word_before_last k ltac:(lia)) as G.
  destruct (forward_step prog k _ st A ltac:(lia) G) as (st' & k' & E & A' & Hk' & _).
  destruct (forward_step words k (zget prog k) st B) as (st2 & k2 & E2 & B' & _).
  { rewrite length_app. cbn. lia. }
  { eapply goes_forward_mono; [|exact G]. rewrite length_app. cbn. lia. }
  rewrite E in E2. injection E2 as <-. assert (k2 = k') as -> by (destruct A' as (P & _), B' as (P' & _); lia).
  by exists st', k'.
Qed.

Lemma path_total (n : nat) : forall k st, ready k st -> last - k <= Z.of_nat n ->
  exists m st0, path k st m st0 /\ Z.of_nat m <= last - k.
Proof.
  induction n as [|n IH]; intros k st R Hn; pose proof R as [(_ & B & _) _].
  - assert (k = last) as -> by lia. exists 0%nat, st. split; [by constructor | lia].
  - destruct (decide (k = last)) as [->|N]; [exists 0%nat, st; split; [by constructor | lia]|].
    destruct (ready_step k st R ltac:(lia)) as (st' & k' & E & R' & Hk).
    destruct (IH k' st' R' ltac:(lia)) as (m & st0 & P & Hm). exists (S m), st0. split; [|lia].
    eapply path_next; (done || lia).
Qed.

(** A round of the run along a path. *)
Lemma round_next k st mx steps :
  ready k st -> k < last -> steps < mx ->
  run_round words mx steps st =
  match step (zget prog k) st with Ok st' => inl (steps + 1, st') | Err e => inr (Raised e st) end.
Proof.
  intros [(_ & B & _) A] Hk Hs. rewrite (round_at words mx steps k st A Hs). cbv zeta. rewrite zget_words by lia.
  by rewrite (self_loop_not_forward _ _ _ (word_before_last k ltac:(lia))).
Qed.

Lemma round_end st mx steps : ready last st -> steps < mx -> run_round words mx steps st = inr (Finished steps st).
Proof.
  intros [(_ & B & _) A] Hs. rewrite (round_at words mx steps last st A Hs). cbv zeta. rewrite zget_words by lia.
  destruct (forward_word prog last Hf ltac:(lia)) as [[_ ->]|[E _]]; [done | lia].
Qed.

Lemma path_run k st m st0 : path k st m st0 -> forall fuel mx steps,
  (m < fuel)%nat -> steps + Z.of_nat m < mx -> run_loop fuel words mx steps st = Finished (steps + Z.of_nat m) st0.
Proof.
  induction 1 as [st R|k k' st st' m st0 R Hk E Hk' _ IH]; intros fuel mx steps Hf' Hm; (destruct fuel as [|fuel]; [lia|]); cbn [run_loop].
  - rewrite round_end by (done || lia). f_equal. lia.
  - rewrite (round_next k), E by (done || lia). rewrite IH by lia. f_equal. lia.
Qed.

Lemma ready_alike k st st' : ready k st -> alike st st' -> ready k st'.
Proof. intros R (c & -> & _). exact R. Qed.

Lemma path_alike k st m st0 : path k st m st0 -> armed < k -> forall st1, alike st st1 ->
  exists st2, path k st1 m st2 /\ alike st0 st2.
Proof.
  induction 1 as [st R|k k' st st' m st0 R Hk E Hk' P IH]; intros Ha st1 A.
  - exists st1. split; [|done]. constructor. by eapply ready_alike.
  - pose proof R as [(_ & B & _ & _ & HM & _) _].
    destruct (lookup_lt_is_Some_2 prog (Z.to_nat k)) as [w Hw]; [lia|].
    destruct (alike_step (zget prog k) len k st st1 st') as (st1' & E1 & A1); try done.
    { apply word_before_last. lia. }
    { replace (zget prog k) with w by (unfold zget; by rewrite Hw). apply (Hquiet _ _ Hw). lia. }
    destruct (IH ltac:(lia) st1' A1) as (st2 & P2 & A2). exists st2. split; [|done].
    eapply path_next; try done. by eapply ready_alike.
Qed.

(** The rounds of the interrupt: the trap, and the two words of the handler. *)
Lemma interrupt_rounds p cause k st fuel mx steps :
  ready k st -> Inv k st -> armed < k -> steps + 1 < mx ->
  exists h, alike st h /\
    run_loop (S (S fuel)) words mx steps (with_pending None (trap cause 0 (with_pending p st))) =
    run_loop fuel words mx (steps + 2) h.
Proof.
  intros R I Ha Hm. pose proof R as [(_ & B & _ & Hx & HM & HP) (_ & _ & Hroom & _)].
  destruct (handler_undoes p cause st HM HP) as (t' & h & E & E' & A & Hpc & Hpc' & S).
  rewrite !Forall_cons in S. destruct S as ((M1 & X1 & P1) & (M2 & X2 & P2) & _).
  rewrite (Hvector k st R I Ha) in Hpc, Hpc'. set (t := with_pending None _) in *. rewrite length_app in Hroom. cbn in Hroom.
  assert (forall s j, pc s = 4 * j -> len <= j < len + 2 -> priv_mode s = PRIV_M -> xlen s = xlen st -> pending_interrupt s = None ->
    at_word words j s) as At.
  { intros s j ? ? ? Hs ?. unfold at_word. rewrite Hs, length_app. cbn. split_and!; (done || lia). }
  exists h. split; [done|]. cbn [run_loop].
  rewrite (round_at words mx steps len t) by (apply At || lia; done || lia). cbv zeta.
  assert (zget words len = DISARM) as -> by (unfold zget; rewrite Nat2Z.id; by rewrite list_lookup_middle).
  change (self_loop DISARM) with false. cbv iota. rewrite E.
  rewrite (round_at words mx (steps + 1) (len + 1) t') by (first [apply At; (done || lia) | lia]). cbv zeta.
  assert (zget words (len + 1) = MRET) as ->.
  { unfold zget. rewrite lookup_app_r by lia. by replace (Z.to_nat (len + 1) - length prog)%nat with 1%nat by lia. }
  change (self_loop MRET) with false. cbv iota. rewrite E'. f_equal. lia.
Qed.

(** A round that does not take the interrupt is a round of the other run. *)
Lemma round_pending p k st mx steps :
  ready k st -> interrupt_due steps (with_pending p st) = None -> steps < mx ->
  run_round words mx steps (with_pending p st) =
  match run_round words mx steps st with
  | inl (steps', st') => inl (steps', with_pending p st')
  | inr (Finished steps' st') => inr (Finished steps' (with_pending p st'))
  | inr o => inr o
  end.
Proof.
  intros R D Hs. pose proof R as [(Hpc & B & _ & Hx & HM & HP) (_ & _ & Hn & _)]. rewrite length_app in Hn. cbn in Hn.
  unfold run_round at 1. rewrite D. destruct (Z.ltb_spec steps mx); [|lia]. cbn [negb].
  rewrite translate_M by done. change (pc (with_pending p st)) with (pc st). change (uxlen (with_pending p st)) with (uxlen st).
  rewrite Hpc, uxlen_small, length_app by lia. cbn [length]. destruct (Z.leb_spec (Z.of_nat (length prog + 2) * 4) (4 * k)); [lia|].
  rewrite Z.mul_comm, Z.div_mul, zget_words by lia. destruct (decide (k = last)) as [->|N].
  - rewrite round_end by done. by destruct (forward_word prog last Hf ltac:(lia)) as [[_ ->]|[E _]]; [|lia].
  - pose proof (word_before_last k ltac:(lia)) as G. rewrite (round_next k) by (done || lia).
    rewrite (self_loop_not_forward _ _ _ G), (step_pending len k) by done.
    destruct (ready_step k st R ltac:(lia)) as (st' & _ & -> & _). done.
Qed.

Lemma path_final k st m st0 : path k st m st0 -> ready last st0.
Proof. by induction 1. Qed.

(** From the trap on. *)
Lemma path_taken k st m st0 p cause fuel mx steps :
  path k st m st0 -> Inv k st -> armed < k -> (m < fuel)%nat -> steps + Z.of_nat m + 2 < mx ->
  exists c, c !! CSR_MSCRATCH = csr st0 !! CSR_MSCRATCH /\
    run_loop (S (S fuel)) words mx steps (with_pending None (trap cause 0 (with_pending p st))) =
    Finished (steps + Z.of_nat m + 2) (over c None PRIV_M st0).
Proof.
  intros P I Ha Hf' Hm. destruct (interrupt_rounds p cause k st fuel mx steps (path_ready _ _ _ _ P) I Ha ltac:(lia)) as (h & A & ->).
  destruct (path_alike k st m st0 P Ha h A) as (st2 & P2 & c & -> & Ec). exists c. split; [done|].
  rewrite (path_run _ _ _ _ P2) by lia. destruct (path_final _ _ _ _ P) as [(_ & _ & _ & _ & -> & ->) _]. f_equal. lia.
Qed.

(** The interrupt is taken when at least [after] instructions are executed, and the
    run ends in the same state but for the CSRs of the trap mechanism. *)
Lemma path_interrupted k st m st0 : path k st m st0 -> Inv k st -> forall after cause fuel mx steps,
  (m + 3 < fuel)%nat -> steps + Z.of_nat m + 2 < mx ->
  let taken := after <=? steps + Z.of_nat m in
  exists c, c !! CSR_MSCRATCH = csr st0 !! CSR_MSCRATCH /\
    run_loop fuel words mx steps (with_pending (Some (after, cause)) st) =
    Finished (steps + Z.of_nat m + if taken then 2 else 0) (over c (if taken then None else Some (after, cause)) PRIV_M st0).
Proof.
  intros P. pose proof P as P0. induction P as [st R|k k' st st' m st0 R Hk E Hk' P IH];
    intros I after cause fuel mx steps Hfuel Hm taken; set (p := Some (after, cause)).
  all: destruct fuel as [|fuel]; [lia|]; cbn [run_loop].
  all: match type of R with ready ?k _ => assert (interrupt_due steps (with_pending p st) =
    if (after <=? steps) && (armed <? k) then Some cause else None) as D by (unfold interrupt_due; cbn;
      change (csr_at (with_pending p st)) with (csr_at st); by erewrite Henabled) end.
  all: destruct (_ && _) eqn:Eb in D.
  all: try (apply andb_true_iff in Eb as [Ea%Z.leb_le Eb%Z.ltb_lt]; unfold run_round; rewrite D;
    (destruct (Z.ltb_spec steps mx); [|lia]); cbn [negb];
    assert (taken = true) as -> by (apply Z.leb_le; lia); destruct fuel as [|[|fuel]]; [lia | lia |];
    apply (path_taken _ _ _ _ p cause fuel mx steps P0 I Eb); lia).
  all: rewrite (round_pending p _ st mx steps R D) by lia.
  - rewrite round_end by (done || lia). apply andb_false_iff in Eb as [Ea%Z.leb_gt|Eb%Z.ltb_ge]; [|lia].
    assert (taken = false) as -> by (apply Z.leb_gt; lia). destruct R as [(_ & _ & _ & _ & HM & _) _]. exists (csr st).
    split; [done|]. rewrite <- HM. cbn. f_equal. lia.
  - rewrite (round_next k), E by (done || lia). unfold taken, p. clear taken p D.
    destruct (IH P (Hinv k k' st st' R I Hk E (path_ready _ _ _ _ P) Hk') after cause fuel mx (steps + 1)) as (c & Ec & ->); [lia | lia |].
    exists c. split; [done|]. replace (steps + 1 + Z.of_nat m) with (steps + Z.of_nat (S m)) by lia. done.
Qed.
End Interrupted.
