(* ===== verification/Translated.v ===== *)
(** * Translated programs

    A program that only goes forward, run in U-mode behind a page table that maps
    its page to itself: it does what it does in M-mode, and no access faults. *)

From S2P Require Import Prelude Bits Float32 Machine Mmu Exec Run Csr Privilege PageTable Reach Raises Memory Forward Interrupted.
Open Scope Z_scope.

(** ** A step in U-mode *)

Definition user (st : ISS) : ISS := with_priv PRIV_U st.

Lemma user_over st : user st = over (csr st) (pending_interrupt st) PRIV_U st.
Proof. done. Qed.

(** An unprivileged CSR instruction. *)
Lemma csr_done_over c p m w st :
  op_of w = 0x73 -> unprivileged w -> csr_done w (over c p m st) = over c p m (csr_done w st).
Proof.
  intros O U. specialize (U O). unfold csr_done. cbv zeta. unfold user_csrs in U.
  repeat (apply elem_of_cons in U as [->|U]); [..|by apply elem_of_nil in U]; unfold wr; by destruct (rd_of w =? 0).
Qed.

Lemma csr_done_keeps w st :
  op_of w = 0x73 -> unprivileged w ->
  csr (csr_done w st) = csr st /\ mem (csr_done w st) = mem st /\ mem_mask (csr_done w st) = mem_mask st.
Proof.
  intros O U. specialize (U O). unfold csr_done. cbv zeta. unfold user_csrs in U.
  repeat (apply elem_of_cons in U as [->|U]); [..|by apply elem_of_nil in U]; unfold wr; by destruct (rd_of w =? 0).
Qed.

Lemma user_csr_step w st :
  op_of w = 0x73 -> unprivileged w -> 0 <= priv_mode st -> exec_csr w st = Ok (csr_done w st).
Proof.
  intros O U Hp. specialize (U O). unfold exec_csr. cbv zeta.
  assert ((csr_addr_of w ≫ 8) .& 3 = 0) as ->.
  { unfold user_csrs in U. repeat (apply elem_of_cons in U as [->|U]); [..|by apply elem_of_nil in U]; reflexivity. }
  by destruct (Z.ltb_spec (priv_mode st) 0); [lia|].
Qed.

Lemma user_step n k w st :
  goes_forward n k w -> unprivileged w -> priv_mode st = PRIV_M -> access_mapped w (user st) ->
  step w (user st) = rmap user (step w st).
Proof.
  intros G U HM A. rewrite !user_over in *. destruct (forward_csr n k w G) as [F|(O & _ & S)].
  - rewrite step_over by done. destruct (step w st) as [st'|] eqn:E; [|done]. cbn [rmap].
    destruct (csr_free_keeps w st st' F HM E) as (C & P & _). by rewrite user_over, C, P.
  - rewrite !S, !user_csr_step by (done || (rewrite HM; done)). rewrite csr_done_over by done. cbn [rmap]. f_equal.
    destruct (csr_done_keeps w st O U) as (C & _). rewrite user_over, C. f_equal.
    unfold csr_done. cbv zeta. specialize (U O). unfold user_csrs in U.
    repeat (apply elem_of_cons in U as [->|U]); [..|by apply elem_of_nil in U]; unfold wr; by destruct (rd_of w =? 0).
Qed.

(** ** Memory *)

Lemma mem_wr r v st : mem (wr r v st) = mem st /\ mem_mask (wr r v st) = mem_mask st.
Proof. unfold wr. by destruct (r =? 0). Qed.

(** Only a store changes the memory. *)
Lemma mem_kept n k w st st' :
  goes_forward n k w -> unprivileged w -> priv_mode st = PRIV_M -> op_of w <> 0x23 -> op_of w <> 0x27 -> step w st = Ok st' ->
  mem st' = mem st /\ mem_mask st' = mem_mask st.
Proof.
  intros G U HM N1 N2 E. destruct (forward_csr n k w G) as [F|(O & _ & S)].
  2:{ rewrite S, user_csr_step in E by (done || (rewrite HM; done)). injection E as <-. by apply csr_done_keeps. }
  unfold csr_free in F. revert E. unfold step. destruct (w =? 0); [by intros [= <-]|]. cbv zeta.
  apply orb_true_iff in F as [F|F].
  - apply bool_decide_eq_true in F. cbn [straight_ops app] in F.
    repeat (apply elem_of_cons in F as [F|F]; [try done; rewrite F; cbn -[step]; intros E;
      unfold exec_op, exec_op_32, exec_op_imm, exec_op_imm_32, exec_lui, exec_auipc, exec_op_fp, op_fp, exec_fmadd, exec_branch, exec_jal,
        exec_load, exec_flw in E; rewrite ?translate_M in E by done; cbv zeta in E; ok_inv; unfold put_x, put_f; cbn;
      first [done | apply mem_wr]|]).
    by apply elem_of_nil in F.
  - apply andb_true_iff in F as [F%Z.eqb_eq F3]. rewrite F, F3. intros E. change (Ok (with_pc (next_pc st) st) = Ok st') in E. by injection E as <-.
Qed.

(** ** A page mapped to itself *)

(** At XLEN 32 translation is on, and the tables at [0] and [0x1000] map the first
    page to itself, for U-mode and every access; at XLEN 64 translation is off. *)
Definition flat (st : ISS) : Prop :=
  if xlen st =? 32 then csr_at st CSR_SATP = 0x80000000 /\ get_le st 0 4 = 0x401 /\ get_le st 0x1000 4 = 0x1F
  else csr_at st CSR_SATP = 0.

Lemma flat_mapped st va : flat st -> xlen st = 32 \/ xlen st = 64 -> 0 <= va < 4096 -> mapped (user st) va.
Proof.
  intros F Hx Hva a. unfold translate. cbv zeta. change (priv_mode (user st) =? PRIV_M) with false.
  change (xlen (user st)) with (xlen st). change (csr_at (user st)) with (csr_at st). change (uxlen (user st)) with (uxlen st).
  unfold flat in F. destruct Hx as [X|X]; rewrite X in *; cbn [Z.eqb Pos.eqb] in *.
  - destruct F as (-> & P1 & P0). change (negb (truthy ((0x80000000 ≫ SATP_MODE_BIT) .& 1))) with false. cbv iota.
    unfold translate_sv32. cbv zeta. assert (u32 va = va) as -> by (unfold u32; rewrite (land_lit _ 0xFFFFFFFF 32), Z.mod_small; (done || lia)).
    assert (va ≫ 22 = 0) as -> by (rewrite Z.shiftr_div_pow2 by lia; dlia).
    assert (va ≫ 12 = 0) as -> by (rewrite Z.shiftr_div_pow2 by lia; dlia).
    assert (va .& 0xFFF = va) as -> by (rewrite (land_lit _ 0xFFF 12), Z.mod_small; (done || lia)).
    change (read_pte (user st) (((0x80000000 .& 0xFFFFF) ≪ 12) .| ((0 .& 0x3FF) ≪ 2))) with (read_pte st 0). rewrite (read_pte_load_le st 0).
    change (load_le st _ 4) with (get_le st 0 4). rewrite P1.
    change (negb (pte_valid 0x401)) with false. change (pte_leaf 0x401) with false. cbv iota.
    change (read_pte (user st) ((((0x401 ≫ 10) .& 0xFFFFF) ≪ 12) .| ((0 .& 0x3FF) ≪ 2))) with (read_pte st 0x1000).
    rewrite (read_pte_load_le st 0x1000). change (load_le st _ 4) with (get_le st 0x1000 4). rewrite P0.
    change (negb (pte_valid 0x1F)) with false. change (negb (pte_leaf 0x1F)) with false.
    assert (pte_perm_ok (user st) 0x1F a = true) as -> by (by destruct a). cbn [negb].
    change (u32 _) with (u32 va). unfold u32. by rewrite (land_lit _ 0xFFFFFFFF 32), Z.mod_small by (done || lia).
  - rewrite F. cbn. by rewrite uxlen_small by (rewrite X; lia).
Qed.

(** Loads look at the memory alone. *)
Lemma get_le_mem st st' a n : mem st' = mem st -> mem_mask st' = mem_mask st -> get_le st' a n = get_le st a n.
Proof.
  intros Hm Hk. induction n as [|n IH]; [done|]. rewrite !get_le_S, IH. cbn. unfold load_mem_byte. by rewrite Hm, Hk.
Qed.

Lemma get_put_frame addr v n st a k p :
  wf st -> mem_mask st = 2 ^ p - 1 -> 0 <= p <= 28 -> 0 <= addr -> 0 <= a -> addr + Z.of_nat n <= 2 ^ p -> a + Z.of_nat k <= 2 ^ p ->
  addr + Z.of_nat n <= a \/ a + Z.of_nat k <= addr -> get_le (put_le addr v n st) a k = get_le st a k.
Proof.
  intros W Hm Hp Ha H0 Hn Hk D. assert (2 ^ p <= 2 ^ 28) by (apply Z.pow_le_mono_r; lia).
  assert (forall b, 0 <= b < 2 ^ p -> iss_cell st b = Some b) as C.
  { intros b Hb. unfold iss_cell, MMIO_BASE. destruct (Z.leb_spec 0x10000000 b); [lia|]. f_equal.
    rewrite Hm. change (2 ^ p - 1) with (Z.pred (2 ^ p)). rewrite <- Z.ones_equiv, Z.land_ones, Z.mod_small; (done || lia). }
  assert (forall j : nat, (j <= k)%nat -> get_le (put_le addr v n st) a j = get_le st a j) as G; [|by apply G].
  induction j as [|j IH]; intros Hj; [done|]. rewrite !get_le_S, IH by lia. do 2 f_equal.
  apply put_le_frame; [done|]. intros i Hi. cbn [bs_cell ISS_store]. rewrite !C by lia. intros [= E]. lia.
Qed.

(** A store of the window below the page's end spares the tables. *)
Definition spares (w : Z) (st : ISS) : Prop :=
  forall off width, access_of w = Some (off, width) ->
    4 <= uxlen st (reg_A st w + off) /\ uxlen st (reg_A st w + off) + width <= 4096.

Lemma flat_put addr v n st p :
  wf st -> mem_mask st = 2 ^ p - 1 -> 13 <= p <= 28 -> 4 <= addr -> addr + Z.of_nat n <= 4096 -> flat st -> flat (put_le addr v n st).
Proof.
  intros W Hm Hp Ha Hn F. assert (2 ^ 13 <= 2 ^ p) by (apply Z.pow_le_mono_r; lia).
  assert (xlen (put_le addr v n st) = xlen st /\ csr (put_le addr v n st) = csr st) as [X C].
  { rewrite <- store_le_put. unfold store_le. generalize (seqZ 0 (Z.of_nat n)) as l. intros l.
    assert (forall s, xlen (foldl (fun s i => store_mem_byte (addr + i) (v ≫ (8 * i)) s) s l) = xlen s /\
      csr (foldl (fun s i => store_mem_byte (addr + i) (v ≫ (8 * i)) s) s l) = csr s) as A; [|apply A].
    induction l as [|i l IH]; intros s; [done|]. cbn [foldl]. destruct (IH (store_mem_byte (addr + i) (v ≫ (8 * i)) s)) as [-> ->].
    unfold store_mem_byte. by destruct (_ <=? _). }
  unfold flat, csr_at in *. rewrite X, C. destruct (xlen st =? 32); [|done]. destruct F as (? & P1 & P0).
  rewrite !(get_put_frame addr v n st _ 4 p) by (done || lia). done.
Qed.

Lemma put_mask addr v n st : mem_mask (put_le addr v n st) = mem_mask st.
Proof.
  induction n as [|n IH]; [done|]. rewrite put_le_S, <- IH. cbn. unfold store_mem_byte. by destruct (_ <=? _).
Qed.

Lemma flat_pc v st : flat (with_pc v st) <-> flat st.
Proof. done. Qed.

(** A step of an unprivileged word that spares the tables. *)
Lemma flat_step n k w st st' p :
  wf st -> goes_forward n k w -> unprivileged w -> priv_mode st = PRIV_M -> mem_mask st = 2 ^ p - 1 -> 13 <= p <= 28 ->
  spares w st -> flat st -> step w st = Ok st' -> flat st' /\ csr st' = csr st /\ mem_mask st' = mem_mask st.
Proof.
  intros W G U HM Hm Hp S F E.
  assert (csr st' = csr st /\ xlen st' = xlen st) as [C X].
  { split.
    - destruct (forward_csr n k w G) as [Fr|(O & _ & Sc)]; [by apply (csr_free_keeps w st st')|].
      rewrite Sc, user_csr_step in E by (done || (rewrite HM; done)). injection E as <-. by apply csr_done_keeps.
    - by eapply step_xlen. }
  destruct (decide (op_of w = 0x23)) as [O|N1]; [|destruct (decide (op_of w = 0x27)) as [O|N2]].
  - assert (access_of w = Some (imm_s_of w, 2 ^ (f3_of w mod 4))) as A by (unfold access_of; by rewrite O).
    destruct (S _ _ A) as [B1 B2]. unfold step in E. destruct (w =? 0); [by injection E as <-|]. cbv zeta in E. rewrite O in E.
    change (exec_store w st = Ok st') in E. unfold exec_store in E. rewrite translate_M in E by done. ok_inv.
    match goal with H : store_value _ _ _ _ = Ok _ |- _ => apply store_value_put in H; rewrite ?uxlen_uxlen in H;
      destruct H as [[Hf ->]|[[Hf ->]|[[Hf ->]|[Hf ->]]]] end; rewrite Hf in B2; rewrite flat_pc; cbn [mem_mask with_pc]; rewrite put_mask;
      (split; [by apply (flat_put _ _ _ _ p) | done]).
  - assert (access_of w = Some (imm_s_of w, 4)) as A by (unfold access_of; by rewrite O).
    destruct (S _ _ A) as [B1 B2]. unfold step in E. destruct (w =? 0); [by injection E as <-|]. cbv zeta in E. rewrite O in E.
    change (exec_fsw w st = Ok st') in E. unfold exec_fsw in E. rewrite translate_M in E by done. ok_inv.
    rewrite store_le_put, uxlen_uxlen in *. split; [by apply flat_pc, (flat_put _ _ _ _ p) | split; [done | apply put_mask]].
  - destruct (mem_kept n k w st st' G U HM N1 N2 E) as [Hmem Hmask]. split; [|done].
    unfold flat, csr_at in *. rewrite C, X, !(get_le_mem st st') by done. done.
Qed.

(** A round in U-mode at a mapped address. *)
Lemma user_round words mx steps k st :
  at_word words k st -> mapped (user st) (4 * k) -> steps < mx ->
  run_round words mx steps (user st) =
  let w := zget words k in
  if self_loop w then inr (Finished steps (user st))
  else match step w (user st) with
       | Ok st' => inl (steps + 1, st')
       | Err e => inr (Raised e (user st))
       end.
Proof.
  intros (Hpc & Hk & Hn & Hx & HM & HI) M Hs. unfold run_round.
  destruct (Z.ltb_spec steps mx); [|lia]. cbn [negb]. unfold interrupt_due. change (pending_interrupt (user st)) with (pending_interrupt st).
  rewrite HI. change (pc (user st)) with (pc st). rewrite Hpc, M.
  destruct (Z.leb_spec (Z.of_nat (length words) * 4) (4 * k)); [lia|].
  by rewrite Z.mul_comm, Z.div_mul by lia.
Qed.

(** ** Straight-line beginnings *)

Lemma rounds_app n m words mx p q : rounds n words mx p = Some q -> rounds (n + m) words mx p = rounds m words mx q.
Proof.
  revert p. induction n as [|n IH]; intros p E; cbn [rounds Nat.add] in *; [by injection E as <-|].
  destruct (run_round _ _ _ _); [by apply IH | done].
Qed.

(** The rounds of straight-line words execute them one after the other. *)
Lemma rounds_straight (ws : list Z) : forall words k st mx steps,
  Forall (fun w => straight w = true) ws -> (forall j w, ws !! j = Some w -> words !! (Z.to_nat k + j)%nat = Some w) ->
  at_word words k st -> k + Z.of_nat (length ws) < Z.of_nat (length words) -> steps + Z.of_nat (length ws) <= mx ->
  exists st', exec_all ws st = Ok st' /\ rounds (length ws) words mx (steps, st) = Some (steps + Z.of_nat (length ws), st') /\
    at_word words (k + Z.of_nat (length ws)) st'.
Proof.
  induction ws as [|w ws IH]; intros words k st mx steps S Hws A Hk Hm; cbn [length] in *.
  { exists st. rewrite !Z.add_0_r. done. }
  apply Forall_cons in S as [Sw S]. pose proof A as (Hpc & B & Hn & Hx & HM & HI).
  destruct (straight_step w st Sw HM) as (s & E & P & K1 & K2 & K3 & _).
  assert (zget words k = w) as Z0. { unfold zget. specialize (Hws 0%nat w eq_refl). rewrite Nat.add_0_r in Hws. by rewrite Hws. }
  assert (at_word words (k + 1) s) as A'. { unfold at_word. rewrite P, K1, K2, K3. split_and!; (done || lia). }
  destruct (IH words (k + 1) s mx (steps + 1) S) as (st' & E' & R & A2); [|done|lia|lia|].
  { intros j v Hj. specialize (Hws (Datatypes.S j) v Hj). replace (Z.to_nat (k + 1) + j)%nat with (Z.to_nat k + Datatypes.S j)%nat by lia. done. }
  exists st'. cbn [exec_all rounds]. rewrite E. cbn [rbind fst snd]. split; [done|].
  rewrite (round_at words mx steps k st A) by lia. cbv zeta. rewrite Z0.
  rewrite (self_loop_not_forward (Z.of_nat (length words)) k w) by by apply fwd_straight.
  rewrite E, R. replace (k + 1 + Z.of_nat (length ws)) with (k + Z.of_nat (Datatypes.S (length ws))) in A2 by lia.
  split; [|done]. do 2 f_equal. lia.
Qed.
