(* ===== verification/RandLines.v ===== *)
(** * The lines the generator writes

    Every line [random_gen.py] produces that is not a label or a control transfer
    assembles, at either XLEN and wherever it stands, to a straight-line word that
    leaves the base register alone. *)

From Stdlib Require Import Ascii String.
From S2P Require Import Prelude Bits Float32 Machine Mmu Exec Raises Forward PyStr Asm Disasm AsmText.
From S2P Require Import Roundtrip AsmLink AsmImage RandGen.
Open Scope string_scope.
Open Scope Z_scope.

(** ** Text *)

Lemma re_split_spaced args :
  args <> [] -> Forall clean args -> re_split true (spaced_args args) = args.
Proof.
  induction args as [|a args IH]; [done|]. intros _ [Ha Hc]%Forall_cons.
  destruct args as [|b args].
  - change (spaced_args [a]) with a. rewrite <- (append_nil a) at 1. rewrite re_split_start by done.
    rewrite append_nil. by apply re_split_last, Ha.
  - change (spaced_args (a :: b :: args)) with (a ++ String "," (String " " (spaced_args (b :: args))))%string.
    rewrite re_split_start, re_split_cut by (done || apply Ha).
    change (re_split true (String " " ?s)) with (re_split true s). by rewrite IH.
Qed.

Lemma rstrip_spaced p args :
  args <> [] -> Forall clean args -> rstrip (p ++ spaced_args args)%string = (p ++ spaced_args args)%string.
Proof.
  revert p. induction args as [|a args IH]; [done|]. intros p _ [Ha Hc]%Forall_cons.
  destruct args as [|b args]; [by apply rstrip_app|].
  change (spaced_args (a :: b :: args)) with (a ++ ", " ++ spaced_args (b :: args))%string.
  rewrite <- !append_assoc. by apply IH.
Qed.

Lemma spaced_chars (p : ascii -> bool) args :
  (forall c, tok_char c = true -> p c = true) -> p ","%char = true -> p " "%char = true ->
  Forall clean args -> all_chars p (spaced_args args) = true.
Proof.
  intros Hp H1 H2. induction 1 as [|a args [_ Ha] Hc IH]; [done|].
  pose proof (all_chars_impl _ _ _ Hp Ha) as Pa. destruct args as [|b args]; [done|].
  change (spaced_args (a :: b :: args)) with (a ++ String "," (String " " (spaced_args (b :: args))))%string.
  rewrite all_chars_app, Pa.
  change (all_chars p (String "," (String " " ?t))) with (p ","%char && (p " "%char && all_chars p t)).
  by rewrite H1, H2, IH.
Qed.

Section Ins.
  Context (mn : string) (args : list string).
  Context (Hm : clean mn) (Ha : args <> []) (Hc : Forall clean args).

Lemma ins_chars (p : ascii -> bool) :
  (forall c, tok_char c = true -> p c = true) -> p ","%char = true -> p " "%char = true ->
  all_chars p (ins mn args) = true.
Proof.
  intros Hp H1 H2. unfold ins. rewrite all_chars_app, (all_chars_impl _ _ _ Hp (proj2 Hm)).
  change (" " ++ spaced_args args)%string with (String " " (spaced_args args)).
  change (all_chars p (String " " ?t)) with (p " "%char && all_chars p t). rewrite H2.
  by apply spaced_chars.
Qed.

Lemma strip_ins : strip (ins mn args) = ins mn args.
Proof.
  unfold strip, ins. rewrite lstrip_clean by done. rewrite <- append_assoc. by apply rstrip_spaced.
Qed.

(** An instruction line is a statement, whatever surrounds it. *)
Lemma stmt_ins : stmt_of (ins mn args) = Some (ins mn args).
Proof.
  unfold stmt_of. rewrite before_hash_id.
  2:{ apply ins_chars; try done. intros c (_ & _ & -> & _)%tok_char_inv. done. }
  rewrite strip_ins. assert ((ins mn args =? "")%string = false) as ->.
  { destruct Hm as [Hn _]. destruct mn; [done|]. reflexivity. }
  rewrite no_colon_end; [done|].
  apply ins_chars; try done. intros c (_ & _ & _ & ->)%tok_char_inv. done.
Qed.

Lemma split_ins : re_split false (strip (ins mn args)) = mn :: args.
Proof.
  rewrite strip_ins. unfold ins. change (" " ++ ?t)%string with (String " " t).
  rewrite re_split_cut by (done || apply Hm). f_equal. by apply re_split_spaced.
Qed.

Lemma assemble_ins labels xl a :
  lower mn = mn -> assemble_stmt labels xl (a, ins mn args) = encode labels xl a mn args.
Proof. intros Hl. unfold assemble_stmt. by rewrite split_ins, Hl. Qed.

End Ins.

(** ** Fields of an encoded word *)

Lemma r_word f7 rs2 rs1 f3 rd op :
  0 <= f7 < 128 -> 0 <= rs2 < 32 -> 0 <= rs1 < 32 -> 0 <= f3 < 8 -> 0 <= rd < 32 -> 0 <= op < 128 ->
  let w := (f7 ≪ 25) .| (rs2 ≪ 20) .| (rs1 ≪ 15) .| (f3 ≪ 12) .| (rd ≪ 7) .| op in
  op_of w = op /\ rd_of w = rd /\ f3_of w = f3 /\ rs1_of w = rs1 /\ rs2_of w = rs2 /\ f7_of w = f7.
Proof.
  intros. assert (w = f7 * 2 ^ 25 + rs2 * 2 ^ 20 + rs1 * 2 ^ 15 + f3 * 2 ^ 12 + rd * 2 ^ 7 + op) as W
    by (unfold w; fields_norm; lia).
  clearbody w. unfold op_of, rd_of, f3_of, rs1_of, rs2_of, f7_of. repeat split; fields.
Qed.

Lemma i_word imm rs1 f3 rd op :
  0 <= imm < 4096 -> 0 <= rs1 < 32 -> 0 <= f3 < 8 -> 0 <= rd < 32 -> 0 <= op < 128 ->
  let w := (imm ≪ 20) .| (rs1 ≪ 15) .| (f3 ≪ 12) .| (rd ≪ 7) .| op in
  op_of w = op /\ rd_of w = rd /\ f3_of w = f3 /\ rs1_of w = rs1 /\ f7_of w = imm / 32 /\
  imm_i_of w = sext imm 12 /\ csr_addr_of w = imm.
Proof.
  intros. assert (w = imm * 2 ^ 20 + rs1 * 2 ^ 15 + f3 * 2 ^ 12 + rd * 2 ^ 7 + op) as W
    by (unfold w; fields_norm; lia).
  clearbody w. unfold op_of, rd_of, f3_of, rs1_of, f7_of, imm_i_of, csr_addr_of.
  assert ((w ≫ 20) .& 0xFFF = imm) as -> by fields. repeat split; fields.
Qed.

Lemma u_word v rd op :
  0 <= v < 2 ^ 20 -> 0 <= rd < 32 -> 0 <= op < 128 ->
  let w := (v ≪ 12) .| (rd ≪ 7) .| op in op_of w = op /\ rd_of w = rd /\ w .& 0xFFFFF000 = v ≪ 12.
Proof.
  intros. assert (w = v * 2 ^ 12 + rd * 2 ^ 7 + op) as W by (unfold w; fields_norm; lia).
  split_and!; [clearbody w; unfold op_of; fields | clearbody w; unfold rd_of; fields |].
  change 0xFFFFF000 with (Z.ldiff (Z.ones 32) (Z.ones 12)).
  assert (0 <= w < 2 ^ 32) by lia.
  rewrite <- (Z.mod_small w (2 ^ 32)), <- Z.land_ones at 1 by lia.
  rewrite Z.ldiff_land, <- Z.land_assoc, (Z.land_assoc (Z.ones 32)), Z.land_diag, Z.land_assoc.
  rewrite Z.land_ones, Z.mod_small, <- Z.ldiff_land, Z.ldiff_ones_r by lia.
  clearbody w. rewrite W. fields.
Qed.

(** [straight] in terms of the fields. *)
Definition straight_fields (op f3 f7 : Z) : bool :=
  if op =? 0x33 then negb (reserved_op f3 f7)
  else if op =? 0x3B then negb (reserved_op_32 f3 f7)
  else if op =? 0x1B then (f3 =? 0) || (f3 =? 1) || (f3 =? 5)
  else if op =? 0x53 then bool_decide (f7 / 4 ∈ fp_funct5s)
  else if op =? 0x03 then negb (f3 =? 7)
  else if op =? 0x23 then f3 <? 4
  else if op =? 0x73 then negb (f3 =? 0)
  else if op =? 0x0F then f3 =? 0
  else bool_decide (op ∈ straight_ops).

Lemma straight_by_fields w : straight_fields (op_of w) (f3_of w) (f7_of w) = true -> straight w = true.
Proof.
  assert ((w ≫ 27) .& 0x1F = f7_of w / 4) as F5 by (unfold f7_of; fields).
  unfold straight_fields, straight, reserved, reserved_mem. cbv zeta. rewrite F5.
  destruct (Z.eqb_spec w 0) as [->|_]; [done|]. generalize (op_of w) (f3_of w) (f7_of w).
  intros op f3 f7. cbn [negb andb].
  unfold Exec.OP_R, Exec.OP_32, Exec.OP_IMM_32, Exec.OP_FP, Exec.OP_LOAD, Exec.OP_STORE.
  destruct (Z.eqb_spec op 0x33) as [->|]; [by intros ->|].
  destruct (Z.eqb_spec op 0x3B) as [->|]; [by intros ->|].
  destruct (Z.eqb_spec op 0x1B) as [->|]; [by intros ->|].
  destruct (Z.eqb_spec op 0x53) as [->|]; [by intros ->|].
  destruct (Z.eqb_spec op 0x03) as [->|]; [by intros ->|].
  destruct (Z.eqb_spec op 0x23) as [->|]; [rewrite Z.ltb_antisym; by intros ->|].
  destruct (Z.eqb_spec op 0x73) as [->|]; [by intros ->|].
  destruct (Z.eqb_spec op 0x0F) as [->|]; [by intros ->|]. by intros ->.
Qed.

(** Store format, and the formats of the float encoders. *)
Lemma s_word v rs2 rs1 f3 op :
  0 <= v < 4096 -> 0 <= rs2 < 32 -> 0 <= rs1 < 32 -> 0 <= f3 < 8 -> 0 <= op < 128 ->
  let w := (((v ≫ 5) .& 0x7F) ≪ 25) .| (rs2 ≪ 20) .| (rs1 ≪ 15) .| (f3 ≪ 12) .| ((v .& 0x1F) ≪ 7) .| op in
  op_of w = op /\ f3_of w = f3 /\ rs1_of w = rs1 /\ imm_s_of w = sext v 12.
Proof.
  intros. destruct (r_word ((v ≫ 5) .& 0x7F) rs2 rs1 f3 (v .& 0x1F) op) as (O & D & F & S1 & _ & F7);
    try done; [by apply (land_range _ 7) | by apply (land_range _ 5)|].
  assert (is_u32 w) as U.
  { unfold w, is_u32. fields. }
  fold w in O, D, F, S1, F7. clearbody w. split_and!; try done. unfold imm_s_of.
  change ((w ≫ 7) .& 0x1F) with (rd_of w). rewrite D.
  assert (w ≫ 25 = f7_of w) as -> by (revert U; unfold f7_of, is_u32; fields). rewrite F7.
  f_equal. fields.
Qed.

Lemma fp_word f5 rs2 rs1 f3 rd op :
  0 <= f5 < 32 -> 0 <= rs2 < 32 -> 0 <= rs1 < 32 -> 0 <= f3 < 8 -> 0 <= rd < 32 -> 0 <= op < 128 ->
  let w := (f5 ≪ 27) .| (rs2 ≪ 20) .| (rs1 ≪ 15) .| (f3 ≪ 12) .| (rd ≪ 7) .| op in
  op_of w = op /\ rd_of w = rd /\ f3_of w = f3 /\ f7_of w = 4 * f5.
Proof.
  intros. destruct (r_word (4 * f5) rs2 rs1 f3 rd op) as (O & D & F & _ & _ & F7); try (done || lia).
  assert ((4 * f5) ≪ 25 = f5 ≪ 27) as E by (rewrite !Z.shiftl_mul_pow2; lia).
  by rewrite E in *.
Qed.

(** ** What a generated word may do *)

(** The CSRs a generated instruction may use: any one in the plain mode, a quiet one
    in an interrupt mode, an unprivileged one in a translated mode. *)
Definition csr_allowed (interrupt : option string) (mmu : bool) (a : Z) : Prop :=
  (interrupt <> None -> a ∈ quiet_csrs) /\ (mmu = true -> a ∈ user_csrs).

Section Good.
  Context (interrupt : option string) (mmu : bool) (base lim : Z).

Definition csr_ok (w : Z) : Prop := op_of w = 0x73 -> csr_allowed interrupt mmu (csr_addr_of w).

(** A load or store goes through the base register to an aligned offset in the
    window from [base] to [lim]. *)
Definition stays (w : Z) : Prop :=
  match access_of w with
  | None => True
  | Some (off, width) =>
      rs1_of w = 31 /\ 0 <= off /\ base + off + width <= lim /\ off mod width = 0
  end.

Definition good (w : Z) : Prop :=
  straight w = true /\ dest w <> 31 /\ stays w /\ csr_ok w.

(** The fields of an integer instruction, and those of a float one. *)
Definition good_fields (op f3 f7 : Z) : bool :=
  straight_fields op f3 f7 && negb (bool_decide (op ∈ [0x03; 0x23; 0x07; 0x27; 0x73])).

Lemma good_stays w : negb (bool_decide (op_of w ∈ [0x03; 0x23; 0x07; 0x27])) = true -> stays w.
Proof.
  intros H. apply negb_true_iff, bool_decide_eq_false in H. unfold stays, access_of.
  repeat match goal with
  | |- context [op_of w =? ?k] => destruct (Z.eqb_spec (op_of w) k) as [E|_];
      [destruct H; rewrite E; repeat constructor|]
  end.
  done.
Qed.

Lemma good_rest w :
  negb (bool_decide (op_of w ∈ [0x03; 0x23; 0x07; 0x27; 0x73])) = true -> stays w /\ csr_ok w.
Proof.
  intros H%negb_true_iff. apply bool_decide_eq_false in H. split.
  - apply good_stays, negb_true_iff, bool_decide_eq_false. contradict H. rewrite !elem_of_cons in *. tauto.
  - intros E. destruct H. rewrite E. repeat constructor.
Qed.

Lemma good_int w : good_fields (op_of w) (f3_of w) (f7_of w) = true -> rd_of w <> 31 -> good w.
Proof.
  intros [S M]%andb_true_iff D. split; [by apply straight_by_fields|]. split; [|by apply good_rest].
  unfold dest. by repeat case_match.
Qed.

Definition float_dest (op f7 : Z) : bool :=
  bool_decide (op ∈ no_dest_ops) || ((op =? 0x53) && negb (bool_decide (f7 / 4 ∈ [0x14; 0x18; 0x1C]))).

Lemma good_float w :
  good_fields (op_of w) (f3_of w) (f7_of w) = true -> float_dest (op_of w) (f7_of w) = true -> good w.
Proof.
  intros [S M]%andb_true_iff D. split; [by apply straight_by_fields|]. split; [|by apply good_rest].
  assert ((w ≫ 27) .& 0x1F = f7_of w / 4) as F5 by (unfold f7_of; fields).
  revert D. unfold dest, float_dest. rewrite F5. destruct (bool_decide (_ ∈ no_dest_ops)); [done|].
  cbn [orb]. by intros ->.
Qed.

End Good.

(** ** Encoding the operands *)

Lemma imm_dec z bits (sg : bool) :
  0 < bits -> (if sg then - 2 ^ (bits - 1) <= z < 2 ^ (bits - 1) else 0 <= z < 2 ^ bits) ->
  imm (TStr (show_dec z)) bits sg = Ok (z mod 2 ^ bits).
Proof.
  intros Hb R. unfold imm, operand_int. rewrite py_int0_dec. cbn [rbind].
  rewrite land_ones_mod, !shiftl_1 by lia. destruct sg.
  - destruct (Z.leb_spec (- 2 ^ (bits - 1)) z), (Z.leb_spec z (2 ^ (bits - 1) - 1)); (done || lia).
  - destruct (Z.leb_spec 0 z), (Z.leb_spec z (2 ^ bits - 1)); (done || lia).
Qed.

Lemma imm_hex v : 0 <= v < 2 ^ 20 -> imm (TStr (hex v)) 20 false = Ok v.
Proof. intros. apply imm_unsigned; [lia | apply py_int0_hex; lia | done]. Qed.

(** A line that is one instruction, encoded to a word with the property. *)
Definition assembles (xl : Z) (l : string) (P : Z -> Prop) : Prop :=
  stmt_of l = Some l /\ forall labels a, exists w, assemble_stmt labels xl (a, l) = Ok w /\ P w.

Lemma assembles_ins xl mn args (P : Z -> Prop) :
  clean mn -> lower mn = mn -> args <> [] -> Forall clean args ->
  (forall labels a, exists w, encode labels xl a mn args = Ok w /\ P w) ->
  assembles xl (ins mn args) P.
Proof.
  intros Hm Hl Ha Hc H. split; [by apply stmt_ins|]. intros labels a.
  rewrite assemble_ins by done. apply H.
Qed.

(** Evaluates what the mnemonic decides: the branch of the dispatch, the row of
    a table, and the text of an operand. *)
Ltac eval_closed :=
  repeat match goal with
  | |- context [if ?b then ?p else ?q] =>
      let v := eval vm_compute in b in
      lazymatch v with
      | true => change (if b then p else q) with p
      | false => change (if b then p else q) with q
      end
  | X : (64 <=? ?xl) = _ |- context [64 <=? ?xl] => rewrite X
  | |- context [subscript ?d ?k] =>
      let v := eval vm_compute in (subscript d k) in
      lazymatch v with Ok _ => change (subscript d k) with v end
  | |- context [arg ?l ?i] =>
      let v := eval cbv [arg lookup list_lookup] in (arg l i) in
      lazymatch v with Ok _ => change (arg l i) with v end
  end.

Ltac operand_regs :=
  repeat first
    [ erewrite (reg_arg_x _ 0) by (reflexivity || lia)
    | erewrite (reg_arg_x _ 1) by (reflexivity || lia)
    | erewrite (reg_arg_x _ 2) by (reflexivity || lia)
    | erewrite (freg_arg_f _ 0) by (reflexivity || lia)
    | erewrite (freg_arg_f _ 1) by (reflexivity || lia)
    | erewrite (freg_arg_f _ 2) by (reflexivity || lia)
    | erewrite (freg_arg_f _ 3) by (reflexivity || lia)
    | erewrite mem_arg_at by (reflexivity || lia) ].

(** Reads the operands and evaluates the encoder. *)
Ltac encode_operands :=
  unfold encode, encode_fp; eval_closed; operand_regs; cbn [rbind];
  unfold r_type, r_type_w, i_type, i_type_w, load, store, u_type, flw, fsw, csr_reg, csr_imm,
    fp_sgnj, fp_minmax, fp_cmp;
  repeat (eval_closed; rewrite ?imm_dec, ?imm_hex by lia; cbn [rbind]).

(** From the line to the word. *)
Ltac encoded :=
  apply assembles_ins; [by split | reflexivity | done | cleans |]; intros labels a;
  encode_operands; eexists; (split; [reflexivity|]).

(** Every mnemonic of a pool in turn. *)
Ltac each H := repeat (apply elem_of_cons in H as [->|H]); [..|by apply elem_of_nil in H].

(** Side conditions on registers, fields and table rows. *)
Ltac check := lia || (by vm_compute) || dlia.

Section Lines.
  Context (xl : Z) (interrupt : option string) (mmu : bool) (base lim : Z).
  Local Abbreviation ok l := (assembles xl l (good interrupt mmu base lim)).

(** Each format: what the operands and the row of the table must satisfy. *)
Lemma good_r f7 rs2 rs1 f3 rd op :
  0 <= rs2 < 32 -> 0 <= rs1 < 32 -> 0 <= rd < 31 ->
  0 <= f7 < 128 -> 0 <= f3 < 8 -> 0 <= op < 128 -> good_fields op f3 f7 = true ->
  good interrupt mmu base lim ((f7 ≪ 25) .| (rs2 ≪ 20) .| (rs1 ≪ 15) .| (f3 ≪ 12) .| (rd ≪ 7) .| op).
Proof.
  intros. destruct (r_word f7 rs2 rs1 f3 rd op) as (O & R & F & _ & _ & F7); try lia.
  apply good_int; [by rewrite O, F, F7 | rewrite R; lia].
Qed.

Lemma good_i v rs1 f3 rd op :
  0 <= rs1 < 32 -> 0 <= rd < 31 -> 0 <= f3 < 8 -> 0 <= op < 128 ->
  (forall f7, good_fields op f3 f7 = true) ->
  good interrupt mmu base lim ((u v 12 ≪ 20) .| (rs1 ≪ 15) .| (f3 ≪ 12) .| (rd ≪ 7) .| op).
Proof.
  intros. pose proof (u_range v 12 ltac:(lia)).
  destruct (i_word (u v 12) rs1 f3 rd op) as (O & R & F & _); try lia.
  apply good_int; [by rewrite O, F | rewrite R; lia].
Qed.

(** A CSR instruction, on a CSR that may be used. *)
Lemma good_csr v rs1 f3 rd :
  0 <= rs1 < 32 -> 0 <= rd < 31 -> 0 < f3 < 8 -> csr_allowed interrupt mmu (u v 12) ->
  good interrupt mmu base lim ((u v 12 ≪ 20) .| (rs1 ≪ 15) .| (f3 ≪ 12) .| (rd ≪ 7) .| 0x73).
Proof.
  intros Hs Hd Hf Hq. pose proof (u_range v 12 ltac:(lia)).
  destruct (i_word (u v 12) rs1 f3 rd 0x73) as (O & R & F & _ & _ & _ & C); try lia. split_and!.
  - apply straight_by_fields. rewrite O, F. unfold straight_fields. cbn [Z.eqb Pos.eqb].
    destruct (Z.eqb_spec f3 0); [lia | done].
  - rewrite (dest_at _ _ false O ltac:(done) eq_refl), R. lia.
  - apply good_stays. by rewrite O.
  - intros _. by rewrite C.
Qed.

Lemma good_u v rd op :
  0 <= v < 2 ^ 20 -> 0 <= rd < 31 -> 0 <= op < 128 -> (forall f3 f7, good_fields op f3 f7 = true) ->
  good interrupt mmu base lim ((v ≪ 12) .| (rd ≪ 7) .| op).
Proof.
  intros. destruct (u_word v rd op) as (O & R & _); try lia.
  apply good_int; [by rewrite O | rewrite R; lia].
Qed.

Lemma good_fp f5 rs2 rs1 f3 rd op :
  0 <= rs2 < 32 -> 0 <= rs1 < 32 -> 0 <= rd < 32 -> 0 <= f5 < 32 -> 0 <= f3 < 8 -> 0 <= op < 128 ->
  good_fields op f3 (4 * f5) = true -> float_dest op (4 * f5) = true ->
  good interrupt mmu base lim ((f5 ≪ 27) .| (rs2 ≪ 20) .| (rs1 ≪ 15) .| (f3 ≪ 12) .| (rd ≪ 7) .| op).
Proof.
  intros. destruct (fp_word f5 rs2 rs1 f3 rd op) as (O & R & F & F7); try lia.
  apply good_float; [by rewrite O, F, F7 | by rewrite O, F7].
Qed.

Lemma good_fpx f5 rs2 rs1 f3 rd op :
  0 <= rs2 < 32 -> 0 <= rs1 < 32 -> 0 <= rd < 31 -> 0 <= f5 < 32 -> 0 <= f3 < 8 -> 0 <= op < 128 ->
  good_fields op f3 (4 * f5) = true ->
  good interrupt mmu base lim ((f5 ≪ 27) .| (rs2 ≪ 20) .| (rs1 ≪ 15) .| (f3 ≪ 12) .| (rd ≪ 7) .| op).
Proof.
  intros. destruct (fp_word f5 rs2 rs1 f3 rd op) as (O & R & F & F7); try lia.
  apply good_int; [by rewrite O, F, F7 | rewrite R; lia].
Qed.

Lemma line_r mn rd rs1 rs2 :
  mn ∈ Pool.R_TYPE -> 0 <= rd < 31 -> 0 <= rs1 < 32 -> 0 <= rs2 < 32 ->
  ok (ins mn [x_name rd; x_name rs1; x_name rs2]).
Proof. intros H ? ? ?. unfold Pool.R_TYPE in H. each H; encoded; apply good_r; check. Qed.

Lemma line_rw mn rd rs1 rs2 :
  mn ∈ Pool.R_TYPE_W -> 0 <= rd < 31 -> 0 <= rs1 < 32 -> 0 <= rs2 < 32 ->
  ok (ins mn [x_name rd; x_name rs1; x_name rs2]).
Proof. intros H ? ? ?. unfold Pool.R_TYPE_W in H. each H; encoded; apply good_r; check. Qed.

Lemma line_i mn rd rs1 imm :
  mn ∈ Pool.I_TYPE -> 0 <= rd < 31 -> 0 <= rs1 < 32 -> -2048 <= imm < 2048 ->
  ok (ins mn [x_name rd; x_name rs1; show_dec imm]).
Proof. intros H ? ? ?. unfold Pool.I_TYPE in H. each H; encoded; apply good_i; check. Qed.

Lemma line_shift mn rd rs1 imm :
  mn ∈ Pool.SHIFT_I -> 0 <= rd < 31 -> 0 <= rs1 < 32 -> 0 <= imm < (if 64 <=? xl then 64 else 32) ->
  ok (ins mn [x_name rd; x_name rs1; show_dec imm]).
Proof.
  intros H ? ?. unfold Pool.SHIFT_I in H. destruct (64 <=? xl) eqn:X; intros.
  - each H; encoded; apply good_i; check.
  - each H; encoded; apply good_i; check.
Qed.

Lemma line_iw mn rd rs1 imm :
  mn ∈ Pool.I_TYPE_W -> 0 <= rd < 31 -> 0 <= rs1 < 32 ->
  (if (mn =? "addiw")%string then -2048 <= imm < 2048 else 0 <= imm < 32) ->
  ok (ins mn [x_name rd; x_name rs1; show_dec imm]).
Proof.
  intros H ? ?. unfold Pool.I_TYPE_W in H.
  each H; cbn [String.eqb Ascii.eqb Bool.eqb]; intros; encoded; apply good_i; check.
Qed.

Lemma line_lui rd v : 0 <= rd < 31 -> 0 <= v < 2 ^ 20 -> ok (ins "lui" [x_name rd; hex v]).
Proof.
  intros ? ?. pose proof (hex_clean v ltac:(lia)) as Hc. fold (hex v) in Hc. encoded.
  apply good_u; check.
Qed.

(** A CSR of the pools is one of the eight, and one the mode allows. *)
Definition csr_pool : list string := ((if mmu then [] else csr_names_pool interrupt) ++ Pool.FCSR_ADDRS)%list.

Lemma csr_used (csr : string) :
  csr ∈ csr_pool ->
  csr ∈ ["mstatus"; "mtvec"; "mscratch"; "mepc"; "mcause"; "0x1"; "0x2"; "0x3"] /\
  (forall a, csr_lookup (TStr csr) = Ok a -> csr_allowed interrupt mmu a).
Proof.
  unfold csr_pool, csr_allowed. intros H. destruct mmu; [|destruct interrupt as [i|]].
  - change ([] ++ Pool.FCSR_ADDRS)%list with ["0x1"; "0x2"; "0x3"] in H. split; [rewrite !elem_of_cons in *; tauto|].
    intros a. each H; intros [= <-]; split; intros _; apply (bool_decide_unpack _); by vm_compute.
  - change (csr_names_pool (Some i) ++ Pool.FCSR_ADDRS)%list with ["mscratch"; "0x1"; "0x2"; "0x3"] in H. split; [rewrite !elem_of_cons in *; tauto|].
    intros a. each H; intros [= <-]; (split; [intros _ | done]); apply (bool_decide_unpack _); by vm_compute.
  - split; [exact H | done].
Qed.

Lemma line_csr_reg mn csr rd rs1 :
  mn ∈ Pool.CSR_REG_OP -> csr ∈ csr_pool ->
  0 <= rd < 31 -> 0 <= rs1 < 32 ->
  ok (ins mn [x_name rd; csr; x_name rs1]).
Proof.
  intros H H' ? ?. apply csr_used in H' as [H' Q]. unfold Pool.CSR_REG_OP in H.
  each H'; each H; encoded; (apply good_csr; [check..|]); apply Q; reflexivity.
Qed.

Lemma line_csr_imm mn csr rd uimm :
  mn ∈ Pool.CSR_IMM_OP -> csr ∈ csr_pool ->
  0 <= rd < 31 -> 0 <= uimm < 32 ->
  ok (ins mn [x_name rd; csr; show_dec uimm]).
Proof.
  intros H H' ? ?. apply csr_used in H' as [H' Q]. unfold Pool.CSR_IMM_OP in H.
  each H'; each H; encoded; (apply good_csr; [check..|]); apply Q; reflexivity.
Qed.

(** Float instructions. *)
Lemma line_fp_arith mn rd rs1 rs2 rm :
  mn ∈ Pool.FP_ARITH -> rm ∈ Pool.RM_NAMES -> 0 <= rd < 32 -> 0 <= rs1 < 32 -> 0 <= rs2 < 32 ->
  ok (ins mn [f_name rd; f_name rs1; f_name rs2; rm]).
Proof.
  intros H H' ? ? ?. unfold Pool.FP_ARITH in H. unfold Pool.RM_NAMES in H'. 
  each H; each H'; encoded; apply good_fp; check.
Qed.

Lemma line_fp_sqrt rd rs1 rm :
  rm ∈ Pool.RM_NAMES -> 0 <= rd < 32 -> 0 <= rs1 < 32 -> ok (ins "fsqrt.s" [f_name rd; f_name rs1; rm]).
Proof. intros H ? ?. unfold Pool.RM_NAMES in H. each H; encoded; apply good_fp; check. Qed.

Lemma line_fp_sgnj mn rd rs1 rs2 :
  mn ∈ Pool.FP_SGNJ -> 0 <= rd < 32 -> 0 <= rs1 < 32 -> 0 <= rs2 < 32 ->
  ok (ins mn [f_name rd; f_name rs1; f_name rs2]).
Proof. intros H ? ? ?. unfold Pool.FP_SGNJ in H. each H; encoded; apply good_fp; check. Qed.

Lemma line_fp_minmax mn rd rs1 rs2 :
  mn ∈ Pool.FP_MINMAX -> 0 <= rd < 32 -> 0 <= rs1 < 32 -> 0 <= rs2 < 32 ->
  ok (ins mn [f_name rd; f_name rs1; f_name rs2]).
Proof. intros H ? ? ?. unfold Pool.FP_MINMAX in H. each H; encoded; apply good_fp; check. Qed.

Lemma line_fp_cmp mn rd rs1 rs2 :
  mn ∈ Pool.FP_CMP -> 0 <= rd < 31 -> 0 <= rs1 < 32 -> 0 <= rs2 < 32 ->
  ok (ins mn [x_name rd; f_name rs1; f_name rs2]).
Proof. intros H ? ? ?. unfold Pool.FP_CMP in H. each H; encoded; apply good_fpx; check. Qed.

Lemma line_fp_cvt_to_int mn rd rs1 rm :
  mn ∈ Pool.FP_CVT_TO_INT -> rm ∈ Pool.RM_NAMES -> 0 <= rd < 31 -> 0 <= rs1 < 32 ->
  ok (ins mn [x_name rd; f_name rs1; rm]).
Proof.
  intros H H' ? ?. unfold Pool.FP_CVT_TO_INT in H. unfold Pool.RM_NAMES in H'.
  each H; each H'; encoded; apply good_fpx; check.
Qed.

Lemma line_fp_cvt_from_int mn rd rs1 rm :
  mn ∈ Pool.FP_CVT_FROM_INT -> rm ∈ Pool.RM_NAMES -> 0 <= rd < 32 -> 0 <= rs1 < 32 ->
  ok (ins mn [f_name rd; x_name rs1; rm]).
Proof.
  intros H H' ? ?. unfold Pool.FP_CVT_FROM_INT in H. unfold Pool.RM_NAMES in H'.
  each H; each H'; encoded; apply good_fp; check.
Qed.

Lemma line_fp_madd mn rd rs1 rs2 rs3 rm :
  mn ∈ Pool.FMADD_FAMILY -> rm ∈ Pool.RM_NAMES ->
  0 <= rd < 32 -> 0 <= rs1 < 32 -> 0 <= rs2 < 32 -> 0 <= rs3 < 32 ->
  ok (ins mn [f_name rd; f_name rs1; f_name rs2; f_name rs3; rm]).
Proof.
  intros H H' ? ? ? ?. unfold Pool.FMADD_FAMILY in H. unfold Pool.RM_NAMES in H'.
  each H; each H'; encoded; apply good_fp; check.
Qed.

Lemma line_fmv fr rs1 : 0 <= fr < 32 -> 0 <= rs1 < 32 -> ok (ins "fmv.w.x" [f_name fr; x_name rs1]).
Proof. 
  intros. encoded.
  replace (fp_mv_w_x fr rs1) with ((0x1E ≪ 27) .| (0 ≪ 20) .| (rs1 ≪ 15) .| (0 ≪ 12) .| (fr ≪ 7) .| OP_FP).
  2:{ unfold fp_mv_w_x. by rewrite !Z.shiftl_0_l, !Z.lor_0_r. }
  apply good_fp; check.
Qed.
End Lines.
