(* ===== verification/RandItems.v ===== *)
(** * The instructions the generator draws

    Loads and stores, and that whatever the draws are, [gen_items] returns
    instructions that assemble to straight-line words which spare the base
    register and access memory only in the window. *)

From Stdlib Require Import Ascii String.
From S2P Require Import Prelude Bits Float32 Machine Mmu Exec Raises Forward PyStr Asm Disasm AsmText.
From S2P Require Import Roundtrip AsmLink AsmImage RandGen RandLines.
Open Scope string_scope.
Open Scope Z_scope.

(** Every mnemonic of a pool with its width. *)
Ltac each_pair H := repeat (apply elem_of_cons in H as [[= -> ->]|H]); [..|by apply elem_of_nil in H].

Section Items.
  Context (xl : Z) (interrupt : option string) (mmu : bool) (base lim : Z).
  Local Abbreviation ok l := (assembles xl l (good interrupt mmu base lim)).

(** Loads and stores at an offset of the window. *)
Definition window (off width : Z) : Prop :=
  0 <= off < 2048 /\ base + off + width <= lim /\ off mod width = 0.

Lemma sext_off off : 0 <= off < 2048 -> sext off 12 = off.
Proof. intros. rewrite sext_signed by done. by apply signed_nonneg. Qed.

Lemma good_load off f3 rd op width :
  0 <= rd < 31 \/ (0 <= rd < 32 /\ op = 0x07) -> 0 <= f3 < 7 -> op = 0x03 /\ width = 2 ^ (f3 mod 4) \/ op = 0x07 /\ width = 4 ->
  window off width ->
  good interrupt mmu base lim ((u (off mod 2 ^ 12) 12 ≪ 20) .| (31 ≪ 15) .| (f3 ≪ 12) .| (rd ≪ 7) .| op).
Proof.
  intros Hrd Hf Ho (Hoff & Hlim & Hal).
  assert (u (off mod 2 ^ 12) 12 = off) as -> by (unfold u; rewrite land_ones_mod; dlia).
  destruct (i_word off 31 f3 rd op) as (O & R & F & S & _ & I & _); try lia.
  split; [apply straight_by_fields; rewrite O, F; destruct Ho as [[-> _]|[-> _]];
          [change (negb (f3 =? 7) = true); destruct (Z.eqb_spec f3 7); (done || lia) | done]|].
  split_and!; [| |intros X; rewrite O in X; destruct Ho as [[-> _]|[-> _]]; done].
  - destruct Ho as [[-> _]|[-> _]];
      [rewrite (dest_at _ _ false O ltac:(done) eq_refl), R; lia | by rewrite (dest_at _ _ true O ltac:(done) eq_refl)].
  - unfold stays, access_of. rewrite O, S, I, F.
    rewrite sext_off by done.
    destruct Ho as [[-> E]|[-> E]]; cbn [Z.eqb Pos.eqb]; subst width; split_and!; (done || lia).
Qed.

Lemma good_store off f3 rs2 op width :
  0 <= rs2 < 32 -> 0 <= f3 < 4 -> op = 0x23 /\ width = 2 ^ (f3 mod 4) \/ op = 0x27 /\ width = 4 ->
  window off width ->
  let v := off mod 2 ^ 12 in
  good interrupt mmu base lim ((((v ≫ 5) .& 0x7F) ≪ 25) .| (rs2 ≪ 20) .| (31 ≪ 15) .| (f3 ≪ 12) .| ((v .& 0x1F) ≪ 7) .| op).
Proof.
  intros Hrs Hf Ho (Hoff & Hlim & Hal) v. unfold v. rewrite Z.mod_small by lia.
  destruct (s_word off rs2 31 f3 op) as (O & F & S & I); try lia.
  split; [apply straight_by_fields; rewrite O, F; destruct Ho as [[-> _]|[-> _]];
          [change ((f3 <? 4) = true); destruct (Z.ltb_spec f3 4); (done || lia) | done]|].
  split_and!; [| |intros X; rewrite O in X; destruct Ho as [[-> _]|[-> _]]; done].
  - destruct Ho as [[-> _]|[-> _]]; by rewrite (dest_at _ _ true O ltac:(done) eq_refl).
  - unfold stays, access_of. rewrite O, S, I, F, sext_off by done.
    destruct Ho as [[-> E]|[-> E]]; cbn [Z.eqb Pos.eqb]; subst width; split_and!; (done || lia).
Qed.

Ltac offset := change BASE_REG with 31; match goal with W : window ?off ?width |- _ =>
  assert (- 2 ^ (12 - 1) <= off < 2 ^ (12 - 1)) by (destruct W; lia) end.

Lemma line_load mn width rd off :
  (mn, width) ∈ load_mnemonics xl -> 0 <= rd < 31 -> window off width ->
  ok (ins mn [x_name rd; at_base off BASE_REG]).
Proof.
  intros H Hrd W. offset. unfold load_mnemonics in H. apply elem_of_app in H as [H|H].
  - each_pair H; encoded; (eapply good_load; [lia | lia | left; by split | done]).
  - case_match; [|by apply elem_of_nil in H].
    each_pair H; encoded; (eapply good_load; [lia | lia | left; by split | done]).
Qed.

Lemma line_store mn width rs2 off :
  (mn, width) ∈ store_mnemonics xl -> 0 <= rs2 < 32 -> window off width ->
  ok (ins mn [x_name rs2; at_base off BASE_REG]).
Proof.
  intros H Hrs W. offset. unfold store_mnemonics in H. apply elem_of_app in H as [H|H].
  - each_pair H; encoded; (eapply good_store; [lia | lia | left; by split | done]).
  - case_match; [|by apply elem_of_nil in H].
    each_pair H; encoded; (eapply good_store; [lia | lia | left; by split | done]).
Qed.

Lemma line_flw rd off : 0 <= rd < 32 -> window off 4 -> ok (ins "flw" [f_name rd; at_base off BASE_REG]).
Proof. intros Hrd W. offset. encoded; (eapply good_load; [by right | lia | right; by split | done]). Qed.
Lemma line_fsw rs2 off : 0 <= rs2 < 32 -> window off 4 -> ok (ins "fsw" [f_name rs2; at_base off BASE_REG]).
Proof. intros Hrd W. offset. encoded; (eapply good_store; [lia | lia | right; by split | done]). Qed.

End Items.

(** ** The shape of a constant

    [lui] with the upper part and, unless it is zero, [addi] with the signed low
    part.  The sum is the sign extension of the constant, but for the constants
    whose upper part carries into the sign bit. *)
Definition const_value (bits : Z) : Z :=
  if (0x7FFFF800 <=? bits) && (bits <? 2 ^ 31) then bits - 2 ^ 32 else s32 bits.

Lemma s32_cases v : 0 <= v < 2 ^ 32 -> s32 v = if v <? 2 ^ 31 then v else v - 2 ^ 32.
Proof. intros. by rewrite s32_signed, signed_unfold, Z.mod_small. Qed.

Lemma const_shape rd bits :
  0 <= bits < 2 ^ 32 ->
  exists hi lo, 0 <= hi < 2 ^ 20 /\ -2048 <= lo < 2048 /\ s32 (hi ≪ 12) + lo = const_value bits /\
    const_to_reg_instrs rd bits =
      ins "lui" [x_name rd; hex hi] ::
      if lo =? 0 then [] else [ins "addi" [x_name rd; x_name rd; show_dec lo]].
Proof.
  intros Hb. unfold const_to_reg_instrs. cbv zeta.
  rewrite (land_lit bits 0xFFF 12), (land_lit _ 0xFFFFF 20), (land_lit _ 0xFFFFF 20), Z.shiftr_div_pow2 by done.
  assert (truthy ((bits mod 2 ^ 12) .& 0x800) = (2048 <=? bits mod 2 ^ 12)) as ->.
  { change 0x800 with (1 ≪ (12 - 1)). rewrite (sign_bit bits 12), Z.leb_antisym by done. done. }
  assert (bits = 4096 * (bits / 2 ^ 12) + bits mod 2 ^ 12) as D by dlia.
  assert (0 <= bits mod 2 ^ 12 < 4096) as L by dlia. assert (0 <= bits / 2 ^ 12 < 2 ^ 20) as H by dlia.
  generalize dependent (bits mod 2 ^ 12). generalize dependent (bits / 2 ^ 12). intros h Hh lo D L.
  rewrite (Z.mod_small h) by done. unfold const_value.
  assert (forall v, 0 <= v < 2 ^ 20 -> s32 (v ≪ 12) = if v <? 2 ^ 19 then 4096 * v else 4096 * v - 2 ^ 32) as S.
  { intros v Hv. rewrite Z.shiftl_mul_pow2, s32_cases by lia.
    destruct (Z.ltb_spec (v * 2 ^ 12) (2 ^ 31)), (Z.ltb_spec v (2 ^ 19)); lia. }
  rewrite (s32_cases bits) by done.
  destruct (Z.leb_spec 2048 lo).
  - exists ((h + 1) mod 2 ^ 20), (lo - 4096). destruct (Z.eqb_spec lo 0); [lia|].
    destruct (Z.eqb_spec (lo - 4096) 0); [lia|]. cbn [negb app]. split_and!; [dlia | dlia | lia | lia | | done].
    rewrite S by dlia.
    assert ((h + 1) mod 2 ^ 20 = if h =? 2 ^ 20 - 1 then 0 else h + 1) as -> by (case_match; py_bool; dlia).
    repeat case_match; py_bool; lia.
  - exists h, lo. split_and!; [lia | lia | lia | lia | |].
    + rewrite S by done. repeat case_match; py_bool; lia.
    + by destruct (lo =? 0).
Qed.

(** ** Draws

    [gives m P]: whatever the draws are, [m] returns, and a value with [P]. *)
Definition gives {A} (m : rand A) (P : A -> Prop) : Prop :=
  forall ds, exists a ds', m ds = Ok (a, ds') /\ P a.

Lemma gives_ret {A} (a : A) (P : A -> Prop) : P a -> gives (rret a) P.
Proof. intros H ds. by exists a, ds. Qed.

Lemma gives_then {A B} (m : rand A) (k : A -> rand B) (P : A -> Prop) (Q : B -> Prop) :
  gives m P -> (forall a, P a -> gives (k a) Q) -> gives (rthen m k) Q.
Proof.
  intros Hm Hk ds. destruct (Hm ds) as (a & ds' & E & HP). unfold rthen. rewrite E. by apply Hk.
Qed.

Lemma gives_draw : gives draw (fun _ => True).
Proof. intros [|d ds]; by eexists _, _. Qed.

Lemma gives_weaken {A} (m : rand A) (P Q : A -> Prop) : gives m P -> (forall a, P a -> Q a) -> gives m Q.
Proof. intros H HPQ ds. destruct (H ds) as (a & ds' & E & HP). exists a, ds'. auto. Qed.

Lemma gives_randint a b : a <= b -> gives (randint a b) (fun v => a <= v <= b).
Proof.
  intros H. unfold randint. destruct (Z.ltb_spec b a); [lia|].
  eapply gives_then; [apply gives_draw|]. intros d _. apply gives_ret. dlia.
Qed.

Lemma gives_randrange stop step :
  0 < stop -> 0 < step -> gives (randrange stop step) (fun v => 0 <= v < stop /\ v mod step = 0).
Proof.
  intros Hs Hp. unfold randrange. cbv zeta.
  pose proof (Z.div_mod (stop + step - 1) step ltac:(lia)) as D.
  pose proof (Z.mod_pos_bound (stop + step - 1) step Hp) as B.
  set (n := (stop + step - 1) / step) in *. assert (0 < n) by nia. destruct (Z.leb_spec n 0); [lia|].
  eapply gives_then; [apply gives_draw|]. intros d _. apply gives_ret.
  pose proof (Z.mod_pos_bound d n ltac:(lia)). split; [nia|].
  rewrite Z.mul_comm. by apply Z.mod_mul; lia.
Qed.

Lemma gives_choice {A} (l : list A) : l <> [] -> gives (choice l) (fun a => a ∈ l).
Proof.
  intros H. unfold choice. eapply gives_then; [apply gives_draw|]. intros d _.
  assert (0 < Z.of_nat (List.length l)) by (destruct l; simpl; [done | lia]).
  destruct (lookup_lt_is_Some_2 l (Z.to_nat (d mod Z.of_nat (List.length l)))) as [a Ha].
  { pose proof (Z.mod_pos_bound d (Z.of_nat (List.length l)) ltac:(done)). lia. }
  rewrite Ha. apply gives_ret. by eapply list_elem_of_lookup_2.
Qed.

(** The weights of the choice of a kind are nonnegative. *)
Lemma pick_total {A} (l : list (A * Z)) d :
  Forall (fun p => 0 <= snd p) l -> 0 <= d < foldr (fun p n => snd p + n) 0 l ->
  exists a w, pick d l = Some a /\ (a, w) ∈ l /\ 0 < w.
Proof.
  revert d. induction l as [|[a w] l IH]; intros d Hw Hd; simpl in *; [lia|].
  apply Forall_cons_1 in Hw as [Hw Hl]. simpl in Hw.
  destruct (Z.ltb_spec d w); [exists a, w; split_and!; [done | by left | lia]|].
  destruct (IH (d - w) Hl ltac:(lia)) as (b & v & E & Hb & Hv). exists b, v. split_and!; [done | by right | done].
Qed.

Lemma gives_choices {A} (l : list (A * Z)) :
  Forall (fun p => 0 <= snd p) l -> 0 < foldr (fun p n => snd p + n) 0 l ->
  gives (choices l) (fun a => exists w, (a, w) ∈ l /\ 0 < w).
Proof.
  intros Hw Ht. unfold choices. eapply gives_then; [apply gives_draw|]. intros d _.
  destruct (pick_total l _ Hw (Z.mod_pos_bound d _ Ht)) as (a & w & E & Ha). rewrite E. apply gives_ret. by exists w.
Qed.

Lemma gives_coin : gives coin (fun _ => True).
Proof. eapply gives_then; [apply gives_draw|]. intros. by apply gives_ret. Qed.

Lemma gives_gp : gives (choice GP_REGS) (fun r => 0 <= r < 31).
Proof.
  eapply gives_weaken; [by apply gives_choice|]. intros r [? ?]%elem_of_seqZ. lia.
Qed.
Lemma gives_freg : gives (choice FREGS) (fun r => 0 <= r < 32).
Proof.
  eapply gives_weaken; [by apply gives_choice|]. intros r [? ?]%elem_of_seqZ. lia.
Qed.

(** Takes the draws of a program one by one. *)
Ltac draws :=
  repeat (eapply gives_then;
    [first [apply gives_gp | apply gives_freg | by apply gives_choice | apply gives_coin
           | apply gives_randint; lia] | cbv beta; intros ? ?]).


Create HintDb lines.
#[export] Hint Resolve line_r line_rw line_i line_shift line_iw line_load line_store line_flw line_fsw
  line_fp_arith line_fp_sqrt line_fp_sgnj line_fp_minmax line_fp_cmp line_fp_cvt_to_int
  line_fp_cvt_from_int line_fp_madd : lines.
#[export] Hint Extern 1 (_ <= _ < _) => lia : lines.

Section Generated.
  Context (base_addr mem_size : Z) (interrupt : option string) (mmu : bool) (xlen : Z).
  Context (Hroom : base_addr + 8 <= addr_space mem_size mmu).
  Local Abbreviation lim := (addr_space mem_size mmu).
  Local Abbreviation ok l := (assembles xlen l (good interrupt mmu base_addr lim)).

Lemma gives_offset width :
  0 < width <= 8 -> gives (offset_for base_addr mem_size mmu width) (fun off => window base_addr lim off width).
Proof.
  intros Hw. unfold offset_for. cbv zeta. set (m := Z.min _ _). assert (0 <= m) by lia.
  destruct (Z.leb_spec 0 m); [|lia].
  eapply gives_weaken; [apply gives_randrange; lia|]. intros off [B D]. unfold window. split_and!; lia.
Qed.

(** A drawn item: its line assembles to a good word, or it is a branch or a jump
    of the pool that spares the base register. *)
Definition item_ok (i : item) : Prop :=
  match i with
  | Line s => ok s
  | BranchI mn rs1 rs2 => mn ∈ Pool.BRANCH /\ 0 <= rs1 < 32 /\ 0 <= rs2 < 32
  | JalI rd => 0 <= rd < 31
  end.

Lemma gives_csr csr : csr ∈ csr_pool interrupt mmu -> gives (gen_csr_ins csr) item_ok.
Proof.
  intros Hc. unfold gen_csr_ins. eapply gives_then; [apply gives_gp|]. intros rd ?.
  eapply gives_then; [apply gives_coin|]. intros [] _; draws; apply gives_ret; simpl.
  - by apply line_csr_reg; [| | |lia].
  - by apply line_csr_imm; [| | |lia].
Qed.

Lemma width_load mn w : (mn, w) ∈ load_mnemonics xlen -> 0 < w <= 8.
Proof.
  unfold load_mnemonics. intros [H|H]%elem_of_app; [each_pair H; lia|].
  case_match; [each_pair H; lia | by apply elem_of_nil in H].
Qed.
Lemma width_store mn w : (mn, w) ∈ store_mnemonics xlen -> 0 < w <= 8.
Proof.
  unfold store_mnemonics. intros [H|H]%elem_of_app; [each_pair H; lia|].
  case_match; [each_pair H; lia | by apply elem_of_nil in H].
Qed.

Lemma gives_item k : (mmu = true -> k <> k_csr) -> gives (gen_item base_addr mem_size interrupt mmu xlen k) item_ok.
Proof.
  intros Hk. assert (csr_names_pool interrupt <> []) by (by destruct interrupt).
  destruct k; cbn [gen_item]; unfold gen_xxx, gen_fff.
  all: try (eapply gives_then; [by apply gives_choice|]; intros csr Hcsr; apply gives_csr;
            apply elem_of_app; first [by right | left; destruct mmu; [by destruct Hk | done]]).
  all: draws; try (apply gives_ret; cbn [item_ok]; by auto with lines).
  - eapply (gives_then _ _ (fun v => 0 <= v < (if 64 <=? xlen then 64 else 32))).
    + destruct (64 <=? xlen); (eapply gives_weaken; [apply gives_randint; lia | simpl; lia]).
    + cbv beta. intros v ?. apply gives_ret. cbn [item_ok]. by auto with lines.
  - destruct a as [mn w]. eapply gives_then; [apply gives_gp|]. intros rd ?.
    eapply gives_then; [by eapply gives_offset, width_load|]. intros off ?. apply gives_ret. cbn beta in *. simpl. eauto with lines.
  - destruct a as [mn w]. eapply gives_then; [apply gives_gp|]. intros rs2 ?.
    eapply gives_then; [by eapply gives_offset, width_store|]. intros off ?. apply gives_ret. cbn beta in *. simpl. eauto with lines.
  - eapply gives_then; [by apply gives_offset|]. intros off ?. apply gives_ret. cbn beta in *. simpl. auto with lines.
  - eapply gives_then; [by apply gives_offset|]. intros off ?. apply gives_ret. cbn beta in *. simpl. auto with lines.
  - eapply (gives_then _ _ (fun v => if (a =? "addiw")%string then -2048 <= v < 2048 else 0 <= v < 32)).
    + destruct (a =? "addiw")%string; (eapply gives_weaken; [apply gives_randint; lia | simpl; lia]).
    + cbv beta. intros v ?. apply gives_ret. cbn [item_ok]. by auto with lines.
Qed.

(** [gen_items] returns as many items as asked for, all of them good. *)
Lemma gives_items n :
  gives (gen_items base_addr mem_size interrupt mmu xlen n)
    (fun items => List.length items = n /\ Forall item_ok items).
Proof.
  induction n as [|n IH]; cbn [gen_items]; [by apply gives_ret|].
  eapply gives_then.
  { apply gives_choices; unfold kinds, csr_weight; destruct mmu, (64 <=? xlen); simpl; try lia;
      repeat (constructor; [simpl; lia|]); constructor. }
  intros k (w & Hw & Hpos). eapply gives_then.
  { apply gives_item. intros M ->. unfold kinds, csr_weight in Hw. rewrite M in Hw.
    destruct (64 <=? xlen); repeat (apply elem_of_cons in Hw as [E|Hw]; [first [discriminate E | injection E as ->; lia]|]);
      by apply elem_of_nil in Hw. }
  intros i Hi.
  eapply gives_then; [exact IH|]. intros items [Hn Hall]. apply gives_ret. split; simpl; [by f_equal | by constructor].
Qed.

End Generated.
