(* ===== verification/RandLabels.v ===== *)
(** * Where the labels of a generated program stand

    The address a label has after the first pass, computed from the line list,
    and the second loop of [gen_program]: every label it refers to is defined
    behind the reference. *)

From Stdlib Require Import Ascii String.
From S2P Require Import Prelude Bits Float32 Machine Mmu Exec Raises Forward PyStr Asm Disasm AsmText.
From S2P Require Import Roundtrip AsmLink AsmImage RandGen RandLines RandItems.
Open Scope string_scope.
Open Scope Z_scope.

(** ** Statement counts and label definitions *)

(** The number of statements of a list of lines. *)
Definition stmts (lines : list string) : Z := Z.of_nat (List.length (omap stmt_of lines)).

Lemma stmts_nil : stmts [] = 0.
Proof. done. Qed.
Lemma stmts_app a b : stmts (a ++ b) = stmts a + stmts b.
Proof. unfold stmts. rewrite omap_app, length_app. lia. Qed.
Lemma stmts_cons r l :
  stmts (r :: l) = match stmt_of r with Some _ => 1 | None => 0 end + stmts l.
Proof. unfold stmts. cbn [omap list_omap]. destruct (stmt_of r); cbn [List.length]; unfold omap; lia. Qed.

(** The index of the statement a label's last definition stands before, when the
    lines start at statement [k]. *)
Fixpoint def_of (k : Z) (lines : list string) (l : string) : option Z :=
  match lines with
  | [] => None
  | r :: rest =>
      match def_of (k + match stmt_of r with Some _ => 1 | None => 0 end) rest l with
      | Some a => Some a
      | None => if bool_decide (label_of r = Some l) then Some k else None
      end
  end.

Lemma def_of_app k a b l :
  def_of k (a ++ b) l =
  match def_of (k + stmts a) b l with Some x => Some x | None => def_of k a l end.
Proof.
  revert k. induction a as [|r a IH]; intros k; simpl.
  - rewrite stmts_nil, Z.add_0_r. by destruct (def_of k b l).
  - rewrite IH, stmts_cons, Z.add_assoc. by destruct (def_of _ b l).
Qed.

Lemma pass1_defs lines l : forall ss k labels,
  (foldl pass1_line (ss, 4 * k, labels) lines).2 !! l =
  match def_of k lines l with Some a => Some (4 * a) | None => labels !! l end.
Proof.
  induction lines as [|r lines IH]; intros ss k labels; [done|]. cbn [foldl def_of].
  rewrite pass1_line_cases. destruct (stmt_of r) as [s|] eqn:Es.
  - replace (4 * k + 4) with (4 * (k + 1)) by lia. rewrite IH, (stmt_not_label _ _ Es).
    rewrite bool_decide_eq_false_2 by done. by destruct (def_of _ lines l).
  - rewrite Z.add_0_r. destruct (label_of r) as [l'|]; rewrite IH; destruct (def_of k lines l); try done.
    case_bool_decide as E; [injection E as ->; by rewrite lookup_insert_eq|].
    rewrite lookup_insert_ne; congruence.
Qed.

Lemma pass1_def lines l : (pass1 lines).2 !! l = (fun a => 4 * a) <$> def_of 0 lines l.
Proof.
  unfold pass1. change 0 with (4 * 0) at 1. rewrite pass1_defs. by destruct (def_of 0 lines l).
Qed.

(** ** Assembling statement by statement *)

Lemma assemble_all_each labels xl (P : Z -> Z -> Prop) ss : forall k,
  (forall j s, ss !! j = Some s ->
     exists w, assemble_stmt labels xl (4 * (k + Z.of_nat j), s) = Ok w /\ P (k + Z.of_nat j) w) ->
  exists words, assemble_all labels xl (imap (fun j s => (4 * (k + Z.of_nat j), s)) ss) = Ok words /\
    List.length words = List.length ss /\
    forall j w, words !! j = Some w -> P (k + Z.of_nat j) w.
Proof.
  induction ss as [|s ss IH]; intros k H; [by exists []|].
  destruct (H 0%nat s eq_refl) as (w & E & Hw). destruct (IH (k + 1)) as (words & E' & Hl & Hws).
  { intros j t Hj. replace (k + 1 + Z.of_nat j) with (k + Z.of_nat (S j)) by lia. by apply H. }
  exists (w :: words). cbn [imap assemble_all]. rewrite E. cbn [rbind].
  rewrite (imap_ext _ (fun j t => (4 * (k + 1 + Z.of_nat j), t)) ss) by (intros; simpl; do 2 f_equal; lia).
  rewrite E'. split_and!; [done | by simpl; f_equal |].
  intros [|j] w' Hj; [by injection Hj as <-|].
  replace (k + Z.of_nat (S j)) with (k + 1 + Z.of_nat j) by lia. by apply Hws.
Qed.

(** [assemble] returns one word for each statement when each statement encodes
    at its address. *)
Lemma assemble_each lines xl (P : Z -> Z -> Prop) :
  (forall j s, omap stmt_of lines !! j = Some s ->
     exists w, assemble_stmt (pass1 lines).2 xl (4 * Z.of_nat j, s) = Ok w /\ P (Z.of_nat j) w) ->
  exists words, assemble lines xl = Ok words /\ Z.of_nat (List.length words) = stmts lines /\
    forall j w, words !! j = Some w -> P (Z.of_nat j) w.
Proof.
  intros H. destruct (assemble_all_each (pass1 lines).2 xl P (omap stmt_of lines) 0 H)
    as (words & E & Hl & Hw).
  exists words. split_and!; [|by unfold stmts; rewrite Hl | exact Hw].
  unfold assemble. pose proof (pass1_stmts lines) as S. destruct (pass1 lines) as [[ss addr] labels].
  injection S as -> _. exact E.
Qed.

(** ** Label lines *)

Lemma label_clean t : clean (label_name t).
Proof.
  unfold label_name. destruct (show_dec_clean t) as [_ H].
  split; [done|]. change (all_chars tok_char ("__L" ++ show_dec t)%string) with (all_chars tok_char (show_dec t)).
  done.
Qed.

Lemma show_dec_inj a b : show_dec a = show_dec b -> a = b.
Proof. intros H. pose proof (py_int0_dec a) as E. rewrite H, py_int0_dec in E. by injection E. Qed.

Lemma label_name_inj a b : label_name a = label_name b -> a = b.
Proof. unfold label_name. intros H. injection H as H. by apply show_dec_inj. Qed.

Lemma rstrip_colon s : rstrip (s ++ ":")%string = (s ++ ":")%string.
Proof.
  induction s as [|c s IH]; [done|].
  change (rstrip (String c s ++ ":")%string) with
    (match rstrip (s ++ ":")%string with "" => if is_space c then "" else String c "" | r => String c r end).
  rewrite IH. by destruct s.
Qed.
Lemma ends_colon s : ends_with_colon (s ++ ":")%string = true.
Proof. induction s as [|c s IH]; [done|]. destruct s; [done | exact IH]. Qed.
Lemma drop_colon s : drop_last (s ++ ":")%string = s.
Proof.
  induction s as [|c s IH]; [done|].
  change (drop_last (String c s ++ ":")%string) with
    (match (s ++ ":")%string with "" => "" | _ => String c (drop_last (s ++ ":")) end).
  rewrite IH. by destruct s.
Qed.

(** A line [name:] is a definition of the label and no statement. *)
Lemma label_line_of l :
  clean l -> label_of (l ++ ":")%string = Some l /\ stmt_of (l ++ ":")%string = None.
Proof.
  intros Hc. unfold label_of, stmt_of. rewrite before_hash_id.
  2:{ rewrite all_chars_app. rewrite (all_chars_impl tok_char); [done | | apply Hc].
      intros c (_ & _ & -> & _)%tok_char_inv. done. }
  assert (strip (l ++ ":")%string = (l ++ ":")%string) as ->
    by (unfold strip; by rewrite lstrip_clean, rstrip_colon).
  rewrite ends_colon, drop_colon.
  assert ((l ++ ":" =? "")%string = false) as -> by (by destruct l).
  by rewrite strip_clean.
Qed.

Lemma ins_not_label mn args l : clean mn -> args <> [] -> Forall clean args -> label_of (ins mn args) <> Some l.
Proof. intros Hm Ha Hc. by rewrite (stmt_not_label _ _ (stmt_ins mn args Hm Ha Hc)). Qed.

(** Lines as the generator writes them: a statement without anything around it, or
    the definition of a label. *)
Definition tidy (l : string) : Prop := stmt_of l = Some l \/ exists s, clean s /\ l = (s ++ ":")%string.

Lemma rstrip_idem s : rstrip (rstrip s) = rstrip s.
Proof.
  induction s as [|c s IH]; [done|]. cbn [rstrip]. destruct (rstrip s) as [|d t] eqn:E.
  - destruct (is_space c) eqn:C; [done|]. cbn. by rewrite C.
  - cbn [rstrip] in *. by rewrite IH.
Qed.

(** Among such lines the generator counts the statements. *)
Lemma tidy_count lines : Forall tidy lines -> instr_count lines = stmts lines.
Proof.
  unfold instr_count, stmts. induction 1 as [|l lines T _ IH]; [done|]. cbn [omap list_omap].
  destruct T as [Hs|(s & Hc & ->)].
  - rewrite Hs. rewrite filter_cons_True; [cbn [List.length]; unfold omap in *; lia|].
    unfold stmt_of in Hs. cbv zeta in Hs. destruct (_ =? "")%string; [done|].
    destruct (ends_with_colon _) eqn:E; [done|]. injection Hs as Hs. rewrite Hs in E.
    unfold strip in Hs. rewrite <- Hs, rstrip_idem, Hs, E. done.
  - rewrite (proj2 (label_line_of s Hc)). rewrite filter_cons_False; [exact IH|]. rewrite rstrip_colon, ends_colon. by intros [].
Qed.

Lemma tidy_label t : tidy (label_name t ++ ":")%string.
Proof. right. exists (label_name t). split; [apply label_clean | done]. Qed.

(** ** The second loop *)

Definition names_ok (labels : gmap Z string) : Prop :=
  forall t l, labels !! t = Some l -> l = label_name t.

Lemma setdefault_names t labels : names_ok labels -> names_ok (setdefault t labels).
Proof.
  intros H. unfold setdefault. destruct (labels !! t) eqn:E; [done|]. intros t' l.
  destruct (decide (t = t')) as [<-|]; [rewrite lookup_insert_eq; by intros [= <-]|].
  rewrite lookup_insert_ne by done. apply H.
Qed.
Lemma setdefault_keeps t t' labels : is_Some (labels !! t') -> is_Some (setdefault t labels !! t').
Proof.
  intros H. unfold setdefault. destruct (labels !! t); [done|]. apply lookup_insert_is_Some.
  destruct (decide (t = t')); auto.
Qed.
Lemma setdefault_new t labels : is_Some (setdefault t labels !! t).
Proof. unfold setdefault. destruct (labels !! t) eqn:E; [by rewrite E | by rewrite lookup_insert_eq]. Qed.
Lemma setdefault_only t t' labels : is_Some (setdefault t labels !! t') -> is_Some (labels !! t') \/ t' = t.
Proof.
  unfold setdefault. destruct (labels !! t) eqn:E; [by left|]. destruct (decide (t = t')) as [<-|]; [by right|].
  rewrite lookup_insert_ne by done. by left.
Qed.

(** The definition the loop places behind an item. *)
Lemma label_line_spec t labels :
  names_ok labels ->
  label_line t labels = (if decide (is_Some (labels !! t)) then [(label_name t ++ ":")%string] else []).
Proof.
  intros H. unfold label_line. destruct (labels !! t) as [l|] eqn:E.
  - rewrite decide_True by eauto. by rewrite (H _ _ E).
  - rewrite decide_False; [done | by intros []].
Qed.

Lemma stmts_label_line t labels : names_ok labels -> omap stmt_of (label_line t labels) = [].
Proof.
  intros H. rewrite label_line_spec by done. case_decide; [|done].
  cbn [omap list_omap]. by rewrite (proj2 (label_line_of _ (label_clean t))).
Qed.

Lemma def_label_line k t labels l :
  names_ok labels ->
  def_of k (label_line t labels) l =
  if decide (is_Some (labels !! t) /\ l = label_name t) then Some k else None.
Proof.
  intros H. rewrite label_line_spec by done. destruct (decide (is_Some _)) as [S|N].
  - cbn [def_of]. rewrite (proj1 (label_line_of _ (label_clean t))).
    destruct (decide (l = label_name t)) as [->|N].
    + by rewrite bool_decide_eq_true_2, decide_True.
    + rewrite bool_decide_eq_false_2 by congruence. rewrite decide_False; [done | by intros []].
  - rewrite decide_False; [done | by intros []].
Qed.

Lemma tidy_label_line t labels : names_ok labels -> Forall tidy (label_line t labels).
Proof. intros H. rewrite label_line_spec by done. case_decide; [|constructor]. apply Forall_singleton, tidy_label. Qed.

Section Placing.
  Context (base_addr mem_size : Z) (interrupt : option string) (mmu : bool) (xlen count : Z).
  Local Abbreviation item_ok := (item_ok base_addr mem_size interrupt mmu xlen).

(** Item [idx], counted from 1, as a statement: a transfer goes to a label that
    belongs to a later item, or to the end. *)
Definition target (labels : gmap Z string) (idx t : Z) : Prop :=
  Z.min (idx + 1) count <= t <= count /\ is_Some (labels !! t).

Definition placed (labels : gmap Z string) (idx : Z) (i : item) (s : string) : Prop :=
  match i with
  | Line l => s = l
  | BranchI mn rs1 rs2 =>
      exists t, s = ins mn [x_name rs1; x_name rs2; label_name t] /\ target labels idx t
  | JalI rd => exists t, s = ins "jal" [x_name rd; label_name t] /\ target labels idx t
  end.

Definition extends (idx : Z) (labels labels' : gmap Z string) : Prop :=
  (forall t, is_Some (labels !! t) -> is_Some (labels' !! t)) /\
  (forall t, is_Some (labels' !! t) -> is_Some (labels !! t) \/ Z.min (idx + 1) count <= t).

Lemma placed_mono labels labels' idx i s :
  (forall t, is_Some (labels !! t) -> is_Some (labels' !! t)) -> placed labels idx i s -> placed labels' idx i s.
Proof.
  intros H. destruct i; simpl; [done | |]; intros (t & E & Ht & L); exists t; split_and!; try done;
    split; auto.
Qed.

Lemma branch_mn mn : mn ∈ Pool.BRANCH -> clean mn /\ lower mn = mn.
Proof. intros H. unfold Pool.BRANCH in H. each H; by split. Qed.

Lemma gives_place_item cur i labels :
  cur <= count -> item_ok i -> names_ok labels ->
  gives (place_item count cur i labels) (fun '(out, labels') =>
    names_ok labels' /\ extends cur labels labels' /\
    exists s, out = s :: label_line (cur + 1) labels' /\ stmt_of s = Some s /\ placed labels' cur i s).
Proof.
  intros Hc Hi Hn. unfold place_item. destruct i as [s|mn rs1 rs2|rd].
  - apply gives_ret. split_and!; [done | split; auto |]. exists s. split_and!; [done | apply Hi | done].
  - eapply gives_then; [apply gives_randint; lia|]. intros t Ht. cbv beta in Ht. apply gives_ret.
    split_and!; [by apply setdefault_names | |].
    + split; [by intros; apply setdefault_keeps|]. intros t' [?| ->]%setdefault_only; [by left | right; lia].
    + eexists. split; [done|]. destruct Hi as (Hm & _ & _). apply branch_mn in Hm as [Hm _].
      split; [apply stmt_ins; [done | done |]|].
      { repeat apply Forall_cons_2; auto using x_clean, label_clean. }
      exists t. split; [done|]. split; [lia | apply setdefault_new].
  - eapply gives_then; [apply gives_randint; lia|]. intros t Ht. cbv beta in Ht. apply gives_ret.
    split_and!; [by apply setdefault_names | |].
    + split; [by intros; apply setdefault_keeps|]. intros t' [?| ->]%setdefault_only; [by left | right; lia].
    + eexists. split; [done|]. split; [apply stmt_ins; [by split | done |]|].
      { repeat apply Forall_cons_2; auto using x_clean, label_clean. }
      exists t. split; [done|]. split; [lia | apply setdefault_new].
Qed.

(** What the whole loop leaves behind. *)
Definition laid_out (cur : Z) (items : list item) (labels : gmap Z string) (out : list string)
  (labels' : gmap Z string) : Prop :=
  names_ok labels' /\ extends cur labels labels' /\
  List.length (omap stmt_of out) = List.length items /\
  (forall j i s, items !! j = Some i -> omap stmt_of out !! j = Some s -> placed labels' (cur + Z.of_nat j) i s) /\
  (forall k t, t <= cur -> def_of k out (label_name t) = None) /\
  (forall k t, cur < t < count -> is_Some (labels' !! t) ->
     def_of k out (label_name t) = Some (k + (t - cur))) /\
  Forall tidy out.

Lemma gives_place_items items : forall cur labels,
  cur + Z.of_nat (List.length items) = count + 1 -> Forall item_ok items -> names_ok labels ->
  gives (place_items count cur items labels) (fun '(out, labels') => laid_out cur items labels out labels').
Proof.
  induction items as [|i items IH]; intros cur labels Hcur Hok Hn; cbn [place_items List.length] in *.
  { apply gives_ret. unfold laid_out. split_and!; try done; [split; auto |]. intros k t Ht. lia. }
  apply Forall_cons_1 in Hok as [Hi Hok].
  eapply gives_then; [apply gives_place_item; [lia | done | done]|].
  intros [out1 labels1] (Hn1 & [X1 X2] & s & -> & Hs & Hp).
  eapply gives_then; [apply (IH (cur + 1) labels1); [lia | done | done]|].
  intros [out labels'] (Hn' & [Y1 Y2] & Hlen & Hpl & Hlow & Hdef & Htidy). apply gives_ret.
  pose proof (stmts_label_line (cur + 1) labels1 Hn1) as Hll.
  assert (stmts (s :: label_line (cur + 1) labels1) = 1) as Hone.
  { rewrite stmts_cons, Hs. unfold stmts. by rewrite Hll. }
  assert (omap stmt_of ((s :: label_line (cur + 1) labels1) ++ out)%list = s :: omap stmt_of out) as Hst.
  { rewrite omap_app. cbn [omap list_omap]. by rewrite Hs, Hll. }
  assert (Hd : forall k l, def_of k (s :: label_line (cur + 1) labels1) l =
    if decide (is_Some (labels1 !! (cur + 1)) /\ l = label_name (cur + 1)) then Some (k + 1) else None).
  { intros k l. cbn [def_of]. rewrite Hs, def_label_line by done. case_decide; [done|].
    by rewrite (stmt_not_label _ _ Hs). }
  unfold laid_out. split_and!; [done | split | | | | |].
  - auto.
  - intros t [[H|H]%X2|H]%Y2; [by left | by right | right; lia].
  - rewrite Hst. simpl. by f_equal.
  - rewrite Hst. intros [|j] i' s' Hj Hs'; simpl in Hj, Hs'.
    + injection Hj as <-. injection Hs' as <-. rewrite Z.add_0_r. by apply (placed_mono labels1).
    + replace (cur + Z.of_nat (S j)) with (cur + 1 + Z.of_nat j) by lia. by apply Hpl.
  - intros k t Ht. rewrite def_of_app, Hlow, Hd by lia. rewrite decide_False; [done|].
    intros [_ E%label_name_inj]. lia.
  - intros k t Ht Hl. rewrite def_of_app, Hone. destruct (decide (t = cur + 1)) as [->|].
    + rewrite Hlow, Hd by lia. rewrite decide_True; [f_equal; lia|]. split; [|done].
      apply Y2 in Hl as [?|]; [done | lia].
    + rewrite Hdef by (done || lia). f_equal. lia.
  - apply Forall_app. split; [|done]. apply Forall_cons_2; [by left | by apply tidy_label_line].
Qed.

End Placing.
