(* ===== verification/RandRun.v ===== *)
(** * Running a generated program

    The program [gen_program] writes in its plain mode, assembled and run: it
    always reaches its final self-loop, and its loads and stores stay in their
    window. *)

From Stdlib Require Import Ascii String.
From S2P Require Import Prelude Bits Float32 Machine Mmu Exec Run Reach Raises Forward PyStr Asm Disasm AsmText.
From S2P Require Import Roundtrip AsmLink AsmImage RandGen RandLines RandItems RandLabels.
Open Scope string_scope.
Open Scope Z_scope.

(** ** The seeds *)

Section Seeds.
  Context (xl : Z) (interrupt : option string) (mmu : bool) (base lim : Z).
  Local Abbreviation ok l := (assembles xl l (good interrupt mmu base lim)).

Lemma const_lines rd bits :
  0 <= rd < 31 -> 0 <= bits < 2 ^ 32 -> Forall (fun l => ok l) (const_to_reg_instrs rd bits).
Proof.
  intros Hrd Hb. destruct (const_shape rd bits Hb) as (hi & lo & Hh & Hl & _ & ->).
  apply Forall_cons_2; [by apply line_lui|]. destruct (lo =? 0); [constructor|].
  apply Forall_singleton. apply line_i; [by repeat constructor | done | lia | done].
Qed.

Lemma seed_float_lines bits : forall fr,
  0 <= fr -> fr + Z.of_nat (List.length bits) <= 32 -> Forall (fun b => 0 <= b < 2 ^ 32) bits ->
  Forall (fun l => ok l) (seed_floats fr bits).
Proof.
  induction bits as [|b bits IH]; intros fr H H' Hb; cbn [seed_floats List.length] in *; [constructor|].
  apply Forall_cons_1 in Hb as [Hb Hbs].
  apply Forall_app. split; [by apply const_lines|]. cbn [app]. apply Forall_cons_2; [|apply IH; (done || lia)].
  apply (line_fmv xl interrupt mmu base lim fr 30); lia.
Qed.

Lemma const64_lines rd scratch bits :
  (64 <=? xl) = true -> 0 <= rd < 31 -> 0 <= scratch < 31 ->
  Forall (fun l => ok l) (const64_to_reg_instrs rd scratch bits).
Proof.
  intros X ? ?. unfold const64_to_reg_instrs. cbv zeta.
  assert (forall mn r, mn ∈ Pool.SHIFT_I -> 0 <= r < 31 -> ok (ins mn [x_name r; x_name r; "32"])) as Sh.
  { intros mn r Hm Hr. apply (line_shift xl interrupt mmu base lim mn r r 32); [done | done | lia | rewrite X; lia]. }
  assert (forall v, 0 <= v .& 0xFFFFFFFF < 2 ^ 32) by (intros; by apply (land_range _ 32)).
  repeat (apply Forall_app; split); try by apply const_lines.
  - apply Forall_cons_2; [|constructor]. apply Sh; [by repeat constructor | done].
  - apply Forall_cons_2; [apply Sh; [by repeat constructor | done]|].
    apply Forall_cons_2; [apply Sh; [by repeat constructor | done]|].
    apply Forall_cons_2; [|constructor]. apply line_r; (lia || by repeat constructor).
Qed.

Lemma seed_ok : Forall (fun l => ok l) (seed_lines xl).
Proof.
  unfold seed_lines. apply Forall_app. split; [apply seed_float_lines; [done | done | repeat constructor; lia]|].
  destruct (64 <=? xl) eqn:X; [by apply const64_lines | constructor].
Qed.

End Seeds.

(** Statements that assemble are statements. *)
Lemma assembles_stmts xl P lines :
  Forall (fun l => assembles xl l P) lines -> omap stmt_of lines = lines.
Proof.
  induction 1 as [|l lines [Hs _] _ IH]; [done|]. cbn [omap list_omap]. rewrite Hs. by f_equal.
Qed.

Definition seed_len (xl : Z) : Z := if 64 <=? xl then 20 else 12.

Lemma seed_length xl : Z.of_nat (List.length (seed_lines xl)) = seed_len xl.
Proof. unfold seed_lines, seed_len. by destruct (64 <=? xl). Qed.

(** ** The labels of the whole program *)

Definition tail : list string := ["fence"; "__halt:"; "jal x0, __halt"].

(** [pre] stands before the random instructions and [post] behind the final jump. *)
Section Layout.
  Context (base_addr mem_size : Z) (interrupt : option string) (mmu : bool) (xlen : Z).
  Context (pre post body : list string) (items : list item) (labels : gmap Z string).
  Local Abbreviation count := (Z.of_nat (List.length items)).
  Local Abbreviation P := (stmts pre).
  Context (HL : laid_out count 1 items ∅ body labels).
  Context (Hok : Forall (item_ok base_addr mem_size interrupt mmu xlen) items).
  Context (Hpost : forall k l, l <> "handler" -> def_of k post l = None).
  Local Abbreviation lines := (pre ++ body ++ label_line count labels ++ tail ++ post)%list.

Lemma body_stmts : stmts body = count.
Proof. destruct HL as (_ & _ & H & _). unfold stmts. by rewrite H. Qed.

Lemma lines_stmts :
  omap stmt_of lines = (omap stmt_of pre ++ omap stmt_of body ++ ["fence"; "jal x0, __halt"] ++ omap stmt_of post)%list.
Proof.
  destruct HL as (Hn & _). rewrite !omap_app, stmts_label_line by done. reflexivity.
Qed.

Lemma def_tail k t : def_of k (tail ++ post) (label_name t) = None.
Proof.
  rewrite def_of_app, Hpost by done. unfold label_name. cbn [def_of tail]. by rewrite bool_decide_eq_false_2, bool_decide_eq_false_2, bool_decide_eq_false_2.
Qed.

(** The label of a transfer is defined at a later statement. *)
Lemma target_def idx t :
  1 <= idx <= count -> target count labels idx t ->
  exists d, (pass1 lines).2 !! label_name t = Some (4 * (P + idx - 1 + d)) /\ 0 < d /\ idx - 1 + d <= count.
Proof.
  destruct HL as (Hn & _ & _ & _ & Hlow & Hdef & _). intros Hi [Ht Hl].
  rewrite pass1_def, (def_of_app _ pre), (def_of_app _ body), (def_of_app _ (label_line _ _)), def_tail, def_label_line by done.
  rewrite body_stmts. destruct (decide (t = count)) as [->|Hne].
  - rewrite decide_True by done. exists (count - idx + 1). cbn. split; [f_equal; lia | lia].
  - rewrite decide_False by (intros [_ E%label_name_inj]; lia).
    rewrite Hdef by (done || lia). exists (t - idx). cbn. split; [f_equal; lia | lia].
Qed.

Lemma halt_def : (pass1 lines).2 !! "__halt" = Some (4 * (P + count + 1)).
Proof.
  destruct HL as (Hn & _). rewrite pass1_def, !def_of_app, body_stmts.
  rewrite Hpost by done. assert (forall k, def_of k tail "__halt" = Some (k + 1)) as -> by done.
  assert (stmts (label_line count labels) = 0) as -> by (unfold stmts; by rewrite stmts_label_line).
  cbn. f_equal. lia.
Qed.

(** What holds of word [k] of the program, after the first. *)
Definition word_ok (k w : Z) : Prop :=
  goes_forward (P + count + 2) k w /\ dest w <> 31 /\ stays base_addr (addr_space mem_size mmu) w /\
  csr_ok interrupt mmu w.

Lemma good_word k w : good interrupt mmu base_addr (addr_space mem_size mmu) w -> word_ok k w.
Proof. intros (S & D & A & Q). split_and!; [by apply fwd_straight | done | done | done]. Qed.

Lemma transfer_stays w :
  op_of w = 0x63 \/ op_of w = 0x6F -> stays base_addr (addr_space mem_size mmu) w /\ csr_ok interrupt mmu w.
Proof. intros H. apply good_rest. by destruct H as [-> | ->]. Qed.

Lemma branch_word_ok idx mn rs1 rs2 t :
  count <= 1023 -> 1 <= idx <= count -> mn ∈ Pool.BRANCH -> 0 <= rs1 < 32 -> 0 <= rs2 < 32 ->
  target count labels idx t ->
  exists w, assemble_stmt (pass1 lines).2 xlen
      (4 * (P + idx - 1), ins mn [x_name rs1; x_name rs2; label_name t]) = Ok w /\ word_ok (P + idx - 1) w.
Proof.
  intros Hc Hi Hm H1 H2 Ht. destruct (target_def idx t Hi Ht) as (d & E & Hd & Hd').
  destruct (branch_mn mn Hm) as [Cm Lm]. assert (exists f, get BRANCH mn = Some f) as [f Hf].
  { unfold Pool.BRANCH in Hm. each Hm; by eexists. }
  rewrite assemble_ins; [| done | done | repeat apply Forall_cons_2; auto using x_clean, label_clean | done].
  destruct (encode_branch (pass1 lines).2 xlen (4 * (P + idx - 1)) _ _
              [x_name rs1; x_name rs2; label_name t] Hf) as [Bf ->].
  operand_regs. unfold arg. cbn [rbind lookup list_lookup].
  rewrite (resolve_label _ _ (4 * (P + idx - 1 + d))) by (rewrite strip_clean; [done | apply label_clean]).
  cbn [rbind]. replace (_ - _) with (4 * d) by lia.
  pose proof (branch_encodes mn f rs1 rs2 (4 * d) Hf H1 H2) as B.
  replace (_ && _) with true in B by (symmetry; rewrite !andb_true_iff; split_and!; [lia | lia | apply Z.eqb_eq; dlia]).
  destruct B as (w & Ew & Hoff). exists w. split; [done|].
  destruct (branch_fields mn f rs1 rs2 (4 * d) w Hf Bf H1 H2 Ew) as (_ & O & _).
  split; [by eapply fwd_branch; try done; lia|]. split; [|by apply transfer_stays; left].
  by rewrite (dest_at w _ true O ltac:(done) eq_refl).
Qed.

Lemma jal_word_ok idx rd t :
  count <= 1023 -> 1 <= idx <= count -> 0 <= rd < 31 -> target count labels idx t ->
  exists w, assemble_stmt (pass1 lines).2 xlen (4 * (P + idx - 1), ins "jal" [x_name rd; label_name t]) = Ok w /\
    word_ok (P + idx - 1) w.
Proof.
  intros Hc Hi Hr Ht. destruct (target_def idx t Hi Ht) as (d & E & Hd & Hd').
  rewrite assemble_ins; [| by split | done | repeat apply Forall_cons_2; auto using x_clean, label_clean | done].
  unfold encode. eval_closed. operand_regs. cbn [rbind].
  rewrite (resolve_label _ _ (4 * (P + idx - 1 + d))) by (rewrite strip_clean; [done | apply label_clean]).
  cbn [rbind]. replace (_ - _) with (4 * d) by lia.
  pose proof (jal_encodes rd (4 * d) ltac:(lia)) as B.
  replace (_ && _) with true in B by (symmetry; rewrite !andb_true_iff; split_and!; [lia | lia | apply Z.eqb_eq; dlia]).
  destruct B as (w & Ew & Hoff). exists w. split; [done|].
  destruct (jal_fields rd (4 * d) w ltac:(lia) Ew) as (_ & O & R & _).
  split; [by eapply fwd_jal; try done; lia|]. split; [|by apply transfer_stays; right].
  rewrite (dest_at w _ false O ltac:(done) eq_refl), R. lia.
Qed.

Lemma item_word j i s :
  count <= 1023 -> items !! j = Some i -> omap stmt_of body !! j = Some s ->
  exists w, assemble_stmt (pass1 lines).2 xlen (4 * (P + Z.of_nat j), s) = Ok w /\ word_ok (P + Z.of_nat j) w.
Proof.
  intros Hc Hj Hs. pose proof (lookup_lt_Some _ _ _ Hj) as Hlt.
  pose proof HL as (_ & _ & _ & Hpl & _). specialize (Hpl _ _ _ Hj Hs).
  assert (item_ok base_addr mem_size interrupt mmu xlen i) as Hi.
  { rewrite Forall_lookup in Hok. by eapply Hok. }
  replace (P + Z.of_nat j) with (P + (1 + Z.of_nat j) - 1) by lia.
  destruct i as [l|mn rs1 rs2|rd]; simpl in Hpl, Hi.
  - subst s. destruct Hi as [_ Hi]. destruct (Hi (pass1 lines).2 (4 * (P + (1 + Z.of_nat j) - 1))) as (w & E & G).
    exists w. split; [done | by apply good_word].
  - destruct Hpl as (t & -> & Ht). destruct Hi as (? & ? & ?). apply branch_word_ok; (done || lia).
  - destruct Hpl as (t & -> & Ht). apply jal_word_ok; (done || lia).
Qed.

(** The whole program, word by word. *)
Lemma layout_words (Q : Z -> Z -> Prop) :
  count <= 1023 ->
  (forall j s, omap stmt_of pre !! j = Some s ->
     exists w, assemble_stmt (pass1 lines).2 xlen (4 * Z.of_nat j, s) = Ok w /\ Q (Z.of_nat j) w) ->
  (forall k w, P <= k < P + count -> word_ok k w -> Q k w) -> Q (P + count) fence -> Q (P + count + 1) 0x6F ->
  (forall j s, omap stmt_of post !! j = Some s ->
     exists w, assemble_stmt (pass1 lines).2 xlen (4 * (P + count + 2 + Z.of_nat j), s) = Ok w /\
       Q (P + count + 2 + Z.of_nat j) w) ->
  exists words, assemble lines xlen = Ok words /\ Z.of_nat (List.length words) = P + count + 2 + stmts post /\
    forall k w, words !! k = Some w -> Q (Z.of_nat k) w.
Proof.
  intros Hc Hpre Hbody Hfence Hhalt Hrest. pose proof HL as (_ & _ & Hlen & _).
  destruct (assemble_each lines xlen Q) as (words & E & Hw & Hall).
  { intros j s. rewrite lines_stmts, !lookup_app_Some. unfold stmts in *.
    intros [Hj|[Hj [Hb|[Hj' [Ht|[Hj'' Hp]]]]]]; [by apply Hpre | | |].
    - pose proof (lookup_lt_Some _ _ _ Hb) as Hlt. rewrite Hlen in Hlt.
      destruct (lookup_lt_is_Some_2 items (j - List.length (omap stmt_of pre))) as [i Hi]; [lia|].
      destruct (item_word _ _ _ Hc Hi Hb) as (w & E & G). unfold stmts in *.
      replace (Z.of_nat (List.length (omap stmt_of pre)) + Z.of_nat (j - List.length (omap stmt_of pre)))
        with (Z.of_nat j) in * by lia.
      exists w. split; [done|]. apply Hbody; [lia | done].
    - rewrite Hlen in *. set (i := (j - _ - _)%nat) in *.
      assert (Z.of_nat j = Z.of_nat (List.length (omap stmt_of pre)) + count + Z.of_nat i) as -> by lia.
      destruct i as [|[|i]]; [| |done]; injection Ht as <-.
      + rewrite Z.add_0_r. by exists fence.
      + exists 0x6F. split; [|exact Hhalt]. pose proof halt_def as D. unfold stmts in D.
        change (assemble_stmt ?L ?x (?a, "jal x0, __halt")) with (let! off := resolve L "__halt" a in jal 0 off).
        rewrite (resolve_label _ "__halt" _ _ D). cbn [rbind]. by rewrite Z.sub_diag.
    - rewrite Hlen in *. cbn [List.length] in *. destruct (Hrest _ _ Hp) as (w & E & G). exists w.
      replace (Z.of_nat (List.length (omap stmt_of pre)) + count + 2 +
        Z.of_nat (j - List.length (omap stmt_of pre) - List.length items - 2)) with (Z.of_nat j) in * by lia. done. }
  exists words. split_and!; [done | | done]. rewrite Hw. unfold stmts. rewrite lines_stmts, !length_app, Hlen.
  change (List.length [_; _]) with 2%nat. lia.
Qed.

End Layout.

(** ** The words of the plain program *)

(** The word [addi r, x0, v], and the one of the base address. *)
Definition sets (r v w : Z) : Prop :=
  op_of w = 0x13 /\ f3_of w = 0 /\ rd_of w = r /\ rs1_of w = 0 /\ imm_i_of w = v.
Definition sets_base (base : Z) : Z -> Prop := sets 31 base.

Lemma first_line xl base :
  0 <= base < 2048 ->
  assembles xl (ins "addi" [x_name BASE_REG; "x0"; show_dec base]) (sets_base base).
Proof.
  intros Hb. change BASE_REG with 31. change "x0" with (x_name 0). encoded.
  assert (u (base mod 2 ^ 12) 12 = base) as -> by (unfold u; rewrite land_ones_mod; dlia).
  destruct (i_word base 0 0 31 0x13) as (O & R & F & S & _ & I & _); try lia.
  rewrite sext_off in I by done. done.
Qed.

Lemma sets_base_straight base w : sets_base base w -> straight w = true.
Proof. intros (O & _). apply straight_by_fields. by rewrite O. Qed.

(** Executed, it leaves the number in the register. *)
Lemma sets_step r v w st st' :
  sets r v w -> 0 < r < 32 -> 0 <= v < 2048 -> xlen st = 32 \/ xlen st = 64 ->
  zget (regs st) 0 = 0 -> List.length (regs st) = 32%nat -> step w st = Ok st' -> zget (regs st') r = v.
Proof.
  intros (O & F & R & S & I) Hr Hv Hx H0 Hl. unfold step. destruct (Z.eqb_spec w 0) as [->|_]; [done|].
  cbv zeta. rewrite O. cbn [Z.eqb Pos.eqb Exec.OP_R Exec.OP_32 Exec.OP_CUSTOM Exec.OP_I].
  unfold exec_op_imm, alu_imm, reg_A. rewrite F, S, I, R, H0. cbn [Z.eqb Pos.eqb orb rbind].
  intros [= <-]. unfold wr. destruct (Z.eqb_spec r 0); [lia|]. cbn [regs with_pc with_regs].
  rewrite zget_zset_eq by lia. unfold uxlen. rewrite Z.add_0_l.
  destruct Hx as [-> | ->]; rewrite !uXLEN_id; rewrite ?uXLEN_id; (done || pow_lits; lia).
Qed.

Lemma sets_base_step base w dmem xl st' :
  sets_base base w -> 0 <= base < 2048 -> xl = 32 \/ xl = 64 ->
  step w (init dmem xl) = Ok st' -> zget (regs st') 31 = base.
Proof. intros S Hb Hx. by apply (sets_step 31 base w). Qed.

(** The whole program: it only goes forward, sets [x31] first and then spares it
    and stays in its memory window. *)
Definition plain_words (base lim N : Z) (words : list Z) : Prop :=
  Z.of_nat (List.length words) = N /\ forward words /\
  (forall w, words !! 0%nat = Some w -> sets_base base w) /\
  (forall k w, words !! k = Some w -> (0 < k)%nat -> dest w <> 31 /\ stays base lim w).

Section Core.
  Context (n_instrs base_addr mem_size : Z) (interrupt : option string) (mmu : bool) (xlen : Z).
  Local Abbreviation lim := (addr_space mem_size mmu).
  Context (Hn : 0 <= n_instrs <= 1023) (Hb : 0 <= base_addr < 2048) (Hroom : base_addr + 8 <= lim).

(** The number of words: base address, seeds, the random instructions, the fence
    and the final jump. *)
Definition program_len : Z := 1 + seed_len xlen + n_instrs + 2.

Definition prefix : list string :=
  ins "addi" [x_name BASE_REG; "x0"; show_dec base_addr] :: seed_lines xlen.

Lemma prefix_stmts : omap stmt_of prefix = prefix /\ stmts prefix = 1 + seed_len xlen.
Proof.
  assert (omap stmt_of prefix = prefix) as E.
  { unfold prefix. cbn [omap list_omap]. rewrite (proj1 (first_line xlen base_addr Hb)). f_equal.
    eapply assembles_stmts, (seed_ok xlen interrupt mmu base_addr lim). }
  split; [done|]. unfold stmts. rewrite E. unfold prefix. cbn [List.length].
  rewrite <- seed_length. lia.
Qed.

(** The generator returns, and its lines have the layout of the loop. *)
Lemma gives_core :
  gives (gen_core n_instrs base_addr mem_size interrupt mmu xlen) (fun lines =>
    exists items body labels,
      lines = (prefix ++ body ++ label_line (Z.of_nat (List.length items)) labels ++ tail)%list /\
      Z.of_nat (List.length items) = n_instrs /\
      Forall (item_ok base_addr mem_size interrupt mmu xlen) items /\
      laid_out (Z.of_nat (List.length items)) 1 items ∅ body labels).
Proof.
  unfold gen_core. eapply gives_then; [by apply gives_items|]. intros items [Hl Hok].
  eapply gives_then; [apply (gives_place_items base_addr mem_size interrupt mmu xlen); [lia | done | done]|].
  intros [body labels] HL. apply gives_ret. exists items, body, labels. split_and!; [| lia | done | done].
  done.
Qed.

Lemma seed_len_pos : 0 <= seed_len xlen.
Proof. unfold seed_len. case_match; lia. Qed.

(** A statement of the prefix: the first sets the base address, the others are good. *)
Lemma prefix_word L a j s :
  prefix !! j = Some s ->
  exists w, assemble_stmt L xlen (a, s) = Ok w /\
    (if decide (j = 0%nat) then sets_base base_addr w else good interrupt mmu base_addr lim w).
Proof.
  destruct j as [|j]; intros Hj.
  - injection Hj as <-. destruct (first_line xlen base_addr Hb) as [_ A]. apply A.
  - pose proof (seed_ok xlen interrupt mmu base_addr lim) as A. rewrite Forall_lookup in A. by apply (A j s).
Qed.
End Core.

Section Plain.
  Context (n_instrs base_addr mem_size xlen : Z).
  Context (Hn : 0 <= n_instrs <= 1023) (Hb : 0 <= base_addr < 2048) (Hroom : base_addr + 8 <= mem_size).
  Local Abbreviation program_len := (program_len n_instrs xlen).
  Local Abbreviation prefix := (prefix base_addr xlen).

(** What word [k] has to satisfy. *)
Definition plain_word (k w : Z) : Prop :=
  (k = 0 -> sets_base base_addr w) /\
  (k < program_len - 1 -> goes_forward program_len k w) /\
  (k = program_len - 1 -> self_loop w = true) /\
  (0 < k -> dest w <> 31 /\ stays base_addr mem_size w).

(** Words with these properties are a program that goes forward. *)
Lemma plain_words_of words :
  Z.of_nat (List.length words) = program_len -> (forall k w, words !! k = Some w -> plain_word (Z.of_nat k) w) ->
  plain_words base_addr mem_size program_len words.
Proof.
  intros HN Hall. pose proof (seed_len_pos xlen). split_and!; [done | | |].
  - assert (exists body last, words = (body ++ [last])%list) as (ws & last & ->).
    { destruct words as [|w0 ws] using rev_ind; [|by eexists _, _]. simpl in HN. unfold RandRun.program_len in HN. lia. }
    rewrite length_app in HN. simpl in HN. exists ws, last. split_and!; [done | |].
    + eapply (Hall (List.length ws)); [by apply list_lookup_middle | lia].
    + intros k w Hk. rewrite length_app. simpl. replace (Z.of_nat (_ + 1)) with program_len by lia.
      pose proof (lookup_lt_Some _ _ _ Hk). apply (Hall k); [by apply lookup_app_l_Some | lia].
  - intros w H0. by apply (Hall 0%nat).
  - intros k w Hk Hpos. apply (Hall k w Hk). lia.
Qed.

Lemma plain_assembles items body labels :
  Z.of_nat (List.length items) = n_instrs -> Forall (item_ok base_addr mem_size None false xlen) items ->
  laid_out (Z.of_nat (List.length items)) 1 items ∅ body labels ->
  exists words, assemble (prefix ++ body ++ label_line (Z.of_nat (List.length items)) labels ++ tail) xlen = Ok words /\
    plain_words base_addr mem_size program_len words.
Proof.
  intros Hcount Hok HL. destruct (prefix_stmts base_addr mem_size None false xlen Hb) as [Ep Es]. pose proof (seed_len_pos xlen).
  destruct (layout_words base_addr mem_size None false xlen prefix [] body items labels HL Hok ltac:(done) plain_word)
    as (words & E & Hw & Hall).
  - lia.
  - intros j s. rewrite Ep. intros Hj. pose proof (lookup_lt_Some _ _ _ Hj) as Hlt.
    assert (Z.of_nat (List.length prefix) = 1 + seed_len xlen) by (rewrite <- Es; unfold stmts; by rewrite Ep).
    destruct (prefix_word base_addr mem_size None false xlen Hb (pass1 (prefix ++ body ++ label_line (Z.of_nat (List.length items)) labels ++ tail ++ [])).2
      (4 * Z.of_nat j) j s Hj) as (w & E & G). exists w. split; [done|].
    unfold plain_word, RandRun.program_len. case_decide as D.
    + subst j. split_and!; [done | | lia | lia]. intros _. by eapply fwd_straight, sets_base_straight.
    + destruct G as (S & D' & A & _). split_and!; [lia | | lia | done]. intros _. by apply fwd_straight.
  - intros k w Hk (G & D & S & _). unfold plain_word, RandRun.program_len. rewrite Es in *. rewrite Hcount in *.
    replace (1 + seed_len xlen + n_instrs + 2) with (stmts prefix + Z.of_nat (List.length items) + 2) in * by lia.
    split_and!; (lia || done).
  - rewrite Es, Hcount. unfold plain_word, RandRun.program_len. split_and!; [lia | | lia | by split].
    intros _. by apply fwd_straight.
  - rewrite Es, Hcount. unfold plain_word, RandRun.program_len. split_and!; [lia | lia | done | by split].
  - intros j s Hj. done.
  - exists words. split; [exact E|]. apply plain_words_of; [|done]. rewrite Hw, Es, Hcount. unfold RandRun.program_len.
    change (stmts []) with 0. lia.
Qed.
End Plain.
