(* ===== verification/RandProgram.v ===== *)
(** * What a generated program does

    The properties of the plain mode of [gen_program]: the program halts, its
    memory accesses stay in their window, and how its size relates to the budget
    that was checked. *)

From Stdlib Require Import Ascii String.
From S2P Require Import Prelude Bits Float32 Machine Mmu Exec Run Reach Raises Forward PyStr Asm Disasm AsmText.
From S2P Require Import Roundtrip AsmLink AsmImage RandGen RandLines RandItems RandLabels RandRun.
Open Scope string_scope.
Open Scope Z_scope.

(** The budget the generator checks is one word less than the program. *)
Lemma plain_budget n mem_size xlen :
  check_budget n mem_size None false xlen =
  if mem_size / 4 <? program_len n xlen - 1 then Err ValueError else Ok tt.
Proof.
  unfold check_budget, program_len, seed_len. cbn [rbind].
  destruct (64 <=? xlen); (match goal with |- (if _ <? ?a then _ else _) = (if _ <? ?b then _ else _) =>
    replace a with b by (change (Z.of_nat (List.length FLOAT_SEED_BITS)) with 6; lia) end); done.
Qed.

(** The parameters of a plain program. *)
Definition plain_params (n base_addr mem_size xlen : Z) : Prop :=
  0 <= n <= 1023 /\ 0 <= base_addr < 2048 /\ base_addr + 8 <= mem_size /\ (xlen = 32 \/ xlen = 64).

Lemma gen_plain n base_addr mem_size xlen ds :
  plain_params n base_addr mem_size xlen -> check_budget n mem_size None false xlen = Ok tt ->
  exists lines words,
    gen_program n base_addr mem_size None false xlen ds = Ok (lines, None) /\
    assemble lines xlen = Ok words /\ plain_words base_addr mem_size (program_len n xlen) words.
Proof.
  intros (Hn & Hb & Hroom & Hx) Hc. unfold gen_program. rewrite Hc. cbn [rbind].
  destruct (gives_core n base_addr mem_size None false xlen Hn Hroom ds) as (lines & ds' & -> & items & body & labels & -> & Hl & Hok & HL).
  destruct (plain_assembles n base_addr mem_size xlen Hn Hb items body labels Hl Hok HL) as (words & E & W).
  by eexists _, words.
Qed.

(** The machine at reset is at the first word. *)
Lemma init_at_word words dmem xlen base lim N :
  plain_words base lim N words -> N <= 1100 -> 0 < N -> xlen = 32 \/ xlen = 64 ->
  at_word words 0 (init dmem xlen).
Proof.
  intros (HN & _) H1 H0 Hx. unfold at_word. change (Machine.xlen (init dmem xlen)) with xlen.
  split_and!; try done; [lia | destruct Hx as [-> | ->]; lia | destruct Hx; lia].
Qed.

Lemma program_len_range n xlen : 0 <= n <= 1023 -> 0 < program_len n xlen <= 1046.
Proof. unfold program_len, seed_len. case_match; lia. Qed.



(** C36: in every state a run of such a program reaches, a load or store that is
    about to be executed accesses only bytes of the window from [base_addr] to
    the end of the memory, at an address aligned to its width relative to the
    window. *)
Theorem generated_accesses_in_window n base_addr mem_size xlen ds dmem max_steps lines words steps st off width :
  plain_params n base_addr mem_size xlen ->
  mem_size <= 2 ^ xlen ->
  gen_program n base_addr mem_size None false xlen ds = Ok (lines, None) ->
  assemble lines xlen = Ok words ->
  rtc (round_rel words max_steps) (0, init dmem xlen) (steps, st) ->
  let w := zget words (pc st / 4) in
  access_of w = Some (off, width) ->
  let addr := uxlen st (reg_A st w + off) in
  base_addr <= addr /\ addr + width <= mem_size /\ (addr - base_addr) mod width = 0.
Proof.
  intros Hp Hmem E A Hr w Hw addr.
  assert (check_budget n mem_size None false xlen = Ok tt) as Hc.
  { unfold gen_program in E. by destruct (check_budget _ _ _ _ _) as [[]|]. }
  destruct (gen_plain n base_addr mem_size xlen ds Hp Hc) as (lines' & words' & E' & A' & W).
  rewrite E in E'. injection E' as <-. rewrite A in A'. injection A' as <-.
  destruct Hp as (Hn & Hb & _ & Hx). pose proof (program_len_range n xlen Hn) as R.
  pose proof W as (HN & F & W0 & Wk).
  pose proof (init_at_word words dmem xlen _ _ _ W ltac:(lia) ltac:(lia) Hx) as At.
  destruct (forward_base words max_steps base_addr (init dmem xlen) _ _ F Hr) as (k & Hk & Hbase).
  { intros j v Hj Hpos. by apply (Wk j v). }
  { intros v st' Hv. apply (sets_base_step base_addr v dmem xlen); auto. }
  { exists 0. split; [done | by left]. }
  cbn [snd] in *. pose proof Hk as (Hpc & Hrange & _). unfold addr, w in *. clear addr w.
  rewrite Hpc, Z.mul_comm, Z.div_mul in * by lia.
  destruct (lookup_lt_is_Some_2 words (Z.to_nat k)) as [v Hv]; [lia|].
  replace (zget words k) with v in * by (unfold zget; by rewrite Hv).
  destruct Hbase as [[-> _]|[Hpos Hbase]].
  { destruct (W0 v Hv) as (O & _). unfold access_of in Hw. by rewrite O in Hw. }
  destruct (Wk _ _ Hv ltac:(lia)) as [_ S]. unfold stays in S. rewrite Hw in S.
  destruct S as (S1 & S2 & S3 & S4). unfold reg_A, uxlen. rewrite S1, Hbase.
  assert (Machine.xlen st = xlen) as ->.
  { eapply (reachable_xlen dmem), (reachable_rounds _ _ _ _ _ _ Hr), reach_init. }
  assert (0 < width) by (unfold access_of in Hw; clear -Hw; repeat case_match; simplify_eq; try lia;
    apply pow2_pos; pose proof (Z.mod_pos_bound (f3_of v) 4); lia).
  rewrite uXLEN_id by (destruct Hx; lia). split_and!; [lia | lia |].
  by replace (base_addr + off - base_addr) with off by lia.
Qed.

(** A program whose one random instruction is [lw x7, 20(x31)], and the machine
    when it reaches that load. *)
Definition load_program : list Z :=
  [0x02000F93; 0xF37; 0xF00F00D3; 0x3F800F37; 0xF00F0153; 0xBF800F37; 0xF00F01D3; 0x7F800F37;
   0xF00F0253; 0x7FC00F37; 0xF00F02D3; 0x400F37; 0xF00F0353; 0x014FA383; 0x0FF0000F; 0x6F].
Definition at_load : ISS :=
  match rounds 13 load_program 100 (0, init 128 32) with Some p => p.2 | None => init 128 32 end.

Lemma generated_accesses_in_window_witness :
  let addr := uxlen at_load (reg_A at_load 0x014FA383 + 20) in
  32 <= addr /\ addr + 4 <= 128 /\ (addr - 32) mod 4 = 0.
Proof.
  refine (generated_accesses_in_window 1 32 128 32 [50; 2; 6; 5] 128 100 _ load_program 13 at_load 20 4 _ _ _ _ _ _);
    [unfold plain_params; lia | lia | vm_compute; reflexivity | vm_compute; reflexivity
    | apply (rounds_rtc 13); vm_compute; reflexivity | vm_compute; reflexivity].
Defined.

(** The budget the generator checks does not count the final [fence].  A
    program is generated exactly when its words less one fit the memory; when
    they fit with the fence [write_mem] writes the image, and when the memory
    is exactly one word short the program is generated and assembles, but
    [write_mem] raises. *)
Theorem budget_misses_fence n base_addr mem_size xlen ds :
  plain_params n base_addr mem_size xlen ->
  if mem_size / 4 <? program_len n xlen - 1 then
    gen_program n base_addr mem_size None false xlen ds = Err ValueError
  else
    exists lines words,
      gen_program n base_addr mem_size None false xlen ds = Ok (lines, None) /\
      assemble lines xlen = Ok words /\
      if mem_size / 4 =? program_len n xlen - 1 then write_mem words mem_size = Err ValueError
      else exists data, write_mem words mem_size = Ok data.
Proof.
  intros Hp. pose proof (plain_budget n mem_size xlen) as B.
  destruct (Z.ltb_spec (mem_size / 4) (program_len n xlen - 1)) as [Hlt|Hge].
  { unfold gen_program. by rewrite B. }
  destruct (gen_plain n base_addr mem_size xlen ds Hp B) as (lines & words & E & A & HN & _).
  exists lines, words. split_and!; [done | done |].
  pose proof (write_mem_image words mem_size (assemble_u32 _ _ _ A) ltac:(destruct Hp; lia)) as W.
  rewrite HN in W. destruct (Z.eqb_spec (mem_size / 4) (program_len n xlen - 1)).
  - destruct (Z.leb_spec (4 * program_len n xlen) mem_size); [exfalso; dlia | done].
  - destruct (Z.leb_spec (4 * program_len n xlen) mem_size); [|exfalso; dlia].
    destruct W as (data & Ew & _). by exists data.
Qed.

(** The default memory of 128 bytes with 18 instructions. *)
Lemma budget_misses_fence_witness :
  exists lines words,
    gen_program 18 32 128 None false 32 [7; 3] = Ok (lines, None) /\
    assemble lines 32 = Ok words /\ write_mem words 128 = Err ValueError.
Proof. apply (budget_misses_fence 18 32 128 32 [7; 3]). unfold plain_params. lia. Defined.
