(* ===== verification/RandInterrupt.v ===== *)
(** * Generated programs with an interrupt

    The interrupt modes of [gen_program]: the program assembles, it halts, and the
    interrupt the test schedules, wherever it strikes, leaves no trace in the state
    that is compared at the end. *)

From Stdlib Require Import Ascii String.
From S2P Require Import Prelude Bits Float32 Machine Mmu Exec Run Csr Reach Raises Forward Interrupted PyStr Asm Disasm PyText.
From S2P Require Import AsmText Roundtrip AsmLink AsmImage RandGen RandLines RandItems RandLabels RandRun RandProgram.
Open Scope string_scope.
Open Scope Z_scope.

(** ** The words that arm the interrupt *)

(** [csrrw x0, mtvec, x5] and [csrrsi x0, mstatus, 8]. *)
Definition SET_MTVEC : Z := 0x30529073.
Definition ENABLE : Z := 0x30046073.

(** Words that leave [mtvec] and [mstatus] alone. *)
Definition tame (w : Z) : Prop := op_of w = 0x73 -> csr_addr_of w ∈ CSR_MIE :: quiet_csrs.
Definition idle (w : Z) : Prop := straight w = true /\ tame w.

Lemma quiet_tame w : quiet w -> tame w.
Proof. intros Q O. right. by apply Q. Qed.

Lemma tame_step n k w st st' :
  goes_forward n k w -> tame w -> priv_mode st = PRIV_M -> step w st = Ok st' ->
  csr_at st' CSR_MSTATUS = csr_at st CSR_MSTATUS /\ csr_at st' CSR_MTVEC = csr_at st CSR_MTVEC.
Proof.
  intros G T HM E. destruct (forward_csr n k w G) as [F|(O & _ & S)].
  - destruct (csr_free_keeps w st st' F HM E) as [C _]. unfold csr_at. by rewrite C.
  - rewrite S, exec_csr_M in E by done. injection E as <-. specialize (T O). unfold csr_done. cbv zeta.
    assert (forall s rd v p, csr_at (with_pc p (wr rd v s)) = csr_at s) as W
      by (intros; unfold wr; by destruct (_ =? 0)).
    rewrite !W. unfold quiet_csrs in T.
    repeat (apply elem_of_cons in T as [->|T]); [..|by apply elem_of_nil in T]; try done.
    + change (csr_write CSR_MIE ?v st) with (csr_store CSR_MIE (v .& MIE_MASK) st). unfold csr_store.
      case_match; [|done]. by rewrite !csr_at_set_ne by done.
    + change (csr_write CSR_MSCRATCH ?v st) with (csr_store CSR_MSCRATCH v st). unfold csr_store.
      case_match; [|done]. by rewrite !csr_at_set_ne by done.
Qed.

Lemma set_mtvec_step st st' :
  wf st -> priv_mode st = PRIV_M -> step SET_MTVEC st = Ok st' -> 0 <= zget (regs st) 5 < 2 ^ 32 ->
  csr_at st' CSR_MSTATUS = csr_at st CSR_MSTATUS /\ csr_at st' CSR_MTVEC = zget (regs st) 5.
Proof.
  intros W HM E B. change (step SET_MTVEC st) with (exec_csr SET_MTVEC st) in E. rewrite exec_csr_M in E by done.
  injection E as <-. change (csr_done SET_MTVEC st) with (with_pc (next_pc st) (csr_store CSR_MTVEC (zget (regs st) 5) st)).
  change (csr_at (with_pc ?p ?s)) with (csr_at s). rewrite csr_at_store_eq by done. split.
  - unfold csr_store. case_match; [|done]. by rewrite csr_at_set_ne.
  - rewrite decide_True by (apply (bool_decide_unpack _); by vm_compute). unfold u32. by rewrite (land_lit _ 0xFFFFFFFF 32), Z.mod_small.
Qed.

Lemma enable_step st st' :
  wf st -> priv_mode st = PRIV_M -> step ENABLE st = Ok st' ->
  truthy ((csr_at st' CSR_MSTATUS ≫ 3) .& 1) = true /\ csr_at st' CSR_MTVEC = csr_at st CSR_MTVEC.
Proof.
  intros W HM E. change (step ENABLE st) with (exec_csr ENABLE st) in E. rewrite exec_csr_M in E by done.
  injection E as <-. change (csr_done ENABLE st) with
    (with_pc (next_pc st) (csr_store CSR_MSTATUS ((csr_read st CSR_MSTATUS .| 8) .& MSTATUS_MASK) st)).
  change (csr_at (with_pc ?p ?s)) with (csr_at s). split.
  - rewrite csr_at_store_eq by done. rewrite decide_True by (apply (bool_decide_unpack _); by vm_compute).
    generalize (csr_read st CSR_MSTATUS). intros m. unfold u32.
    assert (Z.testbit ((((m .| 8) .& MSTATUS_MASK) .& 0xFFFFFFFF)) 3 = true) as T
      by (rewrite !Z.land_spec, Z.lor_spec; by rewrite orb_true_r).
    rewrite bit_at by lia. by rewrite T.
  - unfold csr_store. case_match; [|done]. by rewrite csr_at_set_ne.
Qed.

(** ** Armed programs

    Word [a] puts the handler's address into [x5], the next one writes it to
    [mtvec], and word [e] turns interrupts on; behind it no word touches the CSRs
    of the trap mechanism. *)
Definition armed_word (N a e k w : Z) : Prop :=
  (k = a -> sets 5 (4 * N) w) /\ (k = a + 1 -> w = SET_MTVEC) /\ (k = e -> w = ENABLE) /\
  (k <= e -> straight w = true) /\ (k < e -> k <> a + 1 -> tame w) /\ (e < k -> quiet w).

Section Armed.
  Context (prog : list Z) (a e : Z).
  Local Abbreviation N := (Z.of_nat (List.length prog)).
  Context (Hf : forward prog) (Ha : 0 <= a) (He : a + 1 < e < N - 1) (HN : 4 * N < 2048).
  Context (Hw : forall k w, prog !! k = Some w -> armed_word N a e (Z.of_nat k) w).

Definition arming (k : Z) (st : ISS) : Prop :=
  wf st /\ truthy ((csr_at st CSR_MSTATUS ≫ 3) .& 1) = (e <? k) /\
  (a + 1 < k -> csr_at st CSR_MTVEC = 4 * N) /\ (k = a + 1 -> zget (regs st) 5 = 4 * N).

Lemma arming_init mem_size xl :
  xl = 32 \/ xl = 64 -> 0 < mem_size < 2 ^ xl -> arming 0 (init mem_size xl).
Proof.
  intros Hx Hm. split; [by apply wf_init|]. change (csr_at (init mem_size xl) CSR_MSTATUS) with 0.
  split; [destruct (Z.ltb_spec e 0); (done || lia) | split; lia].
Qed.

Lemma arming_step k k' st st' :
  ready prog k st -> arming k st -> k < N - 1 -> step (zget prog k) st = Ok st' -> ready prog k' st' -> k < k' ->
  arming k' st'.
Proof.
  intros R (W & M & V & X) Hk E R' Hk'. pose proof R as [(Hpc & B & _ & _ & HM & _) _].
  pose proof (word_before_last prog Hf k ltac:(lia)) as G.
  destruct (lookup_lt_is_Some_2 prog (Z.to_nat k)) as [w Hlw]; [lia|]. pose proof (Hw _ _ Hlw) as A. rewrite Z2Nat.id in A by lia.
  replace (zget prog k) with w in * by (unfold zget; by rewrite Hlw). destruct A as (Aa & Av & Ae & As & At & Aq).
  assert (k <= e -> k' = k + 1) as Hn.
  { intros Hke. destruct (straight_step w st (As Hke) HM) as (s & Es & P & _). rewrite E in Es. injection Es as <-.
    destruct R' as [(Hpc' & _) _]. lia. }
  split; [by eapply wf_step|]. destruct (decide (k = a + 1)) as [->|N1].
  { rewrite (Hn ltac:(lia)), (Av eq_refl) in *. specialize (X eq_refl).
    destruct (set_mtvec_step st st' W HM E ltac:(lia)) as [-> ->]. rewrite M, X.
    split; [destruct (Z.ltb_spec e (a + 1)), (Z.ltb_spec e (a + 1 + 1)); (done || lia) | split; [done | lia]]. }
  destruct (decide (k = e)) as [->|N2].
  { rewrite (Hn ltac:(lia)), (Ae eq_refl) in *. destruct (enable_step st st' W HM E) as [-> ->].
    split; [destruct (Z.ltb_spec e (e + 1)); (done || lia) | split; [intros _; apply V; lia | lia]]. }
  assert (tame w) as T by (destruct (decide (k < e)); [by apply At | apply quiet_tame, Aq; lia]).
  destruct (tame_step N k w st st' G T HM E) as [-> ->]. rewrite M. split_and!.
  - destruct (Z.ltb_spec e k), (Z.ltb_spec e k'); try done; [lia|]. specialize (Hn ltac:(lia)). lia.
  - intros Hk2. destruct (decide (a + 1 < k)); [by apply V|]. specialize (Hn ltac:(lia)). lia.
  - intros ->. destruct (decide (k = a)) as [->|]; [|specialize (Hn ltac:(lia)); lia].
    apply (sets_step 5 (4 * N) w st); [by apply Aa | lia | lia | apply W | apply W | apply W | exact E].
Qed.

(** With the interrupt or without it the run ends in the final loop, and in the
    same state but for CSRs. *)
Lemma armed_run mem_size xl mx fuel :
  let words := (prog ++ [DISARM; MRET])%list in
  xl = 32 \/ xl = 64 -> 0 < mem_size < 2 ^ xl -> N + 2 <= mx -> (List.length prog + 3 <= fuel)%nat ->
  exists m st0, run fuel words mx (init mem_size xl) = Finished m st0 /\ 0 <= m < N /\ pc st0 = 4 * (N - 1) /\
    forall after cause, exists c, c !! CSR_MSCRATCH = csr st0 !! CSR_MSCRATCH /\
      run fuel words mx (schedule_interrupt after cause (init mem_size xl)) =
      Finished (m + if after <=? m then 2 else 0) (over c (if after <=? m then None else Some (after, cause)) PRIV_M st0).
Proof.
  intros words Hx Hm Hmx Hfuel.
  assert (ready prog 0 (init mem_size xl)) as R.
  { split; unfold at_word; rewrite ?length_app; cbn [List.length xlen init]; split_and!; try done; try lia;
      destruct Hx as [-> | ->]; lia. }
  destruct (path_total prog Hf (List.length prog) 0 _ R ltac:(lia)) as (m & st0 & P & Bm).
  exists (Z.of_nat m), st0. split_and!; [|lia|lia| |].
  - unfold run. by rewrite (path_run prog Hf _ _ _ _ P) by lia.
  - by destruct (path_final _ _ _ _ _ P) as [(-> & _) _].
  - intros after cause. unfold run, schedule_interrupt.
    assert (forall k w, prog !! k = Some w -> e < Z.of_nat k -> quiet w) as Hq by (intros k w Hk; apply (Hw k w Hk)).
    assert (forall k st, ready prog k st -> arming k st -> e < k -> csr_at st CSR_MTVEC = 4 * N) as Hv
      by (intros k st _ (_ & _ & V & _) Hek; apply V; lia).
    apply (path_interrupted prog e arming Hf ltac:(lia) Hq arming_step (fun k st _ I => proj1 (proj2 I)) Hv
      0 (init mem_size xl) m st0 P (arming_init mem_size xl Hx Hm) after cause fuel mx 0); lia.
Qed.
End Armed.

(** ** The lines that arm the interrupt *)

Definition sources : list string := ["timer"; "uart"; "msi"; "both"].
Definition arm_len (s : string) : Z :=
  if (s =? "timer")%string then 9 else if (s =? "both")%string then 12 else 8.
Definition cause_of (s : string) : Z :=
  if (s =? "timer")%string then 0x80000007 else if (s =? "msi")%string then 0x80000003 else 0x8000000B.
Definition PLACEHOLDER : string := "__MTVEC_PLACEHOLDER__".

(** A line that does not depend on where it stands. *)
Lemma assembles_word xl l w (P : Z -> Prop) :
  stmt_of l = Some l -> (forall labels a, assemble_stmt labels xl (a, l) = Ok w) -> P w -> assembles xl l P.
Proof. intros H E HP. split; [done|]. intros labels a. exists w. by rewrite E. Qed.

Ltac concrete w := apply (assembles_word _ _ w); [reflexivity | intros; reflexivity |].
Ltac idle_line w := concrete w; split; [reflexivity | apply (bool_decide_unpack _); by vm_compute].

(** [addi  x5, x0, h], with its two spaces. *)
Definition mtvec_line (h : Z) : string := ("addi  " ++ spaced_args ["x5"; "x0"; show_dec h])%string.

Lemma mtvec_assembles xl h : 0 <= h < 2048 -> assembles xl (mtvec_line h) (sets 5 h).
Proof.
  intros Hh. set (args := ["x5"; "x0"; show_dec h]).
  assert (Forall clean args) as Hc by (apply Forall_cons_2; [done|]; apply Forall_cons_2; [done|]; apply Forall_singleton, show_dec_clean).
  assert (forall p : ascii -> bool, (forall c, tok_char c = true -> p c = true) -> p ","%char = true -> p " "%char = true ->
    all_chars p (mtvec_line h) = true) as Hp.
  { intros p H1 H2 H3. unfold mtvec_line. rewrite all_chars_app, spaced_chars by done.
    cbn [all_chars]. rewrite H3, !H1 by done. done. }
  assert (strip (mtvec_line h) = mtvec_line h) as Hs.
  { unfold strip. change (lstrip (mtvec_line h)) with (mtvec_line h). by apply rstrip_spaced. }
  split.
  - unfold stmt_of. rewrite before_hash_id by (apply Hp; try done; intros c (_ & _ & -> & _)%tok_char_inv; done).
    rewrite Hs. change (mtvec_line h =? "")%string with false. cbv iota zeta.
    rewrite no_colon_end; [done|]. apply Hp; try done. intros c (_ & _ & _ & ->)%tok_char_inv. done.
  - intros labels a. unfold assemble_stmt. rewrite Hs.
    assert (re_split false (mtvec_line h) = "addi" :: args) as ->.
    { change (mtvec_line h) with ("addi" ++ String " " (String " " (spaced_args args)))%string.
      rewrite re_split_cut by done. f_equal. change (re_split true (String " " ?t)) with (re_split true t). by apply re_split_spaced. }
    change (lower "addi") with "addi". unfold args. change "x5" with (x_name 5). change "x0" with (x_name 0).
    encode_operands. eexists. split; [reflexivity|].
    assert (u (h mod 2 ^ 12) 12 = h) as -> by (unfold u; rewrite land_ones_mod; dlia).
    destruct (i_word h 0 0 5 0x13) as (O & R & F & S & _ & I & _); try lia. rewrite sext_off in I by done. done.
Qed.

Lemma assembles_weaken xl l (P Q : Z -> Prop) : (forall w, P w -> Q w) -> assembles xl l P -> assembles xl l Q.
Proof. intros H [S A]. split; [done|]. intros labels a. destruct (A labels a) as (w & E & HP). exists w. auto. Qed.

Lemma good_idle s mmu base lim w : good (Some s) mmu base lim w -> idle w.
Proof. intros (S & _ & _ & Q). split; [done|]. apply quiet_tame. intros O. by apply (Q O). Qed.

(** The estimate of the timer's two lines hold no placeholder. *)
Definition estimate_lines (k : Z) : list string := const_to_reg_instrs 7 (100 + k * 10).

Lemma estimate_spec k :
  1 <= k <= 1023 -> Forall (fun l => no_char "_" l = true) (estimate_lines k) /\ List.length (estimate_lines k) = 2%nat.
Proof.
  intros Hk. assert (forallb (fun k => forallb (no_char "_") (estimate_lines k) && (List.length (estimate_lines k) =? 2)%nat)
    (seqZ 1 1023) = true) as A by (vm_compute; reflexivity).
  rewrite forallb_forall in A. specialize (A k). rewrite <- list_elem_of_In, elem_of_seqZ, andb_true_iff in A.
  destruct (A ltac:(lia)) as [F L]. split; [|by apply Nat.eqb_eq]. apply Forall_forall. intros l Hl.
  rewrite forallb_forall in F. by apply F, list_elem_of_In.
Qed.

Lemma estimate_idle xl k : 1 <= k <= 1023 -> Forall (fun l => assembles xl l idle) (estimate_lines k).
Proof.
  intros Hk. eapply Forall_impl; [apply (const_lines xl (Some "timer") false 0 0); lia|].
  intros l. apply assembles_weaken, good_idle.
Qed.

Lemma estimate_replaced h k : 1 <= k <= 1023 -> replace_all PLACEHOLDER h (estimate_lines k) = estimate_lines k.
Proof.
  intros [H _]%estimate_spec. unfold replace_all. induction H as [|l ls Hl _ IH]; [done|]. cbn [map].
  rewrite IH. f_equal. by apply (py_replace_absent "_").
Qed.

Lemma instr_count_app a b : instr_count (a ++ b) = instr_count a + instr_count b.
Proof. unfold instr_count. rewrite filter_app, length_app. lia. Qed.

Lemma estimate_count k : 1 <= k <= 1023 -> instr_count (estimate_lines k) = 2.
Proof.
  intros Hk. rewrite tidy_count.
  - unfold stmts. erewrite assembles_stmts by apply (estimate_idle 32 k Hk). by rewrite (proj2 (estimate_spec k Hk)).
  - eapply Forall_impl; [apply (estimate_idle 32 k Hk)|]. intros l [S _]. by left.
Qed.

Lemma mtvec_replaced h :
  py_replace PLACEHOLDER (show_dec h) 0 "addi  x5, x0, __MTVEC_PLACEHOLDER__" = mtvec_line h.
Proof.
  change (py_replace PLACEHOLDER (show_dec h) 0 "addi  x5, x0, __MTVEC_PLACEHOLDER__")
    with ("addi  x5, x0, " ++ (show_dec h ++ ""))%string. by rewrite append_nil.
Qed.

(** The four prefixes have one shape. *)
Definition arm_lines (h : Z) (luis mid : list string) : list string :=
  (luis ++ [mtvec_line h; "csrrw x0, mtvec, x5"] ++ mid ++ ["csrrsi x0, mstatus, 8"])%list.

Ltac idle_lines :=
  repeat (apply Forall_cons_2; [match goal with |- assembles _ ?l _ =>
    let w := eval vm_compute in (assemble [l] 32) in
    lazymatch w with Ok [?v] => idle_line v end end|]); first [apply Forall_nil_2 | idtac].

Ltac shape k h Er Ec El :=
  split; [reflexivity|]; try fold (estimate_lines k);
  (split; [unfold replace_all; rewrite ?map_app;
    change (map (py_replace PLACEHOLDER (show_dec h) 0) (estimate_lines k))
      with (replace_all PLACEHOLDER (show_dec h) (estimate_lines k));
    rewrite ?Er; cbn [map]; rewrite mtvec_replaced; unfold arm_lines; rewrite <- ?app_assoc; reflexivity|]);
  (split; [rewrite ?instr_count_app, ?Ec; reflexivity|]); (split; [rewrite ?length_app, ?El; reflexivity|]);
  split; repeat first [apply Forall_app; split | assumption | idle_lines].

Lemma arm_shape xl s k h :
  s ∈ sources -> 1 <= k <= 1023 ->
  exists prefix luis mid, interrupt_prefix s k = Ok (prefix, cause_of s) /\
    replace_all PLACEHOLDER (show_dec h) prefix = arm_lines h luis mid /\ instr_count prefix = arm_len s /\
    Z.of_nat (List.length luis + List.length mid + 3) = arm_len s /\
    Forall (fun l => assembles xl l idle) luis /\ Forall (fun l => assembles xl l idle) mid.
Proof.
  intros Hs Hk. pose proof (estimate_replaced (show_dec h) k Hk) as Er. pose proof (estimate_count k Hk) as Ec.
  pose proof (estimate_idle xl k Hk) as Ei. pose proof (proj2 (estimate_spec k Hk)) as El.
  unfold sources in Hs. each Hs.
  - eexists _, ["lui   x2, 0x10104"], (["addi  x6, x0, 128"; "csrrw x0, mie, x6"] ++ estimate_lines k ++ ["sw    x7, 0(x2)"])%list.
    shape k h Er Ec El.
  - eexists _, ["lui   x1, 0x10000"], ["addi  x6, x0, -2048"; "csrrw x0, mie, x6"; "addi  x8, x0, 1"; "sw    x8, 4(x1)"].
    shape k h Er Ec El.
  - eexists _, ["lui   x2, 0x10100"], ["addi  x6, x0, 8"; "csrrw x0, mie, x6"; "addi  x7, x0, 1"; "sw    x7, 0(x2)"].
    shape k h Er Ec El.
  - eexists _, ["lui   x1, 0x10000"; "lui   x2, 0x10104"], (["addi  x6, x0, -1920"; "csrrw x0, mie, x6"] ++ estimate_lines k ++
      ["sw    x7, 0(x2)"; "addi  x8, x0, 1"; "sw    x8, 4(x1)"])%list.
    shape k h Er Ec El.
Qed.

(** ** The words of the program *)

Lemma arm_word xl N luis mid j l :
  0 <= 4 * N < 2048 -> Forall (fun l => assembles xl l idle) luis -> Forall (fun l => assembles xl l idle) mid ->
  arm_lines (4 * N) luis mid !! j = Some l ->
  let a := Z.of_nat (List.length luis) in
  let e := a + 2 + Z.of_nat (List.length mid) in
  assembles xl l (fun w => straight w = true /\ armed_word N a e (Z.of_nat j) w).
Proof.
  intros HN Fl Fm Hj a e. rewrite Forall_lookup in Fl, Fm. unfold arm_lines in Hj. unfold armed_word.
  apply lookup_app_Some in Hj as [Hj|[Hl Hj]].
  { pose proof (lookup_lt_Some _ _ _ Hj). eapply assembles_weaken; [|by apply (Fl j l)].
    intros w [S T]. split; [done|]. split_and!; (done || lia). }
  apply lookup_app_Some in Hj as [Hj|[Hl2 Hj]].
  { destruct (j - List.length luis)%nat as [|[|i]] eqn:Ej; [| |done]; injection Hj as <-.
    - eapply assembles_weaken; [|by apply mtvec_assembles]. intros w S. pose proof S as (O & _).
      assert (straight w = true) as Sw by (apply straight_by_fields; by rewrite O). split; [done|].
      split_and!; [by intros | lia | lia | done | | lia]. intros _ _ X. by rewrite O in X.
    - concrete SET_MTVEC. split; [reflexivity|]. split_and!; [lia | done | lia | done | lia | lia]. }
  cbn [List.length] in *. apply lookup_app_Some in Hj as [Hj|[Hl3 Hj]].
  { pose proof (lookup_lt_Some _ _ _ Hj). eapply assembles_weaken; [|by eapply Fm].
    intros w [S T]. split; [done|]. split_and!; (done || lia). }
  apply list_lookup_singleton_Some in Hj as [Hj <-].
  concrete ENABLE. split; [reflexivity|]. split_and!; [lia | lia | done | done | lia | lia].
Qed.

Definition handler_lines : list string := ["handler:"; "csrrw x0, mie, x0"; "mret"].

Lemma handler_def k l : l <> "handler" -> def_of k handler_lines l = None.
Proof.
  intros H. cbn [def_of handler_lines]. change (label_of "mret") with (@None string).
  change (label_of "csrrw x0, mie, x0") with (@None string). change (label_of "handler:") with (Some "handler").
  rewrite !bool_decide_eq_false_2; (done || congruence).
Qed.

Section Words.
  Context (n_instrs base_addr mem_size xlen : Z) (source : string) (luis mid : list string).
  Context (Hn : 1 <= n_instrs <= 1023) (Hb : 0 <= base_addr < 2048).
  Local Abbreviation N := (arm_len source + program_len n_instrs xlen).
  Local Abbreviation a := (Z.of_nat (List.length luis)).
  Local Abbreviation e := (arm_len source - 1).
  Context (Hlen : Z.of_nat (List.length luis + List.length mid + 3) = arm_len source) (HN : 4 * N < 2048).
  Context (Fl : Forall (fun l => assembles xlen l idle) luis) (Fm : Forall (fun l => assembles xlen l idle) mid).
  Local Abbreviation pre := (arm_lines (4 * N) luis mid ++ prefix base_addr xlen)%list.

Definition irq_word (k w : Z) : Prop :=
  (k < N -> armed_word N a e k w) /\ (k < N - 1 -> goes_forward N k w) /\ (k = N - 1 -> self_loop w = true) /\
  (k = N -> w = DISARM) /\ (k = N + 1 -> w = MRET).

Lemma arm_size : List.length (arm_lines (4 * N) luis mid) = Z.to_nat (arm_len source).
Proof. unfold arm_lines. rewrite !length_app. cbn [List.length]. lia. Qed.

Lemma len_bounds : 0 < arm_len source /\ 0 <= seed_len xlen /\ 0 <= 4 * N.
Proof. pose proof (seed_len_pos xlen). unfold program_len. split_and!; lia. Qed.

Lemma pre_stmts : omap stmt_of pre = pre /\ stmts pre = arm_len source + 1 + seed_len xlen.
Proof.
  pose proof len_bounds. destruct (prefix_stmts base_addr mem_size (Some source) false xlen Hb) as [Ep Es].
  assert (omap stmt_of (arm_lines (4 * N) luis mid) = arm_lines (4 * N) luis mid) as Ea.
  { apply (assembles_stmts xlen (fun _ => True)). apply Forall_lookup. intros j l Hj.
    eapply assembles_weaken; [|eapply (arm_word xlen N luis mid j l); (done || lia)]. done. }
  split; [by rewrite omap_app, Ea, Ep|]. rewrite stmts_app, Es. unfold stmts. rewrite Ea, arm_size. lia.
Qed.

(** A word behind the arming ones, at most the last of the program. *)
Lemma core_word k w : arm_len source <= k < N -> quiet w -> (k < N - 1 -> goes_forward N k w) -> (k = N - 1 -> self_loop w = true) ->
  irq_word k w.
Proof.
  intros Hk Q G S. unfold irq_word, armed_word. split; [intros _; split_and!; (done || lia)|]. split_and!; (done || lia).
Qed.

Lemma irq_assembles items body labels :
  Z.of_nat (List.length items) = n_instrs -> Forall (item_ok base_addr mem_size (Some source) false xlen) items ->
  laid_out (Z.of_nat (List.length items)) 1 items ∅ body labels ->
  exists words, assemble (pre ++ body ++ label_line (Z.of_nat (List.length items)) labels ++ tail ++ handler_lines) xlen = Ok words /\
    Z.of_nat (List.length words) = N + 2 /\ forall k w, words !! k = Some w -> irq_word (Z.of_nat k) w.
Proof.
  intros Hcount Hok HL. destruct pre_stmts as [Ep Es]. pose proof len_bounds as (L1 & L2 & L3).
  assert (program_len n_instrs xlen = 1 + seed_len xlen + n_instrs + 2) as PL by done.
  destruct (layout_words base_addr mem_size (Some source) false xlen pre handler_lines body items labels HL Hok handler_def irq_word)
    as (words & E & Hw & Hall).
  - lia.
  - intros j l. rewrite Ep. intros [Hj|[Hl Hj]]%lookup_app_Some.
    + pose proof (lookup_lt_Some _ _ _ Hj) as Hlt. rewrite arm_size in Hlt.
      destruct (arm_word xlen N luis mid j l ltac:(lia) Fl Fm Hj) as [_ A]. edestruct A as (w & Ew & S & Aw). exists w. split; [exact Ew|].
      replace (Z.of_nat (List.length luis) + 2 + Z.of_nat (List.length mid)) with (arm_len source - 1) in Aw by lia.
      unfold irq_word. split_and!; [done | | lia | lia | lia]. intros _. by apply fwd_straight.
    + pose proof (lookup_lt_Some _ _ _ Hj) as Hlt. rewrite arm_size in *.
      edestruct (prefix_word base_addr mem_size (Some source) false xlen Hb) as (w & Ew & G); [exact Hj|]. exists w. split; [exact Ew|].
      assert (Z.of_nat (List.length (prefix base_addr xlen)) = 1 + seed_len xlen) as Lp
        by (unfold prefix; cbn [List.length]; rewrite <- seed_length; lia).
      assert (straight w = true /\ quiet w) as [S Q].
      { destruct (decide _); [|by destruct G as (S & _ & _ & Q); split; [|intros O; apply (Q O)]].
        split; [by eapply sets_base_straight|]. intros X. destruct G as (O & _). by rewrite O in X. }
      apply core_word; [lia | done | | lia]. intros _. by apply fwd_straight.
  - intros k w Hk (G & _ & _ & Q). rewrite Es, Hcount in *.
    replace (arm_len source + 1 + seed_len xlen + n_instrs + 2) with N in G by lia.
    apply core_word; [lia | intros O; by apply (Q O) | done | lia].
  - rewrite Es, Hcount. apply core_word; [lia | done | intros _; by apply fwd_straight | lia].
  - rewrite Es, Hcount. apply core_word; [lia | done | lia | done].
  - rewrite Es, Hcount. change (omap stmt_of handler_lines) with ["csrrw x0, mie, x0"; "mret"].
    intros [|[|j]] l Hj; [| |done]; injection Hj as <-.
    + exists DISARM. split; [reflexivity|]. unfold irq_word. split_and!; (done || lia).
    + exists MRET. split; [reflexivity|]. unfold irq_word. split_and!; (done || lia).
  - exists words. split_and!; [exact E | | done]. rewrite Hw, Es, Hcount. change (stmts handler_lines) with 2. lia.
Qed.
End Words.

(** ** The generator *)

Lemma core_count n_instrs base_addr (mem_size : Z) (interrupt : option string) xlen items body labels :
  0 <= base_addr < 2048 -> Z.of_nat (List.length items) = n_instrs ->
  laid_out (Z.of_nat (List.length items)) 1 items ∅ body labels ->
  instr_count (prefix base_addr xlen ++ body ++ label_line (Z.of_nat (List.length items)) labels ++ tail) = program_len n_instrs xlen.
Proof.
  intros Hb Hc HL. pose proof HL as (Hn & _ & Hlen & _ & _ & _ & Ht).
  destruct (prefix_stmts base_addr mem_size interrupt false xlen Hb) as [Ep Es].
  rewrite tidy_count.
  - rewrite !stmts_app, Es. unfold stmts. rewrite Hlen, (stmts_label_line _ _ Hn). unfold program_len.
    change (List.length (omap stmt_of tail)) with 2%nat. cbn [List.length]. lia.
  - apply Forall_app. split; [|apply Forall_app; split; [done|apply Forall_app; split; [by apply tidy_label_line|]]].
    + apply Forall_cons_2; [left; apply (first_line xlen base_addr Hb)|].
      eapply Forall_impl; [apply (seed_ok xlen interrupt false base_addr mem_size)|]. intros l [S _]. by left.
    + apply Forall_cons_2; [by left|]. apply Forall_cons_2; [right; by exists "__halt"|]. apply Forall_singleton. by left.
Qed.

Lemma gen_interrupt n base_addr mem_size xlen s ds :
  plain_params n base_addr mem_size xlen -> 1 <= n -> s ∈ sources -> check_budget n mem_size (Some s) false xlen = Ok tt ->
  let N := arm_len s + program_len n xlen in
  4 * N < 2048 ->
  exists lines words k (luis mid : list string),
    gen_program n base_addr mem_size (Some s) false xlen ds = Ok (lines, Some (k, cause_of s)) /\ 1 <= k <= n /\
    assemble lines xlen = Ok words /\ Z.of_nat (List.length words) = N + 2 /\
    Z.of_nat (List.length luis + List.length mid + 3) = arm_len s /\
    forall j w, words !! j = Some w -> irq_word n xlen s luis (Z.of_nat j) w.
Proof.
  intros (Hn & Hb & Hroom & Hx) H1 Hs Hc N HN. unfold gen_program. rewrite Hc. cbn [rbind].
  destruct (gives_randint 1 n ltac:(lia) ds) as (k & ds1 & Ek & Hk). rewrite Ek. cbn [rbind].
  destruct (gives_core n base_addr mem_size (Some s) false xlen Hn Hroom ds1)
    as (out & ds2 & Eo & items & body & labels & -> & Hl & Hok & HL). rewrite Eo. cbn [rbind].
  destruct (arm_shape xlen s k (4 * N) Hs ltac:(lia)) as (pre & luis & mid & Ep & Er & Ec & Hlen & Fl & Fm).
  rewrite Ep. cbn [rbind]. rewrite Ec, (core_count n base_addr mem_size (Some s) xlen items body labels Hb Hl HL).
  replace ((arm_len s + program_len n xlen) * 4) with (4 * N) by (unfold N; lia).
  change "__MTVEC_PLACEHOLDER__" with PLACEHOLDER. rewrite Er.
  destruct (irq_assembles n base_addr mem_size xlen s luis mid ltac:(lia) Hb Hlen HN Fl Fm items body labels Hl Hok HL)
    as (words & E & Hw & Hall).
  eexists _, words, k, luis, mid. split; [reflexivity|]. split; [done|]. split_and!; try done.
  rewrite <- E. f_equal. by rewrite <- !app_assoc.
Qed.

(** Such words are an armed program with the handler behind it. *)
Lemma irq_program n xlen s (luis mid : list string) words :
  let N := arm_len s + program_len n xlen in
  0 <= n -> Z.of_nat (List.length luis + List.length mid + 3) = arm_len s -> Z.of_nat (List.length words) = N + 2 ->
  (forall j w, words !! j = Some w -> irq_word n xlen s luis (Z.of_nat j) w) ->
  exists prog, words = (prog ++ [DISARM; MRET])%list /\ Z.of_nat (List.length prog) = N /\ forward prog /\
    forall k w, prog !! k = Some w -> armed_word N (Z.of_nat (List.length luis)) (arm_len s - 1) (Z.of_nat k) w.
Proof.
  intros N Hn Hlen Hw Hall. pose proof (seed_len_pos xlen) as Hs.
  assert (0 < N) as HN by (unfold N, program_len; lia).
  destruct (lookup_lt_is_Some_2 words (Z.to_nat N)) as [d Hd]; [lia|].
  destruct (lookup_lt_is_Some_2 words (Z.to_nat (N + 1))) as [m Hm]; [lia|].
  destruct (lookup_lt_is_Some_2 words (Z.to_nat (N - 1))) as [l Hl]; [lia|].
  assert (words = take (Z.to_nat N) words ++ [DISARM; MRET])%list as Ew.
  { rewrite <- (take_drop (Z.to_nat N) words) at 1. f_equal. rewrite (drop_S _ d _ Hd).
    replace (S (Z.to_nat N)) with (Z.to_nat (N + 1)) by lia. rewrite (drop_S _ m _ Hm), drop_ge by lia.
    f_equal; [apply (Hall _ _ Hd); lia | f_equal; apply (Hall _ _ Hm); lia]. }
  assert (forall k w, take (Z.to_nat N) words !! k = Some w -> irq_word n xlen s luis (Z.of_nat k) w /\ Z.of_nat k < N) as Ht.
  { intros k w [Hk Hlt]%lookup_take_Some. split; [by apply Hall | lia]. }
  exists (take (Z.to_nat N) words). split_and!; [done | rewrite length_take; lia | |].
  - exists (take (Z.to_nat (N - 1)) words), l. split_and!.
    + replace (Z.to_nat N) with (S (Z.to_nat (N - 1))) by lia. by apply take_S_r.
    + apply (Hall _ _ Hl). fold N. lia.
    + intros k w [Hk Hlt]%lookup_take_Some. rewrite length_take. replace (Z.of_nat (_ `min` _)) with N by lia.
      apply (Hall _ _ Hk). fold N. lia.
  - intros k w Hk. destruct (Ht k w Hk) as [W Hlt]. by apply W.
Qed.

(** C7: the interrupt of a generated program is invisible.  Every program written in an
    interrupt mode, while its handler is within reach of an [addi], assembles, and
    the simulator runs it into its final loop.  And wherever the interrupt strikes,
    that is for whatever schedule and whatever cause, the run ends there too, with
    the same program counter, registers, memory, float registers, flags, rounding
    mode and [mscratch] as the run without an interrupt, after two more steps if at
    least [after] instructions were executed, and after as many as before, with the
    interrupt still to come, if not. *)
Theorem interrupt_transparent n base_addr mem_size xlen s ds max_steps fuel :
  plain_params n base_addr mem_size xlen -> 1 <= n -> mem_size < 2 ^ xlen -> s ∈ sources ->
  check_budget n mem_size (Some s) false xlen = Ok tt ->
  let N := arm_len s + program_len n xlen in
  4 * N < 2048 -> N + 2 <= max_steps -> N + 3 <= Z.of_nat fuel ->
  exists lines words k steps st0,
    gen_program n base_addr mem_size (Some s) false xlen ds = Ok (lines, Some (k, cause_of s)) /\ 1 <= k <= n /\
    assemble lines xlen = Ok words /\
    run fuel words max_steps (init mem_size xlen) = Finished steps st0 /\ pc st0 = 4 * (N - 1) /\
    forall after cause, exists st,
      run fuel words max_steps (schedule_interrupt after cause (init mem_size xlen)) =
        Finished (if after <=? steps then steps + 2 else steps) st /\
      pc st = pc st0 /\ regs st = regs st0 /\ mem st = mem st0 /\ fregs st = fregs st0 /\
      fflags st = fflags st0 /\ frm st = frm st0 /\ csr_at st CSR_MSCRATCH = csr_at st0 CSR_MSCRATCH /\
      pending_interrupt st = (if after <=? steps then None else Some (after, cause)).
Proof.
  intros Hp H1 Hm Hs Hc N HN Hmx Hfuel.
  destruct (gen_interrupt n base_addr mem_size xlen s ds Hp H1 Hs Hc HN) as (lines & words & k & luis & mid & E & Hk & A & Hw & Hlen & Hall).
  pose proof Hp as (_ & Hb & Hroom & Hx).
  destruct (irq_program n xlen s luis mid words ltac:(lia) Hlen Hw Hall) as (prog & -> & HP & F & W). fold N in HP.
  pose proof (seed_len_pos xlen). assert (N = arm_len s + (1 + seed_len xlen + n + 2)) as HNd by done.
  destruct (armed_run prog (Z.of_nat (List.length luis)) (arm_len s - 1) F) with (mem_size := mem_size) (xl := xlen) (mx := max_steps) (fuel := fuel)
    as (m & st0 & R & Bm & Hpc & Hi); try (done || lia).
  { intros j w Hj. rewrite HP. by apply W. }
  exists lines, (prog ++ [DISARM; MRET])%list, k, m, st0. split_and!; try done; try lia.
  intros after cause. destruct (Hi after cause) as (c & Ec & Er). rewrite Er. eexists. split; [f_equal; destruct (after <=? m); lia|].
  split_and!; try done. unfold csr_at. cbn. by rewrite Ec.
Qed.

(** A program with an external interrupt that strikes after its last prefix word. *)
Lemma interrupt_transparent_witness :
  exists lines words k steps st0 st,
    gen_program 16 32 256 (Some "uart") false 32 [3; 1; 4; 1; 5; 9; 2; 6] = Ok (lines, Some (k, 0x8000000B)) /\
    assemble lines 32 = Ok words /\ run 60 words 5000 (init 256 32) = Finished steps st0 /\
    run 60 words 5000 (schedule_interrupt 8 0x8000000B (init 256 32)) = Finished (if 8 <=? steps then steps + 2 else steps) st /\
    regs st = regs st0 /\ mem st = mem st0.
Proof.
  destruct (interrupt_transparent 16 32 256 32 "uart" [3; 1; 4; 1; 5; 9; 2; 6] 5000 60)
    as (lines & words & k & steps & st0 & E & _ & A & R & _ & T).
  - unfold plain_params. lia.
  - lia.
  - lia.
  - apply (bool_decide_unpack _). by vm_compute.
  - reflexivity.
  - by vm_compute.
  - by vm_compute.
  - by vm_compute.
  - destruct (T 8 0x8000000B) as (st & Rt & _ & Hr & Hm & _). exists lines, words, k, steps, st0, st.
    split_and!; [exact E | exact A | exact R | exact Rt | exact Hr | exact Hm].
Defined.

(** The interrupt need not strike: with a jump to the end among the first
    instructions the program is over before [after] steps, here 60. *)
Definition skipping_draws : list Z := (59 :: [76; 0] ++ replicate (59 * 5) 0 ++ [58])%list.
Definition lines_of (r : result (list string * option (Z * Z))) : list string :=
  match r with Ok (lines, _) => lines | Err _ => [] end.
Definition skipping_words : list Z :=
  match assemble (lines_of (gen_program 60 32 512 (Some "uart") false 32 skipping_draws)) 32 with Ok ws => ws | Err _ => [] end.
Definition end_of (o : outcome) : option (Z * option (Z * Z)) :=
  match o with Finished steps st => Some (steps, pending_interrupt st) | _ => None end.

Lemma interrupt_not_taken :
  (exists lines, gen_program 60 32 512 (Some "uart") false 32 skipping_draws = Ok (lines, Some (60, 0x8000000B)) /\
     assemble lines 32 = Ok skipping_words) /\
  end_of (run 100 skipping_words 5000 (schedule_interrupt 60 0x8000000B (init 512 32))) = Some (23, Some (60, 0x8000000B)).
Proof.
  split; [exists (lines_of (gen_program 60 32 512 (Some "uart") false 32 skipping_draws)); split|]; vm_compute; reflexivity.
Qed.

(** A program whose handler stands at address 2048 is generated, and rejected by the
    assembler. *)
Lemma handler_out_of_reach :
  exists lines, gen_program 489 32 4096 (Some "uart") false 32 [] = Ok (lines, Some (1, 0x8000000B)) /\
    assemble lines 32 = Err ValueError.
Proof. exists (lines_of (gen_program 489 32 4096 (Some "uart") false 32 [])). split; vm_compute; reflexivity. Qed.
