(* ===== verification/RandConst.v ===== *)
(** * Building constants

    [const_to_reg_instrs] and [const64_to_reg_instrs]: the instruction lists,
    assembled and executed by the simulator, leave the constant in the register
    and change nothing else. *)

From Stdlib Require Import Ascii String.
From S2P Require Import Prelude Bits Float32 Machine Mmu Exec Raises Forward PyStr Asm Disasm AsmText.
From S2P Require Import Roundtrip AsmLink AsmImage RandGen RandLines RandItems RandLabels.
Open Scope string_scope.
Open Scope Z_scope.

(** ** Lines and the words they assemble to *)

(** A line that assembles to the same word wherever it stands. *)
Definition line_word (xl : Z) (l : string) (w : Z) : Prop :=
  stmt_of l = Some l /\ forall labels a, assemble_stmt labels xl (a, l) = Ok w.

Lemma line_word_ins xl mn args w :
  clean mn -> lower mn = mn -> args <> [] -> Forall clean args ->
  (forall labels a, encode labels xl a mn args = Ok w) -> line_word xl (ins mn args) w.
Proof. intros Hm Hl Ha Hc He. split; [by apply stmt_ins|]. intros labels a. rewrite assemble_ins by done. apply He. Qed.

Lemma line_word_stmts xl lines words : Forall2 (line_word xl) lines words -> omap stmt_of lines = lines.
Proof. induction 1 as [|l w lines words [Hl _] _ IH]; [done|]. cbn [omap list_omap]. rewrite Hl. by f_equal. Qed.

Lemma assemble_lines xl lines words : Forall2 (line_word xl) lines words -> assemble lines xl = Ok words.
Proof.
  intros H. pose proof (line_word_stmts xl lines words H) as Hs.
  destruct (assemble_each lines xl (fun k w => words !! Z.to_nat k = Some w)) as (ws & E & Hl & Hw).
  { rewrite Hs. intros j s Hj. destruct (Forall2_lookup_l _ _ _ _ _ H Hj) as (w & Hw & _ & A).
    exists w. split; [apply A | by rewrite Nat2Z.id]. }
  rewrite E. f_equal. unfold stmts in Hl. rewrite Hs in Hl.
  apply list_eq_same_length with (length words); [done | rewrite <- (Forall2_length _ _ _ H); lia |].
  intros i x y _ Hx Hy. specialize (Hw i x Hx). rewrite Nat2Z.id in Hw. congruence.
Qed.

(** The lines [ls], at register width [xl], take every state to [f] of it. *)
Definition runs (xl : Z) (ls : list string) (f : ISS -> ISS) : Prop :=
  exists words, Forall2 (line_word xl) ls words /\
    forall st, xlen st = xl -> List.length (regs st) = 32%nat ->
      exec_all words st = Ok (f st) /\ xlen (f st) = xl /\ List.length (regs (f st)) = 32%nat.

Lemma runs_app xl a b f g : runs xl a f -> runs xl b g -> runs xl (a ++ b) (fun st => g (f st)).
Proof.
  intros (wa & Fa & Ha) (wb & Fb & Hb). exists (wa ++ wb)%list. split; [by apply Forall2_app|].
  intros st Hx Hl. destruct (Ha st Hx Hl) as (Ea & Xa & La). rewrite exec_all_app, Ea. by apply Hb.
Qed.

Lemma runs_ext xl ls f g :
  runs xl ls f -> (forall st, xlen st = xl -> List.length (regs st) = 32%nat -> f st = g st) -> runs xl ls g.
Proof.
  intros (ws & F & H) E. exists ws. split; [done|]. intros st Hx Hl. rewrite <- E by done. by apply H.
Qed.

(** A register write that goes on [n] bytes further. *)
Definition set_x (rd v n : Z) (st : ISS) : ISS := with_pc (pc st + n) (wr rd v st).

Lemma xlen_wr rd v st : xlen (wr rd v st) = xlen st.
Proof. unfold wr. by case_match. Qed.

Lemma set_x_shape rd v n st : xlen (set_x rd v n st) = xlen st /\ List.length (regs (set_x rd v n st)) = List.length (regs st).
Proof. unfold set_x, wr. case_match; [done|]. simpl. by rewrite length_zset. Qed.

Lemma xlen_set_x rd v n st : xlen (set_x rd v n st) = xlen st.
Proof. apply xlen_wr. Qed.

Lemma set_x_get rd v n st :
  0 < rd < 32 -> List.length (regs st) = 32%nat -> zget (regs (set_x rd v n st)) rd = uxlen st v.
Proof.
  intros Hr Hl. unfold set_x, wr. destruct (Z.eqb_spec rd 0); [lia|]. simpl. apply zget_zset_eq. lia.
Qed.

Lemma set_x_get_ne rd r v n st : 0 <= rd -> 0 <= r -> r <> rd -> zget (regs (set_x rd v n st)) r = zget (regs st) r.
Proof.
  intros Hr H0 Hne. unfold set_x, wr. case_match; [done|]. simpl. by apply zget_zset_ne.
Qed.

(** The last write of a register wins. *)
Lemma set_x_twice rd v v' n n' st : set_x rd v' n' (set_x rd v n st) = set_x rd v' (n + n') st.
Proof.
  unfold set_x, wr. case_match; [by destruct st; unfold with_pc; simpl; rewrite Z.add_assoc|].
  destruct st. unfold with_pc, with_regs, uxlen, zset. simpl. by rewrite list_insert_insert_eq, Z.add_assoc.
Qed.

Lemma set_x_swap r s v w n m st :
  0 <= r -> 0 <= s -> r <> s -> set_x r v n (set_x s w m st) = set_x s w m (set_x r v n st).
Proof.
  intros Hr Hs Hne. unfold set_x, wr.
  destruct (r =? 0), (s =? 0); unfold with_pc, with_regs, uxlen, zset; simpl; f_equal; try lia.
  apply list_insert_insert_ne. lia.
Qed.

(** One instruction. *)
Lemma runs_ins xl mn args w rd (v : ISS -> Z) :
  clean mn -> lower mn = mn -> args <> [] -> Forall clean args ->
  (forall labels a, encode labels xl a mn args = Ok w) ->
  (forall st, xlen st = xl -> step w st = Ok (set_x rd (v st) 4 st)) ->
  runs xl [ins mn args] (fun st => set_x rd (v st) 4 st).
Proof.
  intros Hm Hl Ha Hc He Hs. exists [w]. split.
  - repeat constructor; [by apply stmt_ins|]. intros labels a. rewrite assemble_ins by done. apply He.
  - intros st Hx Hr. destruct (set_x_shape rd (v st) 4 st) as [X L]. cbn [exec_all]. rewrite Hs by done.
    split_and!; [done | congruence | congruence].
Qed.

Ltac instruction w0 :=
  apply (runs_ins _ _ _ w0); [by split | reflexivity | done | cleans
    | intros labels a; encode_operands; reflexivity | intros st Hx].

(** Enters the arm of an opcode. *)
Ltac arm O :=
  unfold step; match goal with |- (if ?w =? 0 then _ else _) = _ => destruct (Z.eqb_spec w 0) as [E|_];
    [rewrite E in O; by vm_compute in O|] end;
  cbv zeta; rewrite O; cbn [Z.eqb Pos.eqb Exec.OP_R Exec.OP_32 Exec.OP_CUSTOM Exec.OP_I Exec.OP_LUI
    Exec.OP_IMM_32 Exec.OP_LOAD Exec.OP_STORE Exec.OP_BRANCH Exec.OP_JAL Exec.OP_JALR].

Section Instrs.
  Context (xl : Z).

Lemma run_lui rd v :
  0 <= rd < 32 -> 0 <= v < 2 ^ 20 ->
  runs xl [ins "lui" [x_name rd; hex v]] (fun st => set_x rd (s32 (v ≪ 12)) 4 st).
Proof.
  intros Hr Hv. pose proof (hex_clean v ltac:(lia)) as Hc. fold (hex v) in Hc.
  instruction ((v ≪ 12) .| (rd ≪ 7) .| 0x37).
  destruct (u_word v rd 0x37) as (O & R & I); try lia. arm O.
  unfold exec_lui. by rewrite R, I.
Qed.

Lemma run_addi rd rs1 imm :
  0 <= rd < 32 -> 0 <= rs1 < 32 -> -2048 <= imm < 2048 ->
  runs xl [ins "addi" [x_name rd; x_name rs1; show_dec imm]]
    (fun st => set_x rd (uxlen st (zget (regs st) rs1 + imm)) 4 st).
Proof.
  intros Hr Hs Hi. instruction ((u (imm mod 2 ^ 12) 12 ≪ 20) .| (rs1 ≪ 15) .| (0 ≪ 12) .| (rd ≪ 7) .| 0x13).
  pose proof (u_range (imm mod 2 ^ 12) 12 ltac:(lia)).
  destruct (i_word (u (imm mod 2 ^ 12) 12) rs1 0 rd 0x13) as (O & R & F & S & _ & I & _); try lia. arm O.
  assert (sext (u (imm mod 2 ^ 12) 12) 12 = imm) as E12.
  { unfold u. rewrite land_ones_mod, Z.mod_mod, sext_signed, signed_of_mod by lia. by apply signed_id. }
  unfold exec_op_imm, alu_imm, reg_A. rewrite R, F, S, I, E12. by cbn [Z.eqb orb rbind].
Qed.

(** The shift amount of a 64-bit shift. *)
Lemma shamt_field w : csr_addr_of w = 32 -> (w ≫ 20) .& 0x3F = 32 /\ ((w ≫ 26) .& 0x3F =? 0x10) = false.
Proof.
  unfold csr_addr_of. intros H. split.
  - revert H. fields.
  - apply Z.eqb_neq. revert H. fields_norm. dlia.
Qed.

Lemma run_slli32 rd :
  xl = 64 -> 0 <= rd < 32 ->
  runs xl [ins "slli" [x_name rd; x_name rd; "32"]]
    (fun st => set_x rd (uxlen st (zget (regs st) rd ≪ 32)) 4 st).
Proof.
  intros -> Hr. change "32" with (show_dec 32). instruction ((32 ≪ 20) .| (rd ≪ 15) .| (1 ≪ 12) .| (rd ≪ 7) .| 0x13).
  destruct (i_word 32 rd 1 rd 0x13) as (O & R & F & S & _ & _ & C); try lia.
  destruct (shamt_field _ C) as [C1 C2]. arm O.
  unfold exec_op_imm, alu_imm, reg_A. rewrite R, F, S, C1, Hx. unfold uxlen. by rewrite Hx.
Qed.

Lemma run_srli32 rd :
  xl = 64 -> 0 <= rd < 32 ->
  runs xl [ins "srli" [x_name rd; x_name rd; "32"]]
    (fun st => set_x rd (uxlen st (zget (regs st) rd) ≫ 32) 4 st).
Proof.
  intros -> Hr. change "32" with (show_dec 32). instruction ((32 ≪ 20) .| (rd ≪ 15) .| (5 ≪ 12) .| (rd ≪ 7) .| 0x13).
  destruct (i_word 32 rd 5 rd 0x13) as (O & R & F & S & _ & _ & C); try lia.
  destruct (shamt_field _ C) as [C1 C2]. arm O.
  unfold exec_op_imm, alu_imm, reg_A. rewrite R, F, S, C1, C2, Hx. unfold uxlen. by rewrite Hx.
Qed.

Lemma run_or rd rs2 :
  0 <= rd < 32 -> 0 <= rs2 < 32 ->
  runs xl [ins "or" [x_name rd; x_name rd; x_name rs2]]
    (fun st => set_x rd (uxlen st (zget (regs st) rd .| zget (regs st) rs2)) 4 st).
Proof.
  intros Hr Hs. instruction ((0 ≪ 25) .| (rs2 ≪ 20) .| (rd ≪ 15) .| (6 ≪ 12) .| (rd ≪ 7) .| 0x33).
  destruct (r_word 0 rs2 rd 6 rd 0x33) as (O & R & F & S1 & S2 & F7); try lia. arm O.
  unfold exec_op, alu_base, reg_A, reg_B. cbv zeta. rewrite R, F, S1, S2, F7. done.
Qed.

End Instrs.

(** ** The constants *)

Lemma set_x_eq rd v v' n st : uxlen st v = uxlen st v' -> set_x rd v n st = set_x rd v' n st.
Proof. intros E. unfold set_x, wr. by rewrite E. Qed.

Lemma const_value_mod bits : 0 <= bits < 2 ^ 32 -> const_value bits mod 2 ^ 32 = bits.
Proof.
  intros. unfold const_value. rewrite s32_cases by done. repeat case_match; py_bool; dlia.
Qed.

Lemma uxlen_add st a b : 0 <= xlen st -> uxlen st (uxlen st a + b) = uxlen st (a + b).
Proof. intros. unfold uxlen. by rewrite !uXLEN_mod, Zplus_mod_idemp_l. Qed.
Lemma uxlen_idem st a : 0 <= xlen st -> uxlen st (uxlen st a) = uxlen st a.
Proof. intros. unfold uxlen. by rewrite !uXLEN_mod, Zmod_mod. Qed.

Section Consts.
  Context (xl : Z).

Lemma run_const rd bits :
  0 <= xl -> 0 < rd < 32 -> 0 <= bits < 2 ^ 32 ->
  runs xl (const_to_reg_instrs rd bits)
    (set_x rd (const_value bits) (4 * Z.of_nat (List.length (const_to_reg_instrs rd bits)))).
Proof.
  intros Hxl Hr Hb. destruct (const_shape rd bits Hb) as (hi & lo & Hh & Hl & V & ->).
  pose proof (run_lui xl rd hi ltac:(lia) Hh) as R1. destruct (Z.eqb_spec lo 0) as [->|].
  - rewrite Z.add_0_r in V. by rewrite V in R1.
  - pose proof (runs_app _ _ _ _ _ R1 (run_addi xl rd rd lo ltac:(lia) ltac:(lia) Hl)) as R2.
    eapply runs_ext; [exact R2|]. intros st Hx Hlen. cbv beta.
    rewrite set_x_twice, set_x_get by (done || lia).
    destruct (set_x_shape rd (s32 (hi ≪ 12)) 4 st) as [X _].
    unfold uxlen at 1. rewrite X. change (uXLEN ?v (xlen st)) with (uxlen st v).
    apply set_x_eq. rewrite uxlen_add, uxlen_idem, V by lia. done.
Qed.

(** The steps of the 64-bit sequence on the value of one register. *)
Lemma run_const_shift rd bits :
  xl = 64 -> 0 < rd < 32 -> 0 <= bits < 2 ^ 32 ->
  runs xl (const_to_reg_instrs rd bits ++ [ins "slli" [x_name rd; x_name rd; "32"]])
    (set_x rd (bits * 2 ^ 32) (4 * Z.of_nat (List.length (const_to_reg_instrs rd bits)) + 4)).
Proof.
  intros Hxl Hr Hb. pose proof (runs_app _ _ _ _ _ (run_const rd bits ltac:(lia) Hr Hb)
    (run_slli32 xl rd Hxl ltac:(lia))) as R.
  eapply runs_ext; [exact R|]. intros st Hx Hlen. cbv beta. rewrite set_x_get, set_x_twice by done.
  apply set_x_eq. pose proof (const_value_mod bits Hb). unfold uxlen.
  rewrite (proj1 (set_x_shape _ _ _ _)), Hx, Hxl, !uXLEN_mod by lia.
  rewrite Z.shiftl_mul_pow2 by lia. dlia.
Qed.

Lemma run_const_low rd bits :
  xl = 64 -> 0 < rd < 32 -> 0 <= bits < 2 ^ 32 ->
  runs xl (const_to_reg_instrs rd bits ++
           [ins "slli" [x_name rd; x_name rd; "32"]; ins "srli" [x_name rd; x_name rd; "32"]])
    (set_x rd bits (4 * Z.of_nat (List.length (const_to_reg_instrs rd bits)) + 8)).
Proof.
  intros Hxl Hr Hb. pose proof (runs_app _ _ _ _ _ (run_const_shift rd bits Hxl Hr Hb)
    (run_srli32 xl rd Hxl ltac:(lia))) as R.
  rewrite <- app_assoc in R. eapply runs_ext; [exact R|]. intros st Hx Hlen. cbv beta.
  rewrite set_x_get, set_x_twice by done. rewrite <- Z.add_assoc. apply set_x_eq. unfold uxlen.
  rewrite (proj1 (set_x_shape _ _ _ _)), Hx, Hxl, !uXLEN_mod by lia.
  rewrite Z.shiftr_div_pow2 by lia. dlia.
Qed.

Lemma set_x_after rd v n s w m st : set_x rd v n (set_x s w m st) = set_x rd v (m + n) (wr s w st).
Proof.
  unfold set_x. destruct st. unfold wr, with_pc, with_regs, uxlen. simpl. by repeat case_match; simpl; rewrite Z.add_assoc.
Qed.

Lemma run_const64 rd scratch bits64 :
  xl = 64 -> 0 < rd < 32 -> 0 < scratch < 32 -> rd <> scratch -> 0 <= bits64 < 2 ^ 64 ->
  runs xl (const64_to_reg_instrs rd scratch bits64)
    (fun st => set_x rd bits64 (4 * Z.of_nat (List.length (const64_to_reg_instrs rd scratch bits64)))
                 (wr scratch (bits64 .& 0xFFFFFFFF) st)).
Proof.
  intros Hxl Hr Hs Hne Hb. unfold const64_to_reg_instrs. cbv zeta.
  rewrite (land_lit _ 0xFFFFFFFF 32), (land_lit _ 0xFFFFFFFF 32), Z.shiftr_div_pow2 by done.
  assert (0 <= bits64 / 2 ^ 32 < 2 ^ 32) as Hh by dlia. rewrite (Z.mod_small (_ / _)) by done.
  assert (0 <= bits64 mod 2 ^ 32 < 2 ^ 32) as Hl by dlia.
  assert (bits64 = bits64 / 2 ^ 32 * 2 ^ 32 + bits64 mod 2 ^ 32) as D by dlia.
  generalize dependent (bits64 mod 2 ^ 32). generalize dependent (bits64 / 2 ^ 32). intros hi Hh lo Hl D.
  pose proof (runs_app _ _ _ _ _ (run_const_low scratch lo Hxl Hs Hl)
    (run_or xl rd scratch ltac:(lia) ltac:(lia))) as R.
  apply (runs_app _ _ _ _ _ (run_const_shift rd hi Hxl Hr Hh)) in R.
  rewrite <- !app_assoc in R. cbn [app] in R. eapply runs_ext; [exact R|]. intros st Hx Hlen. cbv beta. clear R.
  destruct (set_x_shape rd (hi * 2 ^ 32) (4 * Z.of_nat (List.length (const_to_reg_instrs rd hi)) + 4) st) as [X L].
  rewrite set_x_get_ne, !set_x_get by (done || lia || congruence).
  rewrite (set_x_swap rd scratch), set_x_twice, (set_x_swap scratch rd), set_x_after by lia.
  rewrite !length_app. cbn [List.length].
  match goal with |- set_x _ _ ?n _ = set_x _ _ ?m _ => replace n with m by lia end.
  apply set_x_eq. unfold uxlen. rewrite ?xlen_set_x, ?xlen_wr, Hx, Hxl. repeat rewrite uXLEN_mod by lia.
  subst bits64.
  rewrite (Z.mod_small (hi * 2 ^ 32)), (Z.mod_small lo) by lia.
  rewrite (lor_low 32); [by rewrite Zmod_mod | lia | dlia | lia].
Qed.
End Consts.

Lemma sext32_s32 v : sext32 v = s32 v.
Proof.
  unfold sext32. cbv zeta. rewrite (land_lit _ 0xFFFFFFFF 32) by done.
  change 0x80000000 with (1 ≪ (32 - 1)). rewrite (sign_bit v 32), s32_signed, signed_unfold by done.
  by destruct (_ <? _).
Qed.

(** The module's own replay of the sequence never fails. *)
Lemma self_check_passes bits64 : 0 <= bits64 < 2 ^ 64 -> self_check_const64 bits64 = Ok tt.
Proof.
  intros Hb. unfold self_check_const64. cbv zeta. rewrite !sext32_s32.
  rewrite !(land_lit _ ((1 ≪ 64) - 1) 64), (land_lit _ 0xFFFFFFFF 32), (land_lit _ 0xFFFFFFFF 32) by done.
  rewrite !Z.shiftl_mul_pow2, !Z.shiftr_div_pow2 by lia.
  assert (forall v, (s32 v mod 2 ^ 64 * 2 ^ 32) mod 2 ^ 64 = v mod 2 ^ 32 * 2 ^ 32) as S.
  { intros v. pose proof (signed_mod v 32 ltac:(lia)) as M. rewrite <- s32_signed in M. dlia. }
  rewrite !S, Z.div_mul, (lor_low 32) by (done || dlia).
  match goal with |- (if ?a =? ?b then _ else _) = _ => destruct (Z.eqb_spec a b) as [|N]; [done | destruct N] end.
  dlia.
Qed.

(** C38: the instructions of [const_to_reg_instrs] and [const64_to_reg_instrs],
    assembled and executed, change nothing but the destination (and, for 64
    bits, the scratch register, which keeps the low half) and the program
    counter.  The 64-bit sequence leaves exactly the constant.  The 32-bit one
    leaves it sign-extended, except at XLEN 64 for [0x7FFFF800..0x7FFFFFFF],
    where the [lui] half is negative and the register gets the constant less
    [2^32]; the 64-bit sequence shifts that difference out. *)
Theorem constants_built rd scratch bits bits64 st :
  0 < rd < 32 -> 0 < scratch < 32 -> rd <> scratch -> List.length (regs st) = 32%nat ->
  0 <= xlen st -> 0 <= bits < 2 ^ 32 -> 0 <= bits64 < 2 ^ 64 ->
  (exists words,
     assemble (const_to_reg_instrs rd bits) (xlen st) = Ok words /\
     exec_all words st =
       Ok (with_pc (pc st + 4 * Z.of_nat (List.length words))
             (wr rd (if (0x7FFFF800 <=? bits) && (bits <? 2 ^ 31) then bits - 2 ^ 32 else s32 bits) st))) /\
  (xlen st = 64 ->
   exists words,
     assemble (const64_to_reg_instrs rd scratch bits64) 64 = Ok words /\
     exec_all words st =
       Ok (with_pc (pc st + 4 * Z.of_nat (List.length words))
             (wr rd bits64 (wr scratch (bits64 .& 0xFFFFFFFF) st)))) /\
  self_check_const64 bits64 = Ok tt.
Proof.
  intros Hr Hs Hne Hl Hx Hb Hb64. split_and!; [| |by apply self_check_passes].
  - destruct (run_const (xlen st) rd bits Hx Hr Hb) as (words & F & R). exists words.
    split; [by apply assemble_lines|]. rewrite <- (Forall2_length _ _ _ F). by apply R.
  - intros X. destruct (run_const64 64 rd scratch bits64 eq_refl Hr Hs Hne Hb64) as (words & F & R). exists words.
    split; [by apply assemble_lines|]. rewrite <- (Forall2_length _ _ _ F).
    destruct (R st X Hl) as (E & _). rewrite E. unfold set_x.
    assert (forall r v s, pc (wr r v s) = pc s) as -> by (intros; unfold wr; by case_match). done.
Qed.

Lemma constants_built_witness :
  (exists words,
     assemble (const_to_reg_instrs 29 0x7FFFFFFF) 64 = Ok words /\
     exec_all words (init 64 64) =
       Ok (with_pc (4 * Z.of_nat (List.length words)) (wr 29 (0x7FFFFFFF - 2 ^ 32) (init 64 64)))) /\
  exists words,
    assemble (const64_to_reg_instrs 29 30 0xDEADBEEF12345678) 64 = Ok words /\
    exec_all words (init 64 64) =
      Ok (with_pc (4 * Z.of_nat (List.length words))
            (wr 29 0xDEADBEEF12345678 (wr 30 0x12345678 (init 64 64)))).
Proof.
  destruct (constants_built 29 30 0x7FFFFFFF 0xDEADBEEF12345678 (init 64 64) ltac:(lia) ltac:(lia) ltac:(lia)
    eq_refl ltac:(by vm_compute) ltac:(lia) ltac:(lia)) as (A & B & _).
  split; [exact A | exact (B eq_refl)].
Defined.
