(* ===== verification/RandTranslated.v ===== *)
(** * Generated programs behind a page table

    The translated mode of [gen_program]: its prefix builds the page tables in
    M-mode and enters the program in U-mode, and the program then runs as it would
    without translation, without a fault. *)

From Stdlib Require Import Ascii String.
From S2P Require Import Prelude Bits Float32 Machine Mmu Exec Run Csr Privilege PageTable Reach Raises Memory Forward Interrupted Translated.
From S2P Require Import PyStr Asm Disasm PyText AsmText Roundtrip AsmLink AsmImage RandGen RandLines RandItems RandLabels RandRun.
From S2P Require Import RandProgram RandConst RandInterrupt.
Open Scope string_scope.
Open Scope Z_scope.

(** ** The words of the prefix *)

(** What stands before the [mret], in the pieces between two stores. *)
Definition sv32_pde : list Z := [0xB7; 0x40108093].
Definition sv32_pte : list Z := [0x11B7; 0x137; 0x01F10113].
Definition sv32_satp : list Z := [0x0FF0000F; 0x800000B7; 0x18009073; 0x03400093; 0x34109073].
Definition sv32_words : list Z := (sv32_pde ++ [0x00102023] ++ sv32_pte ++ [0x0021A023] ++ sv32_satp)%list.

Definition sv39_pde1 : list Z := [0x1237; 0x1137; 0x80110113].
Definition sv39_pte : list Z := [0x22B7; 0x1B7; 0x01F18193].
Definition sv39_satp : list Z :=
  [0x0FF0000F; 0x800000B7; 0x02009093; 0x337; 0x02031313; 0x02035313; 0x0060E0B3; 0x18009073; 0x05800093; 0x34109073].
Definition sv39_words : list Z :=
  (sv32_pde ++ [0x00102023] ++ sv39_pde1 ++ [0x00222023] ++ sv39_pte ++ [0x0032A023] ++ sv39_satp)%list.

Definition mmu_words (xl : Z) : list Z := if 64 <=? xl then sv39_words else sv32_words.
Definition mmu_len (xl : Z) : Z := if 64 <=? xl then 22 else 13.

Lemma mmu_prefix_words xl : xl = 32 \/ xl = 64 -> Forall2 (line_word xl) (mmu_prefix xl) (mmu_words xl ++ [MRET]).
Proof.
  intros [-> | ->].
  all: match goal with |- Forall2 _ ?ls ?ws => let l := eval vm_compute in ls in let w := eval vm_compute in ws in change (Forall2 (line_word 32) l w) || change (Forall2 (line_word 64) l w) end.
  all: repeat (apply Forall2_cons; split; [split; [reflexivity | intros; reflexivity]|]); apply Forall2_nil; done.
Qed.

(** ** Executing the prefix *)

Lemma put_le_mem addr v n st : put_le addr v n st = with_mem (mem (put_le addr v n st)) st.
Proof.
  induction n as [|n IH]; [by destruct st|]. rewrite put_le_S, IH. cbn. unfold store_mem_byte. by destruct (_ <=? _), st.
Qed.

Lemma sw_step w st :
  op_of w = 0x23 -> f3_of w = 2 -> priv_mode st = PRIV_M ->
  step w st = Ok (with_pc (pc st + 4) (put_le (uxlen st (reg_A st w + imm_s_of w)) (reg_B st w) 4 st)).
Proof.
  intros O F HM. unfold step. destruct (Z.eqb_spec w 0) as [->|_]; [done|]. cbv zeta. rewrite O.
  change (exec_store w st = Ok (with_pc (pc st + 4) (put_le (uxlen st (reg_A st w + imm_s_of w)) (reg_B st w) 4 st))).
  unfold exec_store. rewrite translate_M, F, uxlen_uxlen by done. done.
Qed.

(** A machine of the prefix, with its first registers. *)
Definition file (xs : list Z) : list Z := (0 :: xs ++ replicate (31 - List.length xs) 0)%list.
Definition csr0 : gmap Z Z := csr (init 0 32).
Definition mach (xl : Z) (r m : list Z) (mask p : Z) : ISS := mkISS xl r m mask p false csr0 PRIV_M (replicate 32 0) 0 0 None.

Lemma exec_sv32_pde x y z m k : exec_all sv32_pde (mach 32 (file [x; y; z]) m k 0) = Ok (mach 32 (file [0x401; y; z]) m k 8).
Proof. vm_compute. reflexivity. Qed.
Lemma exec_sv32_pte x y z m k : exec_all sv32_pte (mach 32 (file [x; y; z]) m k 12) = Ok (mach 32 (file [x; 0x1F; 0x1000]) m k 24).
Proof. vm_compute. reflexivity. Qed.

Lemma exec_sv32_satp x y z m k :
  exists st, exec_all (sv32_satp ++ [MRET]) (mach 32 (file [x; y; z]) m k 28) = Ok st /\
    xlen st = 32 /\ mem st = m /\ mem_mask st = k /\ pc st = 52 /\ priv_mode st = PRIV_U /\ pending_interrupt st = None /\
    csr_at st CSR_SATP = 0x80000000 /\ csr_at st CSR_MCAUSE = 0.
Proof. eexists. split; [vm_compute; reflexivity|]. split_and!; vm_compute; reflexivity. Qed.

(** What a prefix leaves: U-mode at the first word of the program, behind flat
    tables. *)
Definition entered (xl p : Z) (st : ISS) : Prop :=
  xlen st = xl /\ mem_mask st = 2 ^ p - 1 /\ pc st = 4 * mmu_len xl /\ priv_mode st = PRIV_U /\ pending_interrupt st = None /\
  csr_at st CSR_MCAUSE = 0 /\ flat st.

Lemma sv32_entered p :
  13 <= p <= 28 -> exists st, exec_all (sv32_words ++ [MRET]) (init (2 ^ p) 32) = Ok st /\ entered 32 p st.
Proof.
  intros Hp. assert (2 ^ 13 <= 2 ^ p <= 2 ^ 28) by (split; apply Z.pow_le_mono_r; lia).
  pose proof (wf_init (2 ^ p) 32 ltac:(by left) ltac:(lia)) as W0.
  set (m0 := replicate (Z.to_nat (2 ^ p)) 0). set (k := 2 ^ p - 1).
  unfold sv32_words. rewrite <- !app_assoc, exec_all_app.
  change (init (2 ^ p) 32) with (mach 32 (file [0; (2 ^ p); 0]) m0 k 0) in *. rewrite exec_sv32_pde. cbn [rbind].
  rewrite exec_all_app. cbn [exec_all]. rewrite sw_step by done. cbn [rbind].
  set (s1 := mach 32 (file [0x401; (2 ^ p); 0]) m0 k 8) in *.
  assert (wf s1) as W1 by (eapply wf_exec_all; [exact W0 | apply exec_sv32_pde]).
  change (uxlen s1 (reg_A s1 0x102023 + imm_s_of 0x102023)) with 0. change (reg_B s1 0x102023) with 0x401.
  assert (get_le (put_le 0 0x401 4 s1) 0 4 = 0x401) as G1.
  { rewrite get_put_le; [done | done |]. apply (iss_separate _ _ _ p); (done || lia). }
  pose proof (wf_store_le 0 0x401 4 s1 W1) as W2. rewrite store_le_put in W2. rewrite put_le_mem in G1, W2 |- *. set (m1 := mem (put_le 0 0x401 4 s1)) in *.
  rewrite exec_all_app. change (with_pc _ (with_mem m1 s1)) with (mach 32 (file [0x401; (2 ^ p); 0]) m1 k 12).
  rewrite exec_sv32_pte. cbn [rbind exec_all app]. rewrite sw_step by done. cbn [rbind].
  set (s2 := mach 32 (file [0x401; 0x1F; 0x1000]) m1 k 24) in *.
  change (uxlen s2 (reg_A s2 0x21A023 + imm_s_of 0x21A023)) with 0x1000. change (reg_B s2 0x21A023) with 0x1F.
  assert (wf s2) as W3.
  { eapply wf_exec_all; [|apply (exec_sv32_pte 0x401 (2 ^ p) 0 m1 k)]. by apply (wf_with_pc (with_mem m1 s1) 12). }
  assert (get_le (put_le 0x1000 0x1F 4 s2) 0x1000 4 = 0x1F) as G2.
  { rewrite get_put_le; [done | done |]. apply (iss_separate _ _ _ p); (done || unfold MMIO_BASE; lia). }
  assert (get_le (put_le 0x1000 0x1F 4 s2) 0 4 = 0x401) as G3.
  { rewrite (get_put_frame _ _ _ _ _ _ p) by (done || lia). exact G1. }
  rewrite put_le_mem in G2, G3 |- *. set (m2 := mem (put_le 0x1000 0x1F 4 s2)) in *.
  change (with_pc _ (with_mem m2 s2)) with (mach 32 (file [0x401; 0x1F; 0x1000]) m2 k 28).
  destruct (exec_sv32_satp 0x401 0x1F 0x1000 m2 k) as (st & E & X & M & K & P & U & I & S & C). exists st. split; [exact E|].
  split_and!; try done. unfold flat. rewrite X. cbn [Z.eqb Pos.eqb]. split; [done|].
  rewrite !(get_le_mem (with_mem m2 s2) st) by done. done.
Qed.

Lemma exec_sv39_pde2 y m k : exec_all sv32_pde (mach 64 (file [0; y; 0; 0; 0; 0]) m k 0) = Ok (mach 64 (file [0x401; y; 0; 0; 0; 0]) m k 8).
Proof. vm_compute. reflexivity. Qed.
Lemma exec_sv39_pde1 x y m k :
  exec_all sv39_pde1 (mach 64 (file [x; y; 0; 0; 0; 0]) m k 12) = Ok (mach 64 (file [x; 0x801; 0; 0x1000; 0; 0]) m k 24).
Proof. vm_compute. reflexivity. Qed.
Lemma exec_sv39_pte x y t m k :
  exec_all sv39_pte (mach 64 (file [x; y; 0; t; 0; 0]) m k 28) = Ok (mach 64 (file [x; y; 0x1F; t; 0x2000; 0]) m k 40).
Proof. vm_compute. reflexivity. Qed.

(** [satp] keeps the low half of the number, which is zero. *)
Lemma exec_sv39_satp x y z t v m k :
  exists st, exec_all (sv39_satp ++ [MRET]) (mach 64 (file [x; y; z; t; v; 0]) m k 44) = Ok st /\
    xlen st = 64 /\ mem_mask st = k /\ pc st = 88 /\ priv_mode st = PRIV_U /\ pending_interrupt st = None /\
    csr_at st CSR_SATP = 0 /\ csr_at st CSR_MCAUSE = 0.
Proof. eexists. split; [vm_compute; reflexivity|]. split_and!; vm_compute; reflexivity. Qed.

Lemma sw_mach w r m k p :
  op_of w = 0x23 -> f3_of w = 2 -> exists m', step w (mach 64 r m k p) = Ok (mach 64 r m' k (p + 4)).
Proof. intros O F. rewrite sw_step, put_le_mem by done. by eexists. Qed.

Lemma sv39_entered p :
  13 <= p <= 28 -> exists st, exec_all (sv39_words ++ [MRET]) (init (2 ^ p) 64) = Ok st /\ entered 64 p st.
Proof.
  intros Hp. change (init (2 ^ p) 64) with (mach 64 (file [0; 2 ^ p; 0; 0; 0; 0]) (replicate (Z.to_nat (2 ^ p)) 0) (2 ^ p - 1) 0).
  generalize (replicate (Z.to_nat (2 ^ p)) 0). intros m0.
  unfold sv39_words. rewrite <- !app_assoc, exec_all_app, exec_sv39_pde2. cbn [rbind]. rewrite exec_all_app. cbn [exec_all].
  edestruct (sw_mach 0x102023) as [m1 ->]; try reflexivity. cbn [rbind]. rewrite exec_all_app, exec_sv39_pde1. cbn [rbind].
  rewrite exec_all_app. cbn [exec_all]. edestruct (sw_mach 0x222023) as [m2 ->]; try reflexivity. cbn [rbind].
  rewrite exec_all_app, exec_sv39_pte. cbn [rbind]. rewrite exec_all_app. cbn [exec_all].
  edestruct (sw_mach 0x32A023) as [m3 ->]; try reflexivity. cbn [rbind].
  edestruct exec_sv39_satp as (st & E & X & M & P & U & I & S & C). exists st. split; [exact E|].
  split_and!; [exact X | exact M | exact P | exact U | exact I | exact C |]. unfold flat. rewrite X. exact S.
Qed.

Lemma mmu_entered xl p :
  xl = 32 \/ xl = 64 -> 13 <= p <= 28 ->
  exists st, exec_all (mmu_words xl ++ [MRET]) (init (2 ^ p) xl) = Ok st /\ entered xl p st.
Proof. intros [-> | ->] Hp; [by apply sv32_entered | by apply sv39_entered]. Qed.

(** ** The words of the program *)

Section Words.
  Context (n_instrs base_addr mem_size xlen : Z).
  Context (Hn : 0 <= n_instrs <= 1023) (Hb : 0 <= base_addr < 2048) (Hx : xlen = 32 \/ xlen = 64).
  Local Abbreviation lim := (addr_space mem_size true).
  Local Abbreviation start := (mmu_len xlen).
  Local Abbreviation N := (mmu_len xlen + program_len n_instrs xlen).
  Local Abbreviation pre := (mmu_prefix xlen ++ prefix base_addr xlen)%list.

Definition mmu_word (k w : Z) : Prop :=
  (k < start -> (mmu_words xlen ++ [MRET])%list !! Z.to_nat k = Some w) /\
  (k = start -> sets_base base_addr w) /\
  (start <= k < N - 1 -> goes_forward N k w /\ unprivileged w) /\
  (start < k -> dest w <> 31 /\ stays base_addr lim w) /\
  (k = N - 1 -> self_loop w = true).

Lemma mmu_size : Z.of_nat (List.length (mmu_words xlen ++ [MRET])) = start /\ List.length (mmu_prefix xlen) = Z.to_nat start.
Proof. rewrite (Forall2_length _ _ _ (mmu_prefix_words xlen Hx)). by destruct Hx as [-> | ->]. Qed.

Lemma mmu_stmts : omap stmt_of pre = pre /\ stmts pre = start + 1 + seed_len xlen.
Proof.
  destruct (prefix_stmts base_addr mem_size None true xlen Hb) as [Ep Es]. destruct mmu_size as [_ Hl].
  pose proof (line_word_stmts _ _ _ (mmu_prefix_words xlen Hx)) as Em.
  split; [by rewrite omap_app, Em, Ep|]. rewrite stmts_app, Es. unfold stmts. rewrite Em, Hl.
  destruct Hx as [-> | ->]; unfold mmu_len; cbn; lia.
Qed.

Lemma mmu_assembles items body labels :
  Z.of_nat (List.length items) = n_instrs -> Forall (item_ok base_addr mem_size None true xlen) items ->
  laid_out (Z.of_nat (List.length items)) 1 items ∅ body labels ->
  exists words, assemble (pre ++ body ++ label_line (Z.of_nat (List.length items)) labels ++ tail ++ []) xlen = Ok words /\
    Z.of_nat (List.length words) = N /\ forall k w, words !! k = Some w -> mmu_word (Z.of_nat k) w.
Proof.
  intros Hcount Hok HL. destruct mmu_stmts as [Ep Es]. destruct mmu_size as [Hs Hl]. pose proof (seed_len_pos xlen).
  assert (program_len n_instrs xlen = 1 + seed_len xlen + n_instrs + 2) as PL by done.
  assert (forall w, csr_ok None true w -> unprivileged w) as Un by (intros w C O; by apply (C O)).
  destruct (layout_words base_addr mem_size None true xlen pre [] body items labels HL Hok ltac:(done) mmu_word)
    as (words & E & Hw & Hall).
  - lia.
  - intros j l. rewrite Ep. intros [Hj|[Hj' Hj]]%lookup_app_Some.
    + pose proof (lookup_lt_Some _ _ _ Hj) as Hlt. destruct (Forall2_lookup_l _ _ _ _ _ (mmu_prefix_words xlen Hx) Hj) as (w & Hw & _ & A).
      exists w. split; [apply A|]. unfold mmu_word. split_and!; [by rewrite Nat2Z.id | lia | lia | lia | lia].
    + pose proof (lookup_lt_Some _ _ _ Hj) as Hlt.
      assert (Z.of_nat (List.length (prefix base_addr xlen)) = 1 + seed_len xlen) as Lp
        by (unfold prefix; cbn [List.length]; rewrite <- seed_length; lia).
      edestruct (prefix_word base_addr mem_size None true xlen Hb) as (w & Ew & G); [exact Hj|]. exists w. split; [exact Ew|].
      unfold mmu_word. case_decide as D.
      * split_and!; [lia | done | | lia | lia]. intros _. pose proof (sets_base_straight _ _ G) as S. split; [by apply fwd_straight|].
        intros O. destruct G as (O' & _). by rewrite O in O'.
      * destruct G as (S & Dw & A & C). split_and!; [lia | lia | | done | lia]. intros _. split; [by apply fwd_straight | by apply Un].
  - intros k w Hk (G & D & S & C). unfold mmu_word. rewrite Es, Hcount in *.
    replace (start + 1 + seed_len xlen + n_instrs + 2) with N in G by lia.
    split_and!; [lia | lia | | done | lia]. intros _. split; [done | by apply Un].
  - rewrite Es, Hcount. unfold mmu_word. split_and!; [lia | lia | | by split | lia]. intros _. split; [by apply fwd_straight | done].
  - rewrite Es, Hcount. unfold mmu_word. split_and!; [lia | lia | lia | by split | done].
  - intros j l Hj. done.
  - exists words. split_and!; [exact E | | done]. rewrite Hw, Es, Hcount. change (stmts []) with 0. lia.
Qed.
End Words.

(** ** The run with and without translation *)

Section Lockstep.
  Context (n base mem_size xl p : Z) (words : list Z).
  Local Abbreviation start := (mmu_len xl).
  Local Abbreviation N := (mmu_len xl + program_len n xl).
  Context (Hx : xl = 32 \/ xl = 64) (Hp : 13 <= p <= 28) (Hb : 4 <= base < 2048).
  Context (Hlen : Z.of_nat (List.length words) = N) (HN : N <= 1024).
  Context (Hw : forall k w, words !! k = Some w -> mmu_word n base mem_size xl (Z.of_nat k) w).

(** At word [k] of the program, without translation. *)
Definition inside (k : Z) (st : ISS) : Prop :=
  at_word words k st /\ start <= k /\ wf st /\ xlen st = xl /\ mem_mask st = 2 ^ p - 1 /\ flat st /\
  (start < k -> zget (regs st) 31 = base).

Lemma inside_word k st : inside k st -> mmu_word n base mem_size xl k (zget words k).
Proof.
  intros ((_ & B & _) & _). destruct (lookup_lt_is_Some_2 words (Z.to_nat k)) as [w H]; [lia|].
  specialize (Hw _ _ H). rewrite Z2Nat.id in Hw by lia. by replace (zget words k) with w by (unfold zget; by rewrite H).
Qed.

Lemma inside_mapped k st va : inside k st -> 0 <= va < 4096 -> mapped (user st) va.
Proof. intros (_ & _ & _ & X & _ & F & _). apply flat_mapped; [done | by rewrite X]. Qed.

(** The accesses stay in the page and off the tables. *)
Lemma inside_access k st off width :
  inside k st -> access_of (zget words k) = Some (off, width) ->
  let addr := uxlen st (reg_A st (zget words k) + off) in 4 <= addr /\ 0 < width /\ addr + width <= 4096.
Proof.
  intros I A addr. pose proof (inside_word k st I) as (_ & W0 & _ & Ws & _).
  pose proof I as (At & Hk & W & X & _ & _ & Hbase).
  assert (0 < width) by (unfold access_of in A; repeat case_match; simplify_eq; try lia;
    apply pow2_pos; pose proof (Z.mod_pos_bound (f3_of (zget words k)) 4); lia).
  destruct (decide (k = start)) as [E|Ne].
  { destruct (W0 E) as (O & _). unfold access_of in A. by rewrite O in A. }
  destruct (Ws ltac:(lia)) as [_ S]. unfold stays in S. rewrite A in S. destruct S as (R & B1 & B2 & _).
  unfold addr_space in B2. unfold addr, reg_A. rewrite R, Hbase by lia.
  rewrite uxlen_small by (rewrite X; destruct Hx as [-> | ->]; lia). split_and!; lia.
Qed.

Lemma inside_step k st :
  inside k st -> k < N - 1 ->
  exists st' k', step (zget words k) st = Ok st' /\ step (zget words k) (user st) = Ok (user st') /\ inside k' st' /\ k < k' /\
    csr st' = csr st.
Proof.
  intros I Hk. pose proof (inside_word k st I) as (_ & W0 & G & Ws & _). pose proof I as (At & Hs & W & X & M & F & Hbase).
  destruct (G ltac:(lia)) as [Gk U]. pose proof At as (_ & _ & _ & _ & HM & _).
  destruct (forward_step words k (zget words k) st At ltac:(lia)) as (st' & k' & E & At' & Hk' & D); [by rewrite Hlen|].
  assert (spares (zget words k) st) as Sp by (intros off width A; destruct (inside_access k st off width I A) as (? & ? & ?); done).
  destruct (flat_step N k _ st st' p W Gk U HM M Hp Sp F E) as (F' & C & M').
  exists st', k'. split; [done|]. split.
  { rewrite (user_step N k) by (done || (intros off width A; destruct (inside_access k st off width I A) as (? & ? & ?);
      apply (inside_mapped k st); [done | change (uxlen (user st)) with (uxlen st); change (reg_A (user st)) with (reg_A st); lia])).
    by rewrite E. }
  split; [|done]. split; [done|]. split; [lia|]. split; [by eapply wf_step|]. split; [rewrite <- X; by eapply step_xlen|].
  split; [congruence|]. split; [done|]. intros _. destruct (decide (k = start)) as [Es|Ne].
  - eapply (sets_step 31 base); [by apply W0 | lia | lia | by rewrite X | apply W | apply W | exact E].
  - destruct (Ws ltac:(lia)) as [Dw _]. rewrite D by done. apply Hbase. lia.
Qed.

(** The two runs are the same but for the mode. *)
Lemma lockstep (d : nat) : forall k st mx steps fuel,
  inside k st -> N - k <= Z.of_nat d -> steps + Z.of_nat d <= mx -> (d <= fuel)%nat ->
  exists m st', run_loop fuel words mx steps st = Finished m st' /\
    run_loop fuel words mx steps (user st) = Finished m (user st') /\
    steps <= m < steps + Z.of_nat d /\ pc st' = 4 * (N - 1) /\ priv_mode st' = PRIV_M /\ csr st' = csr st.
Proof.
  induction d as [|d IH]; intros k st mx steps fuel I Hd Hm Hf; pose proof I as (At & Hs & _); pose proof At as (Hpc & Hk & _ & _ & HM & _).
  { lia. }
  destruct fuel as [|fuel]; [lia|]. cbn [run_loop].
  rewrite (user_round words mx steps k st At) by (lia || (apply (inside_mapped k); [done | lia])).
  rewrite (round_at words mx steps k st At) by lia. cbv zeta.
  destruct (decide (k = N - 1)) as [E|Ne].
  - pose proof (inside_word k st I) as (_ & _ & _ & _ & L). rewrite (L E). exists steps, st. split_and!; (done || lia).
  - pose proof (inside_word k st I) as (_ & _ & G & _). destruct (G ltac:(lia)) as [Gk _].
    rewrite (self_loop_not_forward _ _ _ Gk).
    destruct (inside_step k st I ltac:(lia)) as (st' & k' & E & Eu & I' & Hk' & C). rewrite E, Eu.
    destruct (IH k' st' mx (steps + 1) fuel I' ltac:(lia) ltac:(lia) ltac:(lia)) as (m & s & R & Ru & Bm & P & HM' & C').
    exists m, s. split_and!; (done || lia || congruence).
Qed.
End Lockstep.

(** ** The generator *)

Lemma gen_translated n base_addr mem_size xlen ds :
  plain_params n base_addr mem_size xlen -> check_budget n mem_size None true xlen = Ok tt ->
  exists lines words,
    gen_program n base_addr mem_size None true xlen ds = Ok (lines, None) /\ assemble lines xlen = Ok words /\
    Z.of_nat (List.length words) = mmu_len xlen + program_len n xlen /\
    forall k w, words !! k = Some w -> mmu_word n base_addr mem_size xlen (Z.of_nat k) w.
Proof.
  intros (Hn & Hb & Hroom & Hx) Hc. unfold gen_program. rewrite Hc. cbn [rbind].
  destruct (gives_core n base_addr mem_size None true xlen Hn ltac:(unfold addr_space; lia) ds)
    as (out & ds' & -> & items & body & labels & -> & Hl & Hok & HL). cbn [rbind].
  destruct (mmu_assembles n base_addr mem_size xlen Hn Hb Hx items body labels Hl Hok HL) as (words & E & Hlen & Hw).
  eexists _, words. split; [reflexivity|]. split; [|done]. rewrite <- E, app_nil_r, <- app_assoc. done.
Qed.

(** The rounds of the prefix. *)
Lemma prefix_rounds n base mem_size xl p words mx :
  xl = 32 \/ xl = 64 -> 13 <= p <= 28 -> Z.of_nat (List.length words) = mmu_len xl + program_len n xl ->
  mmu_len xl + program_len n xl <= 1024 -> 0 <= n -> mmu_len xl + program_len n xl <= mx ->
  (forall k w, words !! k = Some w -> mmu_word n base mem_size xl (Z.of_nat k) w) ->
  exists entry, rounds (Z.to_nat (mmu_len xl)) words mx (0, init (2 ^ p) xl) = Some (mmu_len xl, entry) /\ entered xl p entry /\ wf entry.
Proof.
  intros Hx Hp Hlen HN Hn Hmx Hw. destruct (mmu_size xl Hx) as [Hs _]. rewrite length_app in Hs. cbn [List.length] in Hs.
  assert (0 < program_len n xl) as HP by (unfold program_len; pose proof (seed_len_pos xl); lia).
  assert (2 ^ 13 <= 2 ^ p <= 2 ^ 28) by (split; apply Z.pow_le_mono_r; lia).
  destruct (mmu_entered xl p Hx Hp) as (entry & E & En). exists entry.
  assert (forall j w, (mmu_words xl ++ [MRET])%list !! j = Some w -> words !! j = Some w) as Hpre.
  { intros j w Hj. pose proof (lookup_lt_Some _ _ _ Hj) as Hlt. rewrite length_app in Hlt. cbn [List.length] in Hlt.
    destruct (lookup_lt_is_Some_2 words j) as [v Hv]; [lia|]. destruct (Hw _ _ Hv) as (P & _).
    rewrite Nat2Z.id in P. rewrite Hv. rewrite <- Hj. symmetry. apply P. lia. }
  destruct (rounds_straight (mmu_words xl) words 0 (init (2 ^ p) xl) mx 0) as (st & Es & R & At).
  - by destruct Hx as [-> | ->]; repeat constructor.
  - intros j w Hj. apply Hpre. by apply lookup_app_l_Some.
  - unfold at_word. change (xlen (init (2 ^ p) xl)) with xl. split_and!; try done; destruct Hx as [-> | ->]; lia.
  - lia.
  - lia.
  - rewrite exec_all_app, Es in E. cbn [rbind exec_all] in E. destruct (step MRET st) as [s|] eqn:Em; [|done]. injection E as ->.
    split; [|split; [done|]].
    + replace (Z.to_nat (mmu_len xl)) with (List.length (mmu_words xl) + 1)%nat by lia. rewrite (rounds_app _ _ _ _ _ _ R).
      cbn [rounds fst snd]. rewrite (round_at words mx _ _ st At) by lia. cbv zeta.
      assert (zget words (0 + Z.of_nat (List.length (mmu_words xl))) = MRET) as ->.
      { unfold zget. rewrite Z.add_0_l, Nat2Z.id. rewrite (Hpre _ MRET); [done|]. by apply list_lookup_middle. }
      change (self_loop MRET) with false. cbv iota. rewrite Em. do 2 f_equal. lia.
    + eapply wf_step; [|exact Em]. eapply wf_exec_all; [|exact Es]. apply wf_init; [done|]. destruct Hx as [-> | ->]; lia.
Qed.

(** C24: translation is invisible to a program generated for it.  While the program fits
    the page the tables map (at most 1024 words) and its window spares the first
    table entry, it assembles; its prefix, executed in M-mode, enters the program in
    U-mode, at XLEN 32 with Sv32 translation on; from there the run goes into the
    final loop without a trap, and it is the run that the same words make in M-mode,
    with no translation: as many steps, and the same state but for the mode. *)
Theorem translation_transparent n base_addr mem_size xlen ds p max_steps fuel :
  plain_params n base_addr mem_size xlen -> 4 <= base_addr -> 13 <= p <= 28 ->
  check_budget n mem_size None true xlen = Ok tt ->
  let start := mmu_len xlen in
  let N := start + program_len n xlen in
  N <= 1024 -> N <= max_steps -> program_len n xlen <= Z.of_nat fuel ->
  exists lines words entry steps st,
    gen_program n base_addr mem_size None true xlen ds = Ok (lines, None) /\ assemble lines xlen = Ok words /\
    rounds (Z.to_nat start) words max_steps (0, init (2 ^ p) xlen) = Some (start, entry) /\
    priv_mode entry = PRIV_U /\ pc entry = 4 * start /\ regime entry = (if xlen =? 32 then Some Sv32 else None) /\
    run (Z.to_nat start + fuel) words max_steps (init (2 ^ p) xlen) = Finished steps st /\
    run_loop fuel words max_steps start (with_priv PRIV_M entry) = Finished steps (with_priv PRIV_M st) /\
    steps < N /\ pc st = 4 * (N - 1) /\ priv_mode st = PRIV_U /\ csr_at st CSR_MCAUSE = 0.
Proof.
  intros Hpp H4 Hp Hc start N HN Hmx Hf. pose proof Hpp as (Hn & Hb & _ & Hx).
  destruct (gen_translated n base_addr mem_size xlen ds Hpp Hc) as (lines & words & E & A & Hlen & Hw).
  destruct (prefix_rounds n base_addr mem_size xlen p words max_steps Hx Hp Hlen HN ltac:(lia) Hmx Hw) as (entry & R & En & W).
  destruct En as (X & M & P & U & I & C & F).
  assert (0 < program_len n xlen) as HP by (unfold program_len; pose proof (seed_len_pos xlen); lia).
  assert (0 <= start) as Hs by (unfold start, mmu_len; case_match; lia).
  assert (inside base_addr xlen p words start (with_priv PRIV_M entry)) as In.
  { split; [|split; [lia|]].
    - unfold at_word. cbn [Machine.pc Machine.xlen with_priv priv_mode pending_interrupt]. rewrite X, P, I, Hlen.
      split_and!; try done; unfold N, start in *; try lia; destruct Hx as [-> | ->]; lia.
    - split; [by apply wf_with_priv|]. split_and!; try done. unfold start. lia. }
  destruct (lockstep n base_addr mem_size xlen p words Hx Hp ltac:(lia) Hlen HN Hw (Z.to_nat (program_len n xlen)) start (with_priv PRIV_M entry)
    max_steps start fuel In) as (m & st & Rm & Ru & Bm & Pst & Mst & Cst); [unfold start; lia | unfold N in *; lia | lia |].
  assert (user (with_priv PRIV_M entry) = entry) as Eu by (destruct entry; cbn in *; subst; done). rewrite Eu in Ru.
  exists lines, words, entry, m, (user st). split; [exact E|]. split; [exact A|]. split; [exact R|]. split; [exact U|]. split; [exact P|].
  split.
  { unfold regime, flat in *. rewrite U, X in *. cbn [Z.eqb Pos.eqb PRIV_U PRIV_M]. destruct Hx as [-> | ->]; cbn [Z.eqb Pos.eqb] in *; [by rewrite (proj1 F) | by rewrite F]. }
  split; [exact (eq_trans (rounds_run _ fuel _ _ _ _ R) Ru)|].
  split_and!; [|unfold N; lia | exact Pst | done | unfold csr_at in *; cbn; by rewrite Cst].
  rewrite Rm. f_equal. destruct st. cbn in *. by subst.
Qed.

Lemma translation_transparent_witness :
  exists lines words entry steps st,
    gen_program 16 32 8192 None true 32 [3; 1; 4; 1; 5; 9; 2; 6] = Ok (lines, None) /\ assemble lines 32 = Ok words /\
    priv_mode entry = PRIV_U /\ regime entry = Some Sv32 /\
    run 44 words 5000 (init (2 ^ 13) 32) = Finished steps st /\
    run_loop 31 words 5000 13 (with_priv PRIV_M entry) = Finished steps (with_priv PRIV_M st) /\
    pc st = 172 /\ priv_mode st = PRIV_U /\ csr_at st CSR_MCAUSE = 0.
Proof.
  destruct (translation_transparent 16 32 8192 32 [3; 1; 4; 1; 5; 9; 2; 6] 13 5000 31)
    as (lines & words & entry & steps & st & E & A & _ & U & _ & Rg & R & Rm & _ & P & Us & C).
  - unfold plain_params. lia.
  - lia.
  - lia.
  - reflexivity.
  - by vm_compute.
  - by vm_compute.
  - by vm_compute.
  - exists lines, words, entry, steps, st. split_and!; [exact E | exact A | exact U | exact Rg | exact R | exact Rm | exact P | exact Us | exact C].
Defined.

(** A program longer than the page: the fetch behind its end faults, and as [mtvec] is
    [0] the program starts again, until [max_steps] is reached. *)
Definition words_of (r : result (list Z)) : list Z := match r with Ok ws => ws | Err _ => [] end.
Definition long_words : list Z := words_of (assemble (lines_of (gen_program 1000 32 8192 None true 32 [])) 32).
Definition fault_of (o : option (Z * ISS)) : option (Z * Z) :=
  match o with Some (_, st) => Some (csr_at st CSR_MCAUSE, csr_at st CSR_MTVAL) | None => None end.
Definition raised_by (o : outcome) : option exn := match o with Raised e _ => Some e | _ => None end.

Lemma long_program_faults :
  (exists lines, gen_program 1000 32 8192 None true 32 [] = Ok (lines, None) /\ assemble lines 32 = Ok long_words) /\
  fault_of (rounds 1025 long_words 2000 (0, init 8192 32)) = Some (MCAUSE_INSTRUCTION_PAGE_FAULT, 4096) /\
  raised_by (run 2010 long_words 2000 (init 8192 32)) = Some RuntimeError.
Proof.
  split; [exists (lines_of (gen_program 1000 32 8192 None true 32 [])); split|split]; vm_compute; reflexivity.
Qed.
