(* ===== verification/FloatExec.v ===== *)
(** * From float mnemonics to results

    The float instructions by mnemonic: the word the assembler writes for each makes
    the simulator apply the routine of the reference arithmetic the mnemonic names,
    in the rounding mode the line names. *)

From Stdlib Require Import Ascii String.
From S2P Require Import Prelude Bits Float32 Machine Mmu Exec Raises Forward PyStr Asm Disasm AsmText.
From S2P Require Import Roundtrip AsmLink AsmImage RandGen RandLines RandItems RandLabels RandConst.
Open Scope string_scope.
Open Scope Z_scope.

(** ** Meanings *)

(** The rounding mode a line may name last; without one, or with [dyn], that of
    [frm]. *)
Definition rm_modes : list (option string * (ISS -> Z)) :=
  [(None, frm); (Some "rne", fun _ => RM_RNE); (Some "rtz", fun _ => RM_RTZ); (Some "rdn", fun _ => RM_RDN);
   (Some "rup", fun _ => RM_RUP); (Some "rmm", fun _ => RM_RMM); (Some "dyn", frm)].
Definition rm_args (r : option string) : list string := match r with Some s => [s] | None => [] end.

Definition float_arith : list (string * (Z -> Z -> Z -> Z * Z)) :=
  [("fadd.s", fun a b rm => f_add a b rm false); ("fsub.s", fun a b rm => f_add a b rm true); ("fmul.s", f_mul); ("fdiv.s", f_div)].
(** Whether the product and whether the addend is negated. *)
Definition float_fma : list (string * (bool * bool)) :=
  [("fmadd.s", (false, false)); ("fmsub.s", (false, true)); ("fnmsub.s", (true, false)); ("fnmadd.s", (true, true))].
Definition float_sign : list (string * Z) := [("fsgnj.s", 0); ("fsgnjn.s", 1); ("fsgnjx.s", 2)].
Definition float_order : list (string * Z) := [("fmin.s", 0); ("fmax.s", 1)].
Definition float_compare : list (string * Z) := [("fle.s", 0); ("flt.s", 1); ("feq.s", 2)].

Definition fr (st : ISS) (n : Z) : Z := zget (fregs st) n.
(** The next instruction. *)
Definition then_next (g : ISS -> ISS) (st : ISS) : ISS := with_pc (pc st + 4) (g st).

Inductive float_does : string -> (ISS -> ISS) -> Prop :=
| fl_arith mn (f : Z -> Z -> Z -> Z * Z) r (mode : ISS -> Z) rd a b :
    (mn, f) ∈ float_arith -> (r, mode) ∈ rm_modes -> 0 <= rd < 32 -> 0 <= a < 32 -> 0 <= b < 32 ->
    float_does (ins mn ([f_name rd; f_name a; f_name b] ++ rm_args r))
      (then_next (fun st => put_f rd (f (fr st a) (fr st b) (mode st)) st))
| fl_sqrt r (mode : ISS -> Z) rd a :
    (r, mode) ∈ rm_modes -> 0 <= rd < 32 -> 0 <= a < 32 ->
    float_does (ins "fsqrt.s" ([f_name rd; f_name a] ++ rm_args r)) (then_next (fun st => put_f rd (f_sqrt (fr st a) (mode st)) st))
| fl_fma mn np na r (mode : ISS -> Z) rd a b c :
    (mn, (np, na)) ∈ float_fma -> (r, mode) ∈ rm_modes -> 0 <= rd < 32 -> 0 <= a < 32 -> 0 <= b < 32 -> 0 <= c < 32 ->
    float_does (ins mn ([f_name rd; f_name a; f_name b; f_name c] ++ rm_args r))
      (then_next (fun st => put_f rd (f_madd (fr st a) (fr st b) (fr st c) (mode st) np na) st))
| fl_sign mn k rd a b :
    (mn, k) ∈ float_sign -> 0 <= rd < 32 -> 0 <= a < 32 -> 0 <= b < 32 ->
    float_does (ins mn [f_name rd; f_name a; f_name b]) (then_next (fun st => set_freg rd (fst (f_sgnj (fr st a) (fr st b) k)) st))
| fl_order mn k rd a b :
    (mn, k) ∈ float_order -> 0 <= rd < 32 -> 0 <= a < 32 -> 0 <= b < 32 ->
    float_does (ins mn [f_name rd; f_name a; f_name b]) (then_next (fun st => put_f rd (f_minmax (fr st a) (fr st b) k) st))
| fl_compare mn k rd a b :
    (mn, k) ∈ float_compare -> 0 <= rd < 32 -> 0 <= a < 32 -> 0 <= b < 32 ->
    float_does (ins mn [x_name rd; f_name a; f_name b]) (then_next (fun st => put_x rd (f_cmp (fr st a) (fr st b) k) st))
| fl_to_int (u : bool) r (mode : ISS -> Z) rd a :
    (r, mode) ∈ rm_modes -> 0 <= rd < 32 -> 0 <= a < 32 ->
    float_does (ins (if u then "fcvt.wu.s" else "fcvt.w.s") ([x_name rd; f_name a] ++ rm_args r))
      (then_next (fun st => put_x rd (f_cvt_to_int (fr st a) (mode st) u) st))
| fl_from_int (u : bool) r (mode : ISS -> Z) rd a :
    (r, mode) ∈ rm_modes -> 0 <= rd < 32 -> 0 <= a < 32 ->
    float_does (ins (if u then "fcvt.s.wu" else "fcvt.s.w") ([f_name rd; x_name a] ++ rm_args r))
      (then_next (fun st => put_f rd (f_cvt_from_int (zget (regs st) a mod 2 ^ 32) (mode st) u) st))
| fl_to_x rd a :
    0 <= rd < 32 -> 0 <= a < 32 -> float_does (ins "fmv.x.w" [x_name rd; f_name a]) (then_next (fun st => wr rd (signed (fr st a) 32) st))
| fl_class rd a :
    0 <= rd < 32 -> 0 <= a < 32 -> float_does (ins "fclass.s" [x_name rd; f_name a]) (then_next (fun st => wr rd (f_class (fr st a)) st))
| fl_to_f rd a :
    0 <= rd < 32 -> 0 <= a < 32 ->
    float_does (ins "fmv.w.x" [f_name rd; x_name a]) (then_next (fun st => set_freg rd (zget (regs st) a mod 2 ^ 32) st)).

(** ** Words *)

(** The word of an OP-FP instruction, executed. *)
Lemma fp_exec f5 rs2 rs1 rm rd :
  0 <= f5 < 32 -> 0 <= rs2 < 32 -> 0 <= rs1 < 32 -> 0 <= rm < 8 -> 0 <= rd < 32 ->
  let w := (f5 ≪ 27) .| (rs2 ≪ 20) .| (rs1 ≪ 15) .| (rm ≪ 12) .| (rd ≪ 7) .| 0x53 in
  (forall st, step w st = exec_op_fp w st) /\
  rd_of w = rd /\ f3_of w = rm /\ rs1_of w = rs1 /\ rs2_of w = rs2 /\ (w ≫ 27) .& 0x1F = f5.
Proof.
  intros. destruct (r_word (4 * f5) rs2 rs1 rm rd 0x53) as (O & D & F & S1 & S2 & F7); try (done || lia).
  assert ((4 * f5) ≪ 25 = f5 ≪ 27) as E by (rewrite !Z.shiftl_mul_pow2; lia). rewrite E in *. fold w in O, D, F, S1, S2, F7.
  clearbody w. split; [|split_and!; try done; revert F7; unfold f7_of; fields].
  intros st. unfold step. destruct (Z.eqb_spec w 0) as [->|_]; [done|]. cbv zeta. rewrite O. reflexivity.
Qed.

Lemma r4_exec op c b a rm rd :
  op ∈ [0x43; 0x47; 0x4B; 0x4F] -> 0 <= c < 32 -> 0 <= b < 32 -> 0 <= a < 32 -> 0 <= rm < 8 -> 0 <= rd < 32 ->
  let w := (c ≪ 27) .| (b ≪ 20) .| (a ≪ 15) .| (rm ≪ 12) .| (rd ≪ 7) .| op in
  (forall st, step w st = exec_fmadd w st) /\ op_of w = op /\
  rd_of w = rd /\ f3_of w = rm /\ rs1_of w = a /\ rs2_of w = b /\ (w ≫ 27) .& 0x1F = c.
Proof.
  intros Hop ? ? ? ? ? w. assert (0 <= op < 128) by (repeat (apply elem_of_cons in Hop as [->|Hop]; [lia|]); by apply elem_of_nil in Hop).
  destruct (r_word (4 * c) b a rm rd op) as (O & D & F & S1 & S2 & F7); try (done || lia).
  assert ((4 * c) ≪ 25 = c ≪ 27) as E by (rewrite !Z.shiftl_mul_pow2; lia). rewrite E in *. fold w in O, D, F, S1, S2, F7.
  clearbody w. split; [|split_and!; try done; revert F7; unfold f7_of; fields].
  intros st. unfold step. destruct (Z.eqb_spec w 0) as [->|_]; [rewrite <- O in Hop; repeat (apply elem_of_cons in Hop as [Hop|Hop]; [done|]); by apply elem_of_nil in Hop|]. cbv zeta. rewrite O.
  repeat (apply elem_of_cons in Hop as [->|Hop]; [reflexivity|]). by apply elem_of_nil in Hop.
Qed.

Lemma mode_parsed r mode :
  (r, mode) ∈ rm_modes ->
  exists m, 0 <= m < 8 /\ (forall args, parse_rm (args ++ rm_args r) (List.length args) = Ok m) /\ (forall st, resolve_rm st m = mode st) /\
    Forall clean (rm_args r).
Proof.
  intros H. unfold rm_modes in H.
  repeat (apply elem_of_cons in H as [[= -> ->]|H];
    [match goal with |- context [rm_args ?r] => let m := eval vm_compute in (match parse_rm (rm_args r) 0 with Ok m => m | Err _ => 8 end) in exists m end;
     split_and!; [lia | lia | | done | repeat constructor; done];
     intros args; unfold parse_rm; rewrite lookup_app_r, Nat.sub_diag by lia; reflexivity|]).
  by apply elem_of_nil in H.
Qed.

(** ** Lines *)

(** A float line: its word, read from the operands, and the routine it is given to. *)
Ltac float_line w :=
  exists w; split;
    [apply line_word_ins; [by split | reflexivity | done | repeat apply Forall_cons_2; auto with asm |];
     intros ? ?; encode_operands;
     repeat match goal with P : parse_rm _ _ = Ok _ |- _ => rewrite P; clear P end;
     first [reflexivity | change (0 ≪ 12) with 0; change (0 ≪ 20) with 0; by rewrite !Z.lor_0_r]|].

Ltac fp_line f5 b a m rd :=
  destruct (fp_exec f5 b a m rd) as (St & D & F & S1 & S2 & F5); try lia;
  float_line ((f5 ≪ 27) .| (b ≪ 20) .| (a ≪ 15) .| (m ≪ 12) .| (rd ≪ 7) .| 0x53);
  intros st W; rewrite St; unfold exec_op_fp, op_fp, reg_A; cbv zeta; rewrite D, F, S1, ?S2, F5; cbn [Z.eqb Pos.eqb];
  repeat match goal with R : forall st, resolve_rm st _ = _ |- _ => rewrite ?R; clear R end;
  rewrite ?u32_mod, ?s32_signed; reflexivity.

(** The arm of a mnemonic of a table. *)
Ltac each_row H := repeat (apply elem_of_cons in H as [[= -> ->]|H]); [..|by apply elem_of_nil in H].

Definition executes (xl : Z) (l : string) (g : ISS -> ISS) : Prop :=
  exists w, line_word xl l w /\ forall st, wf st -> step w st = Ok (g st).

Section Rounded.
  Context (xl : Z) (r : option string) (mode : ISS -> Z) (m : Z).
  Context (Bm : 0 <= m < 8) (P : forall args, parse_rm (args ++ rm_args r) (List.length args) = Ok m).
  Context (R : forall st, resolve_rm st m = mode st) (C : Forall clean (rm_args r)).

Lemma arith_executes mn f rd a b :
  (mn, f) ∈ float_arith -> 0 <= rd < 32 -> 0 <= a < 32 -> 0 <= b < 32 ->
  executes xl (ins mn ([f_name rd; f_name a; f_name b] ++ rm_args r))
    (then_next (fun st => put_f rd (f (fr st a) (fr st b) (mode st)) st)).
Proof.
  intros H ? ? ?. unfold float_arith in H. pose proof (P [f_name rd; f_name a; f_name b]) as P3. cbn [app List.length] in *.
  each_row H; [fp_line 0 b a m rd | fp_line 1 b a m rd | fp_line 2 b a m rd | fp_line 3 b a m rd].
Qed.

Lemma sqrt_executes rd a :
  0 <= rd < 32 -> 0 <= a < 32 ->
  executes xl (ins "fsqrt.s" ([f_name rd; f_name a] ++ rm_args r)) (then_next (fun st => put_f rd (f_sqrt (fr st a) (mode st)) st)).
Proof.
  intros ? ?. pose proof (P [f_name rd; f_name a]) as P2. cbn [app List.length] in *. fp_line 0x0B 0 a m rd.
Qed.

Lemma to_int_executes (u : bool) rd a :
  0 <= rd < 32 -> 0 <= a < 32 ->
  executes xl (ins (if u then "fcvt.wu.s" else "fcvt.w.s") ([x_name rd; f_name a] ++ rm_args r))
    (then_next (fun st => put_x rd (f_cvt_to_int (fr st a) (mode st) u) st)).
Proof.
  intros ? ?. pose proof (P [x_name rd; f_name a]) as P2. cbn [app List.length] in *. destruct u; [fp_line 0x18 1 a m rd | fp_line 0x18 0 a m rd].
Qed.

Lemma from_int_executes (u : bool) rd a :
  0 <= rd < 32 -> 0 <= a < 32 ->
  executes xl (ins (if u then "fcvt.s.wu" else "fcvt.s.w") ([f_name rd; x_name a] ++ rm_args r))
    (then_next (fun st => put_f rd (f_cvt_from_int (zget (regs st) a mod 2 ^ 32) (mode st) u) st)).
Proof.
  intros ? ?. pose proof (P [f_name rd; x_name a]) as P2. cbn [app List.length] in *. destruct u; [fp_line 0x1A 1 a m rd | fp_line 0x1A 0 a m rd].
Qed.

Ltac fma_line op c b a rd :=
  destruct (r4_exec op c b a m rd) as (St & O & D & F & S1 & S2 & F5); [apply (bool_decide_unpack _); by vm_compute | lia..|];
  float_line ((c ≪ 27) .| (b ≪ 20) .| (a ≪ 15) .| (m ≪ 12) .| (rd ≪ 7) .| op);
  intros st W; rewrite St; unfold exec_fmadd; cbv zeta; rewrite O, D, F, S1, S2, F5, R; reflexivity.

Lemma fma_executes mn np na rd a b c :
  (mn, (np, na)) ∈ float_fma -> 0 <= rd < 32 -> 0 <= a < 32 -> 0 <= b < 32 -> 0 <= c < 32 ->
  executes xl (ins mn ([f_name rd; f_name a; f_name b; f_name c] ++ rm_args r))
    (then_next (fun st => put_f rd (f_madd (fr st a) (fr st b) (fr st c) (mode st) np na) st)).
Proof.
  intros H ? ? ? ?. unfold float_fma in H. pose proof (P [f_name rd; f_name a; f_name b; f_name c]) as P4. cbn [app List.length] in *.
  repeat (apply elem_of_cons in H as [[= -> -> ->]|H]); [..|by apply elem_of_nil in H];
    [fma_line 0x43 c b a rd | fma_line 0x47 c b a rd | fma_line 0x4B c b a rd | fma_line 0x4F c b a rd].
Qed.
End Rounded.

(** The instructions that do not round. *)
Section Exact.
  Context (xl rd a b : Z) (Hd : 0 <= rd < 32) (Ha : 0 <= a < 32) (Hb : 0 <= b < 32).

Lemma sign_executes mn k :
  (mn, k) ∈ float_sign ->
  executes xl (ins mn [f_name rd; f_name a; f_name b]) (then_next (fun st => set_freg rd (fst (f_sgnj (fr st a) (fr st b) k)) st)).
Proof. intros H. unfold float_sign in H. each_row H; [fp_line 4 b a 0 rd | fp_line 4 b a 1 rd | fp_line 4 b a 2 rd]. Qed.

Lemma order_executes mn k :
  (mn, k) ∈ float_order ->
  executes xl (ins mn [f_name rd; f_name a; f_name b]) (then_next (fun st => put_f rd (f_minmax (fr st a) (fr st b) k) st)).
Proof. intros H. unfold float_order in H. each_row H; [fp_line 5 b a 0 rd | fp_line 5 b a 1 rd]. Qed.

Lemma compare_executes mn k :
  (mn, k) ∈ float_compare ->
  executes xl (ins mn [x_name rd; f_name a; f_name b]) (then_next (fun st => put_x rd (f_cmp (fr st a) (fr st b) k) st)).
Proof. intros H. unfold float_compare in H. each_row H; [fp_line 0x14 b a 0 rd | fp_line 0x14 b a 1 rd | fp_line 0x14 b a 2 rd]. Qed.

Lemma to_x_executes : executes xl (ins "fmv.x.w" [x_name rd; f_name a]) (then_next (fun st => wr rd (signed (fr st a) 32) st)).
Proof. fp_line 0x1C 0 a 0 rd. Qed.
Lemma class_executes : executes xl (ins "fclass.s" [x_name rd; f_name a]) (then_next (fun st => wr rd (f_class (fr st a)) st)).
Proof. fp_line 0x1C 0 a 1 rd. Qed.
Lemma to_f_executes : executes xl (ins "fmv.w.x" [f_name rd; x_name a]) (then_next (fun st => set_freg rd (zget (regs st) a mod 2 ^ 32) st)).
Proof. fp_line 0x1E 0 a 0 rd. Qed.
End Exact.

(** Each float line assembles to one word, which does what the mnemonic says. *)
Lemma float_executes xl l g : float_does l g -> executes xl l g.
Proof.
  intros [mn f r mode rd a b H Hm|r mode rd a Hm|mn np na r mode rd a b c H Hm|mn k rd a b H|mn k rd a b H|mn k rd a b H
    |u r mode rd a Hm|u r mode rd a Hm|rd a|rd a|rd a].
  all: try destruct (mode_parsed r mode Hm) as (m & Bm & P & R & C).
  - by apply (arith_executes xl r mode m).
  - by apply (sqrt_executes xl r mode m).
  - by apply (fma_executes xl r mode m).
  - by apply sign_executes.
  - by apply order_executes.
  - by apply compare_executes.
  - by apply (to_int_executes xl r mode m).
  - by apply (from_int_executes xl r mode m).
  - by apply to_x_executes.
  - by apply class_executes.
  - by apply to_f_executes.
Qed.

Lemma float_priv l g st : float_does l g -> priv_mode (g st) = priv_mode st.
Proof. intros []; unfold then_next, put_x, put_f, wr; cbn; try done; by destruct (rd =? 0). Qed.
