(* ===== verification/AsmExec.v ===== *)
(** * From mnemonics to results

    What the integer instructions, the loads and the stores mean, by mnemonic and in
    plain arithmetic, and that the word the assembler writes for each, and for each
    float line of [FloatExec.v], makes the simulator compute it. *)

From Stdlib Require Import Ascii String.
From S2P Require Import Prelude Bits Float32 Machine Mmu Exec Alu Memory Privilege PageTable Reach Raises Forward PyStr Asm Disasm AsmText.
From S2P Require Import Roundtrip AsmLink AsmImage RandGen RandLines RandItems RandLabels RandConst FloatExec.
Open Scope string_scope.
Open Scope Z_scope.

(** ** Meanings *)

(** The operations on two registers of [w] bits, holding [a] and [b]; a result is
    taken modulo [2^w].  Division by zero gives all ones, and the remainder the
    dividend. *)
Definition reg_ops : list (string * (Z -> Z -> Z -> Z)) :=
  [("add", fun w a b => a + b);
   ("sub", fun w a b => a - b);
   ("sll", fun w a b => a * 2 ^ (b mod w));
   ("slt", fun w a b => b2z (signed a w <? signed b w));
   ("sltu", fun w a b => b2z (a <? b));
   ("xor", fun w a b => a .^ b);
   ("srl", fun w a b => a / 2 ^ (b mod w));
   ("sra", fun w a b => signed a w / 2 ^ (b mod w));
   ("or", fun w a b => a .| b);
   ("and", fun w a b => a .& b);
   ("mul", fun w a b => a * b);
   ("mulh", fun w a b => signed a w * signed b w / 2 ^ w);
   ("mulhsu", fun w a b => signed a w * b / 2 ^ w);
   ("mulhu", fun w a b => a * b / 2 ^ w);
   ("div", fun w a b => if b =? 0 then -1 else Z.quot (signed a w) (signed b w));
   ("divu", fun w a b => if b =? 0 then -1 else a / b);
   ("rem", fun w a b => if b =? 0 then a else Z.rem (signed a w) (signed b w));
   ("remu", fun w a b => if b =? 0 then a else a mod b)].

Definition reg_op (name : string) (w a b : Z) : Z :=
  match List.find (fun p => (fst p =? name)%string) reg_ops with Some p => snd p w a b | None => 0 end.

(** The operation each immediate and each ["w"] mnemonic is named after. *)
Definition imm_ops : list (string * string) :=
  [("addi", "add"); ("slti", "slt"); ("sltiu", "sltu"); ("xori", "xor"); ("ori", "or"); ("andi", "and");
   ("slli", "sll"); ("srli", "srl"); ("srai", "sra")].
Definition word_imm_ops : list (string * string) :=
  [("addiw", "add"); ("slliw", "sll"); ("srliw", "srl"); ("sraiw", "sra")].
Definition word_ops : list (string * string) :=
  [("addw", "add"); ("subw", "sub"); ("sllw", "sll"); ("srlw", "srl"); ("sraw", "sra"); ("mulw", "mul");
   ("divw", "div"); ("divuw", "divu"); ("remw", "rem"); ("remuw", "remu")].

(** ** The arithmetic of the simulator *)

(** What OP computes from its fields. *)
Definition op_result (xl f7 f3 A B : Z) : Z :=
  if f7 =? 1 then alu_muldiv xl f3 A B else match alu_base xl f3 f7 A B with Ok v => v | Err _ => 0 end.

Section Arith.
Context (xl : Z) (Hxl : xl = 32 \/ xl = 64).

Lemma xl_big : 1 < xl.
Proof. destruct Hxl; lia. Qed.

Lemma land_width b : b .& (xl - 1) = b mod xl.
Proof. destruct Hxl as [-> | ->]; [by apply (land_lit _ 31 5) | by apply (land_lit _ 63 6)]. Qed.

Lemma shift_amount b : 0 <= b mod xl < xl.
Proof. apply Z.mod_pos_bound. destruct Hxl; lia. Qed.

Lemma signed_same a b : sXLEN a xl = signed b xl -> a mod 2 ^ xl = b mod 2 ^ xl.
Proof. pose proof xl_big. rewrite s_signed by lia. intros E. by rewrite <- signed_mod, E, signed_mod by lia. Qed.

Lemma signed_out v r : sXLEN v xl = r -> v mod 2 ^ xl = r mod 2 ^ xl.
Proof. pose proof xl_big. rewrite s_signed by lia. intros <-. by rewrite signed_mod by lia. Qed.

(** Overflow included: the quotient of the least number by -1 is that number again. *)
Lemma div_meaning A B :
  in_range xl A -> in_range xl B ->
  alu_muldiv xl 4 A B mod 2 ^ xl = (if B =? 0 then -1 else Z.quot (signed A xl) (signed B xl)) mod 2 ^ xl.
Proof.
  intros HA HB. pose proof xl_big. rewrite (signed_out _ _ (div_signed xl ltac:(lia) A B HA HB)).
  rewrite !s_signed by lia. destruct (Z.eqb_spec B 0) as [->|N].
  { by rewrite (signed_id 0) by (try apply half_bounds; pose proof (pow2_pos (xl - 1)); lia). }
  destruct (Z.eqb_spec (signed B xl) 0) as [E|_]; [by apply signed_0 in E; [|lia|]|].
  destruct (_ && _) eqn:Ov; [|done]. apply andb_prop in Ov as [Ea%Z.eqb_eq Eb%Z.eqb_eq]. rewrite Ea, Eb. change (-1) with (- (1)).
  rewrite Z.quot_opp_l, Z.quot_opp_r, Z.quot_1_r by lia. pose proof (pow2_double xl ltac:(lia)) as D.
  replace (- - 2 ^ (xl - 1)) with (- 2 ^ (xl - 1) + 1 * 2 ^ xl) by lia. by rewrite Z_mod_plus_full.
Qed.

Lemma rem_meaning A B :
  in_range xl A -> in_range xl B ->
  alu_muldiv xl 6 A B mod 2 ^ xl = (if B =? 0 then A else Z.rem (signed A xl) (signed B xl)) mod 2 ^ xl.
Proof.
  intros HA HB. pose proof xl_big. rewrite (signed_out _ _ (rem_signed xl ltac:(lia) A B HA HB)).
  rewrite !s_signed by lia. destruct (Z.eqb_spec B 0) as [->|N].
  { rewrite (signed_id 0) by (try apply half_bounds; pose proof (pow2_pos (xl - 1)); lia). apply signed_mod. lia. }
  destruct (Z.eqb_spec (signed B xl) 0) as [E|_]; [by apply signed_0 in E; [|lia|]|].
  destruct (_ && _) eqn:Ov; [|done]. apply andb_prop in Ov as [Ea%Z.eqb_eq Eb%Z.eqb_eq]. rewrite Ea, Eb. change (-1) with (- (1)).
  by rewrite Z.rem_opp_r, Z.rem_1_r by lia.
Qed.

Lemma op_result_meaning mn f7 f3 A B :
  (mn, (f7, f3)) ∈ R_TYPE -> in_range xl A -> in_range xl B ->
  op_result xl f7 f3 A B mod 2 ^ xl = reg_op mn xl A B mod 2 ^ xl.
Proof.
  intros H HA HB. pose proof xl_big as X. unfold R_TYPE, FUNCT7_BASE, FUNCT7_ALT, FUNCT7_MULDIV in H.
  pose proof (shift_amount B) as SB. assert (0 <= A /\ 0 <= B) as [] by (unfold in_range in *; lia).
  repeat (apply elem_of_cons in H as [[= -> -> ->]|H]); [..|by apply elem_of_nil in H];
    unfold op_result, reg_op; cbn [reg_ops List.find fst snd String.eqb Ascii.eqb Bool.eqb Z.eqb Pos.eqb];
    try (unfold alu_base; cbn [Z.eqb Pos.eqb andb];
         rewrite ?land_width, ?u_mod, ?s_signed, ?Zmod_mod, ?(Z.mod_small A), ?(Z.mod_small B),
           ?Z.shiftl_mul_pow2, ?Z.shiftr_div_pow2 by (done || lia); reflexivity).
  - unfold alu_muldiv. cbn [Z.eqb]. by rewrite u_mod, Zmod_mod.
  - apply signed_out. by rewrite mulh_high.
  - apply signed_out. by rewrite mulhsu_high, u_id.
  - by rewrite mulhu_high, !u_id.
  - by apply div_meaning.
  - rewrite divu_unsigned by done. destruct (B =? 0); [|done].
    replace (2 ^ xl - 1) with (-1 + 1 * 2 ^ xl) by lia. by rewrite Z_mod_plus_full.
  - by apply rem_meaning.
  - by rewrite remu_unsigned.
Qed.
End Arith.

(** ** Register instructions *)

Lemma run_reg xl mn f7 f3 rd rs1 rs2 :
  (mn, (f7, f3)) ∈ R_TYPE -> 0 <= rd < 32 -> 0 <= rs1 < 32 -> 0 <= rs2 < 32 ->
  runs xl [ins mn [x_name rd; x_name rs1; x_name rs2]]
    (fun st => set_x rd (op_result (xlen st) f7 f3 (zget (regs st) rs1) (zget (regs st) rs2)) 4 st).
Proof.
  intros H Hd H1 H2. unfold R_TYPE, FUNCT7_BASE, FUNCT7_ALT, FUNCT7_MULDIV in H.
  repeat (apply elem_of_cons in H as [[= -> -> ->]|H]); [..|by apply elem_of_nil in H];
    match goal with |- runs _ _ (fun st => set_x _ (op_result _ ?g7 ?g3 _ _) _ _) =>
      instruction ((g7 ≪ 25) .| (rs2 ≪ 20) .| (rs1 ≪ 15) .| (g3 ≪ 12) .| (rd ≪ 7) .| 0x33);
      destruct (r_word g7 rs2 rs1 g3 rd 0x33) as (O & R & F & S1 & S2 & F7); try lia; arm O;
      unfold exec_op, reg_A, reg_B, op_result; cbv zeta; rewrite R, F, S1, S2, F7; reflexivity
    end.
Qed.

(** ** Immediate instructions *)

Definition is_shift (mn : string) : bool :=
  existsb (String.eqb mn) ["slli"; "srli"; "srai"; "slliw"; "srliw"; "sraiw"].
(** The immediates an instruction takes. *)
Definition imm_ok (xl : Z) (mn : string) (n : Z) : Prop :=
  if is_shift mn then 0 <= n < xl else -2048 <= n < 2048.

(** The row of [R_TYPE] an operation has. *)
Definition row (op : string) : Z * Z :=
  match List.find (fun p => (fst p =? op)%string) R_TYPE with Some p => snd p | None => (0, 0) end.

Lemma imm12_word n rs1 f3 rd oc :
  -2048 <= n < 2048 -> 0 <= rs1 < 32 -> 0 <= f3 < 8 -> 0 <= rd < 32 -> 0 <= oc < 128 ->
  let w := (u (n mod 2 ^ 12) 12 ≪ 20) .| (rs1 ≪ 15) .| (f3 ≪ 12) .| (rd ≪ 7) .| oc in
  op_of w = oc /\ rd_of w = rd /\ f3_of w = f3 /\ rs1_of w = rs1 /\ imm_i_of w = n.
Proof.
  intros Hn H1 H3 Hd Ho. pose proof (u_range (n mod 2 ^ 12) 12 ltac:(lia)).
  destruct (i_word (u (n mod 2 ^ 12) 12) rs1 f3 rd oc) as (O & R & F & S & _ & I & _); try lia.
  split_and!; try done. rewrite I. unfold u. rewrite land_ones_mod, Z.mod_mod, sext_signed, signed_of_mod by lia.
  by apply signed_id.
Qed.

Section Imm.
Context (xl : Z) (Hxl : xl = 32 \/ xl = 64).

(** The simulator treats the immediate as a register holding it. *)
Lemma alu_imm_op mn op f3 word A n :
  (mn, op) ∈ imm_ops -> is_shift mn = false -> f3 = snd (row op) -> -2048 <= n < 2048 -> imm_i_of word = n ->
  alu_imm xl f3 word A = Ok (op_result xl (fst (row op)) f3 A (n mod 2 ^ xl)).
Proof.
  intros H NS -> Hn I. pose proof (xl_big xl Hxl). unfold imm_ops in H. unfold alu_imm. rewrite I. clear I.
  assert (signed (n mod 2 ^ xl) xl = n) as E.
  { rewrite signed_of_mod by lia. apply signed_id; [lia|]. destruct Hxl as [-> | ->]; pow_lits; lia. }
  repeat (apply elem_of_cons in H as [[= -> ->]|H]); [..|by apply elem_of_nil in H]; try discriminate NS;
    vm_compute (row _); cbn [fst snd]; unfold op_result, alu_base; cbn [Z.eqb Pos.eqb orb andb];
    rewrite ?u_mod, ?s_signed, ?E, ?Zmod_mod, ?Zplus_mod_idemp_r by lia; reflexivity.
Qed.

Lemma run_imm mn op rd rs1 n :
  (mn, op) ∈ imm_ops -> is_shift mn = false -> 0 <= rd < 32 -> 0 <= rs1 < 32 -> -2048 <= n < 2048 ->
  runs xl [ins mn [x_name rd; x_name rs1; show_dec n]]
    (fun st => set_x rd (op_result (xlen st) (fst (row op)) (snd (row op)) (zget (regs st) rs1) (n mod 2 ^ xlen st)) 4 st).
Proof.
  intros H NS Hd H1 Hn. pose proof H as H'. unfold imm_ops in H'.
  repeat (apply elem_of_cons in H' as [[= -> ->]|H']); [..|by apply elem_of_nil in H']; try discriminate NS;
    match goal with |- runs _ [ins ?mn _] (fun st => set_x _ (op_result _ (fst (row ?op)) _ _ _) _ _) =>
      let g3 := eval vm_compute in (snd (row op)) in
      instruction ((u (n mod 2 ^ 12) 12 ≪ 20) .| (rs1 ≪ 15) .| (g3 ≪ 12) .| (rd ≪ 7) .| 0x13);
      destruct (imm12_word n rs1 g3 rd 0x13) as (O & R & F & S & I); try lia; arm O;
      unfold exec_op_imm, reg_A; rewrite R, F, S, Hx, (alu_imm_op mn op g3 _ _ n) by done; reflexivity
    end.
Qed.

(** The shift amount and the bits that tell an arithmetic shift. *)
Lemma shift_fields word k : csr_addr_of word = k ->
  (word ≫ 20) .& 0x3F = k mod 64 /\ (word ≫ 20) .& 0x1F = k mod 32 /\ (word ≫ 26) .& 0x3F = k / 64.
Proof. unfold csr_addr_of. intros <-. split_and!; fields. Qed.

Lemma shift_imm12 alt b n :
  (b = 5 \/ b = 6) -> 0 <= n < 2 ^ b -> 0 <= alt < 2 ^ (12 - b) -> u ((alt ≪ b) .| (n mod 2 ^ b)) 12 = alt * 2 ^ b + n.
Proof.
  intros Hb Hn Ha. unfold u. rewrite land_ones_mod, (Z.mod_small n), Z.shiftl_mul_pow2 by lia.
  rewrite (lor_low b) by (try lia; apply Z_mod_mult). apply Z.mod_small. destruct Hb as [-> | ->]; pow_lits; lia.
Qed.

(** A shift by an immediate is a shift by a register that holds it. *)
Lemma alu_shift_op op f3 word A n alt :
  (op, alt, f3) ∈ [("sll", 0, 1); ("srl", 0, 5); ("sra", 1024, 5)] -> 0 <= n < xl ->
  csr_addr_of word = alt + n -> f7_of word = (alt + n) / 32 ->
  alu_imm xl f3 word A = Ok (op_result xl (fst (row op)) f3 A (n mod 2 ^ xl)).
Proof.
  intros H Hn C F7. destruct (shift_fields word _ C) as (S6 & S5 & K6). pose proof (xl_big xl Hxl).
  assert (n mod 2 ^ xl = n) as En by (apply Z.mod_small; destruct Hxl as [-> | ->]; pow_lits; lia).
  assert (n .& (xl - 1) = n) as Em by (rewrite (land_width xl Hxl); apply Z.mod_small; lia).
  unfold alu_imm. rewrite F7, S6, S5, K6, En.
  repeat (apply elem_of_cons in H as [[= -> -> ->]|H]); [..|by apply elem_of_nil in H];
    vm_compute (row _); cbn [fst snd Z.eqb Pos.eqb orb]; unfold op_result, alu_base; cbn [Z.eqb Pos.eqb andb]; rewrite Em;
    destruct Hxl as [E | E]; rewrite E in *; cbn [Z.leb Z.compare Pos.compare Pos.compare_cont].
  all: repeat match goal with
    | |- context [(?x mod 64)] => replace (x mod 64) with n by dlia
    | |- context [(?x mod 32)] => replace (x mod 32) with n by dlia
    end.
  all: first [reflexivity | (replace (_ =? _) with false by (symmetry; apply Z.eqb_neq; dlia); reflexivity)
    | (replace (_ =? _) with true by (symmetry; apply Z.eqb_eq; dlia); reflexivity)].
Qed.

Lemma run_shift mn op rd rs1 n :
  (mn, op) ∈ imm_ops -> is_shift mn = true -> 0 <= rd < 32 -> 0 <= rs1 < 32 -> 0 <= n < xl ->
  runs xl [ins mn [x_name rd; x_name rs1; show_dec n]]
    (fun st => set_x rd (op_result (xlen st) (fst (row op)) (snd (row op)) (zget (regs st) rs1) (n mod 2 ^ xlen st)) 4 st).
Proof.
  intros H NS Hd H1 Hn. pose proof H as H'. unfold imm_ops in H'.
  repeat (apply elem_of_cons in H' as [[= -> ->]|H']); [..|by apply elem_of_nil in H']; try discriminate NS;
    destruct Hxl as [Ex | Ex];
    (assert ((64 <=? xl) = false) as X by by rewrite Ex) || (assert ((64 <=? xl) = true) as X by by rewrite Ex);
    match goal with |- runs _ [ins ?mn _] (fun st => set_x _ (op_result _ (fst (row ?op)) _ _ _) _ _) =>
      let g3 := eval vm_compute in (snd (row op)) in
      let b := lazymatch type of Ex with _ = 32 => constr:(5) | _ => constr:(6) end in
      let alt := eval vm_compute in (if (mn =? "srai")%string then 1024 / 2 ^ b else 0) in
      instruction ((u ((alt ≪ b) .| (n mod 2 ^ b)) 12 ≪ 20) .| (rs1 ≪ 15) .| (g3 ≪ 12) .| (rd ≪ 7) .| 0x13);
      rewrite (shift_imm12 alt b n) by lia; set (k := alt * 2 ^ b + n);
      destruct (i_word k rs1 g3 rd 0x13) as (O & R & F & S & F7 & _ & C); try (unfold k; lia); arm O;
      unfold exec_op_imm, reg_A; rewrite R, F, S, Hx;
      rewrite (alu_shift_op op g3 _ _ n (alt * 2 ^ b)) by (done || (repeat first [apply list_elem_of_here | apply list_elem_of_further])); reflexivity
    end.
Qed.
End Imm.

(** ** Word instructions *)

Definition word_row (mn : string) : Z * Z :=
  match List.find (fun p => (fst p =? mn)%string) R_TYPE_W with Some p => snd p | None => (0, 0) end.

(** The fields of the ["w"] instructions. *)
Definition word_fields : list (Z * Z) :=
  [(0, 0); (0x20, 0); (0, 1); (0, 5); (0x20, 5); (1, 0); (1, 4); (1, 5); (1, 6); (1, 7)].

Lemma word_rows mn op : (mn, op) ∈ word_ops -> word_row mn = row op /\ row op ∈ word_fields.
Proof.
  assert (Forall (fun p => word_row (fst p) = row (snd p) /\ row (snd p) ∈ word_fields) word_ops) as F.
  { apply (bool_decide_unpack _). by vm_compute. }
  intros H. exact (proj1 (Forall_forall _ _) F (mn, op) H).
Qed.

Lemma op_32_result f7 f3 A B :
  (f7, f3) ∈ word_fields ->
  (if f7 =? 1 then Ok (word_muldiv f3 A B) else word_base f3 f7 A B) = Ok (op_result 32 f7 f3 (u32 A) (u32 B)).
Proof.
  intros H. unfold op_result. destruct (Z.eqb_spec f7 1) as [->|N].
  - rewrite word_muldiv_is_32; [done|]. unfold word_fields in H.
    repeat (apply elem_of_cons in H as [H|H]; [first [discriminate H | by injection H as ->]|]). by apply elem_of_nil in H.
  - destruct (word_base f3 f7 A B) as [r|] eqn:E; [by rewrite (word_base_is_32 _ _ _ _ _ E)|].
    exfalso. unfold word_fields in H. unfold word_base in E.
    repeat (apply elem_of_cons in H as [[= -> ->]|H]; [(discriminate E || done)|]). by apply elem_of_nil in H.
Qed.

Lemma run_word mn op rd rs1 rs2 :
  (mn, op) ∈ word_ops -> 0 <= rd < 32 -> 0 <= rs1 < 32 -> 0 <= rs2 < 32 ->
  runs 64 [ins mn [x_name rd; x_name rs1; x_name rs2]]
    (fun st => set_x rd (s32 (op_result 32 (fst (row op)) (snd (row op)) (u32 (zget (regs st) rs1)) (u32 (zget (regs st) rs2)))) 4 st).
Proof.
  intros H Hd H1 H2. pose proof H as H'. unfold word_ops in H'.
  repeat (apply elem_of_cons in H' as [[= -> ->]|H']); [..|by apply elem_of_nil in H'];
    match goal with |- runs _ [ins ?mn _] _ =>
      let g7 := eval vm_compute in (fst (word_row mn)) in
      let g3 := eval vm_compute in (snd (word_row mn)) in
      instruction ((g7 ≪ 25) .| (rs2 ≪ 20) .| (rs1 ≪ 15) .| (g3 ≪ 12) .| (rd ≪ 7) .| 0x3B);
      destruct (r_word g7 rs2 rs1 g3 rd 0x3B) as (O & R & F & S1 & S2 & F7); try lia; arm O;
      unfold exec_op_32, reg_A, reg_B; cbv zeta; rewrite R, F, S1, S2, F7, op_32_result;
      [reflexivity | exact (proj2 (word_rows _ _ H))]
    end.
Qed.

(** On the low word, an immediate operation is the 32-bit one. *)
Lemma word_imm_is_32 f3 word A : In f3 [0; 1; 5] -> word_imm f3 word A = alu_imm 32 f3 word (u32 A).
Proof.
  intros H. unfold word_imm, alu_imm. cbn [Z.leb Z.compare Pos.compare Pos.compare_cont].
  repeat (destruct H as [<-|H]); [..|done]; cbn [Z.eqb Pos.eqb orb];
    rewrite ?uXLEN_mod, ?s32_signed, ?s_signed, ?u32_mod, ?Zmod_mod, ?Zplus_mod_idemp_l, ?signed_of_mod by lia; reflexivity.
Qed.

Lemma run_word_imm mn op rd rs1 n :
  (mn, op) ∈ word_imm_ops -> 0 <= rd < 32 -> 0 <= rs1 < 32 -> imm_ok 32 mn n ->
  runs 64 [ins mn [x_name rd; x_name rs1; show_dec n]]
    (fun st => set_x rd (s32 (op_result 32 (fst (row op)) (snd (row op)) (u32 (zget (regs st) rs1)) (n mod 2 ^ 32))) 4 st).
Proof.
  intros H Hd H1 Hn. assert (32 = 32 \/ 32 = 64) as X by by left. unfold word_imm_ops in H.
  apply elem_of_cons in H as [[= -> ->]|H].
  { change (-2048 <= n < 2048) in Hn.
    instruction ((u (n mod 2 ^ 12) 12 ≪ 20) .| (rs1 ≪ 15) .| (0 ≪ 12) .| (rd ≪ 7) .| 0x1B).
    destruct (imm12_word n rs1 0 rd 0x1B) as (O & R & F & S & I); try lia. arm O.
    unfold exec_op_imm_32, reg_A. rewrite R, F, S, word_imm_is_32, (alu_imm_op 32 X "addi" "add" 0 _ _ n); try done; [apply list_elem_of_here|].
    by left. }
  repeat (apply elem_of_cons in H as [[= -> ->]|H]); [..|by apply elem_of_nil in H];
    match goal with |- runs _ [ins ?mn _] (fun st => set_x _ (s32 (op_result _ (fst (row ?op)) _ _ _)) _ _) =>
      let g3 := eval vm_compute in (snd (row op)) in
      let alt := eval vm_compute in (fst (row op)) in
      change (0 <= n < 32) in Hn;
      instruction ((u ((alt ≪ 5) .| (n mod 2 ^ 5)) 12 ≪ 20) .| (rs1 ≪ 15) .| (g3 ≪ 12) .| (rd ≪ 7) .| 0x1B);
      rewrite (shift_imm12 alt 5 n) by lia; set (k := alt * 2 ^ 5 + n);
      destruct (i_word k rs1 g3 rd 0x1B) as (O & R & F & S & F7 & _ & C); try (unfold k; lia); arm O;
      unfold exec_op_imm_32, reg_A; rewrite R, F, S, word_imm_is_32 by (vm_compute; tauto);
      rewrite (alu_shift_op 32 X op g3 _ _ n (alt * 2 ^ 5)) by (done || (repeat first [apply list_elem_of_here | apply list_elem_of_further])); reflexivity
    end.
Qed.

(** ** Upper immediates, loads and stores *)

Lemma run_auipc xl rd v :
  0 <= rd < 32 -> 0 <= v < 2 ^ 20 ->
  runs xl [ins "auipc" [x_name rd; hex v]] (fun st => set_x rd (uxlen st (pc st + s32 (v ≪ 12))) 4 st).
Proof.
  intros Hr Hv. pose proof (hex_clean v ltac:(lia)) as Hc. fold (hex v) in Hc.
  instruction ((v ≪ 12) .| (rd ≪ 7) .| 0x17).
  destruct (u_word v rd 0x17) as (O & R & I); try lia. arm O. unfold exec_auipc. by rewrite R, I.
Qed.

Lemma upper_value v : 0 <= v -> s32 (v ≪ 12) = signed (v * 2 ^ 12) 32.
Proof. intros. by rewrite s32_signed, Z.shiftl_mul_pow2. Qed.

(** Sign or zero extension and the number of bytes, by mnemonic. *)
Definition loads : list (string * (bool * nat)) :=
  [("lb", (true, 1%nat)); ("lh", (true, 2%nat)); ("lw", (true, 4%nat)); ("lbu", (false, 1%nat)); ("lhu", (false, 2%nat));
   ("ld", (false, 8%nat)); ("lwu", (false, 4%nat))].
Definition stores : list (string * nat) := [("sb", 1%nat); ("sh", 2%nat); ("sw", 4%nat); ("sd", 8%nat)].

Definition address (st : ISS) (rs1 off : Z) : Z := (zget (regs st) rs1 + off) mod 2 ^ xlen st.
(** The little-endian number of [n] bytes at an address. *)
Definition loaded (sgn : bool) (n : nat) (st : ISS) (a : Z) : Z :=
  if sgn then signed (bytes_at st a n) (8 * Z.of_nat n) else bytes_at st a n.
(** The [n] low bytes of [v], from the lowest on. *)
Definition stored (n : nat) (a v : Z) : ISS -> ISS := then_next (put_le a v n).

Lemma bytes_get st a n : wf st -> bytes_at st a n = get_le st a n.
Proof. intros W. symmetry. by apply load_le_bytes. Qed.

Lemma load_step w st rd rs1 off f3 sgn n :
  op_of w = 0x03 -> rd_of w = rd -> rs1_of w = rs1 -> imm_i_of w = off -> f3_of w = f3 ->
  (f3, sgn, n) ∈ [(0, true, 1%nat); (1, true, 2%nat); (2, true, 4%nat); (3, false, 8%nat); (4, false, 1%nat); (5, false, 2%nat); (6, false, 4%nat)] ->
  wf st -> priv_mode st = PRIV_M -> step w st = Ok (set_x rd (loaded sgn n st (address st rs1 off)) 4 st).
Proof.
  intros O R S I F H W HM. unfold step. destruct (Z.eqb_spec w 0) as [->|_]; [done|]. cbv zeta. rewrite O.
  cbn [Z.eqb Pos.eqb Exec.OP_R Exec.OP_32 Exec.OP_CUSTOM Exec.OP_I Exec.OP_LUI Exec.OP_IMM_32 Exec.OP_LOAD].
  unfold exec_load, reg_A. rewrite translate_M, R, S, I, F by done. pose proof (wf_xlen_pos _ W).
  rewrite uxlen_idem by lia. replace (uxlen st (zget (regs st) rs1 + off)) with (address st rs1 off) by (unfold uxlen; by rewrite uXLEN_mod by lia).
  destruct (load_value_get st (address st rs1 off) W) as (L0 & L1 & L2 & L3 & L4 & L5 & L6). unfold loaded. rewrite bytes_get by done.
  repeat (apply elem_of_cons in H as [[= -> -> ->]|H]); [..|by apply elem_of_nil in H];
    rewrite ?L0, ?L1, ?L2, ?L3, ?L4, ?L5, ?L6; reflexivity.
Qed.

Lemma load_line_runs xl mn sgn n rd rs1 off :
  (mn, (sgn, n)) ∈ loads -> 0 <= rd < 32 -> 0 <= rs1 < 32 -> -2048 <= off < 2048 ->
  exists w, line_word xl (ins mn [x_name rd; at_base off rs1]) w /\
    forall st, wf st -> priv_mode st = PRIV_M -> step w st = Ok (set_x rd (loaded sgn n st (address st rs1 off)) 4 st).
Proof.
  intros H Hd Hs Ho. unfold loads in H.
  repeat (apply elem_of_cons in H as [[= -> -> ->]|H]); [..|by apply elem_of_nil in H];
    match goal with |- exists w, line_word _ (ins ?mn _) w /\ _ =>
      let g3 := eval vm_compute in (match List.find (fun p => (fst p =? mn)%string) LOAD with Some p => snd p | None => 0 end) in
      exists ((u (off mod 2 ^ 12) 12 ≪ 20) .| (rs1 ≪ 15) .| (g3 ≪ 12) .| (rd ≪ 7) .| 0x03);
      (split; [apply line_word_ins; [by split | reflexivity | done | cleans | intros labels a; encode_operands; reflexivity]|]);
      destruct (imm12_word off rs1 g3 rd 0x03) as (O & R & F & S & I); try lia; intros st W HM;
      eapply load_step; try done; apply (bool_decide_unpack _); by vm_compute
    end.
Qed.

Lemma store_step w st rs2 rs1 off f3 n :
  op_of w = 0x23 -> rs2_of w = rs2 -> rs1_of w = rs1 -> imm_s_of w = off -> f3_of w = f3 ->
  (f3, n) ∈ [(0, 1%nat); (1, 2%nat); (2, 4%nat); (3, 8%nat)] ->
  wf st -> priv_mode st = PRIV_M -> step w st = Ok (stored n (address st rs1 off) (zget (regs st) rs2) st).
Proof.
  intros O R S I F H W HM. unfold step. destruct (Z.eqb_spec w 0) as [->|_]; [done|]. cbv zeta. rewrite O.
  cbn [Z.eqb Pos.eqb Exec.OP_R Exec.OP_32 Exec.OP_CUSTOM Exec.OP_I Exec.OP_LUI Exec.OP_IMM_32 Exec.OP_LOAD Exec.OP_STORE].
  unfold exec_store, reg_A, reg_B. rewrite translate_M, R, S, I, F by done. pose proof (wf_xlen_pos _ W).
  rewrite uxlen_idem by lia. replace (uxlen st (zget (regs st) rs1 + off)) with (address st rs1 off) by (unfold uxlen; by rewrite uXLEN_mod by lia).
  destruct (store_value f3 (address st rs1 off) (zget (regs st) rs2) st) as [s|] eqn:E.
  2:{ exfalso. repeat (apply elem_of_cons in H as [[= -> ->]|H]; [done|]). by apply elem_of_nil in H. }
  apply store_value_put in E. cbn [rbind]. unfold stored, then_next, next_pc.
  repeat (apply elem_of_cons in H as [[= -> ->]|H]); [..|by apply elem_of_nil in H];
    (destruct E as [[? ->]|[[? ->]|[[? ->]|[? ->]]]]; [lia || reflexivity..]).
Qed.

Lemma store_line_runs xl mn n rs2 rs1 off :
  (mn, n) ∈ stores -> 0 <= rs2 < 32 -> 0 <= rs1 < 32 -> -2048 <= off < 2048 ->
  exists w, line_word xl (ins mn [x_name rs2; at_base off rs1]) w /\
    forall st, wf st -> priv_mode st = PRIV_M -> step w st = Ok (stored n (address st rs1 off) (zget (regs st) rs2) st).
Proof.
  intros H Hd Hs Ho. unfold stores in H. set (v := off mod 2 ^ 12). assert (0 <= v < 4096) as Hv by (unfold v; dlia).
  assert (sext v 12 = off) as Ev by (unfold v; rewrite sext_signed, signed_of_mod by lia; by apply signed_id).
  repeat (apply elem_of_cons in H as [[= -> ->]|H]); [..|by apply elem_of_nil in H];
    match goal with |- exists w, line_word _ (ins ?mn _) w /\ _ =>
      let g3 := eval vm_compute in (match List.find (fun p => (fst p =? mn)%string) STORE with Some p => snd p | None => 0 end) in
      exists ((((v ≫ 5) .& 0x7F) ≪ 25) .| (rs2 ≪ 20) .| (rs1 ≪ 15) .| (g3 ≪ 12) .| ((v .& 0x1F) ≪ 7) .| 0x23);
      (split; [apply line_word_ins; [by split | reflexivity | done | cleans | intros labels a; encode_operands; reflexivity]|]);
      destruct (s_word v rs2 rs1 g3 0x23) as (O & F & S & I); try lia; rewrite Ev in I;
      destruct (r_word ((v ≫ 5) .& 0x7F) rs2 rs1 g3 (v .& 0x1F) 0x23) as (_ & _ & _ & _ & S2 & _); try lia;
        [by apply (land_range _ 7) | by apply (land_range _ 5)|]; intros st W HM;
      eapply store_step; try done; apply (bool_decide_unpack _); by vm_compute
    end.
Qed.

Lemma flw_line_runs xl rd rs1 off :
  0 <= rd < 32 -> 0 <= rs1 < 32 -> -2048 <= off < 2048 ->
  exists w, line_word xl (ins "flw" [f_name rd; at_base off rs1]) w /\
    forall st, wf st -> priv_mode st = PRIV_M ->
      step w st = Ok (then_next (set_freg rd (bytes_at st (address st rs1 off) 4)) st).
Proof.
  intros Hd Hs Ho. exists ((u (off mod 2 ^ 12) 12 ≪ 20) .| (rs1 ≪ 15) .| (2 ≪ 12) .| (rd ≪ 7) .| 0x07).
  split; [apply line_word_ins; [by split | reflexivity | done | cleans | intros labels a; encode_operands; reflexivity]|].
  destruct (imm12_word off rs1 2 rd 0x07) as (O & R & F & S & I); try lia. intros st W HM.
  unfold step. destruct (Z.eqb_spec ((u (off mod 2 ^ 12) 12 ≪ 20) .| (rs1 ≪ 15) .| (2 ≪ 12) .| (rd ≪ 7) .| 0x07) 0) as [E|_]; [by rewrite E in O|].
  cbv zeta. rewrite O. set (w := _ .| 0x07) in *. change (exec_flw w st = Ok (then_next (set_freg rd (bytes_at st (address st rs1 off) 4)) st)).
  unfold exec_flw, reg_A. pose proof (wf_xlen_pos _ W). rewrite translate_M, R, S, I, uxlen_idem by (done || lia).
  replace (uxlen st (zget (regs st) rs1 + off)) with (address st rs1 off) by (unfold uxlen; by rewrite uXLEN_mod by lia).
  by rewrite load4_get, bytes_get.
Qed.

Lemma fsw_line_runs xl rs2 rs1 off :
  0 <= rs2 < 32 -> 0 <= rs1 < 32 -> -2048 <= off < 2048 ->
  exists w, line_word xl (ins "fsw" [f_name rs2; at_base off rs1]) w /\
    forall st, wf st -> priv_mode st = PRIV_M -> step w st = Ok (stored 4 (address st rs1 off) (fr st rs2) st).
Proof.
  intros Hd Hs Ho. set (v := off mod 2 ^ 12). assert (0 <= v < 4096) as Hv by (unfold v; dlia).
  assert (sext v 12 = off) as Ev by (unfold v; rewrite sext_signed, signed_of_mod by lia; by apply signed_id).
  exists ((((v ≫ 5) .& 0x7F) ≪ 25) .| (rs2 ≪ 20) .| (rs1 ≪ 15) .| (2 ≪ 12) .| ((v .& 0x1F) ≪ 7) .| 0x27).
  split; [apply line_word_ins; [by split | reflexivity | done | cleans | intros labels a; encode_operands; reflexivity]|].
  destruct (s_word v rs2 rs1 2 0x27) as (O & F & S & I); try lia. rewrite Ev in I.
  destruct (r_word ((v ≫ 5) .& 0x7F) rs2 rs1 2 (v .& 0x1F) 0x27) as (_ & _ & _ & _ & S2 & _); try lia;
    [by apply (land_range _ 7) | by apply (land_range _ 5)|]. intros st W HM.
  set (w := _ .| 0x27) in *. clearbody w. unfold step. destruct (Z.eqb_spec w 0) as [->|_]; [done|].
  cbv zeta. rewrite O. change (exec_fsw w st = Ok (stored 4 (address st rs1 off) (fr st rs2) st)).
  unfold exec_fsw, reg_A. pose proof (wf_xlen_pos _ W). rewrite translate_M, S, S2, I, uxlen_idem by (done || lia).
  replace (uxlen st (zget (regs st) rs1 + off)) with (address st rs1 off) by (unfold uxlen; by rewrite uXLEN_mod by lia).
  by rewrite store_le_put.
Qed.

Lemma stored_priv n a v st : priv_mode (stored n a v st) = priv_mode st.
Proof.
  unfold stored, then_next. cbn [priv_mode with_pc]. induction n as [|n IH]; [done|].
  rewrite put_le_S, <- IH. cbn. unfold store_mem_byte. by destruct (_ <=? _).
Qed.

(** ** Programs *)

(** The value an integer instruction leaves in its destination, by mnemonic: the
    operation on the two registers, on a register and the sign-extended
    immediate, or on the low words of the two registers, the result sign-extended;
    an upper immediate, sign-extended, alone or added to the program counter. *)
Inductive line_value (xl : Z) : string -> Z -> (ISS -> Z) -> Prop :=
| value_reg mn f rd rs1 rs2 :
    (mn, f) ∈ reg_ops -> 0 <= rs1 < 32 -> 0 <= rs2 < 32 ->
    line_value xl (ins mn [x_name rd; x_name rs1; x_name rs2]) rd
      (fun st => f xl (zget (regs st) rs1) (zget (regs st) rs2))
| value_imm mn op f rd rs1 n :
    (mn, op) ∈ imm_ops -> (op, f) ∈ reg_ops -> 0 <= rs1 < 32 -> imm_ok xl mn n ->
    line_value xl (ins mn [x_name rd; x_name rs1; show_dec n]) rd
      (fun st => f xl (zget (regs st) rs1) (n mod 2 ^ xl))
| value_word mn op f rd rs1 rs2 :
    xl = 64 -> (mn, op) ∈ word_ops -> (op, f) ∈ reg_ops -> 0 <= rs1 < 32 -> 0 <= rs2 < 32 ->
    line_value xl (ins mn [x_name rd; x_name rs1; x_name rs2]) rd
      (fun st => signed (f 32 (zget (regs st) rs1 mod 2 ^ 32) (zget (regs st) rs2 mod 2 ^ 32)) 32)
| value_word_imm mn op f rd rs1 n :
    xl = 64 -> (mn, op) ∈ word_imm_ops -> (op, f) ∈ reg_ops -> 0 <= rs1 < 32 -> imm_ok 32 mn n ->
    line_value xl (ins mn [x_name rd; x_name rs1; show_dec n]) rd
      (fun st => signed (f 32 (zget (regs st) rs1 mod 2 ^ 32) (n mod 2 ^ 32)) 32)
| value_lui rd v :
    0 <= v < 2 ^ 20 -> line_value xl (ins "lui" [x_name rd; hex v]) rd (fun st => signed (v * 2 ^ 12) 32)
| value_auipc rd v :
    0 <= v < 2 ^ 20 -> line_value xl (ins "auipc" [x_name rd; hex v]) rd (fun st => pc st + signed (v * 2 ^ 12) 32).

Lemma reg_ops_row mn f : (mn, f) ∈ reg_ops -> (mn, row mn) ∈ R_TYPE /\ reg_op mn = f.
Proof.
  intros H. unfold reg_ops in H.
  repeat (apply elem_of_cons in H as [[= -> ->]|H];
    [split; [apply (bool_decide_unpack _); by vm_compute | reflexivity]|]). by apply elem_of_nil in H.
Qed.

Lemma row_meaning xl mn f A B :
  xl = 32 \/ xl = 64 -> (mn, f) ∈ reg_ops -> in_range xl A -> in_range xl B ->
  op_result xl (fst (row mn)) (snd (row mn)) A B mod 2 ^ xl = f xl A B mod 2 ^ xl.
Proof.
  intros Hxl H HA HB. destruct (reg_ops_row _ _ H) as [R <-]. apply op_result_meaning; [done| |done..].
  by destruct (row mn).
Qed.

Lemma low_meaning op f A B :
  (op, f) ∈ reg_ops ->
  s32 (op_result 32 (fst (row op)) (snd (row op)) (u32 A) (u32 B)) mod 2 ^ 64 =
  signed (f 32 (A mod 2 ^ 32) (B mod 2 ^ 32)) 32 mod 2 ^ 64.
Proof.
  intros H. f_equal. rewrite s32_signed, !u32_mod, <- (signed_of_mod (op_result _ _ _ _ _)), <- (signed_of_mod (f _ _ _)) by lia.
  f_equal. apply row_meaning; [by left | done | |]; apply Z.mod_pos_bound; lia.
Qed.

(** One line assembles to one word, which computes the value. *)
Lemma line_runs xl l rd v :
  xl = 32 \/ xl = 64 -> 0 <= rd < 32 -> line_value xl l rd v ->
  exists w, line_word xl l w /\
    forall st, wf st -> xlen st = xl -> step w st = Ok (set_x rd (v st) 4 st).
Proof.
  intros Hxl Hd H.
  assert (exists v', runs xl [l] (fun st => set_x rd (v' st) 4 st) /\
    forall st, wf st -> xlen st = xl -> v' st mod 2 ^ xl = v st mod 2 ^ xl) as (v' & (ws & F & R) & V).
  { destruct H as [mn f ? ? ? H ? ? | mn op f ? ? n Hi H ? Hn | mn op f ? ? ? -> Hw H ? ? | mn op f ? ? ? -> Hw H ? Hn | ? u Hu | ? u Hu].
    - eexists. split; [apply run_reg; try done|].
      + destruct (reg_ops_row _ _ H) as [E _]. rewrite (surjective_pairing (row mn)) in E. exact E.
      + intros st W X. cbv beta. rewrite X. apply row_meaning; try done; unfold in_range; rewrite <- X; by apply reg_range.
    - exists (fun st => op_result (xlen st) (fst (row op)) (snd (row op)) (zget (regs st) rs1) (n mod 2 ^ xlen st)). split.
      + unfold imm_ok in Hn. destruct (is_shift mn) eqn:E; [by apply run_shift | by apply run_imm].
      + intros st W X. rewrite X. apply row_meaning; try done.
        * unfold in_range. rewrite <- X. by apply reg_range.
        * apply Z.mod_pos_bound. apply pow2_pos. lia.
    - eexists. split; [by apply run_word with (op := op)|]. intros st W X. by apply (low_meaning op).
    - eexists. split; [by apply run_word_imm with (op := op)|]. intros st W X. cbv beta.
      pose proof (low_meaning op f (zget (regs st) rs1) n H) as M. by rewrite (u32_mod n) in M.
    - eexists. split; [by apply run_lui|]. intros st _ _. cbv beta. by rewrite upper_value by lia.
    - eexists. split; [by apply run_auipc|]. intros st W X. cbv beta. rewrite upper_value by lia. unfold uxlen.
      by rewrite X, uXLEN_mod, Zmod_mod by lia. }
  apply Forall2_cons_inv_l in F as (w & ? & Hw & ->%Forall2_nil_inv_l & ->). exists w. split; [done|].
  intros st W X. destruct (R st X (wf_regs_len _ W)) as [E _]. cbn [exec_all] in E.
  destruct (step w st) as [s|] eqn:S; [|done]. cbn in E. rewrite E. f_equal. apply set_x_eq.
  unfold uxlen. rewrite X, !uXLEN_mod by lia. by apply V.
Qed.

(** What a line does to the state; the loads and stores only where [mem] allows them. *)
Inductive line_does (mem : bool) (xl : Z) : string -> (ISS -> ISS) -> Prop :=
| does_value l rd v : 0 <= rd < 32 -> line_value xl l rd v -> line_does mem xl l (fun st => set_x rd (v st) 4 st)
| does_load mn sgn n rd rs1 off :
    mem = true -> (mn, (sgn, n)) ∈ loads -> 0 <= rd < 32 -> 0 <= rs1 < 32 -> -2048 <= off < 2048 ->
    line_does mem xl (ins mn [x_name rd; at_base off rs1]) (fun st => set_x rd (loaded sgn n st (address st rs1 off)) 4 st)
| does_store mn n rs2 rs1 off :
    mem = true -> (mn, n) ∈ stores -> 0 <= rs2 < 32 -> 0 <= rs1 < 32 -> -2048 <= off < 2048 ->
    line_does mem xl (ins mn [x_name rs2; at_base off rs1])
      (fun st => stored n (address st rs1 off) (zget (regs st) rs2) st)
| does_float l g : float_does l g -> line_does mem xl l g
| does_flw rd rs1 off :
    mem = true -> 0 <= rd < 32 -> 0 <= rs1 < 32 -> -2048 <= off < 2048 ->
    line_does mem xl (ins "flw" [f_name rd; at_base off rs1])
      (fun st => then_next (set_freg rd (bytes_at st (address st rs1 off) 4)) st)
| does_fsw rs2 rs1 off :
    mem = true -> 0 <= rs2 < 32 -> 0 <= rs1 < 32 -> -2048 <= off < 2048 ->
    line_does mem xl (ins "fsw" [f_name rs2; at_base off rs1]) (fun st => stored 4 (address st rs1 off) (fr st rs2) st).

(** What a list of lines does: each in turn what it does. *)
Inductive program_does (mem : bool) (xl : Z) : list string -> (ISS -> ISS) -> Prop :=
| does_nil : program_does mem xl [] (fun st => st)
| does_cons l g ls f : line_does mem xl l g -> program_does mem xl ls f -> program_does mem xl (l :: ls) (fun st => f (g st)).

Lemma line_executes mem xl l g :
  xl = 32 \/ xl = 64 -> line_does mem xl l g ->
  exists w, line_word xl l w /\
    forall st, wf st -> xlen st = xl -> (mem = true -> priv_mode st = PRIV_M) -> step w st = Ok (g st) /\ priv_mode (g st) = priv_mode st.
Proof.
  intros Hxl [l' rd v Hd Hv|mn sgn n rd rs1 off -> H Hd Hs Ho|mn n rs2 rs1 off -> H Hd Hs Ho|l' g' H|rd rs1 off -> Hd Hs Ho|rs2 rs1 off -> Hd Hs Ho].
  - destruct (line_runs xl l' rd v Hxl Hd Hv) as (w & Hw & R). exists w. split; [done|]. intros st W X _. split; [by apply R|].
    unfold set_x, wr. by destruct (rd =? 0).
  - destruct (load_line_runs xl mn sgn n rd rs1 off H Hd Hs Ho) as (w & Hw & R). exists w. split; [done|]. intros st W X M.
    split; [by apply R, M|]. unfold set_x, wr. by destruct (rd =? 0).
  - destruct (store_line_runs xl mn n rs2 rs1 off H Hd Hs Ho) as (w & Hw & R). exists w. split; [done|]. intros st W X M.
    split; [by apply R, M | apply stored_priv].
  - destruct (float_executes xl l' g' H) as (w & Hw & R). exists w. split; [done|]. intros st W X _.
    split; [by apply R | by apply (float_priv l')].
  - destruct (flw_line_runs xl rd rs1 off Hd Hs Ho) as (w & Hw & R). exists w. split; [done|]. intros st W X M. split; [by apply R, M | done].
  - destruct (fsw_line_runs xl rs2 rs1 off Hd Hs Ho) as (w & Hw & R). exists w. split; [done|]. intros st W X M.
    split; [by apply R, M | apply stored_priv].
Qed.

(** C1: a straight-line program of the integer register, immediate, word and
    upper-immediate instructions and of the float instructions, and in M-mode of the
    loads and stores too, means what its mnemonics say: the assembler gives one word
    for each line, whatever registers, in-range immediates and offsets and rounding
    modes it names, and the simulator executing those words leaves the state the
    meanings of the mnemonics give, in line order, and changes nothing else. *)
Theorem mnemonics_execute mem ls f st :
  program_does mem (xlen st) ls f -> wf st -> (mem = true -> priv_mode st = PRIV_M) ->
  exists words,
    assemble ls (xlen st) = Ok words /\ List.length words = List.length ls /\ exec_all words st = Ok (f st).
Proof.
  intros H W M. assert (exists words, Forall2 (line_word (xlen st)) ls words /\ exec_all words st = Ok (f st)) as (ws & F & E).
  { remember (xlen st) as xl eqn:X. symmetry in X. revert st W X M.
    induction H as [|l g ls f Hl _ IH]; intros st W X M; [by exists []|].
    pose proof (wf_xlen _ W) as Hx. rewrite X in Hx. destruct (line_executes mem xl l g Hx Hl) as (w & Hw & R).
    destruct (R st W X M) as [Es P].
    destruct (IH (g st)) as (ws & F & E); [by eapply wf_step | by rewrite (step_xlen _ _ _ Es) | by rewrite P |].
    exists (w :: ws). split; [by constructor|]. cbn [exec_all]. by rewrite Es. }
  exists ws. split_and!; [by apply assemble_lines | symmetry; exact (Forall2_length _ _ _ F) | done].
Qed.

(** Seven times minus three, halved by a shift and by a division: the shift rounds
    down, the quotient towards zero.  The product is stored, and its low byte read
    back with either extension; as a float it is divided by itself. *)
Definition halves : list string :=
  [ins "addi" [x_name 5; x_name 0; show_dec 7]; ins "addi" [x_name 6; x_name 0; show_dec (-3)];
   ins "mul" [x_name 7; x_name 5; x_name 6]; ins "srai" [x_name 8; x_name 7; show_dec 1];
   ins "addiw" [x_name 9; x_name 0; show_dec 2]; ins "divw" [x_name 10; x_name 7; x_name 9];
   ins "sd" [x_name 7; at_base 8 0]; ins "lb" [x_name 11; at_base 8 0]; ins "lbu" [x_name 12; at_base 8 0];
   ins "fcvt.s.w" [f_name 1; x_name 7]; ins "fdiv.s" [f_name 2; f_name 1; f_name 1; "rtz"]].

Ltac in_table := apply (bool_decide_unpack _); by vm_compute.
Ltac in_ops := repeat first [apply list_elem_of_here | apply list_elem_of_further].

Lemma mnemonics_execute_witness :
  exists f words,
    assemble halves 64 = Ok words /\ exec_all words (init 64 64) = Ok (f (init 64 64)) /\
    map (zget (regs (f (init 64 64)))) [8; 10; 11; 12] = [2 ^ 64 - 11; 2 ^ 64 - 10; 2 ^ 64 - 21; 235] /\
    zget (fregs (f (init 64 64))) 2 = 0x3F800000.
Proof.
  assert (exists f, program_does true (xlen (init 64 64)) halves f /\
    map (zget (regs (f (init 64 64)))) [8; 10; 11; 12] = [2 ^ 64 - 11; 2 ^ 64 - 10; 2 ^ 64 - 21; 235] /\
    zget (fregs (f (init 64 64))) 2 = 0x3F800000) as (f & P & V & V2).
  { eexists. split.
    - unfold halves. eapply does_cons; [eapply (does_value _ _ _ 5); [lia | eapply (value_imm _ "addi" "add" _ 5); [in_table | in_ops | lia | cbn; lia]] |].
      eapply does_cons; [eapply (does_value _ _ _ 6); [lia | eapply (value_imm _ "addi" "add" _ 6); [in_table | in_ops | lia | cbn; lia]] |].
      eapply does_cons; [eapply (does_value _ _ _ 7); [lia | eapply (value_reg _ "mul" _ 7); [in_ops | lia | lia]] |].
      eapply does_cons; [eapply (does_value _ _ _ 8); [lia | eapply (value_imm _ "srai" "sra" _ 8); [in_table | in_ops | lia | cbn; lia]] |].
      eapply does_cons; [eapply (does_value _ _ _ 9); [lia | eapply (value_word_imm _ "addiw" "add" _ 9); [done | in_table | in_ops | lia | cbn; lia]] |].
      eapply does_cons; [eapply (does_value _ _ _ 10); [lia | eapply (value_word _ "divw" "div" _ 10); [done | in_table | in_ops | lia | lia]] |].
      eapply does_cons; [eapply (does_store _ _ "sd"); [done | in_ops | lia..] |].
      eapply does_cons; [eapply (does_load _ _ "lb"); [done | in_ops | lia..] |].
      eapply does_cons; [eapply (does_load _ _ "lbu"); [done | in_ops | lia..] |].
      eapply does_cons; [apply does_float, (fl_from_int false None frm 1 7); [in_ops | lia..] |].
      eapply does_cons; [apply does_float, (fl_arith "fdiv.s" f_div (Some "rtz") (fun _ => RM_RTZ) 2 1 1); [in_ops | in_ops | lia..] |].
      apply does_nil.
    - split; vm_compute; reflexivity. }
  assert (wf (init 64 64)) as W by (apply wf_init; [by right | lia]).
  destruct (mnemonics_execute true halves f (init 64 64) P W (fun _ => eq_refl)) as (words & A & _ & E). exists f, words. by split_and!.
Defined.
