(* ===== verification/Debugger.v ===== *)
(** * The debugger

    [src/sim/tools/debugger.py]: class [Debugger] and its command loop.  What a
    command prints is a list of strings, one for each [print] (the prompt [input]
    shows is left out); an exception that leaves a command ends the loop.  Reading the program from a file is
    [MemFile.load_words]. *)

From Stdlib Require Import Ascii String.
From stdpp Require Import sorting.
From S2P Require Import Prelude Bits Float32 Machine Mmu Exec PyStr Disasm PyText.
Open Scope string_scope.
Open Scope Z_scope.

Definition CSR_BY_ADDR : list (Z * string) :=
  [(CSR_MSTATUS, "mstatus"); (CSR_MTVEC, "mtvec"); (CSR_MSCRATCH, "mscratch");
   (CSR_MEPC, "mepc"); (CSR_MCAUSE, "mcause")].

(** ** State and operations *)

Record Debugger : Type := mkDbg {
  words : list Z;
  mem_size : Z;
  dxlen : Z;
  breakpoints : gset Z;
  history : list (Z * Z);
  iss : ISS
}.

Definition with_iss (h : list (Z * Z)) (st : ISS) (d : Debugger) : Debugger :=
  mkDbg (words d) (mem_size d) (dxlen d) (breakpoints d) h st.
Definition with_breakpoints (b : gset Z) (d : Debugger) : Debugger :=
  mkDbg (words d) (mem_size d) (dxlen d) b (history d) (iss d).

Definition reset (d : Debugger) : Debugger := with_iss [] (init (mem_size d) (dxlen d)) d.
Definition new_debugger (ws : list Z) (size xl : Z) : Debugger :=
  mkDbg ws size xl ∅ [] (init size xl).
Definition reg_hex_digits (d : Debugger) : nat := Z.to_nat (dxlen d / 4).

Definition word_at (d : Debugger) (p : Z) : Z :=
  let idx := p / 4 in
  if (0 <=? idx) && (idx <? Z.of_nat (List.length (words d))) then zget (words d) idx else 0.

Definition at_end (d : Debugger) : bool := Z.of_nat (List.length (words d)) * 4 <=? pc (iss d).

(** What a method that executes instructions does: the new debugger, and the
    value or the exception. *)
Definition step_one (d : Debugger) : Debugger * result bool :=
  if at_end d then (d, Ok false)
  else
    let word := word_at d (pc (iss d)) in
    let h := (history d ++ [(pc (iss d), word)])%list in
    match step word (iss d) with
    | Ok st => (with_iss h st d, Ok true)
    | Err e => (with_iss h (iss d) d, Err e)
    end.

Inductive stop : Type :=
| EndOfProgram
| HaltedSelfLoop
| BreakpointHit (p : Z)
| Exceeded (max_steps : Z).

Definition status (s : stop) : string :=
  match s with
  | EndOfProgram => "end of program"
  | HaltedSelfLoop => "halted (self-loop)"
  | BreakpointHit p => "breakpoint hit @ pc=" ++ show_dec p
  | Exceeded m => "stopped: exceeded " ++ show_dec m ++ " steps"
  end%string.

(** The decoding of the self-loop, written out once more in this module. *)
Definition is_self_loop (word : Z) : bool :=
  if (word .& 0x7F) =? 0x6F then
    let b20 := (word ≫ 31) .& 1 in
    let b19_12 := (word ≫ 12) .& 0xFF in
    let b11 := (word ≫ 20) .& 1 in
    let b10_1 := (word ≫ 21) .& 0x3FF in
    let off := (b20 ≪ 20) .| (b19_12 ≪ 12) .| (b11 ≪ 11) .| (b10_1 ≪ 1) in
    let off := if truthy (off .& (1 ≪ 20)) then off - (1 ≪ 21) else off in
    off =? 0
  else false.

(** The [while] loop, with [todo] rounds to go before [steps] is [max_steps]. *)
Fixpoint run_until_loop (todo : nat) (max_steps steps : Z) (d : Debugger) : Debugger * result stop :=
  match todo with
  | O => (d, Ok (Exceeded max_steps))
  | S todo =>
      if at_end d then (d, Ok EndOfProgram)
      else
        let p := pc (iss d) in
        let word := word_at d p in
        if is_self_loop word then (d, Ok HaltedSelfLoop)
        else if bool_decide (p ∈ breakpoints d) && (0 <? steps) then (d, Ok (BreakpointHit p))
        else
          match step_one d with
          | (d, Ok _) => run_until_loop todo max_steps (steps + 1) d
          | (d, Err e) => (d, Err e)
          end
  end.

Definition run_until (max_steps : Z) (d : Debugger) : Debugger * result stop :=
  run_until_loop (Z.to_nat max_steps) max_steps 0 d.

(** ** What it prints *)

Definition print_regs (d : Debugger) : list string :=
  map (fun i => join "  " (map (fun j =>
         ("x" ++ ljust 2 (show_dec (i + j)%Z) ++ "=0x" ++
          pad (reg_hex_digits d) (show_hex (zget (regs (iss d)) (i + j)%Z)))%string)
       [0; 1; 2; 3]))
    [0; 4; 8; 12; 16; 20; 24; 28].

Definition print_csrs (d : Debugger) : list string :=
  map (fun '(addr, name) => ("  " ++ ljust 8 name ++ " = 0x" ++ pad 8 (show_hex (csr_at (iss d) addr)))%string)
    CSR_BY_ADDR.

Definition instruction_line (d : Debugger) (addr word : Z) : string :=
  (rjust 5 (show_dec addr) ++ ": " ++ pad 8 (show_hex word) ++ "  " ++ disasm word (dxlen d))%string.

Definition print_disas (n : Z) (d : Debugger) : list string :=
  map (fun i =>
         let addr := pc (iss d) + i * 4 in
         let marker := if i =? 0 then "-> " else "   " in
         let bp := if bool_decide (addr ∈ breakpoints d) then "*" else " " in
         (marker ++ bp ++ instruction_line d addr (word_at d addr))%string)
    (seqZ 0 n).

Definition HELP : string :=
"Commands:
  step [n]          execute n instructions (default 1)
  continue          run until a breakpoint, halt, or program end
  break <addr>      set a breakpoint at a byte address (multiple of 4)
  delete <addr>     remove a breakpoint
  breakpoints       list active breakpoints
  regs              dump all 32 registers
  reg <n>           show register xN
  mem <addr> [len]  dump `len` (default 16) bytes of data memory from `addr`
  csr               dump the 5 implemented CSRs
  disas [n]         disassemble n instructions starting at pc (default 5)
  pc                show the current pc
  restart           reset architectural state and start over
  history [n]       show the last n executed instructions (default 10)
  help              this message
  quit              exit
".

(** ** The command loop *)

(** How the handling of a line ends: back to the prompt, by [return], or by an
    exception. *)
Inductive reply : Type :=
| Prompt (d : Debugger)
| Quit (d : Debugger)
| Crash (e : exn) (d : Debugger).

(** [int(args[0]) if args else dflt] *)
Definition int_arg (args : list string) (dflt : Z) : result Z :=
  match args with a :: _ => py_int10 a | [] => Ok dflt end.

(** [for _ in range(n): if not dbg.step_one(): print(...); break] *)
Fixpoint step_times (n : nat) (d : Debugger) : list string * Debugger * option exn :=
  match n with
  | O => ([], d, None)
  | S n =>
      match step_one d with
      | (d, Ok true) => step_times n d
      | (d, Ok false) => (["(end of program)"], d, None)
      | (d, Err e) => ([], d, Some e)
      end
  end.

Definition cmd_step (args : list string) (d : Debugger) : list string * reply :=
  match int_arg args 1 with
  | Err e => ([], Crash e d)
  | Ok n =>
      match step_times (Z.to_nat n) d with
      | (out, d, Some e) => (out, Crash e d)
      | (out, d, None) => ((out ++ print_disas 1 d)%list, Prompt d)
      end
  end.

Definition cmd_continue (d : Debugger) : list string * reply :=
  match run_until 200000 d with
  | (d, Err e) => ([], Crash e d)
  | (d, Ok s) => (status s :: if at_end d then [] else print_disas 1 d, Prompt d)
  end.

(** [break] and [delete]: [int(args[0], 0)] and a change of the set. *)
Definition cmd_breakpoint (name : string) (f : Z -> gset Z -> gset Z) (args : list string) (d : Debugger)
  : list string * reply :=
  match args with
  | [] => ([("usage: " ++ name ++ " <addr>")%string], Prompt d)
  | a :: _ =>
      match py_int0 a with
      | Err e => ([], Crash e d)
      | Ok addr => ([], Prompt (with_breakpoints (f addr (breakpoints d)) d))
      end
  end.

Definition show_breakpoints (b : gset Z) : string :=
  match merge_sort Z.le (elements b) with
  | [] => "(none)"
  | l => ("[" ++ join ", " (map show_dec l) ++ "]")%string
  end.

Definition cmd_reg (args : list string) (d : Debugger) : list string * reply :=
  match args with
  | [] => (["usage: reg <n>"], Prompt d)
  | a :: _ =>
      match (let! n := py_int10 a in let! v := py_index (regs (iss d)) n in Ok (n, v)) with
      | Err e => ([], Crash e d)
      | Ok (n, v) =>
          ([("x" ++ show_dec n ++ " = 0x" ++ pad (reg_hex_digits d) (show_hex v) ++ " (" ++ show_dec v ++ ")")%string],
           Prompt d)
      end
  end.

Definition cmd_mem (args : list string) (d : Debugger) : list string * reply :=
  match args with
  | [] => (["usage: mem <addr> [len]"], Prompt d)
  | a :: rest =>
      match (let! addr := py_int0 a in let! length := int_arg rest 16 in Ok (addr, length)) with
      | Err e => ([], Crash e d)
      | Ok (addr, length) =>
          ([join " " (map (fun b => pad 2 (show_hex b)) (py_slice (mem (iss d)) addr (addr + length)))], Prompt d)
      end
  end.

(** A command whose argument is a count and which changes nothing. *)
Definition cmd_show (args : list string) (dflt : Z) (show : Z -> list string) (d : Debugger)
  : list string * reply :=
  match int_arg args dflt with Err e => ([], Crash e d) | Ok n => (show n, Prompt d) end.

Definition show_history (d : Debugger) (n : Z) : list string :=
  map (fun '(p, word) => ("   " ++ instruction_line d p word)%string) (py_from (history d) (- n)).

Definition one_of (cmd : string) (names : list string) : bool := existsb (String.eqb cmd) names.

Definition command (cmd : string) (args : list string) (d : Debugger) : list string * reply :=
  if one_of cmd ["q"; "quit"; "exit"] then ([], Quit d)
  else if one_of cmd ["h"; "help"] then ([HELP], Prompt d)
  else if one_of cmd ["s"; "step"] then cmd_step args d
  else if one_of cmd ["c"; "continue"] then cmd_continue d
  else if (cmd =? "break")%string then cmd_breakpoint "break" (fun a b => {[a]} ∪ b) args d
  else if (cmd =? "delete")%string then cmd_breakpoint "delete" (fun a b => b ∖ {[a]}) args d
  else if (cmd =? "breakpoints")%string then ([show_breakpoints (breakpoints d)], Prompt d)
  else if one_of cmd ["r"; "regs"] then (print_regs d, Prompt d)
  else if (cmd =? "reg")%string then cmd_reg args d
  else if (cmd =? "mem")%string then cmd_mem args d
  else if (cmd =? "csr")%string then (print_csrs d, Prompt d)
  else if (cmd =? "disas")%string then cmd_show args 5 (fun n => print_disas n d) d
  else if (cmd =? "pc")%string then ([show_dec (pc (iss d))], Prompt d)
  else if (cmd =? "restart")%string then
    let d := reset d in ("restarted" :: print_disas 3 d, Prompt d)
  else if (cmd =? "history")%string then cmd_show args 10 (show_history d) d
  else ([("unknown command " ++ py_repr cmd ++ " -- type `help`")%string], Prompt d).

Definition repl_line (line : string) (d : Debugger) : list string * reply :=
  match split_ws "" (strip line) with
  | [] => ([], Prompt d)
  | cmd :: args => command cmd args d
  end.

(** The loop on the lines of the input; after the last one [input] raises
    [EOFError], which prints an empty line. *)
Fixpoint repl_loop (input : list string) (d : Debugger) : list string * reply :=
  match input with
  | [] => ([""], Quit d)
  | line :: input =>
      match repl_line line d with
      | (out, Prompt d) => let '(rest, r) := repl_loop input d in ((out ++ rest)%list, r)
      | (out, r) => (out, r)
      end
  end.

Definition repl (input : list string) (d : Debugger) : list string * reply :=
  let '(out, r) := repl_loop input d in
  (("Loaded " ++ show_dec (Z.of_nat (List.length (words d))) ++ " instructions. Type `help` for commands.")%string ::
   (print_disas 3 d ++ out)%list, r).
