(* ===== verification/DebugRun.v ===== *)
(** * What the debugger shows

    [continue] runs the program as [ISS.run] does, up to a breakpoint; and
    whatever is typed, the history the debugger keeps is the execution that led
    to its state. *)

From Stdlib Require Import Ascii String.
From S2P Require Import Prelude Bits Float32 Machine Mmu Exec Run Reach Forward PyStr Disasm PyText Roundtrip AsmLink Debugger.
Open Scope string_scope.
Open Scope Z_scope.

(** ** One round *)

(** The copy of the self-loop test agrees with the simulator's. *)
Lemma is_self_loop_eq w : is_self_loop w = self_loop w.
Proof.
  unfold is_self_loop, self_loop. destruct (_ =? 0x6F); [|done]. cbn [andb].
  rewrite jal_off_imm. fold (j_imm w). cbv zeta. pose proof (j_imm_range w) as [R _].
  rewrite sext_signed, signed_unfold by done. pose proof (sign_bit (j_imm w) 21 ltac:(done)) as S.
  rewrite (Z.mod_small (j_imm w)) in * by done. change (1 ≪ (21 - 1)) with (1 ≪ 20) in S. rewrite S.
  by destruct (_ <? _).
Qed.

(** A state in which addresses are what the program counter says: M-mode, no
    interrupt scheduled, the program counter in range. *)
Definition direct (st : ISS) : Prop :=
  priv_mode st = PRIV_M /\ pending_interrupt st = None /\ 0 <= pc st < 2 ^ xlen st /\ 0 <= xlen st.

Lemma round_direct ws mx steps st :
  direct st -> steps < mx ->
  run_round ws mx steps st =
  if Z.of_nat (List.length ws) * 4 <=? pc st then inr (Finished steps st)
  else
    let w := zget ws (pc st / 4) in
    if self_loop w then inr (Finished steps st)
    else match step w st with
         | Ok st' => inl (steps + 1, st')
         | Err e => inr (Raised e st)
         end.
Proof.
  intros (HM & HI & Hp & Hx) Hs. unfold run_round. destruct (Z.ltb_spec steps mx); [|lia]. cbn [negb].
  unfold interrupt_due. rewrite HI. rewrite translate_M, uxlen_small by done. done.
Qed.

Lemma word_at_direct d :
  direct (iss d) -> at_end d = false -> word_at d (pc (iss d)) = zget (words d) (pc (iss d) / 4).
Proof.
  intros (_ & _ & Hp & _) He. unfold at_end in He. apply Z.leb_gt in He. unfold word_at. cbv zeta.
  destruct (Z.leb_spec 0 (pc (iss d) / 4)), (Z.ltb_spec (pc (iss d) / 4) (Z.of_nat (List.length (words d))));
    (done || exfalso; dlia).
Qed.

(** ** [continue] *)

(** Every state the simulator's loop reaches is direct. *)
Definition safe (ws : list Z) (mx : Z) (p : Z * ISS) : Prop :=
  forall q, rtc (round_rel ws mx) p q -> direct q.2.

Lemma safe_round ws mx p q : safe ws mx p -> run_round ws mx p.1 p.2 = inl q -> safe ws mx q.
Proof.
  intros H R r Hr. apply H. eapply rtc_l; [|exact Hr]. unfold round_rel. rewrite R. by destruct q.
Qed.

(** How the debugger's loop ends, [k] rounds after the state it began in. *)
Definition stopped (ws : list Z) (mx : Z) (bps : gset Z) (steps : Z) (st : ISS) (r : result stop) : Prop :=
  match r with
  | Ok EndOfProgram | Ok HaltedSelfLoop => run_round ws mx steps st = inr (Finished steps st)
  | Ok (BreakpointHit p) => 0 < steps /\ p = pc st /\ p ∈ bps
  | Ok (Exceeded m) => m = mx /\ run_round ws mx steps st = inr (Raised RuntimeError st)
  | Err e => run_round ws mx steps st = inr (Raised e st)
  end.

Lemma run_until_rounds mx todo : forall steps d d' r,
  0 <= steps -> steps + Z.of_nat todo = mx -> safe (words d) mx (steps, iss d) ->
  run_until_loop todo mx steps d = (d', r) ->
  words d' = words d /\ breakpoints d' = breakpoints d /\
  exists k, rounds k (words d) mx (steps, iss d) = Some (steps + Z.of_nat k, iss d') /\
    (forall j q, (j < k)%nat -> 0 < steps + Z.of_nat j ->
       rounds j (words d) mx (steps, iss d) = Some q -> pc q.2 ∉ breakpoints d) /\
    stopped (words d) mx (breakpoints d) (steps + Z.of_nat k) (iss d') r.
Proof.
  induction todo as [|todo IH]; intros steps d d' r H0 Hs Hsafe E; cbn [run_until_loop] in E.
  { injection E as <- <-. split_and!; [done..|]. exists 0%nat. rewrite Z.add_0_r. split_and!; [done | lia |].
    simpl. split; [done|]. unfold run_round. destruct (Z.ltb_spec steps mx); [lia | done]. }
  assert (direct (iss d)) as Hd by (by apply (Hsafe (steps, iss d))).
  pose proof (round_direct (words d) mx steps (iss d) Hd ltac:(lia)) as R. fold (at_end d) in R.
  assert (forall s, stopped (words d) mx (breakpoints d) steps (iss d) s ->
    exists k, rounds k (words d) mx (steps, iss d) = Some (steps + Z.of_nat k, iss d) /\
      (forall j q, (j < k)%nat -> 0 < steps + Z.of_nat j ->
         rounds j (words d) mx (steps, iss d) = Some q -> pc q.2 ∉ breakpoints d) /\
      stopped (words d) mx (breakpoints d) (steps + Z.of_nat k) (iss d) s) as Stop.
  { intros s S. exists 0%nat. rewrite Z.add_0_r. split_and!; [done | lia | done]. }
  destruct (at_end d) eqn:He.
  { injection E as <- <-. split_and!; [done..|]. apply Stop. exact R. }
  rewrite word_at_direct, is_self_loop_eq in E by done. cbv zeta in R.
  destruct (self_loop (zget (words d) (pc (iss d) / 4))).
  { injection E as <- <-. split_and!; [done..|]. apply Stop. exact R. }
  destruct (bool_decide (pc (iss d) ∈ breakpoints d) && (0 <? steps)) eqn:Hb.
  { injection E as <- <-. apply andb_true_iff in Hb as [Hb%bool_decide_eq_true Hp%Z.ltb_lt].
    split_and!; [done..|]. by apply Stop. }
  unfold step_one in E. rewrite He, word_at_direct in E by done. cbv zeta in E.
  destruct (step _ (iss d)) as [st'|e].
  2:{ injection E as <- <-. split_and!; [done..|]. apply Stop. exact R. }
  apply IH in E as (Hw & Hbp & k & Hk & Hskip & Hstop); [| lia | lia | by eapply safe_round].
  cbn [with_iss words breakpoints iss] in *. split_and!; [done..|].
  exists (S k). cbn [rounds fst snd]. rewrite R.
  replace (steps + Z.of_nat (S k)) with (steps + 1 + Z.of_nat k) by lia. split_and!; [done | | done].
  intros [|j] q Hj Hpos Hq.
  - injection Hq as <-. rewrite Z.add_0_r in Hpos. apply andb_false_iff in Hb as [Hb|Hb].
    + by apply bool_decide_eq_false in Hb.
    + apply Z.ltb_ge in Hb. lia.
  - cbn [rounds fst snd] in Hq. rewrite R in Hq. eapply Hskip; [| |exact Hq]; lia.
Qed.

(** Rounds are a prefix of the run. *)
(** C39: [continue] is the simulator's own run, up to a breakpoint.  From a state
    from which the run stays in M-mode, with no interrupt scheduled and the
    program counter in range, [run_until] stops in a state the run of [ISS.run]
    reaches after [k] steps; none of the states in between is at a breakpoint
    (the one it started in may be); and it stops there because the run ends there
    in the same way (end of the program or self-loop, the step limit, or an
    exception), or because the state is at a breakpoint. *)
Theorem continue_refines_run d max_steps d' r :
  0 <= max_steps -> safe (words d) max_steps (0, iss d) -> run_until max_steps d = (d', r) ->
  words d' = words d /\ breakpoints d' = breakpoints d /\
  exists k : nat,
    (forall fuel, run (k + fuel) (words d) max_steps (iss d) =
       run_loop fuel (words d) max_steps (Z.of_nat k) (iss d')) /\
    (forall j steps st, (0 < j < k)%nat ->
       rounds j (words d) max_steps (0, iss d) = Some (steps, st) -> pc st ∉ breakpoints d) /\
    match r with
    | Ok EndOfProgram | Ok HaltedSelfLoop =>
        forall fuel, run (k + S fuel) (words d) max_steps (iss d) = Finished (Z.of_nat k) (iss d')
    | Ok (BreakpointHit p) => (0 < k)%nat /\ p = pc (iss d') /\ p ∈ breakpoints d
    | Ok (Exceeded m) =>
        m = max_steps /\
        forall fuel, run (k + S fuel) (words d) max_steps (iss d) = Raised RuntimeError (iss d')
    | Err e => forall fuel, run (k + S fuel) (words d) max_steps (iss d) = Raised e (iss d')
    end.
Proof.
  intros Hm Hsafe E. apply run_until_rounds in E as (Hw & Hb & k & Hk & Hskip & Hstop); [| lia | lia | done].
  split_and!; [done..|]. exists k. rewrite Z.add_0_l in *.
  pose proof (fun fuel => rounds_run k fuel _ _ _ _ Hk) as R. cbn [fst snd] in R.
  split_and!; [exact R | |].
  - intros j steps st Hj Hq. apply (Hskip j _ ltac:(lia) ltac:(lia) Hq).
  - assert (forall o, run_round (words d) max_steps (Z.of_nat k) (iss d') = inr o ->
      forall fuel, run (k + S fuel) (words d) max_steps (iss d) = o) as Ends.
    { intros o Ho fuel. unfold run. rewrite R. cbn [run_loop]. by rewrite Ho. }
    destruct r as [[| |p|m]|e]; simpl in Hstop; [by apply Ends | by apply Ends | | | by apply Ends].
    + destruct Hstop as (H1 & H2 & H3). split_and!; [lia | done | done].
    + destruct Hstop as [H1 H2]. split; [done | by apply Ends].
Qed.

(** Reachable states by evaluation, for programs that end. *)
Lemma rtc_rounds ws mx p q : rtc (round_rel ws mx) p q -> exists n, rounds n ws mx p = Some q.
Proof.
  induction 1 as [p|p q r R _ [n IH]]; [by exists 0%nat|]. exists (S n). cbn [rounds].
  unfold round_rel in R. rewrite R. by destruct q.
Qed.

Definition directb (st : ISS) : bool :=
  (priv_mode st =? PRIV_M) && bool_decide (pending_interrupt st = None) &&
  (0 <=? pc st) && (pc st <? 2 ^ xlen st) && (0 <=? xlen st).

Fixpoint all_direct (n : nat) (ws : list Z) (mx : Z) (p : Z * ISS) : bool :=
  directb p.2 &&
  match n with
  | O => false
  | S n => match run_round ws mx p.1 p.2 with inl q => all_direct n ws mx q | inr _ => true end
  end.

Lemma all_direct_safe n ws mx p : all_direct n ws mx p = true -> safe ws mx p.
Proof.
  intros H q [m Hm]%rtc_rounds. revert p m H Hm. induction n as [|n IH]; intros p m H Hm;
    cbn [all_direct] in H; apply andb_true_iff in H as [Hd H]; [done|].
  destruct m as [|m]; cbn [rounds] in Hm.
  - injection Hm as <-. unfold directb in Hd. rewrite !andb_true_iff in Hd.
    destruct Hd as ((((H1 & H2) & H3) & H4) & H5). apply bool_decide_eq_true in H2. py_bool.
    unfold direct. split_and!; (done || lia).
  - destruct (run_round ws mx p.1 p.2) as [p'|]; [|done]. by eapply IH.
Qed.

(** Two turns of a loop that counts down: [continue] from its start stops at the
    loop's head, where a breakpoint is. *)
Definition at_breakpoint : Debugger :=
  with_breakpoints {[4]} (new_debugger [0x00300093; 0xFFF08093; 0xFE009EE3; 0x0000006F] 64 32).

Lemma continue_refines_run_witness :
  exists d' (k : nat), run_until 100 at_breakpoint = (d', Ok (BreakpointHit 4)) /\ (0 < k)%nat /\
    forall fuel, run (k + fuel) (words at_breakpoint) 100 (init 64 32) =
      run_loop fuel (words at_breakpoint) 100 (Z.of_nat k) (iss d').
Proof.
  assert (safe (words at_breakpoint) 100 (0, iss at_breakpoint)) as Hs
    by (apply (all_direct_safe 20); vm_compute; reflexivity).
  destruct (run_until 100 at_breakpoint) as [d' r] eqn:E.
  destruct (continue_refines_run at_breakpoint 100 d' r ltac:(lia) Hs E) as (_ & _ & k & R & _ & S).
  assert (r = Ok (BreakpointHit 4)) as -> by (vm_compute in E; by injection E as _ <-).
  exists d', k. split_and!; [done | apply S | exact R].
Defined.

(** ** The history *)

(** Executing the recorded instructions, each at the address and with the word
    that were recorded. *)
Fixpoint replay (ws : list Z) (h : list (Z * Z)) (st : ISS) : option ISS :=
  match h with
  | [] => Some st
  | (p, w) :: h =>
      if (p =? pc st) && (p <? 4 * Z.of_nat (List.length ws)) && ((p <? 0) || (w =? zget ws (p / 4))) then
        match step w st with Ok st' => replay ws h st' | Err _ => None end
      else None
  end.

Lemma replay_snoc ws h p w st st' :
  replay ws (h ++ [(p, w)]) st = Some st' <->
  exists s, replay ws h st = Some s /\ replay ws [(p, w)] s = Some st'.
Proof.
  revert st. induction h as [|[q v] h IH]; intros st.
  - split; [by exists st | by intros (s & [= <-] & H)].
  - cbn [app replay]. destruct (_ && _); [|split; [done | by intros (s & ? & _)]].
    destruct (step v st); [apply IH | split; [done | by intros (s & ? & _)]].
Qed.

Section History.
  Context (ws : list Z) (size xl : Z).

(** The fixed part of the debugger is what it was made with, and its state is
    where its history leads. *)
Definition consistent (d : Debugger) : Prop :=
  words d = ws /\ mem_size d = size /\ dxlen d = xl /\ replay ws (history d) (init size xl) = Some (iss d).

(** After an exception the last entry is the instruction that raised it. *)
Definition crashed (e : exn) (d : Debugger) : Prop :=
  consistent d \/
  exists h w, history d = (h ++ [(pc (iss d), w)])%list /\ replay ws h (init size xl) = Some (iss d) /\
    step w (iss d) = Err e.

Lemma word_at_replay d :
  words d = ws -> at_end d = false ->
  (pc (iss d) <? 4 * Z.of_nat (List.length ws)) &&
  ((pc (iss d) <? 0) || (word_at d (pc (iss d)) =? zget ws (pc (iss d) / 4))) = true.
Proof.
  intros Hw He. unfold at_end in He. apply Z.leb_gt in He. rewrite Hw in He. unfold word_at. rewrite Hw. cbv zeta.
  destruct (Z.ltb_spec (pc (iss d)) (4 * Z.of_nat (List.length ws))); [|lia]. cbn [andb].
  destruct (Z.ltb_spec (pc (iss d)) 0); [done|]. cbn [orb].
  destruct (Z.leb_spec 0 (pc (iss d) / 4)), (Z.ltb_spec (pc (iss d) / 4) (Z.of_nat (List.length ws)));
    cbn [andb]; (apply Z.eqb_refl || exfalso; dlia).
Qed.

Lemma step_one_consistent d d' r :
  consistent d -> step_one d = (d', r) ->
  match r with Ok _ => consistent d' | Err e => crashed e d' end.
Proof.
  intros (Hw & Hs & Hx & Hr). unfold step_one. destruct (at_end d) eqn:He; [intros [= <- <-]; done|].
  pose proof (word_at_replay d Hw He) as W. cbv zeta.
  destruct (step (word_at d (pc (iss d))) (iss d)) as [st|e] eqn:Es; intros [= <- <-].
  - unfold consistent. cbn [with_iss words mem_size dxlen history iss]. split_and!; [done..|].
    apply replay_snoc. exists (iss d). split; [done|]. cbn [replay].
    rewrite Z.eqb_refl. cbn [andb]. by rewrite W, Es.
  - right. by eexists _, _.
Qed.

Lemma step_times_consistent n : forall d out d' e,
  consistent d -> step_times n d = (out, d', e) ->
  match e with None => consistent d' | Some e => crashed e d' end.
Proof.
  induction n as [|n IH]; intros d out d' e Hc E; cbn [step_times] in E; [by injection E as <- <- <-|].
  destruct (step_one d) as [d1 [[]|e1]] eqn:E1; pose proof (step_one_consistent _ _ _ Hc E1) as H1; simpl in H1.
  - by eapply IH.
  - by injection E as <- <- <-.
  - by injection E as <- <- <-.
Qed.

Lemma run_until_consistent mx n : forall steps d d' r,
  consistent d -> run_until_loop n mx steps d = (d', r) ->
  match r with Ok _ => consistent d' | Err e => crashed e d' end.
Proof.
  induction n as [|n IH]; intros steps d d' r Hc E; cbn [run_until_loop] in E; [by injection E as <- <-|].
  destruct (at_end d); [by injection E as <- <-|]. cbv zeta in E.
  destruct (is_self_loop _); [by injection E as <- <-|].
  destruct (_ && _); [by injection E as <- <-|].
  destruct (step_one d) as [d1 [b|e1]] eqn:E1; pose proof (step_one_consistent _ _ _ Hc E1) as H1; simpl in H1;
    [by eapply IH | by injection E as <- <-].
Qed.

Definition reply_ok (r : reply) : Prop :=
  match r with
  | Prompt d | Quit d => consistent d
  | Crash e d => crashed e d
  end.

Lemma command_consistent cmd args d : consistent d -> reply_ok (command cmd args d).2.
Proof.
  intros Hc. unfold command.
  destruct (one_of cmd ["q"; "quit"; "exit"]); [done|]. destruct (one_of cmd ["h"; "help"]); [done|].
  destruct (one_of cmd ["s"; "step"]).
  { unfold cmd_step. destruct (int_arg args 1); [|by left].
    destruct (step_times _ d) as [[out d'] [e|]] eqn:E; by apply step_times_consistent in E. }
  destruct (one_of cmd ["c"; "continue"]).
  { unfold cmd_continue. destruct (run_until 200000 d) as [d' [s|e]] eqn:E; by apply run_until_consistent in E. }
  destruct (cmd =? "break")%string; [unfold cmd_breakpoint; destruct args; [done|]; destruct (py_int0 _); [done | by left]|].
  destruct (cmd =? "delete")%string; [unfold cmd_breakpoint; destruct args; [done|]; destruct (py_int0 _); [done | by left]|].
  destruct (cmd =? "breakpoints")%string; [done|]. destruct (one_of cmd ["r"; "regs"]); [done|].
  destruct (cmd =? "reg")%string; [unfold cmd_reg; destruct args; [done|]; destruct (rbind _ _) as [[]|]; [done | by left]|].
  destruct (cmd =? "mem")%string; [unfold cmd_mem; destruct args; [done|]; destruct (rbind _ _) as [[]|]; [done | by left]|].
  destruct (cmd =? "csr")%string; [done|].
  destruct (cmd =? "disas")%string; [unfold cmd_show; destruct (int_arg _ _); [done | by left]|].
  destruct (cmd =? "pc")%string; [done|].
  destruct (cmd =? "restart")%string.
  { destruct Hc as (Hw & Hs & Hx & _). unfold reply_ok, consistent, reset. cbn. rewrite Hs, Hx. done. }
  destruct (cmd =? "history")%string; [unfold cmd_show; destruct (int_arg _ _); [done | by left] | done].
Qed.

Lemma repl_loop_consistent input : forall d, consistent d -> reply_ok (repl_loop input d).2.
Proof.
  induction input as [|line input IH]; intros d Hc; cbn [repl_loop]; [done|].
  assert (reply_ok (repl_line line d).2) as H.
  { unfold repl_line. destruct (split_ws _ _); [done | by apply command_consistent]. }
  destruct (repl_line line d) as [out [d'|d'|e d']]; [|done..].
  specialize (IH d' H). by destruct (repl_loop input d').
Qed.

End History.

