(* ===== verification/Testbench.v ===== *)
(** * Test benches and the state they dump

    The tools that run the core fill a Verilog template, compile and run it, and
    read the decimal numbers it prints, one to a line.  The Verilog simulator is a
    parameter of the tools; this file has what they share, and the reader
    [src/sim/tools/read_dump.py] of a dump kept on disk. *)

From Stdlib Require Import Ascii String.
From S2P Require Import Prelude Bits Float32 Machine Mmu Exec Memory PyStr Asm Disasm PyText.
From S2P Require Import AsmText AsmLink AsmImage MemFile.
Open Scope string_scope.
Open Scope Z_scope.

(** ** Running a bench *)

(** What comes of compiling and running a bench: a failed compilation, a run that
    fails or leaves no output file, or the lines of the output file. *)
Inductive sim : Type :=
| CompileError
| SimulationError
| SimOutput (file : list string).

(** A chain of [.replace(placeholder, value)] *)
Definition fill (tpl : string) (values : list (string * string)) : string :=
  foldl (fun t (kv : string * string) => py_replace (fst kv) (snd kv) 0 t) tpl values.

(** [asm.py] run as a process: the file it writes and the number of instructions
    it reports; any exception is a failed run. *)
Definition asm_py (source : list string) (size xl : Z) : option (list string * Z) :=
  match (let! words := assemble source xl in
         let! data := write_mem words size in
         Ok (mem_lines data, Z.of_nat (List.length words))) with
  | Ok r => Some r
  | Err _ => None
  end.

(** ** Reading a dump *)

(** [[f(int(l.strip())) for l in file if l.strip()]] *)
Fixpoint dump_values (f : Z -> Z) (file : list string) : result (list Z) :=
  match file with
  | [] => Ok []
  | line :: rest =>
      if (strip line =? "")%string then dump_values f rest
      else
        let! v := py_int10 (strip line) in
        let! vs := dump_values f rest in
        Ok (f v :: vs)
  end.

(** ** [read_dump.py] *)

Definition load_mem (file : list string) : result (list Z) :=
  let! vals := dump_values (fun v => v .& 0xFF) file in
  Ok (py_from vals 32).

(** [for i, byte in enumerate(b): v |= byte << (8 * i)] *)
Fixpoint or_bytes (i v : Z) (b : list Z) : Z :=
  match b with [] => v | byte :: b => or_bytes (i + 1) (v .| (byte ≪ (8 * i))) b end.
Definition read_le (mem : list Z) (addr size : Z) (signed : bool) : Z :=
  let v := or_bytes 0 0 (py_slice mem addr (addr + size)) in
  if signed && truthy (v .& (1 ≪ (size * 8 - 1))) then v - (1 ≪ (size * 8)) else v.

(** [f"{z:#x}"] *)
Definition show_0x (z : Z) : string := if z <? 0 then "-0x" ++ show_hex (- z) else "0x" ++ show_hex z.
Definition read_line (mem : list Z) (a size : Z) (signed : bool) : string :=
  let v := read_le mem a size signed in
  "[" ++ show_0x a ++ "] = " ++ show_dec v ++ " (" ++ show_0x v ++ ")".

(** [main]: the lines it prints for the addresses of each option. *)
Definition read_dump (file : list string) (u8 i8 u16 u32 : list Z) (count : Z) : result (list string) :=
  let! mem := load_mem file in
  Ok (concat (map (fun '(size, signed, addrs) =>
    concat (map (fun addr => map (fun i => read_line mem (addr + i * size) size signed) (seqZ 0 count)) addrs))
    [(1, false, u8); (1, true, i8); (2, false, u16); (4, false, u32)])).

(** ** What a dump says *)

(** [$fdisplay(fd, "%0d", v)] for each value. *)
Definition dump_lines (vals : list Z) : list string := map show_dec vals.

Lemma dump_values_lines f vals : dump_values f (dump_lines vals) = Ok (map f vals).
Proof.
  induction vals as [|v vals IH]; [done|]. cbn [dump_lines map dump_values].
  rewrite strip_clean by apply show_dec_clean.
  destruct (String.eqb_spec (show_dec v) "") as [E|_]; [by destruct (show_dec_clean v)|].
  rewrite py_int10_dec. cbn [rbind]. change (map show_dec vals) with (dump_lines vals). by rewrite IH.
Qed.

Lemma map_id_Forall {A} (f : A -> A) (P : A -> Prop) l : (forall x, P x -> f x = x) -> Forall P l -> map f l = l.
Proof. intros H. induction 1 as [|x l Hx _ IH]; [done|]. simpl. by rewrite H, IH. Qed.

Lemma land_byte v : is_byte v -> v .& 0xFF = v.
Proof. unfold is_byte. intros. rewrite (land_lit v 0xFF 8) by done. apply Z.mod_small. lia. Qed.

(** The memory part of a dump of 32 registers and a memory. *)
Lemma load_mem_dump rs m :
  List.length rs = 32%nat -> Forall is_byte m -> load_mem (dump_lines (rs ++ m)) = Ok m.
Proof.
  intros L B. unfold load_mem. rewrite dump_values_lines. cbn [rbind]. rewrite map_app.
  rewrite (map_id_Forall _ is_byte m) by (done || apply land_byte). f_equal.
  unfold py_from, py_slice, clamp. rewrite length_app, length_map, L.
  destruct (Z.ltb_spec 32 0); [lia|]. destruct (Z.ltb_spec (Z.of_nat (32 + List.length m)) 0); [lia|].
  rewrite !Z.min_l by lia. rewrite drop_app_length' by (rewrite length_map, L; done).
  apply take_ge. lia.
Qed.

(** ** Values read are values loaded *)

Lemma or_bytes_get (m : list Z) addr n :
  0 <= addr -> addr + Z.of_nat n <= Z.of_nat (List.length m) ->
  or_bytes 0 0 (py_slice m addr (addr + Z.of_nat n)) = get_le m addr n.
Proof.
  intros H0 H1. unfold py_slice, clamp.
  destruct (Z.ltb_spec addr 0); [lia|]. destruct (Z.ltb_spec (addr + Z.of_nat n) 0); [lia|].
  rewrite !Z.min_l by lia. replace (Z.to_nat (addr + Z.of_nat n - addr)) with n by lia.
  assert (forall b i v, or_bytes i v b = foldl (fun v (p : Z * Z) => v .| (snd p ≪ (8 * fst p))) v
    (zip (seqZ i (Z.of_nat (List.length b))) b)) as F.
  { induction b as [|x b IH]; intros i v; [done|]. cbn [or_bytes]. rewrite IH. cbn [List.length].
    rewrite (seqZ_cons i) by lia. cbn [zip_with foldl]. repeat f_equal; lia. }
  rewrite F. unfold get_le.
  assert (forall xs : list Z, (forall i, i ∈ xs -> 0 <= i < Z.of_nat n) -> forall v,
    foldl (fun v (p : Z * Z) => v .| (snd p ≪ (8 * fst p))) v (map (fun i => (i, zget m (addr + i))) xs) =
    foldl (fun val i => val .| (bs_get m (addr + i) ≪ (8 * i))) v xs) as G.
  { induction xs as [|i xs IH]; intros Hin v; [done|]. cbn [map foldl fst snd].
    rewrite IH by (intros; apply Hin; by apply list_elem_of_further).
    do 3 f_equal. cbn [bs_get bytearray_store]. unfold array_get, array_in.
    specialize (Hin i (list_elem_of_here _ _)).
    destruct (Z.leb_spec 0 (addr + i)), (Z.ltb_spec (addr + i) (Z.of_nat (length m))); done || lia. }
  rewrite <- G by (intros i Hi; apply elem_of_seqZ in Hi; lia).
  f_equal. rewrite length_take, length_drop, Nat.min_l by lia.
  apply list_eq. intros k. rewrite list_lookup_fmap.
  destruct (decide (k < n)%nat) as [K|K].
  - rewrite (lookup_seqZ_lt _ (Z.of_nat n) k) by lia. cbn.
    destruct (lookup_lt_is_Some_2 m (Z.to_nat addr + k) ltac:(lia)) as [x Hx].
    apply lookup_zip_with_Some. exists (0 + Z.of_nat k), x. split_and!.
    + unfold zget. replace (Z.to_nat (addr + (0 + Z.of_nat k))) with (Z.to_nat addr + k)%nat by lia. by rewrite Hx.
    + apply lookup_seqZ. lia.
    + by rewrite lookup_take_lt, lookup_drop.
  - rewrite (lookup_seqZ_ge _ (Z.of_nat n) k) by lia. cbn.
    apply lookup_zip_with_None. right. by apply lookup_take_ge; lia.
Qed.

(** In range, the simulator's memory is the array of its bytes. *)
Lemma get_le_array st k addr n :
  mem_mask st = 2 ^ k - 1 -> 0 <= k -> Z.of_nat (List.length (mem st)) = 2 ^ k ->
  0 <= addr -> addr + Z.of_nat n <= 2 ^ k -> 2 ^ k <= MMIO_BASE ->
  get_le st addr n = get_le (mem st) addr n.
Proof.
  intros Hm Hk L H0 H1 H2. induction n as [|n IH]; [done|]. rewrite !get_le_S, IH by lia. do 2 f_equal.
  cbn [bs_get ISS_store bytearray_store]. unfold load_mem_byte, array_get, array_in.
  destruct (Z.leb_spec MMIO_BASE (addr + Z.of_nat n)); [lia|].
  destruct (Z.leb_spec 0 (addr + Z.of_nat n)), (Z.ltb_spec (addr + Z.of_nat n) (Z.of_nat (length (mem st)))); try lia.
  cbn [andb]. rewrite Hm. assert (2 ^ k - 1 = Z.ones k) as -> by (rewrite Z.ones_equiv; lia).
  rewrite Z.land_ones, Z.mod_small by lia. done.
Qed.

Lemma get_le_range (m : list Z) addr n :
  Forall is_byte m -> 0 <= get_le m addr n < 2 ^ (8 * Z.of_nat n).
Proof.
  intros B. induction n as [|n IH]; [done|]. rewrite get_le_S.
  assert (0 <= bs_get m (addr + Z.of_nat n) < 2 ^ 8) as Hb.
  { cbn [bs_get bytearray_store]. unfold array_get. case_match; [|lia].
    by apply (zget_Forall is_byte); [unfold is_byte; lia|]. }
  rewrite Z.shiftl_mul_pow2, (lor_low' (8 * Z.of_nat n)) by (try lia; apply Z.mod_mul; lia).
  replace (8 * Z.of_nat (S n)) with (8 * Z.of_nat n + 8) by lia. rewrite Z.pow_add_r by lia. nia.
Qed.

Lemma read_le_spec (m : list Z) addr n signed_ :
  Forall is_byte m -> 0 <= addr -> (0 < n)%nat -> addr + Z.of_nat n <= Z.of_nat (List.length m) ->
  read_le m addr (Z.of_nat n) signed_ =
  if signed_ then signed (get_le m addr n) (8 * Z.of_nat n) else get_le m addr n.
Proof.
  intros B H0 Hn H1. unfold read_le. rewrite or_bytes_get by done.
  pose proof (get_le_range m addr n B) as R. destruct signed_; [|done]. cbn [andb].
  replace (Z.of_nat n * 8) with (8 * Z.of_nat n) by lia. set (w := 8 * Z.of_nat n) in *.
  rewrite <- (Z.mod_small (get_le m addr n) (2 ^ w)) at 1 by done. rewrite sign_bit by lia.
  rewrite signed_unfold, Z.mod_small, shiftl_1 by lia. by destruct (_ <? _).
Qed.

(** C21: a dump read back with [read_dump] shows what the program's own loads
    see.  From the file of the 32 registers and the memory of a machine,
    [load_mem] recovers the memory, and at every address in it the unsigned
    byte, signed byte, halfword and word readers give the values the simulator's
    [lbu], [lb], [lhu] and [lw] load (the word as an unsigned number). *)
Theorem dump_reads_loads st k addr :
  wf st -> 0 <= k -> Z.of_nat (List.length (mem st)) = 2 ^ k -> 2 ^ k <= MMIO_BASE ->
  0 <= addr -> addr + 4 <= 2 ^ k ->
  exists m, load_mem (dump_lines (regs st ++ mem st)) = Ok m /\ m = mem st /\
    load_value st 4 addr = Ok (read_le m addr 1 false) /\
    load_value st 0 addr = Ok (read_le m addr 1 true) /\
    load_value st 5 addr = Ok (read_le m addr 2 false) /\
    load_value st 2 addr = Ok (s32 (read_le m addr 4 false)).
Proof.
  intros Hwf Hk L HM H0 H1. exists (mem st).
  pose proof (wf_mem _ Hwf) as B. assert (mem_mask st = 2 ^ k - 1) as Hm by (rewrite (wf_mem_mask _ Hwf); lia).
  destruct (load_value_get st addr Hwf) as (L0 & _ & L2 & _ & L4 & L5 & _).
  rewrite (load_mem_dump (regs st)) by (done || apply (wf_regs_len _ Hwf)).
  assert (forall n, (0 < n <= 4)%nat -> read_le (mem st) addr (Z.of_nat n) false = get_le st addr n) as R.
  { intros n Hn. rewrite read_le_spec by (done || lia). symmetry. apply (get_le_array st k); (done || lia). }
  assert (read_le (mem st) addr 1 true = signed (get_le st addr 1) 8) as R1.
  { rewrite (read_le_spec _ _ 1) by (done || lia). f_equal. symmetry. apply (get_le_array st k); (done || lia). }
  pose proof (R 1%nat ltac:(lia)) as E1. pose proof (R 2%nat ltac:(lia)) as E2. pose proof (R 4%nat ltac:(lia)) as E4.
  change (Z.of_nat 1) with 1 in E1. change (Z.of_nat 2) with 2 in E2. change (Z.of_nat 4) with 4 in E4.
  rewrite s32_signed, R1, E1, E2, E4. by split_and!.
Qed.

(** The stack pointer and first bytes of a machine of 16 bytes. *)
Lemma dump_reads_loads_witness :
  exists m, load_mem (dump_lines (regs (init 16 32) ++ mem (init 16 32))) = Ok m /\ m = mem (init 16 32) /\
    load_value (init 16 32) 4 12 = Ok (read_le m 12 1 false) /\
    load_value (init 16 32) 0 12 = Ok (read_le m 12 1 true) /\
    load_value (init 16 32) 5 12 = Ok (read_le m 12 2 false) /\
    load_value (init 16 32) 2 12 = Ok (s32 (read_le m 12 4 false)).
Proof.
  apply (dump_reads_loads (init 16 32) 4 12); try lia; [|done|done].
  apply wf_init; [by left | lia].
Defined.
