(* ===== verification/DebugSession.v ===== *)
(** * Starting the debugger

    [assemble_if_needed] and [main] of [src/sim/tools/debugger.py]: which words a
    session works on. *)

From Stdlib Require Import Ascii String.
From S2P Require Import Prelude Bits Float32 Machine Mmu Exec Run PyStr Asm Disasm PyText.
From S2P Require Import AsmText AsmLink AsmImage MemFile Debugger Testbench.
Open Scope string_scope.
Open Scope Z_scope.

(** [path.endswith(suffix)] *)
Definition ends_with (suffix path : string) : bool :=
  let n := String.length path in
  let k := String.length suffix in
  (Nat.leb k n && (substring (n - k) k path =? suffix)%string)%bool.

(** [content] is the text of the file at [path], line by line; [None] stands for
    [sys.exit(1)]. *)
Definition assemble_if_needed (path : string) (content : list string) (mem_size xl : Z) : result (option (list Z)) :=
  if ends_with ".mem" path then
    let! ws := load_words content in Ok (Some ws)
  else
    match asm_py content mem_size xl with
    | None => Ok None
    | Some (tmp_mem, _) => let! ws := load_words tmp_mem in Ok (Some ws)
    end.

(** A session on the lines typed: the output and how it ends. *)
Definition debugger_main (path : string) (content : list string) (mem_size xl : Z) (input : list string) :
    result (option (list string * reply)) :=
  let! w := assemble_if_needed path content mem_size xl in
  match w with
  | None => Ok None
  | Some ws => Ok (Some (repl input (new_debugger ws mem_size xl)))
  end.

(** ** What a session works on *)

Lemma asm_py_ok source size xl words data :
  assemble source xl = Ok words -> write_mem words size = Ok data ->
  asm_py source size xl = Some (mem_lines data, Z.of_nat (List.length words)).
Proof. intros A W. unfold asm_py. rewrite A. cbn [rbind]. by rewrite W. Qed.

(** A session on a source file starts on the assembled words with the bytes of each
    reversed; on a [.mem] file in the order of [swap_instruction_words] it starts
    on the words themselves. *)
Theorem session_words path source xl words size data mem_path input :
  assemble source xl = Ok words -> 0 <= size -> size mod 4 = 0 -> write_mem words size = Ok data ->
  ends_with ".mem" path = false -> ends_with ".mem" mem_path = true ->
  (exists ws, debugger_main path source size xl input = Ok (Some (repl input (new_debugger ws size xl))) /\
     forall k w, words !! k = Some w -> ws !! k = Some (bswap32 w)) /\
  (exists swapped ws, swap_instruction_words data = Ok swapped /\
     debugger_main mem_path (mem_lines swapped) size xl input = Ok (Some (repl input (new_debugger ws size xl))) /\
     forall k w, words !! k = Some w -> ws !! k = Some w).
Proof.
  intros A Hs Hm W P M. destruct (load_words_byte_order source xl words size data A Hs Hm W) as (ws & sw & ws' & L & R & S & L' & R').
  unfold debugger_main, assemble_if_needed. rewrite P, M, (asm_py_ok _ _ _ _ _ A W), L. split.
  - by exists ws.
  - exists sw, ws'. rewrite L'. by split_and!.
Qed.

(** An error of the assembler ends the process before the first prompt. *)
Lemma session_exits path source xl size input e :
  ends_with ".mem" path = false -> (let! words := assemble source xl in write_mem words size) = Err e ->
  debugger_main path source size xl input = Ok None.
Proof.
  intros P E. unfold debugger_main, assemble_if_needed, asm_py. rewrite P.
  destruct (assemble source xl) as [ws|]; [|done]. cbn [rbind] in E |- *. by rewrite E.
Qed.

(** The first instruction of a program, as a session on its source shows it. *)
Example session_shows_reversed :
  debugger_main "prog.s" ["addi x1, x0, 3"] 4 32 ["quit"] =
  Ok (Some (repl ["quit"] (new_debugger [0x93003000] 4 32))).
Proof. vm_compute. reflexivity. Qed.
