(* ===== verification/ByteOrder.v ===== *)
(** * Programs loaded with their bytes reversed

    [load_words] takes the first line of a group of four as the most significant
    byte, [asm.py] writes the least significant byte first.  The word the simulator
    then finds at address 0 is the reversal of the first instruction; when its low
    byte is no opcode, the simulator traps to address 0 for ever. *)

From S2P Require Import Prelude Bits Float32 Machine Mmu Exec Run Csr Reach Forward.
From S2P Require Import PyStr Asm Disasm AsmText Roundtrip AsmLink AsmImage MemFile.
Open Scope Z_scope.

(** The opcodes [step] dispatches on. *)
Definition opcodes : list Z :=
  [Exec.OP_R; Exec.OP_32; Exec.OP_CUSTOM; Exec.OP_I; Exec.OP_IMM_32;
   Exec.OP_LOAD; Exec.OP_STORE; Exec.OP_BRANCH; Exec.OP_JAL; Exec.OP_JALR; Exec.OP_LUI;
   Exec.OP_AUIPC; Exec.OP_SYSTEM; Exec.OP_LOAD_FP; Exec.OP_STORE_FP; Exec.OP_FP; Exec.OP_MADD; Exec.OP_MSUB;
   Exec.OP_NMSUB; Exec.OP_NMADD; Exec.OP_MISC_MEM].
Definition unknown (w : Z) : bool := negb (w =? 0) && negb (existsb (Z.eqb (op_of w)) opcodes).

Lemma unknown_step w st : unknown w = true -> step w st = Ok (trap MCAUSE_ILLEGAL_INSTRUCTION 0 st).
Proof.
  unfold unknown, opcodes. cbn [existsb]. intros H. py_bool. unfold step. cbv zeta.
  repeat match goal with
  | E : (?a =? ?b) = false |- context [?a =? ?b] => rewrite E
  | E : ?a <> ?b |- context [?a =? ?b] => rewrite (proj2 (Z.eqb_neq a b) E)
  end.
  done.
Qed.

Lemma unknown_not_loop w : unknown w = true -> self_loop w = false.
Proof.
  unfold unknown, self_loop, opcodes. intros H. py_bool. cbn [existsb] in *. unfold op_of in *. py_bool.
  change Exec.OP_JAL with 0x6F in *. destruct (Z.eqb_spec (w .& 0x7F) 0x6F); done.
Qed.

(** At reset, or back at address 0 after such a trap. *)
Definition resettled (words : list Z) (st : ISS) : Prop := at_word words 0 st /\ csr_at st CSR_MTVEC = 0.

Lemma resettled_trap words c st : resettled words st -> resettled words (trap c 0 st).
Proof.
  intros [(P & K & N & X & M & I) T]. pose proof (trap_frame c 0 st) as F. cbv zeta in F.
  assert (trap_to_s st c = false) as D by (unfold trap_to_s; by rewrite M).
  assert (csr_at (trap c 0 st) CSR_MTVEC = 0) as T'.
  { unfold trap. cbv zeta. rewrite D. unfold csr_at, set_csr in *. cbn [csr with_pc with_priv with_csr].
    by rewrite !lookup_insert_ne by done. }
  split; [|done]. unfold at_word. destruct F as (-> & _ & _ & _ & _ & _ & _ & ->). split_and!; try done; try lia.
  - unfold trap in *. cbv zeta in *. rewrite D in *. exact T'.
  - unfold trap. cbv zeta. by rewrite D.
Qed.

Lemma unknown_spins words w mx n : forall steps st,
  words !! 0%nat = Some w -> unknown w = true -> resettled words st -> 0 <= steps ->
  (Z.to_nat (mx - steps) < n)%nat -> exists st', run_loop n words mx steps st = Raised RuntimeError st'.
Proof.
  induction n as [|n IH]; intros steps st W U R Hs Hn; [lia|]. cbn [run_loop].
  destruct (Z.lt_ge_cases steps mx).
  - rewrite (round_at words mx steps 0) by (done || apply R). cbv zeta.
    rewrite (zget_lookup words 0 w W : zget words 0 = w).
    rewrite unknown_not_loop, unknown_step by done. apply IH; try done; [by apply resettled_trap | lia | lia].
  - exists st. unfold run_round. by destruct (Z.ltb_spec steps mx); [lia|].
Qed.

(** A program whose first word is no instruction runs out of steps. *)
Lemma unknown_run words w mx fuel mem_size xl :
  words !! 0%nat = Some w -> unknown w = true -> xl = 32 \/ xl = 64 ->
  4 * Z.of_nat (length words) <= 2 ^ xl -> (Z.to_nat mx < fuel)%nat ->
  exists st, run fuel words mx (init mem_size xl) = Raised RuntimeError st.
Proof.
  intros W U X L F. apply (unknown_spins words w mx fuel 0 (init mem_size xl)); try done.
  - split; [|done]. unfold at_word. change (xlen (init mem_size xl)) with xl.
    pose proof (lookup_lt_Some _ _ _ W). split_and!; try done; lia.
  - by rewrite Z.sub_0_r.
Qed.

(** The first word of the file [asm.py] writes, as [load_words] reads it. *)
Lemma load_first lines xl words size data w :
  assemble lines xl = Ok words -> write_mem words size = Ok data -> 0 <= size -> words !! 0%nat = Some w ->
  exists ws, load_words (mem_lines data) = Ok ws /\ ws !! 0%nat = Some (bswap32 w) /\
    4 * Z.of_nat (length ws) <= size.
Proof.
  intros HA E Hs Hw. destruct (write_mem_ok _ _ _ Hs E) as (B & L & F).
  exists (be_words data). rewrite load_words_be by done.
  pose proof (lookup_lt_Some _ _ _ Hw). split_and!; [done| |].
  - rewrite <- (assembled_word_at lines xl words size data HA Hs E 0 w Hw).
    apply le_words_lookup; [done | lia].
  - rewrite <- L. clear. induction data as [l Hl|a b c d l IH] using four_ind.
    + destruct l as [|? [|? [|? [|? l]]]]; simpl in *; lia.
    + cbn [be_words length]. lia.
Qed.

(** The opcode of a reversed word is its top byte. *)
Lemma bswap32_low w : bswap32 w .& 0xFF = (w ≫ 24) .& 0xFF.
Proof.
  unfold bswap32. apply Z.bits_inj'. intros i Hi.
  rewrite !Z.land_spec, !Z.lor_spec, !Z.shiftl_spec, !Z.land_spec by lia.
  destruct (Z.ltb_spec i 8).
  - rewrite !(Z.testbit_neg_r _ (i - 24)), !(Z.testbit_neg_r _ (i - 16)), !(Z.testbit_neg_r _ (i - 8)) by lia.
    cbn [andb orb]. by rewrite <- andb_assoc, andb_diag.
  - assert (Z.testbit 0xFF i = false) as -> by (apply (Z.bits_above_log2 255); [lia | change (Z.log2 255) with 7; lia]).
    by rewrite !andb_false_r.
Qed.
