(* ===== verification/CrossCheck.v ===== *)
(** * The random cross-check

    [src/sim/tools/run_random_tests.py]: a generated program is assembled, executed
    by the simulator and by the Verilog core, and the two final states are
    compared.  The Verilog simulator is the parameter [simulate], from the text of
    the filled template and the memory file to what it prints. *)

From Stdlib Require Import Ascii String.
From S2P Require Import Prelude Bits Float32 Machine Mmu Exec Run Memory Reach Raises Forward PyStr Asm Disasm PyText.
From S2P Require Import AsmText AsmLink AsmImage MemFile RandGen RandLines RandItems RandLabels RandRun RandProgram.
From S2P Require Import Testbench ByteOrder.
Open Scope string_scope.
Open Scope Z_scope.

Definition SCALEUP_WINDOW_BYTES := 65536.

(** The parameters of the core that the runner only passes on. *)
Record core : Type := mkCore {
  hazard_strategy : Z;
  pipeline_profile : Z;
  branch_predictor : Z;
  cache_mode : Z;
  mem_latency_i : Z;
  mem_latency_d : Z
}.

(** ** One program *)

(** Why a program fails; [StillRunning] stands for a simulator run that has not
    ended within the fuel. *)
Inductive failure : Type :=
| AssemblerError
| ISSError (e : exn)
| RtlCompileError
| RtlSimulationError
| Mismatch (msg : string)
| StillRunning.
Inductive verdict : Type := Pass | Fail (f : failure).

Definition show_0x8 (z : Z) : string := "0x" ++ pad 8 (show_hex z).

(** [for i in range(n): if rtl[i] != iss[i]: mismatches.append(...)] *)
Fixpoint differences (fmt : Z -> Z -> Z -> string) (i : Z) (n : nat) (rtl iss : list Z) : result (list string) :=
  match n with
  | O => Ok []
  | S n =>
      let! a := py_index rtl i in
      let! b := py_index iss i in
      let! rest := differences fmt (i + 1) n rtl iss in
      Ok (if negb (a =? b) then fmt i a b :: rest else rest)
  end.

Definition both_values (show : Z -> string) (name : string) (a b : Z) : string :=
  name ++ ": RTL=" ++ show a ++ " ISS=" ++ show b.

Definition mismatches (vals : list Z) (mem_window : Z) (st : ISS) : result (list string) :=
  let rtl_regs := py_slice vals 0 32 in
  let rtl_mem := py_slice vals 32 (32 + mem_window) in
  let rtl_fregs := py_slice vals (32 + mem_window) (32 + mem_window + 32) in
  let! rtl_fflags := py_index vals (32 + mem_window + 32) in
  let! rtl_frm := py_index vals (32 + mem_window + 33) in
  let! m1 := differences (fun i => both_values show_0x ("x" ++ show_dec i)) 0 32 rtl_regs (regs st) in
  let! m2 := differences (fun i => both_values show_0x ("mem[" ++ show_dec i ++ "]")) 0 (Z.to_nat mem_window)
               rtl_mem (mem st) in
  let! m3 := differences (fun i => both_values show_0x8 ("f" ++ show_dec i)) 0 32 rtl_fregs (fregs st) in
  Ok (m1 ++ m2 ++ m3 ++
      (if negb (rtl_fflags =? fflags st) then [both_values show_0x "fflags" rtl_fflags (fflags st)] else []) ++
      (if negb (rtl_frm =? frm st) then [both_values show_0x "frm" rtl_frm (frm st)] else []))%list.

Definition compare (file : list string) (mem_window xl : Z) (st : ISS) : result verdict :=
  let reg_mask := (1 ≪ xl) - 1 in
  let! vals := dump_values (fun v => v .& reg_mask) file in
  let! ms := mismatches vals mem_window st in
  Ok (match ms with
      | [] => Pass
      | _ => Fail (Mismatch (join "; " (py_slice ms 0 8) ++ (if 8 <? Z.of_nat (List.length ms) then " ..." else "")))
      end).

Section Runner.
Variable simulate : string -> list string -> sim.
Variable fuel : nat.
(** The template's base name and text, and the paths the templates are filled with. *)
Variable template_name template init_file_rel out_path : string.

Definition uart_stimulus (interrupt : option string) : string :=
  match interrupt with
  | Some s =>
      if (s =? "uart")%string || (s =? "both")%string
      then "repeat (5) @(posedge clk);" ++ String (chr 10) "        drive_rx_byte(8'hA5);" else ""
  | None => ""
  end.

Definition bench_text (cfg : core) (max_time mem_size dump_window xl : Z) (interrupt : option string) : string :=
  fill template
    [("__INIT_FILE__", init_file_rel); ("__MAX_TIME__", show_dec max_time); ("__OUT_FILE__", out_path);
     ("__HAZARD_STRATEGY__", show_dec (hazard_strategy cfg));
     ("__PIPELINE_PROFILE__", show_dec (pipeline_profile cfg)); ("__MEM_SIZE__", show_dec mem_size);
     ("__DUMP_WINDOW__", show_dec dump_window); ("__BRANCH_PREDICTOR__", show_dec (branch_predictor cfg));
     ("__CACHE_MODE__", show_dec (cache_mode cfg)); ("__MEM_LATENCY_I__", show_dec (mem_latency_i cfg));
     ("__MEM_LATENCY_D__", show_dec (mem_latency_d cfg)); ("__XLEN__", show_dec xl);
     ("__UART_STIMULUS__", uart_stimulus interrupt)].

Definition run_one (cfg : core) (n_instrs mem_size : Z) (interrupt : option string) (mmu : bool) (xl : Z)
    (ds : list Z) : result verdict :=
  let! (source, interrupt_info) := gen_program n_instrs 32 mem_size interrupt mmu xl ds in
  let dump_window := Z.min mem_size SCALEUP_WINDOW_BYTES in
  match asm_py source dump_window xl with
  | None => Ok (Fail AssemblerError)
  | Some (prog_mem, real_n_instrs) =>
      let! words := load_words prog_mem in
      let iss := init mem_size xl in
      let iss := match interrupt_info with Some (after, cause) => schedule_interrupt after cause iss | None => iss end in
      match run fuel words 5000 iss with
      | Raised e _ => Ok (Fail (ISSError e))
      | OutOfFuel _ => Ok (Fail StillRunning)
      | Finished _ st =>
          let max_time := (real_n_instrs * 70 + 200) * 10 in
          match simulate (bench_text cfg max_time mem_size dump_window xl interrupt) prog_mem with
          | CompileError => Ok (Fail RtlCompileError)
          | SimulationError => Ok (Fail RtlSimulationError)
          | SimOutput file =>
              let uses_dump_window := (template_name =? "dump_regs_interrupt_template.v")%string in
              let mem_window := if uses_dump_window then dump_window else mem_size in
              compare file mem_window xl st
          end
      end
  end.
End Runner.

(** ** The command *)

Definition choose_mem_size (mem_size : option Z) (interrupt : option string) (mmu : bool) (xl : Z) : Z :=
  match mem_size, mmu, interrupt with
  | Some n, _, _ => n
  | None, true, _ => if xl =? 64 then 16384 else 8192
  | None, false, Some _ => 256
  | None, false, None => 128
  end.
Definition choose_template (mem_size : option Z) (interrupt : option string) (mmu : bool) : string :=
  let big := match mem_size with Some n => negb (n =? 128) | None => false end in
  match interrupt with
  | Some _ => "dump_regs_interrupt_template.v"
  | None => if mmu || big then "dump_regs_interrupt_template.v" else "dump_regs_template.v"
  end.

(** The verdict of each seed and the exit status; [run_seed] is [run_one] at the
    seed's draws. *)
Fixpoint run_seeds (run_seed : Z -> result verdict) (seed : Z) (count : nat) : result (list (Z * verdict)) :=
  match count with
  | O => Ok []
  | S count =>
      let! v := run_seed seed in
      let! vs := run_seeds run_seed (seed + 1) count in
      Ok ((seed, v) :: vs)
  end.
Definition is_fail (v : verdict) : bool := match v with Pass => false | Fail _ => true end.
Definition failed (vs : list (Z * verdict)) : Z :=
  Z.of_nat (List.length (filter (fun p : Z * verdict => is_fail (snd p)) vs)).

Definition cross_check (run_at : Z -> string -> Z -> result verdict) (mem_size : option Z)
    (interrupt : option string) (mmu : bool) (xl seed_start count : Z) : result (list (Z * verdict) * Z) :=
  match interrupt, mmu with
  | Some _, true => Ok ([], 2)
  | _, _ =>
      let size := choose_mem_size mem_size interrupt mmu xl in
      let! vs := run_seeds (run_at size (choose_template mem_size interrupt mmu)) seed_start (Z.to_nat count) in
      Ok (vs, if failed vs =? 0 then 0 else 1)
  end.

(** ** A pass is agreement *)

(** What a bench dumps of the core's final state, with [mem_window] bytes of
    memory. *)
Record final : Type := mkFinal {
  f_regs : list Z;
  f_mem : list Z;
  f_fregs : list Z;
  f_fflags : Z;
  f_frm : Z
}.
Definition final_values (r : final) : list Z := (f_regs r ++ f_mem r ++ f_fregs r ++ [f_fflags r; f_frm r])%list.
Definition final_ok (mem_window xl : Z) (r : final) : Prop :=
  List.length (f_regs r) = 32%nat /\ Z.of_nat (List.length (f_mem r)) = mem_window /\
  List.length (f_fregs r) = 32%nat /\ Forall (fun v => 0 <= v < 2 ^ xl) (final_values r).
Definition agrees (r : final) (st : ISS) : Prop :=
  f_regs r = regs st /\ f_mem r = take (List.length (f_mem r)) (mem st) /\ f_fregs r = fregs st /\
  f_fflags r = fflags st /\ f_frm r = frm st.

Lemma py_index_in l i x : 0 <= i -> l !! Z.to_nat i = Some x -> py_index l i = Ok x.
Proof. intros H E. unfold py_index. destruct (Z.ltb_spec i 0); [lia|]. destruct (Z.ltb_spec i 0); [lia|]. by rewrite E. Qed.

Lemma py_index_app l rest i (k : nat) x :
  i = Z.of_nat (List.length l) + Z.of_nat k -> rest !! k = Some x -> py_index (l ++ rest) i = Ok x.
Proof.
  intros -> E. apply py_index_in; [lia|]. rewrite lookup_app_r by lia. by replace (_ - _)%nat with k by lia.
Qed.

(** The comparison loop reports nothing exactly when the lists agree. *)
Lemma differences_spec fmt (n : nat) : forall (i : nat) rtl iss,
  (i + n <= List.length rtl)%nat -> (i + n <= List.length iss)%nat ->
  exists ms, differences fmt (Z.of_nat i) n rtl iss = Ok ms /\
    (ms = [] <-> take n (drop i rtl) = take n (drop i iss)).
Proof.
  induction n as [|n IH]; intros i rtl iss Hr Hi; [by exists []|]. cbn [differences].
  destruct (lookup_lt_is_Some_2 rtl i ltac:(lia)) as [a Ha]. destruct (lookup_lt_is_Some_2 iss i ltac:(lia)) as [b Hb].
  rewrite (py_index_in rtl (Z.of_nat i) a), (py_index_in iss (Z.of_nat i) b) by (rewrite ?Nat2Z.id; done || lia).
  cbn [rbind]. replace (Z.of_nat i + 1) with (Z.of_nat (S i)) by lia.
  destruct (IH (S i) rtl iss) as (ms & -> & E); [lia..|]. cbn [rbind].
  rewrite (drop_S rtl a i), (drop_S iss b i) by done. cbn [take].
  destruct (Z.eqb_spec a b) as [->|N]; cbn [negb]; eexists; (split; [reflexivity|]).
  - rewrite E. split; [by intros -> | by intros [=]].
  - split; [done | by intros [=]].
Qed.

Lemma differences_all fmt (n : nat) rtl iss :
  (n <= List.length rtl)%nat -> (n <= List.length iss)%nat ->
  exists ms, differences fmt 0 n rtl iss = Ok ms /\ (ms = [] <-> take n rtl = take n iss).
Proof. intros. exact (differences_spec fmt n 0 rtl iss ltac:(lia) ltac:(lia)). Qed.

Lemma slice_mid (a b c : list Z) i j :
  i = Z.of_nat (List.length a) -> j = i + Z.of_nat (List.length b) -> py_slice (a ++ b ++ c) i j = b.
Proof.
  intros -> ->. unfold py_slice, clamp. rewrite !length_app.
  destruct (Z.ltb_spec (Z.of_nat (List.length a)) 0); [lia|].
  destruct (Z.ltb_spec (Z.of_nat (List.length a) + Z.of_nat (List.length b)) 0); [lia|].
  rewrite !Z.min_l by lia. rewrite drop_app_length' by lia.
  replace (Z.to_nat (_ - _)) with (List.length b) by lia. by rewrite take_app_length.
Qed.

Lemma mismatches_spec r st mem_window xl :
  final_ok mem_window xl r -> wf st -> mem_window <= Z.of_nat (List.length (mem st)) ->
  exists ms, mismatches (final_values r) mem_window st = Ok ms /\ (ms = [] <-> agrees r st).
Proof.
  intros (L1 & L2 & L3 & _) Hwf Hw. unfold mismatches, final_values.
  pose proof (wf_regs_len _ Hwf). pose proof (wf_fregs_len _ Hwf).
  pose proof (slice_mid [] (f_regs r) (f_mem r ++ f_fregs r ++ [f_fflags r; f_frm r]) 0 32 ltac:(done)
    ltac:(lia)) as E0. cbn [app] in E0. rewrite E0. clear E0.
  rewrite (slice_mid (f_regs r) (f_mem r)) by lia.
  replace (f_regs r ++ f_mem r ++ f_fregs r ++ [f_fflags r; f_frm r])%list
    with ((f_regs r ++ f_mem r) ++ f_fregs r ++ [f_fflags r; f_frm r])%list by by rewrite <- app_assoc.
  rewrite (slice_mid (f_regs r ++ f_mem r) (f_fregs r)) by (rewrite ?length_app; lia).
  set (front := ((f_regs r ++ f_mem r) ++ f_fregs r)%list).
  assert (Z.of_nat (List.length front) = 32 + mem_window + 32) as LF by (unfold front; rewrite !length_app; lia).
  rewrite (app_assoc (f_regs r ++ f_mem r)). fold front.
  rewrite (py_index_app front _ _ 0 (f_fflags r)), (py_index_app front _ _ 1 (f_frm r)) by (done || lia).
  cbn [rbind].
  destruct (differences_all (fun i => both_values show_0x ("x" ++ show_dec i)) 32 (f_regs r) (regs st))
    as (m1 & -> & E1); [lia..|].
  destruct (differences_all (fun i => both_values show_0x ("mem[" ++ show_dec i ++ "]")) (Z.to_nat mem_window)
    (f_mem r) (mem st)) as (m2 & -> & E2); [lia..|].
  destruct (differences_all (fun i => both_values show_0x8 ("f" ++ show_dec i)) 32 (f_fregs r) (fregs st))
    as (m3 & -> & E3); [lia..|].
  cbn [rbind]. eexists. split; [reflexivity|].
  rewrite (take_ge (f_regs r)), (take_ge (regs st)) in E1 by lia.
  rewrite (take_ge (f_fregs r)), (take_ge (fregs st)) in E3 by lia.
  rewrite (take_ge (f_mem r)) in E2 by lia. replace (Z.to_nat mem_window) with (List.length (f_mem r)) in E2 by lia.
  unfold agrees. rewrite <- E1, <- E2, <- E3.
  destruct (Z.eqb_spec (f_fflags r) (fflags st)), (Z.eqb_spec (f_frm r) (frm st)); cbn [negb];
    (split; [intros E; repeat (apply app_nil in E as [? E]); done | intros (-> & -> & -> & ? & ?); done]).
Qed.

Lemma compare_spec r st mem_window xl :
  final_ok mem_window xl r -> wf st -> 0 <= xl -> mem_window <= Z.of_nat (List.length (mem st)) ->
  exists v, compare (dump_lines (final_values r)) mem_window xl st = Ok v /\ (v = Pass <-> agrees r st).
Proof.
  intros Hr Hwf Hx Hw. unfold compare. rewrite dump_values_lines. cbn [rbind].
  rewrite (map_id_Forall _ (fun v => 0 <= v < 2 ^ xl)); [| |by apply Hr].
  2:{ intros v Hv. rewrite land_ones_mod by done. by apply Z.mod_small. }
  destruct (mismatches_spec r st mem_window xl Hr Hwf Hw) as (ms & -> & E). cbn [rbind].
  eexists. split; [reflexivity|]. rewrite <- E. by destruct ms.
Qed.

(** The machine [run_one] starts. *)
Definition start (mem_size xl : Z) (info : option (Z * Z)) : ISS :=
  match info with
  | Some (after, cause) => schedule_interrupt after cause (init mem_size xl)
  | None => init mem_size xl
  end.

Lemma start_reachable mem_size xl info : reachable mem_size xl (start mem_size xl info).
Proof. destruct info as [[after cause]|]; [apply reach_schedule|]; apply reach_init. Qed.

Lemma finished_wf mem_size xl info fuel words steps st :
  xl = 32 \/ xl = 64 -> 0 < mem_size < 2 ^ xl ->
  run fuel words 5000 (start mem_size xl info) = Finished steps st ->
  wf st /\ Z.of_nat (List.length (mem st)) = mem_size.
Proof.
  intros Hx Hm E. pose proof (reachable_run_loop mem_size xl _ _ _ _ _ _ _ (start_reachable _ _ _) E) as R.
  destruct (reachable_good mem_size xl st Hx Hm R) as [W _]. split; [done|].
  pose proof (reachable_mem_mask _ _ _ R). pose proof (wf_mem_mask _ W). lia.
Qed.


(** A program of no random instructions, and a core that dumps zeros. *)
Definition demo_source : list string :=
  match gen_program 0 32 128 None false 32 [] with Ok (s, _) => s | Err _ => [] end.
Definition demo_mem : list string := match asm_py demo_source 128 32 with Some (f, _) => f | None => [] end.
Definition demo_final : final := mkFinal (replicate 32 0) (replicate 128 0) (replicate 32 0) 0 0.
Definition demo_simulate (text : string) (file : list string) : sim := SimOutput (dump_lines (final_values demo_final)).


(** ** The byte order of the words

    Every plain program starts with [addi x31, x0, 32], whose reversal is no
    instruction. *)

Lemma reversed_base w : sets_base 32 w -> unknown (bswap32 w) = true.
Proof.
  intros (_ & _ & _ & _ & I). unfold imm_i_of in I. set (f := (w ≫ 20) .& 0xFFF) in *.
  assert (0 <= f < 2 ^ 12) as Hf by (apply (land_range _ 12); lia).
  rewrite sext_signed, signed_unfold, Z.mod_small in I by lia.
  assert (f = 32) as F by (destruct (Z.ltb_spec f (2 ^ (12 - 1))); [done | pow_lits; lia]).
  assert ((w ≫ 24) .& 0xFF = 2) as T.
  { replace ((w ≫ 24) .& 0xFF) with (f ≫ 4); [by rewrite F|]. unfold f.
    rewrite Z.shiftr_land, Z.shiftr_shiftr by lia. done. }
  pose proof (bswap32_low w) as L. rewrite T in L.
  assert (op_of (bswap32 w) = 2) as O.
  { unfold op_of. change 0x7F with (0xFF .& 0x7F). by rewrite Z.land_assoc, L. }
  unfold unknown. rewrite O. destruct (Z.eqb_spec (bswap32 w) 0) as [E|_]; [by rewrite E in L | done].
Qed.

Lemma write_mem_fits words size :
  0 <= size -> 4 * Z.of_nat (List.length words) <= size -> exists data, write_mem words size = Ok data.
Proof.
  intros Hs Hf. unfold write_mem.
  pose proof (write_words_spec size words 0 (replicate (Z.to_nat size) 0) ltac:(lia)
    ltac:(rewrite length_replicate; lia) ltac:(lia)) as W.
  destruct (Z.leb_spec ((0 + Z.of_nat (List.length words)) * 4) size); [|lia].
  destruct W as (out & E & _). by exists out.
Qed.
Lemma write_mem_too_big words size :
  0 <= size < 4 * Z.of_nat (List.length words) -> write_mem words size = Err ValueError.
Proof.
  intros H. unfold write_mem.
  pose proof (write_words_spec size words 0 (replicate (Z.to_nat size) 0) ltac:(lia)
    ltac:(rewrite length_replicate; lia) ltac:(lia)) as W.
  by destruct (Z.leb_spec ((0 + Z.of_nat (List.length words)) * 4) size); [lia|].
Qed.

(** C37: at this commit the random cross-check cannot pass.  In its default mode,
    for every number of instructions, memory size, register width, seed and core,
    [run_one] reports a failure: the simulator runs out of steps on the words that
    [load_words] reads with their bytes reversed, or, when the memory is one word
    short of the program that the generator thought would fit, the assembler
    fails. *)
Theorem random_check_never_passes simulate fuel template_name template init_file out_path cfg n mem_size xl ds :
  plain_params n 32 mem_size xl -> check_budget n mem_size None false xl = Ok tt -> (5000 < fuel)%nat ->
  run_one simulate fuel template_name template init_file out_path cfg n mem_size None false xl ds =
  Ok (Fail (if 4 * program_len n xl <=? mem_size then ISSError RuntimeError else AssemblerError)).
Proof.
  intros Hp Hc Hf. destruct (gen_plain n 32 mem_size xl ds Hp Hc) as (lines & words & G & A & W & _ & F & _).
  destruct Hp as (Hn & _ & Hroom & Hx). pose proof (program_len_range n xl Hn) as HN.
  unfold run_one. rewrite G. cbn [rbind]. unfold asm_py. rewrite A. cbn [rbind].
  set (window := Z.min mem_size SCALEUP_WINDOW_BYTES).
  assert (0 <= window <= 65536) as HW by (unfold window, SCALEUP_WINDOW_BYTES; lia).
  destruct (Z.leb_spec (4 * program_len n xl) mem_size).
  - destruct (write_mem_fits words window) as [data E]; [lia | unfold window, SCALEUP_WINDOW_BYTES; lia|].
    rewrite E. cbn [rbind]. destruct (lookup_lt_is_Some_2 words 0 ltac:(lia)) as [w Hw].
    destruct (load_first lines xl words window data w A E ltac:(lia) Hw) as (ws & -> & W0 & L). cbn [rbind].
    destruct (unknown_run ws (bswap32 w) 5000 fuel mem_size xl W0) as [st ->]; try done.
    + by apply reversed_base, F.
    + destruct Hx as [-> | ->]; pow_lits; lia.
  - rewrite write_mem_too_big; [done|]. unfold window, SCALEUP_WINDOW_BYTES. lia.
Qed.

Lemma random_check_never_passes_witness :
  run_one demo_simulate (S (Z.to_nat 5000)) "dump_regs_template.v" "" "" "" (mkCore 0 0 0 0 0 0) 16 128 None false 32
    [7; 1; 4] = Ok (Fail (ISSError RuntimeError)).
Proof.
  apply (random_check_never_passes demo_simulate (S (Z.to_nat 5000)) "dump_regs_template.v" "" "" ""
    (mkCore 0 0 0 0 0 0) 16 128 32 [7; 1; 4]); [|done | lia]. unfold plain_params. lia.
Defined.
