(* ===== verification/AsmConcat.v ===== *)
(** * Assembling pieces

    [assemble] is compositional: branches and jumps are encoded as the distance to
    their label, so a piece of source that is complete by itself assembles to the
    same words wherever it stands. *)

From Stdlib Require Import Ascii String.
From S2P Require Import Prelude Bits PyStr Asm AsmText AsmLink RandLabels.
Open Scope string_scope.
Open Scope Z_scope.

(** An encoding depends on labels and position only through the distances. *)
Lemma encode_resolve labels labels' xl cur cur' mn args w :
  (forall tok v, resolve labels tok cur = Ok v -> resolve labels' tok cur' = Ok v) ->
  encode labels xl cur mn args = Ok w -> encode labels' xl cur' mn args = Ok w.
Proof.
  intros H. unfold encode.
  repeat match goal with |- (if ?b then _ else _) = _ -> _ => destruct b end; try done.
  - destruct (reg_arg args 0), (reg_arg args 1), (arg args 2) as [a2|]; cbn [rbind]; try done.
    destruct (resolve labels a2 cur) as [off|] eqn:R; [|done]. by rewrite (H _ _ R).
  - destruct (reg_arg args 0), (arg args 1) as [a1|]; cbn [rbind]; try done.
    destruct (resolve labels a1 cur) as [off|] eqn:R; [|done]. by rewrite (H _ _ R).
Qed.

Lemma assemble_stmt_resolve labels labels' xl cur cur' line w :
  (forall tok v, resolve labels tok cur = Ok v -> resolve labels' tok cur' = Ok v) ->
  assemble_stmt labels xl (cur, line) = Ok w -> assemble_stmt labels' xl (cur', line) = Ok w.
Proof. intros H. unfold assemble_stmt. destruct (re_split false (strip line)); [done|]. by apply encode_resolve. Qed.

(** Statements of a piece moved by [d] words, under other labels. *)
Lemma assemble_all_moved labels labels' xl d ss : forall k words,
  (forall j tok v, 0 <= j -> resolve labels tok (4 * j) = Ok v -> resolve labels' tok (4 * (d + j)) = Ok v) ->
  0 <= k ->
  assemble_all labels xl (imap (fun j s => (4 * (k + Z.of_nat j), s)) ss) = Ok words ->
  assemble_all labels' xl (imap (fun j s => (4 * (d + k + Z.of_nat j), s)) ss) = Ok words.
Proof.
  induction ss as [|s ss IH]; intros k words H Hk E; [done|]. cbn [imap assemble_all] in *.
  rewrite (imap_ext _ (fun j s => (4 * (k + 1 + Z.of_nat j), s))) in E by (intros; cbn; do 2 f_equal; lia).
  rewrite (imap_ext _ (fun j s => (4 * (d + (k + 1) + Z.of_nat j), s))) by (intros; cbn; do 2 f_equal; lia).
  destruct (assemble_stmt labels xl (4 * (k + Z.of_nat 0), s)) as [w|] eqn:Es; [|done]. cbn [rbind] in E.
  rewrite (assemble_stmt_resolve labels labels' xl (4 * (k + Z.of_nat 0)) (4 * (d + k + Z.of_nat 0)) s w); [|intros tok v R|exact Es].
  2:{ rewrite <- Z.add_assoc. apply H; [lia | exact R]. }
  cbn [rbind]. destruct (assemble_all labels xl (imap _ ss)) as [ws|] eqn:Ea; [|done].
  rewrite (IH (k + 1) ws H ltac:(lia) Ea). exact E.
Qed.

Lemma assemble_all_app labels xl xs ys :
  assemble_all labels xl (xs ++ ys) =
  let! wx := assemble_all labels xl xs in let! wy := assemble_all labels xl ys in Ok (wx ++ wy)%list.
Proof.
  induction xs as [|x xs IH]; cbn [app assemble_all rbind]; [by destruct (assemble_all labels xl ys)|].
  destruct (assemble_stmt labels xl x); [|done]. cbn [rbind]. rewrite IH.
  destruct (assemble_all labels xl xs); [|done]. cbn [rbind]. by destruct (assemble_all labels xl ys).
Qed.

Lemma assemble_stmts lines xl :
  assemble lines xl = assemble_all (pass1 lines).2 xl (imap (fun j s => (4 * (0 + Z.of_nat j), s)) (omap stmt_of lines)).
Proof.
  unfold assemble. pose proof (pass1_stmts lines) as S. destruct (pass1 lines) as [[ss addr] labels].
  injection S as -> _. done.
Qed.

(** ** Labels of two pieces *)

Lemma def_of_shift lines l : forall k d, def_of (d + k) lines l = (fun a => d + a) <$> def_of k lines l.
Proof.
  induction lines as [|r lines IH]; intros k d; [done|]. cbn [def_of]. rewrite <- Z.add_assoc, IH.
  destruct (def_of _ lines l); [done|]. cbn. by case_bool_decide.
Qed.

Lemma labels_app a b l :
  (pass1 (a ++ b)).2 !! l =
  match (pass1 b).2 !! l with Some x => Some (4 * stmts a + x) | None => (pass1 a).2 !! l end.
Proof.
  rewrite !pass1_def, def_of_app. replace (0 + stmts a) with (stmts a + 0) by lia. rewrite def_of_shift.
  destruct (def_of 0 b l); cbn; [|done]. f_equal. lia.
Qed.

(** No label is a number, so that a numeric operand is never a label. *)
Definition is_err {A} (r : result A) : bool := match r with Ok _ => false | Err _ => true end.
Definition names_ok (lines : list string) : Prop := map_Forall (fun l _ => is_err (py_int0 l)) (pass1 lines).2.
#[export] Instance names_ok_dec lines : Decision (names_ok lines).
Proof. unfold names_ok. apply _. Defined.

(** No label is defined in both pieces. *)
Definition no_clash (a b : list string) : Prop :=
  map_Forall (fun l _ => (pass1 b).2 !! l = None) (pass1 a).2.
#[export] Instance no_clash_dec a b : Decision (no_clash a b).
Proof. unfold no_clash. apply _. Defined.

Section Concat.
Context (a b : list string) (Na : names_ok a) (Nb : names_ok b) (Hc : no_clash a b).

Lemma numeral_not_label lines tok v : names_ok lines -> py_int0 tok = Ok v -> (pass1 lines).2 !! tok = None.
Proof. intros N E. destruct ((pass1 lines).2 !! tok) as [x|] eqn:L; [|done]. apply N in L. by rewrite E in L. Qed.

Lemma resolve_left tok v j :
  resolve (pass1 a).2 tok (4 * j) = Ok v -> resolve (pass1 (a ++ b)).2 tok (4 * (0 + j)) = Ok v.
Proof.
  unfold resolve. rewrite labels_app. destruct ((pass1 a).2 !! strip tok) as [x|] eqn:L.
  - by rewrite (Hc _ _ L).
  - intros E. by rewrite (numeral_not_label b (strip tok) v Nb E).
Qed.

Lemma resolve_right tok v j :
  resolve (pass1 b).2 tok (4 * j) = Ok v -> resolve (pass1 (a ++ b)).2 tok (4 * (stmts a + j)) = Ok v.
Proof.
  unfold resolve. rewrite labels_app. destruct ((pass1 b).2 !! strip tok) as [x|] eqn:L.
  - intros [= <-]. f_equal. lia.
  - intros E. by rewrite (numeral_not_label a (strip tok) v Na E).
Qed.

(** Two complete pieces assemble to the words of one after the words of the
    other. *)
Lemma assemble_concat xl wa wb :
  assemble a xl = Ok wa -> assemble b xl = Ok wb -> assemble (a ++ b) xl = Ok (wa ++ wb)%list.
Proof.
  rewrite !assemble_stmts. intros Ea Eb. rewrite omap_app, imap_app, assemble_all_app.
  pose proof (assemble_all_moved _ (pass1 (a ++ b)).2 xl 0 _ 0 wa ltac:(intros; by apply resolve_left) ltac:(lia) Ea) as E0.
  rewrite (E0 : assemble_all _ xl (imap (fun j s => (4 * (0 + Z.of_nat j), s)) (omap stmt_of a)) = Ok wa).
  cbn [rbind].
  pose proof (assemble_all_moved _ (pass1 (a ++ b)).2 xl (stmts a) _ 0 wb ltac:(intros; by apply resolve_right) ltac:(lia) Eb) as E.
  rewrite (imap_ext _ (fun j s => (4 * (stmts a + 0 + Z.of_nat j), s))); [by rewrite E|].
  intros j s _. unfold stmts. cbn. f_equal. lia.
Qed.
End Concat.
