(* ===== verification/Bench.v ===== *)
(** * The benchmark runner

    [src/sim/tools/bench_runner.py] and the kernels of [src/sim/benchmarks/]: each
    kernel is assembled, executed by the simulator, whose result is checked, and
    run on the Verilog core to count cycles, under one configuration or two that
    are compared.  The Verilog simulator is a parameter; what is printed is left
    out, and an IPC is kept as the exact ratio of its two counts. *)

From Stdlib Require Import Ascii String.
From S2P Require Import Prelude Bits Float32 Machine Mmu Exec Run Reach Forward PyStr Asm Disasm PyText.
From S2P Require Import AsmText AsmLink AsmImage MemFile Testbench ByteOrder CrossCheck.
Open Scope string_scope.
Open Scope Z_scope.

(** ** The kernels, without their comments *)

Definition bench_fib : list string :=
  ["addi x1, x0, 0"; "addi x2, x0, 1"; "addi x3, x0, 30"; "loop:"; "add  x4, x1, x2"; "add  x1, x0, x2";
   "add  x2, x0, x4"; "addi x3, x3, -1"; "bne  x3, x0, loop"; "add x10, x1, x0"; "fence"; "halt:";
   "jal x0, halt"].

Definition bench_sum_array : list string :=
  ["addi x9, x0, 32"; "addi x6, x0, 16"; "addi x7, x0, 1"; "addi x8, x0, 0"; "fill_loop:"; "sw   x7, 0(x9)";
   "addi x9, x9, 4"; "addi x7, x7, 1"; "addi x8, x8, 1"; "bne  x8, x6, fill_loop"; "addi x9, x0, 32";
   "addi x5, x0, 0"; "addi x8, x0, 0"; "sum_loop:"; "lw   x10, 0(x9)"; "add  x5, x5, x10"; "addi x9, x9, 4";
   "addi x8, x8, 1"; "bne  x8, x6, sum_loop"; "add x10, x5, x0"; "fence"; "halt:"; "jal x0, halt"].

Definition bench_bubble_sort : list string :=
  ["addi x9, x0, 64"; "addi x1, x0, 6"; "sw   x1, 0(x9)"; "addi x1, x0, 5"; "sw   x1, 4(x9)";
   "addi x1, x0, 4"; "sw   x1, 8(x9)"; "addi x1, x0, 3"; "sw   x1, 12(x9)"; "addi x1, x0, 2";
   "sw   x1, 16(x9)"; "addi x1, x0, 1"; "sw   x1, 20(x9)"; "addi x2, x0, 6"; "addi x3, x0, 0"; "outer:";
   "bge  x3, x2, done_sort"; "addi x4, x0, 0"; "sub  x11, x2, x3"; "addi x11, x11, -1"; "inner:";
   "bge  x4, x11, inner_done"; "slli x12, x4, 2"; "add  x13, x9, x12"; "lw   x14, 0(x13)";
   "lw   x15, 4(x13)"; "ble  x14, x15, no_swap"; "sw   x15, 0(x13)"; "sw   x14, 4(x13)"; "no_swap:";
   "addi x4, x4, 1"; "jal  x0, inner"; "inner_done:"; "addi x3, x3, 1"; "jal  x0, outer"; "done_sort:";
   "lw   x10, 0(x9)"; "fence"; "halt:"; "jal x0, halt"].

(** [sorted(glob(...))] over the directory. *)
Definition kernels : list (string * list string) :=
  [("bench_bubble_sort", bench_bubble_sort); ("bench_fib", bench_fib); ("bench_sum_array", bench_sum_array)].

(** ** One run *)

Definition MEM_SIZE_OVERRIDES : list (string * Z) := [("bench_bubble_sort", 512)].
Definition EXPECTED_X10 : list (string * Z) :=
  [("bench_fib", 832040); ("bench_sum_array", 136); ("bench_bubble_sort", 1)].

(** [d.get(name)] *)
Definition lookup_name {A} (name : string) (d : list (string * A)) : option A :=
  snd <$> List.find (fun p => (fst p =? name)%string) d.
Definition mem_size_of (name : string) : Z := default 128 (lookup_name name MEM_SIZE_OVERRIDES).

Record bench : Type := mkBench {
  instructions : Z;
  cycles : Z;
  icache_misses : Z;
  icache_accesses : Z;
  dcache_misses : Z
}.
Inductive bench_failure : Type :=
| BAssembler
| BISS (e : exn)
| BWrong (x10 expected : Z)
| BCompile
| BSimulation
| BStillRunning.

(** The numbers of the output file; [instrs / cycles] raises when no cycle was
    counted. *)
Definition read_counts (instrs : Z) (file : list string) : result bench :=
  let! vals := dump_values (fun v => v) file in
  let! cycles := py_index vals 0 in
  let! icache_misses := py_index vals 1 in
  let! icache_accesses := py_index vals 2 in
  let! dcache_misses := py_index vals 3 in
  if cycles =? 0 then Err ZeroDivisionError
  else Ok (mkBench instrs cycles icache_misses icache_accesses dcache_misses).

Section Bench.
Variable simulate : string -> list string -> sim.
Variable fuel : nat.
Variable template init_file_rel out_path : string.

Definition bench_max_time (cfg : core) (instrs : Z) : Z :=
  (instrs * (60 + 2 * (mem_latency_i cfg + mem_latency_d cfg)) + 500) * 10 +
  (if truthy (cache_mode cfg) then 4000 else 0).
Definition bench_template (cfg : core) (max_time mem_size xl : Z) : string :=
  fill template
    [("__INIT_FILE__", init_file_rel); ("__MAX_TIME__", show_dec max_time); ("__OUT_FILE__", out_path);
     ("__MEM_SIZE__", show_dec mem_size); ("__HAZARD_STRATEGY__", show_dec (hazard_strategy cfg));
     ("__PIPELINE_PROFILE__", show_dec (pipeline_profile cfg));
     ("__BRANCH_PREDICTOR__", show_dec (branch_predictor cfg)); ("__CACHE_MODE__", show_dec (cache_mode cfg));
     ("__XLEN__", show_dec xl); ("__MEM_LATENCY_I__", show_dec (mem_latency_i cfg));
     ("__MEM_LATENCY_D__", show_dec (mem_latency_d cfg))].

Definition run_bench (name : string) (prog_s : list string) (mem_size : Z) (cfg : core) (xl : Z)
  : result (bench + bench_failure) :=
  match asm_py prog_s mem_size xl with
  | None => Ok (inr BAssembler)
  | Some (prog_mem, _) =>
      let! words := load_words prog_mem in
      match run fuel words 200000 (init mem_size xl) with
      | Raised e _ => Ok (inr (BISS e))
      | OutOfFuel _ => Ok (inr BStillRunning)
      | Finished instrs st =>
          let x10 := zget (regs st) 10 in
          let wrong := match lookup_name name EXPECTED_X10 with
                       | Some expected => if negb (x10 =? expected) then Some expected else None
                       | None => None
                       end in
          match wrong with
          | Some expected => Ok (inr (BWrong x10 expected))
          | None =>
              match simulate (bench_template cfg (bench_max_time cfg instrs) mem_size xl) prog_mem with
              | CompileError => Ok (inr BCompile)
              | SimulationError => Ok (inr BSimulation)
              | SimOutput file => let! b := read_counts instrs file in Ok (inl b)
              end
          end
      end
  end.

(** ** The command *)

Inductive axis : Type := Strategy | Profile | Predictor | Cache | Latency.

(** [--compare-latency] compares with 3 cycles when no latency is given. *)
Definition effective (a : option axis) (args : core) : core :=
  match a with
  | Some Latency =>
      if (mem_latency_i args =? 0) && (mem_latency_d args =? 0)
      then mkCore (hazard_strategy args) (pipeline_profile args) (branch_predictor args) (cache_mode args) 3 3
      else args
  | _ => args
  end.

(** The keys and the configurations that are run. *)
Definition configurations (a : option axis) (args : core) : list (Z * core) :=
  let args := effective a args in
  match a with
  | Some Strategy => map (fun s => (s, mkCore s (pipeline_profile args) (branch_predictor args) (cache_mode args)
                                         (mem_latency_i args) (mem_latency_d args))) [0; 1]
  | Some Profile => map (fun p => (p, mkCore (hazard_strategy args) p (branch_predictor args) (cache_mode args)
                                        (mem_latency_i args) (mem_latency_d args))) [0; 1]
  | Some Predictor => map (fun bp => (bp, mkCore (hazard_strategy args) (pipeline_profile args) bp (cache_mode args)
                                            (mem_latency_i args) (mem_latency_d args))) [0; 1]
  | Some Cache => map (fun cm => (cm, mkCore (hazard_strategy args) (pipeline_profile args) (branch_predictor args) cm
                                        (mem_latency_i args) (mem_latency_d args))) [0; 1]
  | Some Latency => [(0, mkCore (hazard_strategy args) (pipeline_profile args) (branch_predictor args) (cache_mode args) 0 0);
                     (1, mkCore (hazard_strategy args) (pipeline_profile args) (branch_predictor args) (cache_mode args)
                           (mem_latency_i args) (mem_latency_d args))]
  | None => [(hazard_strategy args, args)]
  end.

Fixpoint run_all (progs : list (string * list string)) (cfg : core)
  : result (list (string * (bench + bench_failure))) :=
  match progs with
  | [] => Ok []
  | (name, prog_s) :: rest =>
      let! r := run_bench name prog_s (mem_size_of name) cfg 32 in
      let! rs := run_all rest cfg in
      Ok ((name, r) :: rs)
  end.
Fixpoint run_configs (progs : list (string * list string)) (cfgs : list (Z * core))
  : result (list (Z * list (string * (bench + bench_failure)))) :=
  match cfgs with
  | [] => Ok []
  | (key, cfg) :: rest =>
      let! r := run_all progs cfg in
      let! rs := run_configs progs rest in
      Ok ((key, r) :: rs)
  end.

(** The comparison: the change in cycles of each kernel both runs completed. *)
Definition deltas (r0 r1 : list (string * (bench + bench_failure))) : list (string * option Z) :=
  map (fun p : string * (bench + bench_failure) =>
    (fst p, match snd p, lookup_name (fst p) r1 with
            | inl b0, Some (inl b1) => Some (cycles b1 - cycles b0)
            | _, _ => None
            end)) r0.

Definition failures (all_results : list (Z * list (string * (bench + bench_failure)))) : list string :=
  concat (map (fun kr : Z * list (string * (bench + bench_failure)) =>
    map fst (filter (fun p : string * (bench + bench_failure) =>
      match snd p return bool with inl _ => false | inr _ => true end) (snd kr))) all_results).

(** The results, the comparison, and the exit status. *)
Definition bench_main (progs : list (string * list string)) (a : option axis) (args : core)
  : result (list (Z * list (string * (bench + bench_failure))) * list (string * option Z) * Z) :=
  match progs with
  | [] => Ok ([], [], 1)
  | _ =>
      let! all_results := run_configs progs (configurations a args) in
      let comparison := match a, all_results with Some _, [(_, r0); (_, r1)] => deltas r0 r1 | _, _ => [] end in
      Ok (all_results, comparison, match failures all_results with [] => 0 | _ => 1 end)
  end.
End Bench.

(** ** What the kernels compute *)

(** A kernel assembled to words that fit its memory and executed to its halt loop
    from any fuel of 300 rounds. *)
Definition executes (name : string) (prog_s : list string) (st : ISS) : Prop :=
  exists words steps, assemble prog_s 32 = Ok words /\ 4 * Z.of_nat (List.length words) <= mem_size_of name /\
    forall fuel, (300 <= fuel)%nat -> run fuel words 200000 (init (mem_size_of name) 32) = Finished steps st.

Definition final_state (name : string) (prog_s : list string) : ISS :=
  match assemble prog_s 32 with
  | Ok words => match run 300 words 200000 (init (mem_size_of name) 32) with Finished _ st => st | _ => init 0 32 end
  | Err _ => init 0 32
  end.
Definition halts_in_memory (name : string) (prog_s : list string) : bool :=
  match assemble prog_s 32 with
  | Ok words =>
      (4 * Z.of_nat (List.length words) <=? mem_size_of name) &&
      match run 300 words 200000 (init (mem_size_of name) 32) with Finished _ _ => true | _ => false end
  | Err _ => false
  end.

Lemma executes_final name prog_s : halts_in_memory name prog_s = true -> executes name prog_s (final_state name prog_s).
Proof.
  unfold halts_in_memory, final_state, executes. destruct (assemble prog_s 32) as [words|]; [|done].
  destruct (run 300 words 200000 (init (mem_size_of name) 32)) as [steps st| |] eqn:R;
    rewrite ?andb_false_r; try done. rewrite andb_true_r. intros L%Z.leb_le.
  exists words, steps. split_and!; [done | done |]. intros fuel Hf.
  unfold run in *. rewrite <- R. apply run_loop_more; [|done]. intros s. by rewrite R.
Qed.



(** ** What the runner makes of them *)

(** The first instruction of each kernel, its bytes reversed, is no instruction. *)
Lemma kernel_first name prog_s :
  (name, prog_s) ∈ kernels ->
  exists words w, assemble prog_s 32 = Ok words /\ words !! 0%nat = Some w /\ unknown (bswap32 w) = true /\
    0 <= mem_size_of name <= 512 /\ 4 * Z.of_nat (List.length words) <= mem_size_of name.
Proof.
  intros H. unfold kernels in H.
  repeat (apply elem_of_cons in H as [[= -> ->]|H];
    [eexists _, _; split_and!; first [vm_compute; reflexivity | by vm_compute]|]).
  by apply elem_of_nil in H.
Qed.

Lemma run_bench_fails simulate fuel template init_file out_path name prog_s cfg :
  (name, prog_s) ∈ kernels -> (Z.to_nat 200000 < fuel)%nat ->
  run_bench simulate fuel template init_file out_path name prog_s (mem_size_of name) cfg 32 =
  Ok (inr (BISS RuntimeError)).
Proof.
  intros H F. destruct (kernel_first name prog_s H) as (words & w & A & W & U & M & L).
  unfold run_bench, asm_py. rewrite A. cbn [rbind].
  destruct (write_mem_fits words (mem_size_of name)) as [data E]; [lia..|]. rewrite E. cbn [rbind].
  destruct (load_first prog_s 32 words _ data w A E ltac:(lia) W) as (ws & -> & W0 & L'). cbn [rbind].
  destruct (unknown_run ws (bswap32 w) 200000 fuel (mem_size_of name) 32 W0 U) as [st ->]; try done; [by left|].
  pow_lits. lia.
Qed.

Lemma run_all_fails simulate fuel template init_file out_path cfg :
  (Z.to_nat 200000 < fuel)%nat ->
  run_all simulate fuel template init_file out_path kernels cfg =
  Ok (map (fun p : string * list string => (fst p, inr (BISS RuntimeError))) kernels).
Proof.
  intros F. assert (forall ps, (forall p, p ∈ ps -> p ∈ kernels) ->
    run_all simulate fuel template init_file out_path ps cfg =
    Ok (map (fun p : string * list string => (fst p, inr (BISS RuntimeError))) ps)) as G; [|by apply G].
  induction ps as [|[name prog_s] ps IH]; intros Hin; [done|]. cbn [run_all map fst].
  rewrite run_bench_fails by (done || apply Hin, list_elem_of_here). cbn [rbind].
  rewrite IH; [done|]. intros p Hp. by apply Hin, list_elem_of_further.
Qed.

(** Two configurations that are compared differ on the chosen axis only. *)
Definition on_axis (a : axis) (c : core) : Z * Z :=
  match a with
  | Strategy => (hazard_strategy c, 0)
  | Profile => (pipeline_profile c, 0)
  | Predictor => (branch_predictor c, 0)
  | Cache => (cache_mode c, 0)
  | Latency => (mem_latency_i c, mem_latency_d c)
  end.
Inductive axis_spec (a : axis) (c0 c1 : core) : Prop :=
  axis_intro : on_axis a c0 = (0, 0) -> on_axis a c1 <> (0, 0) ->
    (forall b, b <> a -> on_axis b c0 = on_axis b c1) -> axis_spec a c0 c1.

Lemma comparison_varies_one_axis a args :
  exists c0 c1, configurations (Some a) args = [(0, c0); (1, c1)] /\ axis_spec a c0 c1 /\
    (forall b, b <> a -> on_axis b c1 = on_axis b args).
Proof.
  destruct a; eexists _, _; (split; [reflexivity|]); (split; [split|]); try done;
    try (intros b Hb; destruct b; cbn; (done || by repeat case_match)).
  cbn [on_axis effective]. destruct ((mem_latency_i args =? 0) && (mem_latency_d args =? 0)) eqn:Z0; [done|].
  intros [= H1 H2]. by rewrite H1, H2 in Z0.
Qed.

Lemma run_configs_fails simulate fuel template init_file out_path cfgs :
  (Z.to_nat 200000 < fuel)%nat ->
  run_configs simulate fuel template init_file out_path kernels cfgs =
  Ok (map (fun kc : Z * core => (fst kc, map (fun p : string * list string => (fst p, inr (BISS RuntimeError))) kernels)) cfgs).
Proof.
  intros F. induction cfgs as [|[key cfg] cfgs IH]; [done|]. cbn [run_configs]. rewrite run_all_fails by done.
  cbn [rbind]. by rewrite IH.
Qed.

(** The benchmark run cannot succeed at this commit: whatever the core and the
    options, every kernel fails in the simulator, which runs out of steps on the
    reversed words, so nothing is compared and the exit status is 1. *)
Lemma bench_runner_fails simulate fuel template init_file out_path a args :
  (Z.to_nat 200000 < fuel)%nat ->
  exists results comparison, bench_main simulate fuel template init_file out_path kernels a args = Ok (results, comparison, 1) /\
    results <> [] /\ (forall key rs name r, (key, rs) ∈ results -> (name, r) ∈ rs -> r = inr (BISS RuntimeError)) /\
    (forall name d, (name, d) ∈ comparison -> d = None).
Proof.
  intros F. unfold bench_main. change kernels with (("bench_bubble_sort", bench_bubble_sort) :: tail kernels) at 1.
  cbv iota. rewrite run_configs_fails by done. cbn [rbind].
  assert (exists k c rest, configurations a args = (k, c) :: rest) as (k & c & rest & ->)
    by (destruct a as [[]|]; do 3 eexists; reflexivity).
  eexists _, _. split; [reflexivity|]. split_and!.
  - done.
  - intros key rs name r H1 H2. apply list_elem_of_fmap in H1 as (kc & [= -> ->] & _).
    repeat (apply elem_of_cons in H2 as [[= -> ->]|H2]; [done|]). by apply elem_of_nil in H2.
  - intros name d. destruct a; [|intros H; by apply elem_of_nil in H].
    destruct rest as [|kc' [|]]; cbn [map]; try (intros H; by apply elem_of_nil in H).
    unfold deltas. intros (p & [= -> ->] & H)%list_elem_of_fmap. by apply list_elem_of_fmap in H as (q & -> & _).
Qed.
