(* ===== verification/Profiler.v ===== *)
(** * The profiler

    [src/sim/tools/profiler.py]: a kernel is extended with instructions that read
    the hardware counters, run twice on the Verilog core, and the counters are
    reported.  The Verilog simulator is a parameter; ratios are exact rationals
    where Python divides floats, and what is printed is left out. *)

From Stdlib Require Import Ascii String QArith.
From S2P Require Import Prelude Bits Float32 Machine Mmu Exec Run Reach PyStr Asm Disasm PyText.
From S2P Require Import AsmText AsmLink AsmImage MemFile RandLabels AsmConcat Testbench Bench.
Open Scope string_scope.
Open Scope Z_scope.

Definition MCYCLE := 0xB00.
Definition MINSTRET := 0xB02.
Definition MHPMCOUNTER3_BASE := 0xB03.
Definition MHPMEVENT3_BASE := 0x323.
Definition NUM_HPM := 9.

Definition STALL_CAUSE_NAMES : list string :=
  ["hazard"; "div"; "mem"; "fp"; "float_lu"; "itlb"; "dtlb"; "icache"; "imem_wait"].
Definition ORIGINAL_EVENT_NAMES : list string :=
  ["branches_retired"; "mispredicts"; "icache_hit"; "icache_miss"; "dcache_hit"; "dcache_miss"; "stall_aggregate";
   "interrupts"; "exceptions"].
Definition DUMP_REGS_A : list Z := seqZ 19 12.
Definition DUMP_REGS_B : list Z := seqZ 19 9.

(** ** Instruction mix *)

Definition MIX_BUCKETS : list (string * list string) :=
  [("branch", ["beq"; "bne"; "blt"; "bge"; "ble"; "bgt"]);
   ("jump", ["jal"; "jalr"]);
   ("load", ["lw"; "lh"; "lb"; "lhu"; "lbu"; "flw"]);
   ("store", ["sw"; "sh"; "sb"; "fsw"]);
   ("muldiv", ["mul"; "mulh"; "mulhsu"; "mulhu"; "div"; "divu"; "rem"; "remu"]);
   ("fp", ["fadd.s"; "fsub.s"; "fmul.s"; "fdiv.s"; "fsqrt.s"; "fmadd.s"; "fmsub.s"; "fnmadd.s"; "fnmsub.s";
           "fcvt.w.s"; "fcvt.wu.s"; "fcvt.s.w"; "fcvt.s.wu"; "fmv.x.w"; "fmv.w.x"; "fclass.s"; "feq.s"; "flt.s";
           "fle.s"; "fmin.s"; "fmax.s"]);
   ("csr", ["csrrw"; "csrrs"; "csrrc"; "csrrwi"; "csrrsi"; "csrrci"]);
   ("system", ["ecall"; "ebreak"; "mret"; "sret"; "sfence.vma"; "fence"; "nop"])].

Definition bucket_of (mn : string) : string :=
  match List.find (fun b : string * list string => one_of mn (snd b)) MIX_BUCKETS with Some b => fst b | None => "alu" end.

(** [counts[bucket] = counts.get(bucket, 0) + 1], in order of first use *)
Fixpoint bump (bucket : string) (counts : list (string * Z)) : list (string * Z) :=
  match counts with
  | [] => [(bucket, 1)]
  | (b, n) :: rest => if (b =? bucket)%string then (b, n + 1) :: rest else (b, n) :: bump bucket rest
  end.

Definition mix_line (acc : list (string * Z) * Z) (raw : string) : list (string * Z) * Z :=
  let line := strip (before_hash raw) in
  if (line =? "")%string || ends_with_colon line then acc
  else
    let mn := lower (List.hd "" (re_split false line)) in
    (bump (bucket_of mn) (fst acc), snd acc + 1).
Definition classify_mix (kernel_lines : list string) : list (string * Z) * Z := foldl mix_line ([], 0) kernel_lines.

(** ** The programs that are run *)

Definition csrrs (rd csr_addr : Z) : string := "csrrs x" ++ show_dec rd ++ ", 0x" ++ show_hex csr_addr ++ ", x0".
Definition csrrwi (csr_addr uimm : Z) : string := "csrrwi x0, 0x" ++ show_hex csr_addr ++ ", " ++ show_dec uimm.
Definition csrrw0 (csr_addr : Z) : string := "csrrw x0, 0x" ++ show_hex csr_addr ++ ", x0".

(** The loop of [insert_before_halt]; [None] if no line was the label. *)
Fixpoint insert_lines (lines new_lines : list string) : option (list string) :=
  match lines with
  | [] => None
  | line :: rest =>
      if (strip line =? "halt:")%string then Some (new_lines ++ line :: rest)%list
      else cons line <$> insert_lines rest new_lines
  end.
Definition insert_before_halt (lines new_lines : list string) : result (list string) :=
  match insert_lines lines new_lines with Some out => Ok out | None => Err ValueError end.

Definition epilogue_a : list string :=
  ([csrrs 19 MCYCLE; csrrs 20 MINSTRET] ++
   map (fun i => csrrs (21 + i) (MHPMCOUNTER3_BASE + i)) (seqZ 0 NUM_HPM))%list.
Definition preamble_b : list string :=
  (map (fun i => csrrwi (MHPMEVENT3_BASE + i) (10 + i)) (seqZ 0 NUM_HPM) ++
   map (fun i => csrrw0 (MHPMCOUNTER3_BASE + i)) (seqZ 0 NUM_HPM))%list.
Definition epilogue_b : list string := map (fun i => csrrs (19 + i) (MHPMCOUNTER3_BASE + i)) (seqZ 0 NUM_HPM).

Definition build_run_a (kernel_lines : list string) : result (list string) :=
  insert_before_halt kernel_lines epilogue_a.
Definition build_run_b (kernel_lines : list string) : result (list string) :=
  let! rest := insert_before_halt kernel_lines epilogue_b in Ok (preamble_b ++ rest)%list.

(** ** Running and reporting *)

Record profile : Type := mkProfile {
  cycles_a : Z;
  cycles_b : Z;
  mcycle : Z;
  minstret : Z;
  ipc : Q;
  cpi : option Q;
  branch_accuracy : option Q;
  icache_hit_rate : option Q;
  dcache_hit_rate : option Q;
  stall_pct : Q;
  original_events : list (string * Z);
  stall_causes : list (string * Z);
  stall_cause_sum : Z;
  instruction_mix : list (string * Z);
  instruction_mix_total : Z
}.

Definition ratio (a b : Z) : Q := (inject_Z a / inject_Z b)%Q.
Definition ratio_if (a b : Z) : option Q := if truthy b then Some (ratio a b) else None.

(** [{names[i]: regs[base + i] for i in range(NUM_HPM)}] *)
Fixpoint read_events (names : list string) (regs : list Z) (r : Z) : result (list (string * Z)) :=
  match names with
  | [] => Ok []
  | name :: names =>
      let! v := py_index regs r in
      let! rest := read_events names regs (r + 1) in
      Ok ((name, v) :: rest)
  end.
Definition event (events : list (string * Z)) (name : string) : Z := default 0 (lookup_name name events).

(** What the first run is read for. *)
Definition counters_a (regs_a : list Z) : result (Z * Z * list (string * Z)) :=
  let! mcycle := py_index regs_a 19 in
  let! minstret := py_index regs_a 20 in
  let! original := read_events ORIGINAL_EVENT_NAMES regs_a 21 in
  Ok (mcycle, minstret, original).

Definition report (mix : list (string * Z) * Z) (cycles_a cycles_b mcycle minstret : Z)
    (original stall_causes : list (string * Z)) : profile :=
  let ipc := if truthy mcycle then ratio minstret mcycle else 0%Q in
  let branches := event original "branches_retired" in
  let mispredicts := event original "mispredicts" in
  let ih := event original "icache_hit" in
  let im := event original "icache_miss" in
  let dh := event original "dcache_hit" in
  let dm := event original "dcache_miss" in
  mkProfile cycles_a cycles_b mcycle minstret ipc
    (if Qeq_bool ipc 0 then None else Some (/ ipc)%Q)
    (if truthy branches then Some (1 - ratio mispredicts branches)%Q else None)
    (ratio_if ih (ih + im)) (ratio_if dh (dh + dm))
    (if truthy mcycle then ratio (event original "stall_aggregate") mcycle else 0%Q)
    original stall_causes (foldr (fun p n => snd p + n) 0 stall_causes) (fst mix) (snd mix).

Section Profile.
Variable simulate : string -> list string -> sim.
Variable template init_file_rel out_path : string.

Definition profiler_template (max_time mem_size : Z) : string :=
  fill template
    [("__INIT_FILE__", init_file_rel); ("__MAX_TIME__", show_dec max_time); ("__OUT_FILE__", out_path);
     ("__MEM_SIZE__", show_dec mem_size); ("__HAZARD_STRATEGY__", "0"); ("__PIPELINE_PROFILE__", "0");
     ("__BRANCH_PREDICTOR__", "0"); ("__CACHE_MODE__", "0"); ("__MEM_LATENCY_I__", "0");
     ("__MEM_LATENCY_D__", "0"); ("__XLEN__", "32")].

Definition run_sim (lines : list string) (mem_size : Z) : result (Z * list Z) :=
  let! words := assemble lines 32 in
  let! data := write_mem words mem_size in
  let max_time := (Z.of_nat (List.length words) * 80 + 2000) * 10 in
  match simulate (profiler_template max_time mem_size) (mem_lines data) with
  | CompileError | SimulationError => Err RuntimeError
  | SimOutput file =>
      let! vals := dump_values (fun v => v) file in
      let! cycles := py_index vals 0 in
      Ok (cycles, py_slice vals 1 33)
  end.

Definition profile_kernel (kernel_lines : list string) (mem_size : Z) : result profile :=
  let mix := classify_mix kernel_lines in
  let! lines_a := build_run_a kernel_lines in
  let! (cycles_a, regs_a) := run_sim lines_a mem_size in
  let! (mcycle, minstret, original) := counters_a regs_a in
  let! lines_b := build_run_b kernel_lines in
  let! (cycles_b, regs_b) := run_sim lines_b mem_size in
  let! stall_causes := read_events STALL_CAUSE_NAMES regs_b 19 in
  Ok (report mix cycles_a cycles_b mcycle minstret original stall_causes).

(** [main]: a kernel whose run fails is left out; other exceptions end it. *)
Definition profile_mem_size (name : string) : Z := if (name =? "bench_bubble_sort")%string then 1024 else 256.
Fixpoint profile_all (progs : list (string * list string)) : result (list (string * profile)) :=
  match progs with
  | [] => Ok []
  | (name, prog_s) :: rest =>
      match profile_kernel prog_s (profile_mem_size name) with
      | Ok p => let! ps := profile_all rest in Ok ((name, p) :: ps)
      | Err RuntimeError => profile_all rest
      | Err e => Err e
      end
  end.
Definition profiler_main (progs : list (string * list string)) : result (list (string * profile) * Z) :=
  match progs with
  | [] => Ok ([], 1)
  | _ =>
      let! results := profile_all progs in
      Ok (results, if (List.length results =? List.length progs)%nat then 0 else 1)
  end.
End Profile.

(** ** The mix counts every instruction once *)

Definition total_of (counts : list (string * Z)) : Z := foldr (fun p n => snd p + n) 0 counts.
Definition count_in (bucket : string) (counts : list (string * Z)) : Z := default 0 (lookup_name bucket counts).

Lemma total_bump b counts : total_of (bump b counts) = total_of counts + 1.
Proof.
  unfold total_of. induction counts as [|[c n] counts IH]; [done|]. cbn [bump].
  destruct (c =? b)%string; cbn [foldr snd]; lia.
Qed.

Lemma count_bump b c counts : count_in c (bump b counts) = count_in c counts + if (b =? c)%string then 1 else 0.
Proof.
  unfold count_in, lookup_name. induction counts as [|[d n] counts IH]; cbn [bump List.find fst].
  - by destruct (String.eqb_spec b c).
  - destruct (String.eqb_spec d b) as [->|N]; cbn [List.find fst].
    + by destruct (String.eqb_spec b c); [|rewrite Z.add_0_r].
    + destruct (String.eqb_spec d c) as [->|]; [|exact IH].
      destruct (String.eqb_spec b c) as [->|]; [done|]. cbn. lia.
Qed.

Lemma keys_bump b counts c : c ∈ map fst (bump b counts) <-> c = b \/ c ∈ map fst counts.
Proof.
  induction counts as [|[d n] counts IH]; cbn [bump map fst];
    [by rewrite elem_of_cons|].
  destruct (String.eqb_spec d b) as [->|]; cbn [map fst]; rewrite !elem_of_cons, ?IH; tauto.
Qed.

Lemma nodup_bump b counts : NoDup (map fst counts) -> NoDup (map fst (bump b counts)).
Proof.
  induction counts as [|[d n] counts IH]; intros H; cbn [bump map fst] in *; [apply NoDup_singleton|].
  apply NoDup_cons in H as [Hd H]. destruct (String.eqb_spec d b) as [->|]; cbn [map fst]; constructor; try done.
  - rewrite keys_bump. intros [|]; done.
  - by apply IH.
Qed.

(** The mnemonic of a source line that holds an instruction. *)
Definition mnemonic_of (s : string) : string := lower (List.hd "" (re_split false s)).

Lemma mix_line_stmt acc raw :
  mix_line acc raw =
  match stmt_of raw with Some s => (bump (bucket_of (mnemonic_of s)) (fst acc), snd acc + 1) | None => acc end.
Proof.
  unfold mix_line, stmt_of. cbv zeta. destruct (strip (before_hash raw) =? "")%string; [done|]. cbn [orb].
  by destruct (ends_with_colon _).
Qed.

Lemma classify_mix_snoc lines raw : classify_mix (lines ++ [raw]) = mix_line (classify_mix lines) raw.
Proof. unfold classify_mix. by rewrite foldl_app. Qed.

Lemma classify_mix_spec lines :
  let mix := classify_mix lines in
  snd mix = stmts lines /\ total_of (fst mix) = snd mix /\ NoDup (map fst (fst mix)) /\
  forall b, count_in b (fst mix) =
    Z.of_nat (List.length (filter (fun s => bucket_of (mnemonic_of s) = b) (omap stmt_of lines))).
Proof.
  cbv zeta. induction lines as [|raw lines (T & S & N & C)] using rev_ind.
  { split_and!; try done. apply NoDup_nil_2. }
  rewrite classify_mix_snoc, mix_line_stmt, stmts_app, stmts_cons, stmts_nil, omap_app. cbn [omap list_omap].
  destruct (stmt_of raw) as [s|]; cbn [fst snd].
  - rewrite total_bump. split_and!; [lia | lia | by apply nodup_bump|]. intros b.
    rewrite count_bump, C, filter_app, length_app. cbn [filter list_filter].
    destruct (String.eqb_spec (bucket_of (mnemonic_of s)) b); case_decide; try done; cbn [List.length]; lia.
  - rewrite app_nil_r. split_and!; try done. lia.
Qed.

(** ** The kernel inside the profiled program *)

(** The words of the inserted instructions: [csrrs rd, csr, x0] reads a counter,
    [csrrwi x0, csr, uimm] chooses an event, [csrrw x0, csr, x0] clears. *)
Definition csr_word (csr src f3 rd : Z) : Z := (csr ≪ 20) .| (src ≪ 15) .| (f3 ≪ 12) .| (rd ≪ 7) .| 0x73.
Definition read_words (rd csr : Z) (n : Z) : list Z := map (fun i => csr_word (csr + i) 0 2 (rd + i)) (seqZ 0 n).
Definition words_a : list Z :=
  ([csr_word MCYCLE 0 2 19; csr_word MINSTRET 0 2 20] ++ read_words 21 MHPMCOUNTER3_BASE NUM_HPM)%list.
Definition words_p : list Z :=
  (map (fun i => csr_word (MHPMEVENT3_BASE + i) (10 + i) 5 0) (seqZ 0 NUM_HPM) ++
   map (fun i => csr_word (MHPMCOUNTER3_BASE + i) 0 1 0) (seqZ 0 NUM_HPM))%list.
Definition words_e : list Z := read_words 19 MHPMCOUNTER3_BASE NUM_HPM.

Lemma epilogue_a_words : assemble epilogue_a 32 = Ok words_a.
Proof. vm_compute. reflexivity. Qed.
Lemma preamble_b_words : assemble preamble_b 32 = Ok words_p.
Proof. vm_compute. reflexivity. Qed.
Lemma epilogue_b_words : assemble epilogue_b 32 = Ok words_e.
Proof. vm_compute. reflexivity. Qed.

(** Where the new lines go. *)
Lemma insert_at before h after new :
  Forall (fun l => strip l <> "halt:") before -> strip h = "halt:" ->
  insert_before_halt (before ++ h :: after) new = Ok (before ++ new ++ h :: after)%list.
Proof.
  intros B H. unfold insert_before_halt.
  assert (insert_lines (before ++ h :: after) new = Some (before ++ new ++ h :: after)%list) as ->; [|done].
  induction B as [|l before N _ IH]; cbn [app insert_lines].
  - by rewrite H.
  - destruct (String.eqb_spec (strip l) "halt:"); [done|]. by rewrite IH.
Qed.

Lemma insert_none lines new :
  Forall (fun l => strip l <> "halt:") lines -> insert_before_halt lines new = Err ValueError.
Proof.
  intros B. unfold insert_before_halt. assert (insert_lines lines new = None) as ->; [|done].
  induction B as [|l lines N _ IH]; [done|]. cbn [insert_lines].
  destruct (String.eqb_spec (strip l) "halt:"); [done|]. by rewrite IH.
Qed.

(** A piece with no labels goes anywhere. *)
Lemma no_labels_ok lines : (pass1 lines).2 = ∅ -> names_ok lines.
Proof. intros E. unfold names_ok. rewrite E. apply map_Forall_empty. Qed.
Lemma no_labels_clash_l a b : (pass1 a).2 = ∅ -> no_clash a b.
Proof. intros E. unfold no_clash. rewrite E. apply map_Forall_empty. Qed.
Lemma no_labels_clash_r a b : (pass1 b).2 = ∅ -> no_clash a b.
Proof. intros E. unfold no_clash. rewrite E. intros l x _. apply lookup_empty. Qed.

Lemma names_ok_app a b : names_ok a -> names_ok b -> names_ok (a ++ b).
Proof.
  intros Na Nb l x. rewrite labels_app. destruct ((pass1 b).2 !! l) as [y|] eqn:E.
  - intros _. by apply (Nb _ _ E).
  - apply Na.
Qed.
Lemma no_clash_app_r a b c : no_clash a b -> no_clash a c -> no_clash a (b ++ c).
Proof. intros Hb Hc l x L. rewrite labels_app, (Hc _ _ L). apply (Hb _ _ L). Qed.

(** C18: profiling leaves the kernel's code as it is.  A kernel whose body and
    whose halt loop each refer only to their own labels assembles to the words of
    the body followed by those of the loop; the first profiled program has, between
    the same words, the eleven instructions that read [mcycle], [minstret] and the
    nine counters into x19 to x29, and the second has the event selections and the
    clearing of the counters in front and their reads into x19 to x27 between.  A
    kernel with no [halt:] line raises [ValueError]. *)
Theorem profiled_words before h after wb wh :
  Forall (fun l => strip l <> "halt:") before -> strip h = "halt:" ->
  assemble before 32 = Ok wb -> assemble (h :: after) 32 = Ok wh ->
  names_ok before -> names_ok (h :: after) -> no_clash before (h :: after) ->
  let kernel := (before ++ h :: after)%list in
  assemble kernel 32 = Ok (wb ++ wh)%list /\
  (exists lines, build_run_a kernel = Ok lines /\ assemble lines 32 = Ok (wb ++ words_a ++ wh)%list) /\
  (exists lines, build_run_b kernel = Ok lines /\ assemble lines 32 = Ok (words_p ++ wb ++ words_e ++ wh)%list) /\
  build_run_a before = Err ValueError.
Proof.
  intros B H Ab Ah Nb Nh C kernel.
  assert (forall new wn, (pass1 new).2 = ∅ -> assemble new 32 = Ok wn ->
    assemble (before ++ new ++ h :: after) 32 = Ok (wb ++ wn ++ wh)%list) as I.
  { intros new wn E An. apply assemble_concat; try done.
    - apply names_ok_app; [by apply no_labels_ok | done].
    - apply no_clash_app_r; [by apply no_labels_clash_r | done].
    - apply assemble_concat; try done; [by apply no_labels_ok | by apply no_labels_clash_l]. }
  split_and!.
  - by apply assemble_concat.
  - exists (before ++ epilogue_a ++ h :: after)%list. split; [by apply insert_at|].
    apply I; [vm_compute; reflexivity | apply epilogue_a_words].
  - exists (preamble_b ++ before ++ epilogue_b ++ h :: after)%list. split.
    + unfold build_run_b, kernel. by rewrite (insert_at before h after epilogue_b B H).
    + apply assemble_concat; [apply no_labels_ok; vm_compute; reflexivity | | apply no_labels_clash_l; vm_compute; reflexivity
        | apply preamble_b_words | apply I; [vm_compute; reflexivity | apply epilogue_b_words]].
      apply names_ok_app; [done|]. apply names_ok_app; [apply no_labels_ok; vm_compute; reflexivity | done].
  - by apply insert_none.
Qed.

Lemma profiled_words_witness :
  exists lines, build_run_a bench_fib = Ok lines /\ exists words, assemble lines 32 = Ok words /\ List.length words = 22%nat.
Proof.
  destruct (profiled_words (take 11 bench_fib) "halt:" ["jal x0, halt"]
    [147; 1048851; 31457683; 2130483; 2097331; 4194611; 4294017427; 4261517539; 34099; 267386895] [111])
    as (_ & (lines & B & A) & _).
  1: repeat (constructor; [by vm_compute|]); constructor.
  1-3: vm_compute; reflexivity.
  1-3: refine (bool_decide_unpack _ _); vm_compute; exact I.
  exists lines. split; [exact B|]. eexists. split; [exact A | vm_compute; reflexivity].
Defined.

(** The instruction mix counts the instructions of the kernel that is
    assembled: the total is the number of its words, the buckets partition it,
    none is listed twice, and each one's count is the number of statements whose
    mnemonic falls in it. *)
Theorem mix_counts_words lines words xl :
  assemble lines xl = Ok words ->
  let mix := classify_mix lines in
  snd mix = Z.of_nat (List.length words) /\ total_of (fst mix) = snd mix /\ NoDup (map fst (fst mix)) /\
  forall b, count_in b (fst mix) =
    Z.of_nat (List.length (filter (fun s => bucket_of (mnemonic_of s) = b) (omap stmt_of lines))).
Proof.
  intros A. destruct (classify_mix_spec lines) as (T & R). cbv zeta. split; [|exact R]. rewrite T.
  rewrite assemble_stmts in A. apply assemble_all_length in A. rewrite A, length_imap. done.
Qed.

Lemma mix_counts_words_witness :
  fst (classify_mix bench_fib) = [("alu", 8); ("branch", 1); ("system", 1); ("jump", 1)] /\
  snd (classify_mix bench_fib) = 11.
Proof.
  split; [vm_compute; reflexivity|].
  destruct (mix_counts_words bench_fib
    [147; 1048851; 31457683; 2130483; 2097331; 4194611; 4294017427; 4261517539; 34099; 267386895; 111] 32) as [T _];
    [vm_compute; reflexivity | exact T].
Defined.

(** Mnemonics the assembler knows that no bucket lists: two branches, the doubleword
    accesses and the sign injections are counted as [alu]. *)
Lemma mix_unlisted :
  Forall (fun line => is_err (assemble [line] 64) = false /\ fst (classify_mix [line]) = [("alu", 1)])
    ["bltu x1, x2, 8"; "bgeu x1, x2, 8"; "lwu x1, 0(x2)"; "ld x1, 0(x2)"; "sd x1, 0(x2)"; "divw x1, x2, x3";
     "fsgnj.s f1, f2, f3"].
Proof. repeat (constructor; [split; vm_compute; reflexivity|]); constructor. Qed.

(** ** The benchmark kernels under the profiler *)

(** Both profiled forms of every kernel fit the memory [main] gives them. *)
Lemma profiled_kernels_fit name prog_s :
  (name, prog_s) ∈ kernels ->
  exists a b wa wb, build_run_a prog_s = Ok a /\ build_run_b prog_s = Ok b /\
    assemble a 32 = Ok wa /\ assemble b 32 = Ok wb /\
    4 * Z.of_nat (List.length wa) <= profile_mem_size name /\
    4 * Z.of_nat (List.length wb) <= profile_mem_size name.
Proof.
  intros H. unfold kernels in H.
  repeat (apply elem_of_cons in H as [[= -> ->]|H];
    [eexists _, _, _, _; split_and!; first [vm_compute; reflexivity | by vm_compute]|]).
  by apply elem_of_nil in H.
Qed.
