(* ===== verification/Coverage.v ===== *)
(** * The coverage report

    [src/sim/tools/coverage_report.py]: every directed test is compiled with
    coverage counters and run, the counts it leaves in [coverage.txt] are added up,
    and what was never exercised is reported.  The Verilog tools are a parameter;
    the file they leave, and the one an earlier run may have left, is part of the
    state.  [dump_coverage] is the task of [src/design/riscvpipeline.v] that writes
    the file. *)

From Stdlib Require Import Ascii String.
From S2P Require Import Prelude Bits PyStr Asm Disasm PyText AsmText Testbench.
Open Scope string_scope.
Open Scope Z_scope.

Definition ALUCTL_NAMES : list (Z * string) :=
  [(0, "ADD"); (1, "SUB"); (2, "SLL"); (3, "SLT"); (4, "SLTU"); (5, "XOR"); (6, "SRL"); (7, "SRA");
   (8, "OR"); (9, "AND"); (10, "BEQ"); (11, "BNE"); (12, "BLT"); (13, "BGE"); (14, "BLE (custom)");
   (16, "BGT (custom)"); (17, "BLTU"); (18, "BGEU"); (19, "MUL"); (20, "MULH"); (21, "CTZ (custom)");
   (22, "MULHSU"); (23, "MULHU"); (24, "DIV"); (25, "DIVU"); (26, "REM"); (27, "REMU"); (31, "ILLEGAL")].
Definition BRANCH_F3_NAMES : list string := ["beq"; "bne"; "blt"; "bge"; "ble"; "bgt"; "bltu"; "bgeu"].

(** ** The counts *)

Record counts : Type := mkCounts {
  alu : list Z;
  taken : list Z;
  not_taken : list Z;
  stall : Z;
  flush : Z;
  div_cycles : Z;
  jump_cycles : Z
}.
Definition no_counts : counts := mkCounts (replicate 32 0) (replicate 8 0) (replicate 8 0) 0 0 0 0.

(** [parts[n]] and [l[int(parts[1])] += int(parts[2])] *)
Definition part (parts : list string) (n : nat) : result string :=
  match parts !! n with Some s => Ok s | None => Err IndexError end.
Definition part_int (parts : list string) (n : nat) : result Z :=
  let! s := part parts n in py_int10 s.
Definition bump_at (l : list Z) (parts : list string) : result (list Z) :=
  let! i := part_int parts 1 in
  let! old := py_index l i in
  let! n := part_int parts 2 in
  py_set l i (old + n).

(** One line of [coverage.txt]; a line without words raises. *)
Definition coverage_line (t : counts) (line : string) : result counts :=
  let parts := split_ws "" line in
  let '(mkCounts a b nb s f d j) := t in
  let! p0 := part parts 0 in
  if (p0 =? "alu_ctl")%string then let! a := bump_at a parts in Ok (mkCounts a b nb s f d j)
  else if (p0 =? "branch_taken")%string then let! b := bump_at b parts in Ok (mkCounts a b nb s f d j)
  else if (p0 =? "branch_not_taken")%string then let! nb := bump_at nb parts in Ok (mkCounts a b nb s f d j)
  else if (p0 =? "stall_cycles")%string then let! n := part_int parts 1 in Ok (mkCounts a b nb (s + n) f d j)
  else if (p0 =? "flush_cycles")%string then let! n := part_int parts 1 in Ok (mkCounts a b nb s (f + n) d j)
  else if (p0 =? "div_cycles")%string then let! n := part_int parts 1 in Ok (mkCounts a b nb s f (d + n) j)
  else if (p0 =? "jump_cycles")%string then let! n := part_int parts 1 in Ok (mkCounts a b nb s f d (j + n))
  else Ok t.
Fixpoint read_coverage (t : counts) (file : list string) : result counts :=
  match file with
  | [] => Ok t
  | line :: file => let! t := coverage_line t line in read_coverage t file
  end.

(** ** Running the tests *)

(** What a directed test does to the working directory: it does not compile, or it
    runs and may write [coverage.txt]. *)
Inductive cov_run : Type :=
| CovCompileFail
| CovRan (coverage_txt : option (list string)).

(** The loop over the test benches, from the file that is already there: the
    totals and the file left behind. *)
Fixpoint run_benches (simulate : string -> cov_run) (tb_files : list string) (coverage_txt : option (list string))
    (t : counts) : result (counts * option (list string)) :=
  match tb_files with
  | [] => Ok (t, coverage_txt)
  | name :: rest =>
      match simulate name with
      | CovCompileFail => run_benches simulate rest coverage_txt t
      | CovRan written =>
          match (match written with Some _ => written | None => coverage_txt end) with
          | None => run_benches simulate rest None t
          | Some file => let! t := read_coverage t file in run_benches simulate rest None t
          end
      end
  end.

(** ** The report *)

Definition alu_row (t : counts) (cn : Z * string) : string :=
  let '(code, name) := cn in
  let cnt := zget (alu t) code in
  let marker := if (0 <? cnt) || (code =? 31) then "  " else "!!" in
  "  " ++ marker ++ " " ++ rjust 2 (show_dec code) ++ " " ++ ljust 16 name ++ " " ++ rjust 6 (show_dec cnt) ++ " cycles".
Definition uncovered (t : counts) : list string :=
  omap (fun '(code, name) => if (zget (alu t) code =? 0) && negb (code =? 31) then Some name else None) ALUCTL_NAMES.
Definition branch_name (f3 : Z) : string := default "" (BRANCH_F3_NAMES !! Z.to_nat f3).
Definition branch_row (t : counts) (f3 : Z) : string :=
  let yes := zget (taken t) f3 in
  let no := zget (not_taken t) f3 in
  let marker := if (yes =? 0) || (no =? 0) then "!!" else "  " in
  "  " ++ marker ++ " " ++ ljust 5 (branch_name f3) ++ " taken=" ++ rjust 5 (show_dec yes) ++ "  not-taken=" ++
  rjust 5 (show_dec no).
Definition branch_warnings (t : counts) (f3 : Z) : list string :=
  app (if zget (taken t) f3 =? 0 then ["!! " ++ branch_name f3 ++ " never taken"] else [])
    (if zget (not_taken t) f3 =? 0 then ["!! " ++ branch_name f3 ++ " never not-taken"] else []).
Definition uncovered_line (names : list string) : list string :=
  match names with
  | [] => []
  | _ =>
      [""; "!! " ++ show_dec (Z.of_nat (List.length names)) ++
       " ALUCtl operation(s) never exercised by the directed suite: " ++ join ", " names]
  end.
Definition event_rows (t : counts) : list string :=
  ["  load-use stall cycles (Hazard.v):     " ++ show_dec (stall t);
   "  load-use flush/bubble cycles:          " ++ show_dec (flush t);
   "  multi-cycle divide stall cycles:       " ++ show_dec (div_cycles t);
   "  jal/jalr cycles in EX:                 " ++ show_dec (jump_cycles t)].
Definition coverage_report (tests : Z) (t : counts) : list string :=
  concat [
    [""; "=== ALUCtl coverage (across " ++ show_dec tests ++ " directed tests) ==="];
    map (alu_row t) ALUCTL_NAMES;
    [""; "=== branch outcome coverage (each type, taken vs. not-taken) ==="];
    map (branch_row t) (seqZ 0 8);
    [""; "=== hazard/control-flow event coverage ==="];
    event_rows t;
    uncovered_line (uncovered t);
    if stall t =? 0 then ["!! load-use stall never exercised"] else [];
    if div_cycles t =? 0 then ["!! multi-cycle divide stall never exercised"] else [];
    concat (map (branch_warnings t) (seqZ 0 8))].

(** [main], less the lines on the tests that failed. *)
Definition coverage_main (simulate : string -> cov_run) (tb_files : list string) (coverage_txt : option (list string))
    : result (list string) :=
  let! (t, _) := run_benches simulate tb_files coverage_txt no_counts in
  Ok (coverage_report (Z.of_nat (List.length tb_files)) t).

(** ** The file the core writes *)

Definition counter_line (name : string) (i n : Z) : string := name ++ " " ++ show_dec i ++ " " ++ show_dec n.
Definition total_line (name : string) (n : Z) : string := name ++ " " ++ show_dec n.
Definition dump_coverage (c : counts) : list string :=
  concat [
    imap (fun i n => counter_line "alu_ctl" (Z.of_nat i) n) (alu c);
    concat (imap (fun i yn => [counter_line "branch_taken" (Z.of_nat i) (fst yn);
                               counter_line "branch_not_taken" (Z.of_nat i) (snd yn)]) (zip (taken c) (not_taken c)));
    [total_line "stall_cycles" (stall c); total_line "flush_cycles" (flush c);
     total_line "div_cycles" (div_cycles c); total_line "jump_cycles" (jump_cycles c)]].

(** The counters of the core, and the counts added up. *)
Definition shape (c : counts) : Prop :=
  List.length (alu c) = 32%nat /\ List.length (taken c) = 8%nat /\ List.length (not_taken c) = 8%nat.
Definition add_counts (t c : counts) : counts :=
  mkCounts (zip_with Z.add (alu t) (alu c)) (zip_with Z.add (taken t) (taken c))
    (zip_with Z.add (not_taken t) (not_taken c)) (stall t + stall c) (flush t + flush c)
    (div_cycles t + div_cycles c) (jump_cycles t + jump_cycles c).

(** ** Reading a dump *)

Lemma split_ws_tok t : forall cur s,
  all_chars tok_char t = true -> split_ws cur (t ++ s) = split_ws (cur ++ t) s.
Proof.
  induction t as [|c t IH]; intros cur s H; [by rewrite append_nil|].
  cbn [all_chars] in H. apply andb_prop in H as [Hc Ht]. cbn [append split_ws].
  destruct (tok_char_inv c Hc) as (_ & -> & _). rewrite IH by done. by rewrite append_assoc.
Qed.

Lemma split_three name i n :
  clean name -> split_ws "" (counter_line name i n) = [name; show_dec i; show_dec n].
Proof.
  intros [N C]. destruct (show_dec_clean i) as [Ni Ci], (show_dec_clean n) as [Nn Cn]. unfold counter_line.
  rewrite split_ws_tok by done. cbn [append split_ws]. cbn. destruct name; [done|]. cbn [append].
  f_equal. rewrite split_ws_tok by done. cbn. destruct (show_dec i); [done|]. f_equal.
  rewrite <- (append_nil (show_dec n)) at 1. rewrite split_ws_tok by done. cbn. by destruct (show_dec n).
Qed.

Lemma split_two name n : clean name -> split_ws "" (total_line name n) = [name; show_dec n].
Proof.
  intros [N C]. destruct (show_dec_clean n) as [Nn Cn]. unfold total_line.
  rewrite split_ws_tok by done. cbn. destruct name; [done|]. cbn [append].
  f_equal. rewrite <- (append_nil (show_dec n)) at 1. rewrite split_ws_tok by done. cbn. by destruct (show_dec n).
Qed.

Lemma bump_at_app name pre x suf n :
  bump_at (pre ++ x :: suf) [name; show_dec (Z.of_nat (List.length pre)); show_dec n] = Ok (pre ++ x + n :: suf)%list.
Proof.
  unfold bump_at, part_int, part. cbn [lookup list_lookup rbind]. rewrite !py_int10_dec. cbn [rbind].
  unfold py_index, py_set. destruct (Z.ltb_spec (Z.of_nat (List.length pre)) 0); [lia|].
  destruct (Z.ltb_spec (Z.of_nat (List.length pre)) 0); [lia|]. rewrite Nat2Z.id, list_lookup_middle by done.
  cbn [rbind orb]. rewrite length_app. cbn [List.length].
  destruct (Z.leb_spec (Z.of_nat (length pre + S (length suf))) (Z.of_nat (length pre))); [lia|].
  f_equal. rewrite insert_app_r_alt by lia. by rewrite Nat.sub_diag.
Qed.

Lemma read_coverage_app t a b :
  read_coverage t (a ++ b) = let! t := read_coverage t a in read_coverage t b.
Proof.
  revert t. induction a as [|l a IH]; intros t; [done|]. cbn [app read_coverage].
  destruct (coverage_line t l); [|done]. cbn [rbind]. apply IH.
Qed.

(** The counters from position [length pre] on are added to the totals there. *)
Lemma read_alu ns : forall pre suf b nb s f d j,
  List.length suf = List.length ns ->
  read_coverage (mkCounts (pre ++ suf) b nb s f d j)
    (imap (fun i n => counter_line "alu_ctl" (Z.of_nat (List.length pre + i)) n) ns) =
  Ok (mkCounts (pre ++ zip_with Z.add suf ns) b nb s f d j).
Proof.
  induction ns as [|n ns IH]; intros pre [|x suf] b nb s f d j H; try done. cbn [imap read_coverage].
  unfold coverage_line. rewrite split_three by done. cbn [part lookup list_lookup rbind].
  change ("alu_ctl" =? "alu_ctl")%string with true. cbv iota. rewrite Nat.add_0_r, bump_at_app. cbn [rbind zip_with].
  specialize (IH (pre ++ [x + n])%list suf b nb s f d j ltac:(by injection H)).
  rewrite <- !app_assoc in IH. cbn [app] in IH. rewrite <- IH. f_equal.
  apply imap_ext. intros i y _. cbn. rewrite length_app. cbn.
  by replace (List.length pre + 1 + i)%nat with (List.length pre + S i)%nat by lia.
Qed.

Lemma read_branches ns : forall pre suf prn sufn a s f d j,
  List.length suf = List.length ns -> List.length sufn = List.length ns -> List.length pre = List.length prn ->
  read_coverage (mkCounts a (pre ++ suf) (prn ++ sufn) s f d j)
    (concat (imap (fun i yn => [counter_line "branch_taken" (Z.of_nat (List.length pre + i)) (fst yn);
                                counter_line "branch_not_taken" (Z.of_nat (List.length pre + i)) (snd yn)]) ns)) =
  Ok (mkCounts a (pre ++ zip_with Z.add suf (map fst ns)) (prn ++ zip_with Z.add sufn (map snd ns)) s f d j).
Proof.
  induction ns as [|n ns IH]; intros pre [|x suf] prn [|z sufn] a s f d j H H' L; try done.
  cbn [imap concat app read_coverage].
  unfold coverage_line at 1. rewrite split_three by done. cbn [part lookup list_lookup rbind].
  change ("branch_taken" =? "alu_ctl")%string with false. change ("branch_taken" =? "branch_taken")%string with true.
  cbv iota. rewrite Nat.add_0_r, bump_at_app. cbn [rbind].
  unfold coverage_line at 1. rewrite split_three by done. cbn [part lookup list_lookup rbind].
  change ("branch_not_taken" =? "alu_ctl")%string with false.
  change ("branch_not_taken" =? "branch_taken")%string with false.
  change ("branch_not_taken" =? "branch_not_taken")%string with true.
  cbv iota. rewrite L, bump_at_app. cbn [rbind map zip_with].
  specialize (IH (pre ++ [x + fst n])%list suf (prn ++ [z + snd n])%list sufn a s f d j
    ltac:(by injection H) ltac:(by injection H') ltac:(rewrite !length_app; cbn; lia)).
  rewrite <- !app_assoc in IH. cbn [app] in IH. rewrite <- IH. do 2 f_equal.
  apply imap_ext. intros i y _. cbn. rewrite length_app. cbn.
  replace (List.length pre + 1 + i)%nat with (List.length prn + S i)%nat by lia. done.
Qed.

(** A dump read on top of totals adds its counts to them. *)
Lemma read_dump_adds t c : shape t -> shape c -> read_coverage t (dump_coverage c) = Ok (add_counts t c).
Proof.
  intros (A & B & N) (A' & B' & N'). destruct t as [a b nb s f d j]. unfold dump_coverage. cbn [concat].
  rewrite read_coverage_app. rewrite (read_alu (alu c) [] a) by (cbn in A; by rewrite A, A'). cbn [app rbind].
  rewrite read_coverage_app.
  pose proof (read_branches (zip (taken c) (not_taken c)) [] b [] nb (zip_with Z.add a (alu c)) s f d j) as R.
  cbn [List.length app Nat.add] in R. cbn in B, N. rewrite R by (rewrite ?length_zip_with, ?B, ?N, ?B', ?N'; done). cbn [rbind].
  change (map fst) with (fmap (M := list) (@fst Z Z)). change (map snd) with (fmap (M := list) (@snd Z Z)).
  rewrite fst_zip, snd_zip by lia. cbn [read_coverage]. unfold coverage_line.
  rewrite (split_two "stall_cycles"), (split_two "flush_cycles"), (split_two "div_cycles"), (split_two "jump_cycles") by done.
  cbn [part lookup list_lookup rbind]. unfold part_int, part. cbn [lookup list_lookup rbind]. rewrite !py_int10_dec.
  done.
Qed.

Lemma shape_add t c : shape t -> shape c -> shape (add_counts t c).
Proof.
  intros (A & B & N) (A' & B' & N'). unfold shape, add_counts. cbn.
  by rewrite !length_zip_with, A, B, N, A', B', N'.
Qed.

Lemma zget_add a b i : List.length a = List.length b -> zget (zip_with Z.add a b) i = zget a i + zget b i.
Proof.
  intros L. unfold zget. rewrite lookup_zip_with. destruct (a !! Z.to_nat i) as [x|] eqn:E.
  - destruct (lookup_lt_is_Some_2 b (Z.to_nat i)) as [y Hy]; [rewrite <- L; by apply lookup_lt_Some in E|]. by rewrite Hy.
  - cbn. apply lookup_ge_None in E. by rewrite (proj2 (lookup_ge_None b _)) by lia.
Qed.

(** ** The whole suite *)

Definition sum_counts (cs : list counts) : counts := foldl add_counts no_counts cs.

Section Suite.
Variable simulate : string -> cov_run.
Variable dumped : string -> option counts.

(** [dumped] says which tests write the file, and with which counts. *)
Definition suite_ok (tb_files : list string) : Prop :=
  Forall (fun name =>
    match dumped name with
    | Some c => simulate name = CovRan (Some (dump_coverage c)) /\ shape c /\ Forall (Z.le 0) (alu c)
    | None => simulate name = CovCompileFail \/ simulate name = CovRan None
    end) tb_files.

Lemma run_benches_sum tb_files t :
  suite_ok tb_files -> shape t ->
  run_benches simulate tb_files None t = Ok (foldl add_counts t (omap dumped tb_files), None).
Proof.
  intros H. revert t. induction H as [|name tbs Hn _ IH]; intros t Ht; [done|]. cbn [run_benches omap list_omap].
  destruct (dumped name) as [c|].
  - destruct Hn as (-> & Hc & _). rewrite read_dump_adds by done. cbn [rbind foldl]. by apply IH, shape_add.
  - destruct Hn as [-> | ->]; by apply IH.
Qed.
End Suite.

(** Counts that are not negative add up to zero only if each is zero. *)
Lemma sum_zero cs : forall t i,
  shape t -> Forall (fun c => shape c /\ Forall (Z.le 0) (alu c)) cs -> 0 <= zget (alu t) i ->
  zget (alu (foldl add_counts t cs)) i = 0 <-> zget (alu t) i = 0 /\ Forall (fun c => zget (alu c) i = 0) cs.
Proof.
  induction cs as [|c cs IH]; intros t i Ht H Hi; [cbn; rewrite Forall_nil; tauto|].
  apply Forall_cons in H as [[Hc Hp] H]. cbn [foldl].
  assert (0 <= zget (alu c) i) as Hci.
  { unfold zget. destruct (alu c !! Z.to_nat i) eqn:E; [|done]. by apply (Forall_lookup_1 _ _ _ _ Hp E). }
  assert (zget (alu (add_counts t c)) i = zget (alu t) i + zget (alu c) i) as S.
  { apply zget_add. destruct Ht as (-> & _), Hc as (-> & _). done. }
  rewrite IH by (done || by apply shape_add || lia). rewrite S, Forall_cons. intuition lia.
Qed.

Lemma zget_none i : zget (alu no_counts) i = 0.
Proof. unfold zget. cbn [alu no_counts]. destruct (replicate 32 0 !! Z.to_nat i) eqn:E; [|done]. by apply lookup_replicate in E as [-> _]. Qed.

(** No two operations share a name. *)
Lemma aluctl_names_inj c c' name : (c, name) ∈ ALUCTL_NAMES -> (c', name) ∈ ALUCTL_NAMES -> c = c'.
Proof.
  intros [i Hi]%list_elem_of_lookup [k Hk]%list_elem_of_lookup.
  assert (NoDup (snd <$> ALUCTL_NAMES)) as N by (refine (bool_decide_unpack _ _); vm_compute; exact I).
  assert (i = k) as -> by (apply (NoDup_lookup _ i k name N); rewrite list_lookup_fmap; [by rewrite Hi | by rewrite Hk]).
  rewrite Hi in Hk. by injection Hk.
Qed.

(** C31: the coverage report counts every test once.  Whatever tests compile and
    whichever of them dump their counters, the report is that of the sums of the
    counters dumped, and an operation is listed as never exercised exactly when
    its counter was zero in every dump. *)
Theorem coverage_exact simulate dumped tb_files :
  suite_ok simulate dumped tb_files ->
  let t := sum_counts (omap dumped tb_files) in
  coverage_main simulate tb_files None = Ok (coverage_report (Z.of_nat (List.length tb_files)) t) /\
  forall code name, (code, name) ∈ ALUCTL_NAMES ->
    name ∈ uncovered t <-> code <> 31 /\ Forall (fun c => zget (alu c) code = 0) (omap dumped tb_files).
Proof.
  intros H. cbv zeta. split.
  { unfold coverage_main. by rewrite (run_benches_sum simulate dumped). }
  intros code name Hin. unfold uncovered, sum_counts.
  assert (Forall (fun c => shape c /\ Forall (Z.le 0) (alu c)) (omap dumped tb_files)) as Hd.
  { apply Forall_forall. intros c (nm & Hnm & Hc)%list_elem_of_omap.
    pose proof (proj1 (Forall_forall _ _) H nm Hnm) as Hs. cbn in Hs. rewrite Hc in Hs. tauto. }
  assert (zget (alu (foldl add_counts no_counts (omap dumped tb_files))) code = 0 <->
    Forall (fun c => zget (alu c) code = 0) (omap dumped tb_files)) as <-.
  { rewrite sum_zero by (done || by rewrite zget_none). rewrite zget_none. tauto. }
  generalize (foldl add_counts no_counts (omap dumped tb_files)). intros t.
  rewrite list_elem_of_omap. split.
  - intros ([c n] & Hcn & E). cbn in E.
    destruct (Z.eqb_spec (zget (alu t) c) 0), (Z.eqb_spec c 31); try done. injection E as ->.
    by rewrite <- (aluctl_names_inj c code name).
  - intros [H31 H0]. exists (code, name). split; [done|]. cbn. rewrite H0. by destruct (Z.eqb_spec code 31).
Qed.

(** Two tests, one of which does not compile and one of which adds and branches. *)
Definition demo_counts : counts := mkCounts (<[0%nat := 5]> (replicate 32 0)) (<[1%nat := 2]> (replicate 8 0)) (replicate 8 0) 1 0 0 0.
Lemma coverage_exact_witness :
  exists report, coverage_main (fun name => if (name =? "tb_a")%string then CovRan (Some (dump_coverage demo_counts)) else CovCompileFail)
    ["tb_a"; "tb_b"] None = Ok report /\
  "SUB" ∈ uncovered (sum_counts [demo_counts]) /\ ~ "ADD" ∈ uncovered (sum_counts [demo_counts]).
Proof.
  destruct (coverage_exact
    (fun name => if (name =? "tb_a")%string then CovRan (Some (dump_coverage demo_counts)) else CovCompileFail)
    (fun name => if (name =? "tb_a")%string then Some demo_counts else None) ["tb_a"; "tb_b"]) as [E U].
  { repeat constructor; done. }
  eexists. split; [exact E|]. split.
  - apply (U 1 "SUB"); [right; left|]. split; [done|]. repeat constructor.
  - intros H. apply (U 0 "ADD") in H as [_ H]; [|left]. by inversion H.
Defined.

(** The counters are indexed by [funct3], and the names printed for four of the
    eight values are not those of the assembler. *)
Lemma branch_names_disagree f3 name :
  (name, f3) ∈ BRANCH -> branch_name f3 = name <-> ~ (2 <= f3 <= 5).
Proof.
  intros H. unfold BRANCH in H.
  repeat (apply elem_of_cons in H as [[= -> ->]|H]; [cbn; split; [intros E; (discriminate E || lia) | intros E; (done || exfalso; lia)]|]).
  by apply elem_of_nil in H.
Qed.

(** A [coverage.txt] left from before is counted for the first test that writes
    none. *)
Lemma stale_file_counted simulate name c :
  simulate name = CovRan None -> shape c ->
  coverage_main simulate [name] (Some (dump_coverage c)) = Ok (coverage_report 1 (add_counts no_counts c)).
Proof. intros H Hc. unfold coverage_main. cbn [run_benches]. by rewrite H, read_dump_adds. Qed.

(** A blank line ends the report with an [IndexError]. *)
Lemma blank_line_raises t file : read_coverage t ("" :: file) = Err IndexError.
Proof. by destruct t. Qed.
