(* ===== verification/Trace.v ===== *)
(** * The pipeline viewer's trace

    [src/sim/tools/gen_trace.py] turns the table [src/sim/tb/gen_trace.v] writes,
    one row per cycle, into the JSON the viewer draws, with every instruction
    disassembled and the idle cycles at the end cut off; [src/sim/tools/build_viewer.py]
    puts the JSON into the page.  Files are lists of lines without their ends, and
    fields are not quoted. *)

From Stdlib Require Import Ascii String.
From S2P Require Import Prelude Bits PyStr Asm Disasm PyText AsmText Testbench.
Open Scope string_scope.
Open Scope Z_scope.

(** ** [csv.DictReader] *)

Definition csv_fields (line : string) : list string := if (line =? "")%string then [] else split_on "," "" line.
(** [r[name]]: the last column of that name; a row that is too short has [None]
    there, which [int] refuses. *)
Fixpoint column (header : list string) (row : list (option string)) (name : string) (found : option (option string))
    : option (option string) :=
  match header with
  | [] => found
  | h :: header => column header (tail row) name (if (h =? name)%string then Some (mjoin (head row)) else found)
  end.
Definition field (header row : list string) (name : string) : result string :=
  match column header (map Some row) name None with
  | None => Err KeyError
  | Some None => Err TypeError
  | Some (Some s) => Ok s
  end.

(** ** Rows *)

Record trace_row : Type := mkRow {
  cycle : Z;
  if_pc : Z; if_inst : string;
  id_pc : Z; id_inst : string; id_stall : bool; id_flush : bool;
  ex_pc : Z; ex_inst : string; branchTaken : bool; jump : bool; aluOut : Z; fwdA : Z; fwdB : Z;
  mem_we : bool; mem_re : bool; mem_addr : Z; mem_dest : Z; mem_regWrite : bool;
  wb_dest : Z; wb_val : Z; wb_regWrite : bool
}.

Section Row.
Variable xl : Z.
Variable header row : list string.

(** [int(r[name])], [bool(int(r[name]))] and [disasm(r[name], xlen)] *)
Definition int_field (name : string) : result Z := let! s := field header row name in py_int10 s.
Definition bool_field (name : string) : result bool := let! v := int_field name in Ok (truthy v).
Definition inst_field (name : string) : result string :=
  let! s := field header row name in
  let! w := py_int16 s in
  Ok (disasm w xl).

Definition read_row : result trace_row :=
  let! cycle := int_field "cycle" in
  let! if_pc := int_field "if_pc" in
  let! if_inst := inst_field "if_inst" in
  let! id_pc := int_field "id_pc" in
  let! id_inst := inst_field "id_inst" in
  let! stall := bool_field "stall" in
  let! flush := bool_field "flush" in
  let! ex_pc := int_field "ex_pc" in
  let! ex_inst := inst_field "ex_inst" in
  let! branchTaken := bool_field "branch_taken" in
  let! jump := bool_field "jump" in
  let! aluOut := int_field "alu_out" in
  let! fwdA := int_field "forwardA" in
  let! fwdB := int_field "forwardB" in
  let! we := bool_field "mem_we" in
  let! re := bool_field "mem_re" in
  let! addr := int_field "mem_addr" in
  let! dest := int_field "mem_dest" in
  let! regWrite := bool_field "mem_regwrite" in
  let! wb_dest := int_field "wb_dest" in
  let! wb_val := int_field "wb_val" in
  let! wb_regWrite := bool_field "wb_regwrite" in
  Ok (mkRow cycle if_pc if_inst id_pc id_inst stall flush ex_pc ex_inst branchTaken jump aluOut fwdA fwdB
        we re addr dest regWrite wb_dest wb_val wb_regWrite).
End Row.

(** Blank lines after the header are skipped. *)
Fixpoint read_rows (xl : Z) (header : list string) (lines : list string) : result (list trace_row) :=
  match lines with
  | [] => Ok []
  | line :: lines =>
      match csv_fields line with
      | [] => read_rows xl header lines
      | row =>
          let! r := read_row xl header row in
          let! rs := read_rows xl header lines in
          Ok (r :: rs)
      end
  end.
Definition read_trace (xl : Z) (file : list string) : result (list trace_row) :=
  match file with [] => Ok [] | header :: lines => read_rows xl (csv_fields header) lines end.

(** [while rows and rows[-1] is idle: rows.pop()], from the end *)
Definition idle (r : trace_row) : bool := ((if_inst r =? "—")%string && (id_inst r =? "—")%string).
Fixpoint pop_idle (rev_rows : list trace_row) : list trace_row :=
  match rev_rows with
  | r :: rest => if idle r then pop_idle rest else rev_rows
  | [] => []
  end.
Definition trim (rows : list trace_row) : list trace_row := rev (pop_idle (rev rows)).

Definition trace_rows (xl : Z) (file : list string) : result (list trace_row) :=
  let! rows := read_trace xl file in Ok (trim rows).

(** ** [json.dump] *)

Definition backslash : ascii := chr 92.
Definition json_escape (n : Z) : string :=
  dget [(8, "b"); (9, "t"); (10, "n"); (12, "f"); (13, "r")] n ("u" ++ pad 4 (show_hex n)).
(** The dash the disassembler prints for the zero word is its only character
    that is not ASCII. *)
Fixpoint json_chars (s : string) : string :=
  match s with
  | "" => ""
  | String c s' =>
      if (c =? chr 34)%char || (c =? backslash)%char then String backslash (String c (json_chars s'))
      else if (code c <? 32) || (code c =? 127) then String backslash (json_escape (code c) ++ json_chars s')
      else
        match s with
        | String "226" (String "128" (String "148" s'')) => String backslash ("u2014" ++ json_chars s'')
        | _ => String c (json_chars s')
        end
  end.
Definition json_string (s : string) : string := String (chr 34) (json_chars s ++ String (chr 34) "").
Definition json_bool (b : bool) : string := if b then "true" else "false".
Definition json_object (fields : list (string * string)) : string :=
  "{" ++ join ", " (map (fun kv => json_string (fst kv) ++ ": " ++ snd kv) fields) ++ "}".
Definition json_row (r : trace_row) : string :=
  json_object [
    ("cycle", show_dec (cycle r));
    ("if", json_object [("pc", show_dec (if_pc r)); ("inst", json_string (if_inst r))]);
    ("id", json_object [("pc", show_dec (id_pc r)); ("inst", json_string (id_inst r));
                        ("stall", json_bool (id_stall r)); ("flush", json_bool (id_flush r))]);
    ("ex", json_object [("pc", show_dec (ex_pc r)); ("inst", json_string (ex_inst r));
                        ("branchTaken", json_bool (branchTaken r)); ("jump", json_bool (jump r));
                        ("aluOut", show_dec (aluOut r)); ("fwdA", show_dec (fwdA r)); ("fwdB", show_dec (fwdB r))]);
    ("mem", json_object [("we", json_bool (mem_we r)); ("re", json_bool (mem_re r)); ("addr", show_dec (mem_addr r));
                         ("dest", show_dec (mem_dest r)); ("regWrite", json_bool (mem_regWrite r))]);
    ("wb", json_object [("dest", show_dec (wb_dest r)); ("val", show_dec (wb_val r));
                        ("regWrite", json_bool (wb_regWrite r))])].
Definition trace_json (xl : Z) (file : list string) : result string :=
  let! rows := trace_rows xl file in
  Ok ("[" ++ join ", " (map json_row rows) ++ "]").

(** [build_viewer.py]: the tool is run with its default XLEN, and its failure,
    whatever it was, is raised by [check=True]. *)
Definition build_viewer (template : string) (file : list string) : result string :=
  match trace_json 32 file with
  | Ok json => Ok (py_replace "__TRACE_JSON__" json 0 template)
  | Err _ => Err CalledProcessError
  end.

(** ** The table the bench writes *)

(** The signals sampled in one cycle. *)
Record sample : Type := mkSample {
  s_cycle : Z;
  s_if_pc : Z; s_if_inst : Z;
  s_id_pc : Z; s_id_inst : Z; s_stall : Z; s_flush : Z;
  s_ex_pc : Z; s_ex_inst : Z; s_branch_taken : Z; s_jump : Z; s_alu_out : Z; s_forwardA : Z; s_forwardB : Z;
  s_mem_we : Z; s_mem_re : Z; s_mem_addr : Z; s_mem_dest : Z; s_mem_regwrite : Z;
  s_wb_dest : Z; s_wb_val : Z; s_wb_regwrite : Z
}.
Definition csv_header : string :=
  "cycle,if_pc,if_inst,id_pc,id_inst,stall,flush,ex_pc,ex_inst,branch_taken,jump,alu_out,forwardA,forwardB,mem_we,mem_re,mem_addr,mem_dest,mem_regwrite,wb_dest,wb_val,wb_regwrite".
(** [%h] of a 32-bit signal *)
Definition hex8 (w : Z) : string := pad 8 (show_hex w).
Definition sample_fields (s : sample) : list string :=
  [show_dec (s_cycle s); show_dec (s_if_pc s); hex8 (s_if_inst s);
   show_dec (s_id_pc s); hex8 (s_id_inst s); show_dec (s_stall s); show_dec (s_flush s);
   show_dec (s_ex_pc s); hex8 (s_ex_inst s); show_dec (s_branch_taken s); show_dec (s_jump s);
   show_dec (s_alu_out s); show_dec (s_forwardA s); show_dec (s_forwardB s);
   show_dec (s_mem_we s); show_dec (s_mem_re s); show_dec (s_mem_addr s); show_dec (s_mem_dest s); show_dec (s_mem_regwrite s);
   show_dec (s_wb_dest s); show_dec (s_wb_val s); show_dec (s_wb_regwrite s)].
Definition csv_line (s : sample) : string := join "," (sample_fields s).
Definition trace_csv (samples : list sample) : list string := csv_header :: map csv_line samples.

(** What the viewer should show of a sample. *)
Definition shown (xl : Z) (s : sample) : trace_row :=
  mkRow (s_cycle s) (s_if_pc s) (disasm (s_if_inst s) xl) (s_id_pc s) (disasm (s_id_inst s) xl)
    (truthy (s_stall s)) (truthy (s_flush s)) (s_ex_pc s) (disasm (s_ex_inst s) xl) (truthy (s_branch_taken s))
    (truthy (s_jump s)) (s_alu_out s) (s_forwardA s) (s_forwardB s) (truthy (s_mem_we s)) (truthy (s_mem_re s))
    (s_mem_addr s) (s_mem_dest s) (truthy (s_mem_regwrite s)) (s_wb_dest s) (s_wb_val s) (truthy (s_wb_regwrite s)).
Definition insts_ok (s : sample) : Prop := 0 <= s_if_inst s /\ 0 <= s_id_inst s /\ 0 <= s_ex_inst s.

(** ** Reading the table *)

Definition no_comma (s : string) : bool := no_char "," s.

Lemma clean_no_comma t : clean t -> no_comma t = true.
Proof.
  intros [_ H]. revert H. apply all_chars_impl. intros c (H & _)%tok_char_inv. unfold is_sep in H.
  apply orb_false_iff in H as [H _]. apply negb_true_iff. by destruct (Ascii.eqb_spec c ",") as [->|].
Qed.

(** The padded hexadecimal digits of a number. *)
Definition hex_char (c : ascii) : bool := is_digit c || ((97 <=? code c) && (code c <=? 102)).

Lemma hex8_chars w : 0 <= w -> all_chars hex_char (hex8 w) = true.
Proof.
  intros Hw. unfold hex8, pad. rewrite all_chars_app. apply andb_true_intro. split.
  - induction (List.seq 0 _); [done|]. done.
  - apply show_base_chars; [lia | done |]. intros d Hd.
    assert (d ∈ seqZ 0 16) as Hin by (apply elem_of_seqZ; lia). revert Hin. vm_compute seqZ.
    intros Hin. repeat (apply elem_of_cons in Hin as [->|Hin]; [reflexivity|]). by apply elem_of_nil in Hin.
Qed.

Lemma hex8_digits w : 0 <= w -> digits 16 0 true (hex8 w) = Some w.
Proof.
  intros Hw. unfold hex8, pad. assert (forall l us, digits 16 0 us
    (fold_right (fun (_ : nat) acc => String "0" acc) "" l ++ show_hex w) = Some w) as G; [|apply G].
  induction l as [|i l IH]; intros us; [by apply digits_show_base | apply IH].
Qed.

Lemma hex8_clean w : 0 <= w -> clean (hex8 w).
Proof.
  intros Hw. split.
  - intros E. pose proof (hex8_digits w Hw) as H. by rewrite E in H.
  - eapply all_chars_impl; [|by apply hex8_chars]. intros [[] [] [] [] [] [] [] []]; done.
Qed.

Lemma py_int16_hex8 w : 0 <= w -> py_int16 (hex8 w) = Ok w.
Proof.
  intros Hw. unfold py_int16. rewrite strip_clean by by apply hex8_clean.
  pose proof (hex8_chars w Hw) as C. pose proof (hex8_digits w Hw) as D.
  assert (magnitude16 (hex8 w) = Some w) as M.
  { unfold magnitude16. destruct (hex8 w) as [|c [|e s]] eqn:E; try done.
    - destruct c as [[] [] [] [] [] [] [] []]; done.
    - cbn [all_chars] in C. apply andb_prop in C as [_ [C _]%andb_prop].
      assert ((e =? "x")%char || (e =? "X")%char = false) as -> by (by destruct e as [[] [] [] [] [] [] [] []]).
      destruct c as [[] [] [] [] [] [] [] []]; done. }
  destruct (hex8 w) as [|c s]; [done|]. cbn [all_chars] in C. apply andb_prop in C as [C _].
  destruct c as [[] [] [] [] [] [] [] []]; try done; by rewrite M.
Qed.

Lemma fields_clean s : insts_ok s -> Forall clean (sample_fields s).
Proof.
  intros (H1 & H2 & H3). unfold sample_fields.
  repeat (constructor; [first [apply show_dec_clean | by apply hex8_clean]|]). constructor.
Qed.

Lemma csv_fields_line s : insts_ok s -> csv_fields (csv_line s) = sample_fields s.
Proof.
  intros H. pose proof (fields_clean s H) as C. unfold csv_fields, csv_line.
  destruct (String.eqb_spec (join "," (sample_fields s)) "") as [E|_].
  - unfold sample_fields in E. cbn [join] in E. by destruct (show_dec (s_cycle s)) eqn:Es; [destruct (show_dec_clean (s_cycle s))|].
  - apply split_on_join; [|done]. eapply Forall_impl; [exact C|]. apply clean_no_comma.
Qed.

Lemma csv_header_fields :
  csv_fields csv_header =
  ["cycle"; "if_pc"; "if_inst"; "id_pc"; "id_inst"; "stall"; "flush"; "ex_pc"; "ex_inst"; "branch_taken"; "jump";
   "alu_out"; "forwardA"; "forwardB"; "mem_we"; "mem_re"; "mem_addr"; "mem_dest"; "mem_regwrite"; "wb_dest"; "wb_val";
   "wb_regwrite"].
Proof. reflexivity. Qed.

Lemma read_sample xl s : insts_ok s -> read_row xl (csv_fields csv_header) (sample_fields s) = Ok (shown xl s).
Proof.
  intros (H1 & H2 & H3). unfold read_row, bool_field, int_field, inst_field, field, sample_fields, shown.
  rewrite csv_header_fields. cbn [map column tail head mjoin option_join]. cbn -[py_int10 py_int16 disasm hex8 show_dec truthy rbind].
  repeat first [progress cbn [rbind] | rewrite py_int10_dec | rewrite py_int16_hex8 by done]. reflexivity.
Qed.

(** What is cut off is idle, and the last row kept is not. *)
Lemma trim_spec rows :
  exists cut, rows = (trim rows ++ cut)%list /\ Forall (fun r => idle r = true) cut /\
    match last (trim rows) with Some r => idle r = false | None => True end.
Proof.
  unfold trim. induction rows as [|r rows IH] using rev_ind; [by exists []|].
  rewrite rev_app_distr. cbn [rev app pop_idle]. destruct (idle r) eqn:E.
  - destruct IH as (cut & Hr & Hc & Hl). exists (cut ++ [r])%list. split_and!.
    + by rewrite app_assoc, <- Hr.
    + apply Forall_app. by repeat constructor.
    + done.
  - exists []. cbn [rev]. rewrite rev_involutive, app_nil_r. split_and!; [done | constructor |].
    by rewrite last_snoc.
Qed.

(** The viewer shows the run: for every table the bench writes, the rows are those
    of the cycles sampled, in order, each instruction word as the disassembler
    prints it, up to the last cycle in which an instruction is fetched or
    decoded. *)
Theorem trace_shows_run xl samples :
  Forall insts_ok samples ->
  exists rows cut, trace_rows xl (trace_csv samples) = Ok rows /\
    map (shown xl) samples = (rows ++ cut)%list /\ Forall (fun r => idle r = true) cut /\
    match last rows with Some r => idle r = false | None => True end.
Proof.
  intros H. destruct (trim_spec (map (shown xl) samples)) as (cut & E & C & L).
  exists (trim (map (shown xl) samples)), cut. split_and!; try done.
  unfold trace_rows, read_trace, trace_csv.
  assert (read_rows xl (csv_fields csv_header) (map csv_line samples) = Ok (map (shown xl) samples)) as ->; [|done].
  clear -H. induction H as [|s samples Hs _ IH]; [done|]. cbn [map read_rows]. rewrite csv_fields_line by done.
  pose proof (read_sample xl s Hs) as R. destruct (sample_fields s) as [|f fs] eqn:E; [discriminate E|].
  rewrite R. cbn [rbind]. by rewrite IH.
Qed.
