(* ===== verification/EncodingCheck.v ===== *)
(** * The branch encoding check

    [src/sim/tools/test_branch_encoding_roundtrip.py]: each of the eight branches is
    assembled, its [funct3] compared with a table, and its disassembly with its
    mnemonic. *)

From Stdlib Require Import Ascii String.
From S2P Require Import Prelude Bits PyStr Asm Disasm PyText.
Open Scope string_scope.
Open Scope Z_scope.

Definition EXPECTED_FUNCT3 : list (string * Z) :=
  [("beq", 0); ("bne", 1); ("blt", 4); ("bge", 5); ("ble", 2); ("bgt", 3); ("bltu", 6); ("bgeu", 7)].

Definition require (b : bool) : result () := if b then Ok () else Err AssertionError.

(** [check_roundtrip], in any table *)
Definition check_roundtrip (expected_funct3 : list (string * Z)) (mnemonic : string) : result () :=
  let! words := assemble [mnemonic ++ " x1, x2, 0"] 32 in
  let! _ := require (List.length words =? 1)%nat in
  let word := List.hd 0 words in
  let funct3 := (word ≫ 12) .& 0x7 in
  match List.find (fun p => (fst p =? mnemonic)%string) expected_funct3 with
  | None => Err KeyError
  | Some (_, expected) =>
      let! _ := require (funct3 =? expected) in
      require (String.prefix (mnemonic ++ " ") (disasm word 32))
  end.

(** The number of failed checks and the exit status; other exceptions end it. *)
Fixpoint count_fails (table : list (string * Z)) (names : list string) (fails : Z) : result Z :=
  match names with
  | [] => Ok fails
  | mnemonic :: names =>
      match check_roundtrip table mnemonic with
      | Ok _ => count_fails table names fails
      | Err AssertionError => count_fails table names (fails + 1)
      | Err e => Err e
      end
  end.
Definition encoding_main (table : list (string * Z)) : result Z :=
  let! fails := count_fails table (map fst table) 0 in
  Ok (if fails =? 0 then 0 else 1).

(** The check passes at this commit. *)
Lemma encoding_check_passes : encoding_main EXPECTED_FUNCT3 = Ok 0.
Proof. vm_compute. reflexivity. Qed.

(** It passes only on the encoding of the assembler: no other table of the eight
    mnemonics is accepted. *)
Lemma check_roundtrip_exact mnemonic f3 f3' :
  (mnemonic, f3) ∈ EXPECTED_FUNCT3 ->
  check_roundtrip [(mnemonic, f3')] mnemonic = if f3 =? f3' then Ok () else Err AssertionError.
Proof.
  intros H. unfold EXPECTED_FUNCT3 in H.
  repeat (apply elem_of_cons in H as [[= -> ->]|H];
    [unfold check_roundtrip; match goal with |- context [assemble ?l 32] =>
       let r := eval vm_compute in (assemble l 32) in change (assemble l 32) with r end;
     cbn [rbind List.length Nat.eqb require List.find fst]; cbv zeta; cbn [List.hd];
     match goal with |- context [String.eqb ?a ?b] => change (String.eqb a b) with true end; cbv iota;
     match goal with |- context [require (?x =? f3')] =>
       let v := eval vm_compute in x in change x with v end;
     destruct (_ =? f3'); [vm_compute; reflexivity | reflexivity]|]).
  by apply elem_of_nil in H.
Qed.
