(* ===== verification/CBench.v ===== *)
(** * Compiled benchmarks

    [src/sim/tools/build_c_bench.py]: C sources are compiled and linked with the
    start-up code, converted with [elf2mem.py] and run on the Verilog core, and the
    final registers, memory and cycle count are read back.  The compiler and the
    binary utilities are the parameter [run_tool] of [ElfImage], the Verilog
    simulator the parameter [simulate]. *)

From Stdlib Require Import Ascii String.
From S2P Require Import Prelude Bits PyStr Asm Disasm PyText AsmText AsmLink AsmImage MemFile Fdt ElfImage BootImage.
From S2P Require Import Memory Testbench.
Open Scope string_scope.
Open Scope Z_scope.

(** What comes of the bench: no compilation, no output files (whatever the exit
    status of the run), or the text of the cycle file and the lines of the state
    file. *)
Inductive c_sim : Type :=
| CCompileError
| CNoOutput
| COutput (cycles_out : string) (state_out : list string).

(** The sections [elf2mem.py] takes by default. *)
Definition IMEM_SECTIONS : string := ".text.init,.text".

Section CBench.
Variable run_tool : list string -> proc.
Variable simulate : string -> list string -> list string -> c_sim.
Variable tmp_path HERE : string.
(** The template and the names of the files the bench reads and writes. *)
Variable template imem_rel dmem_rel cycles_out state_out : string.

Definition C_DIR : string := path_join (path_join (path_join HERE "..") "benchmarks") "c".
Definition c_cflags (extra_cflags : string) (include_dirs : list string) : list string :=
  concat [
    ["-march=rv32im"; "-mabi=ilp32"; "-nostdlib"; "-nostartfiles"; "-ffreestanding";
     "-Wl,-T," ++ path_join C_DIR "link.ld"; "-msmall-data-limit=0"; "-O2"];
    split_ws "" extra_cflags;
    concat (map (fun d => ["-I"; d]) (C_DIR :: include_dirs))].
Definition c_sources (sources : list string) : list string :=
  path_join C_DIR "crt0.S" :: path_join C_DIR "libc_stubs.c" :: sources.

Definition c_bench_template (mem_size max_time hazard_strategy : Z) : string :=
  fill template
    [("__INIT_FILE__", imem_rel); ("__DATA_INIT_FILE__", dmem_rel); ("__MEM_SIZE__", show_dec mem_size);
     ("__MAX_TIME__", show_dec max_time); ("__CYCLES_OUT_FILE__", cycles_out);
     ("__STATE_OUT_FILE__", state_out); ("__HAZARD_STRATEGY__", show_dec hazard_strategy)].

(** [None] is the exit with status 1; [x10] is printed, so it must be there. *)
Definition build_c_bench (gcc objcopy : string) (sources include_dirs : list string) (extra_cflags : string)
    (mem_size max_time hazard_strategy : Z) : result (option (list Z * list Z * Z)) :=
  let elf_path := path_join tmp_path "prog.elf" in
  let! _ := run_cmd run_tool
    (concat [[gcc]; c_cflags extra_cflags include_dirs; c_sources sources; ["-o"; elf_path]]) in
  let! (imem, dmem) := run_script (elf2mem run_tool tmp_path elf_path objcopy IMEM_SECTIONS mem_size mem_size) in
  match simulate (c_bench_template mem_size max_time hazard_strategy) imem dmem with
  | CCompileError => Err RuntimeError
  | CNoOutput => Ok None
  | COutput cycles_text state_lines =>
      let! cycles := py_int10 (strip cycles_text) in
      let! vals := dump_values (fun v => v .& 0xFFFFFFFF) state_lines in
      let regs := py_slice vals 0 32 in
      let mem := py_slice vals 32 (32 + mem_size) in
      let! _ := py_index regs 10 in
      Ok (Some (regs, mem, cycles))
  end.
End CBench.

(** ** From the ELF to the state of the core *)

Lemma slice_split (a b : list Z) :
  List.length a = 32%nat ->
  py_slice (a ++ b) 0 32 = a /\ py_slice (a ++ b) 32 (32 + Z.of_nat (List.length b)) = b.
Proof.
  intros L. unfold py_slice, clamp. rewrite length_app, L.
  destruct (Z.ltb_spec (32 + Z.of_nat (List.length b)) 0); [lia|]. split.
  - destruct (Z.ltb_spec 0 0); [lia|]. cbn [Z.ltb Z.compare]. rewrite !Z.min_l by lia. by rewrite drop_0, take_app_length'.
  - cbn [Z.ltb Z.compare]. rewrite !Z.min_l by lia. rewrite drop_app_length' by done. apply take_ge. lia.
Qed.

Section Run.
Context (run_tool : list string -> proc) (simulate : string -> list string -> list string -> c_sim).
Context (tmp_path HERE template imem_rel dmem_rel cycles_out state_out gcc objcopy : string).
Hypothesis gcc_ok : forall args, returncode (run_tool (gcc :: args)) = 0.
Local Abbreviation elf := (path_join tmp_path "prog.elf").

(** The core runs the two images of the linked program, and what is returned is
    its final state: the registers and the memory as unsigned words, and the
    cycles. *)
Lemma c_bench_runs sources include_dirs extra mem_size max_time strategy init text rodata data regs mem cycles :
  section_part run_tool tmp_path elf objcopy ".text.init" init ->
  section_part run_tool tmp_path elf objcopy ".text" text ->
  data_part run_tool tmp_path elf objcopy ".rodata" "_rodata_start" rodata ->
  data_part run_tool tmp_path elf objcopy ".data" "_data_start" data ->
  0 <= mem_size -> forallb (fits mem_size) [init; text; rodata; data] = true ->
  List.length regs = 32%nat -> Z.of_nat (List.length mem) = mem_size ->
  (forall imem dmem bench, is_image [init; text] mem_size imem -> is_image [rodata; data] mem_size dmem ->
     simulate bench (mem_lines imem) (mem_lines dmem) = COutput (show_dec cycles) (dump_lines (regs ++ mem))) ->
  build_c_bench run_tool simulate tmp_path HERE template imem_rel dmem_rel cycles_out state_out gcc objcopy
    sources include_dirs extra mem_size max_time strategy =
  Ok (Some (map (fun v => v .& 0xFFFFFFFF) regs, map (fun v => v .& 0xFFFFFFFF) mem, cycles)).
Proof.
  intros HI HT HR HD Hs F Lr Lm Sim. unfold build_c_bench, run_cmd. cbn [concat app]. rewrite gcc_ok. cbn [rbind].
  assert (Forall2 (section_part run_tool tmp_path elf objcopy) (split_on "," "" IMEM_SECTIONS) [init; text]) as HP.
  { change (split_on "," "" IMEM_SECTIONS) with [".text.init"; ".text"]. by repeat apply Forall2_cons_2; try apply Forall2_nil_2. }
  pose proof (elf2mem_spec run_tool tmp_path elf objcopy IMEM_SECTIONS mem_size mem_size [init; text] rodata data
    HP HR HD Hs Hs) as E.
  cbn [forallb] in F, E. py_bool.
  repeat match goal with H : fits _ _ = true |- _ => rewrite H in E; clear H end. cbn [andb] in E.
  destruct E as (imem & dmem & -> & I & _ & I' & _). cbn [run_script rbind]. rewrite (Sim imem dmem) by done.
  rewrite strip_clean, py_int10_dec, dump_values_lines by apply show_dec_clean. cbn [rbind]. rewrite map_app.
  destruct (slice_split (map (fun v => v .& 0xFFFFFFFF) regs) (map (fun v => v .& 0xFFFFFFFF) mem)) as [S1 S2];
    [by rewrite length_map|]. rewrite length_map, Lm in S2. rewrite S1, S2.
  unfold py_index. destruct (Z.ltb_spec 10 0); [lia|]. cbv iota.
  destruct (lookup_lt_is_Some_2 (map (fun v => v .& 0xFFFFFFFF) regs) (Z.to_nat 10)) as [x ->];
    [by rewrite length_map, Lr; lia|]. done.
Qed.
End Run.
