(* ===== verification/CommandLine.v ===== *)
(** * The tools' command lines

    The [add_argument] calls of every tool of [src/sim/tools/], the command lines the
    tools write for one another, and the entry points that had been left to their
    parsed arguments. *)

From Stdlib Require Import Ascii String.
From S2P Require Import Prelude Bits Float32 Machine Mmu Exec Run PyStr Asm Disasm PyText AsmText MemFile Fdt RandGen.
From S2P Require Import ElfImage BootImage Testbench Debugger DebugSession CrossCheck Bench Profiler Trace Argparse.
Open Scope string_scope.
Open Scope Z_scope.

(** ** Parsers *)

Definition zero_one : list value := [VInt 0; VInt 1].
Definition xlens : list value := [VInt 32; VInt 64].
Definition interrupts : list value := [VStr "timer"; VStr "uart"; VStr "msi"; VStr "both"].

Definition asm_parser : parser := ArgumentParser
  [positional "source";
   opt_required ["-o"; "--output"] TStr;
   opt ["--size"] TInt (VInt 128);
   opt ["--xlen"] TInt (VInt 32)].

Definition debugger_parser : parser := ArgumentParser
  [positional "program";
   opt ["--mem-size"] TInt (VInt 128);
   opt ["--xlen"] TInt (VInt 32)].

Definition random_gen_parser : parser := ArgumentParser
  [opt_required ["--seed"] TInt;
   opt ["--n"] TInt (VInt 16);
   opt ["--mem-size"] TInt VNone;
   opt_choices ["--interrupt"] TStr interrupts VNone;
   opt_true ["--mmu"];
   opt_choices ["--xlen"] TInt xlens (VInt 32);
   opt ["-o"; "--output"] TStr VNone].

Definition run_random_parser : parser := ArgumentParser
  [opt ["--count"] TInt (VInt 30);
   opt ["--n-instrs"] TInt (VInt 16);
   opt ["--seed-start"] TInt (VInt 1);
   opt ["--iverilog-dir"] TStr VNone;
   opt_true ["--keep-failures"];
   opt_choices ["--hazard-strategy"] TInt zero_one (VInt 0);
   opt_choices ["--pipeline-profile"] TInt zero_one (VInt 0);
   opt_choices ["--branch-predictor"] TInt zero_one (VInt 0);
   opt_choices ["--cache-mode"] TInt zero_one (VInt 0);
   opt ["--mem-latency-i"] TInt (VInt 0);
   opt ["--mem-latency-d"] TInt (VInt 0);
   opt_choices ["--interrupt"] TStr interrupts VNone;
   opt ["--mem-size"] TInt VNone;
   opt_true ["--mmu"];
   opt_choices ["--xlen"] TInt xlens (VInt 32)].

Definition bench_parser : parser := ArgumentParser
  [opt ["--iverilog-dir"] TStr VNone;
   opt ["--programs-dir"] TStr (VStr "sim/benchmarks");
   opt_choices ["--hazard-strategy"] TInt zero_one (VInt 0);
   opt_choices ["--pipeline-profile"] TInt zero_one (VInt 0);
   opt_choices ["--branch-predictor"] TInt zero_one (VInt 0);
   opt_choices ["--cache-mode"] TInt zero_one (VInt 0);
   opt ["--mem-latency-i"] TInt (VInt 0);
   opt ["--mem-latency-d"] TInt (VInt 0);
   opt_exclusive ["--compare-strategies"];
   opt_exclusive ["--compare-profiles"];
   opt_exclusive ["--compare-predictors"];
   opt_exclusive ["--compare-cache"];
   opt_exclusive ["--compare-latency"]].

Definition profiler_parser : parser := ArgumentParser
  [opt ["--iverilog-dir"] TStr VNone;
   opt ["--programs-dir"] TStr (VStr "sim/benchmarks");
   opt ["--json"] TStr VNone].

Definition coverage_parser : parser := ArgumentParser [opt ["--iverilog-dir"] TStr VNone].

Definition trace_parser : parser := ArgumentParser
  [positional "csv_path";
   opt_required ["-o"; "--output"] TStr;
   opt ["--xlen"] TInt (VInt 32)].

Definition viewer_parser : parser := ArgumentParser
  [positional "csv_path"; opt_required ["-o"; "--output"] TStr].

Definition elf2mem_parser : parser := ArgumentParser
  [positional "elf";
   opt_required ["--imem-out"] TStr;
   opt_required ["--dmem-out"] TStr;
   opt_required ["--imem-size"] TInt;
   opt_required ["--dmem-size"] TInt;
   opt ["--objcopy"] TStr (VStr "riscv-none-elf-objcopy");
   opt ["--imem-sections"] TStr (VStr ".text.init,.text")].

Definition gen_dtb_parser : parser := ArgumentParser
  [opt_required ["-o"; "--out"] TStr;
   opt ["--mem-size"] TInt (VInt 0x2000000);
   opt ["--timebase-freq"] TInt (VInt 1000000);
   opt ["--uart-clock-freq"] TInt (VInt 1843200);
   opt ["--bootargs"] TStr (VStr "console=ttyS0 earlycon");
   opt ["--initrd-start"] TInt0 VNone;
   opt ["--initrd-end"] TInt0 VNone].

Definition read_dump_parser : parser := ArgumentParser
  [positional "state_out";
   opt_append ["--u8"] TInt0;
   opt_append ["--i8"] TInt0;
   opt_append ["--u16"] TInt0;
   opt_append ["--u32"] TInt0;
   opt ["--count"] TInt (VInt 1)].

Definition c_bench_parser : parser := ArgumentParser
  [positional_plus "sources";
   opt_list ["--include-dirs"];
   opt ["--gcc"] TStr (VStr "riscv-none-elf-gcc");
   opt ["--objcopy"] TStr (VStr "riscv-none-elf-objcopy");
   opt ["--iverilog-dir"] TStr VNone;
   opt ["--mem-size"] TInt (VInt 32768);
   opt_choices ["--hazard-strategy"] TInt zero_one (VInt 0);
   opt ["--max-time"] TInt (VInt 200000000);
   opt ["--extra-cflags"] TStr (VStr "");
   opt_true ["--keep"]].

Definition sbi_parser : parser := ArgumentParser
  [opt ["--gcc"] TStr (VStr "riscv-none-elf-gcc");
   opt ["--objcopy"] TStr (VStr "riscv-none-elf-objcopy");
   opt_choices ["--spec-version"] TInt [VInt 0; VInt 2] (VInt 0)].

(** The defaults are files of the build directories. *)
Definition linux_parser (kernel_dir build_dir : string) (mem_size_bytes : Z) : parser := ArgumentParser
  [opt ["--gcc"] TStr (VStr "riscv-none-elf-gcc");
   opt ["--objcopy"] TStr (VStr "riscv-none-elf-objcopy");
   opt ["--kernel-image"] TStr (VStr (path_join kernel_dir "Image"));
   opt ["--initramfs"] TStr (VStr (path_join kernel_dir "initramfs.cpio.gz"));
   opt ["--mem-size"] TInt (VInt mem_size_bytes);
   opt ["--imem-out"] TStr (VStr (path_join build_dir "imem.mem"));
   opt ["--dmem-out"] TStr (VStr (path_join build_dir "dmem.mem"))].

(** ** Reading [args] *)

Definition get_str (m : namespace) (k : string) : option string := match m !! k with Some (VStr s) => Some s | _ => None end.
Definition get_int (m : namespace) (k : string) : option Z := match m !! k with Some (VInt z) => Some z | _ => None end.
Definition get_bool (m : namespace) (k : string) : bool := match m !! k with Some (VBool b) => b | _ => false end.
Definition get_ints (m : namespace) (k : string) : list Z := match m !! k with Some (VInts l) => l | _ => [] end.

(** ** Entry points *)

(** [asm.py]: the name of the file it writes, its lines and the number of
    instructions; [files] holds what it can open. *)
Definition asm_main (files : string -> list string) (argv : list string) : parse_outcome (option (string * list string * Z)) :=
  obind (parse_args asm_parser argv) (fun m =>
    match get_str m "source", get_str m "output", get_int m "size", get_int m "xlen" with
    | Some source, Some output, Some size, Some xl =>
        Args (match asm_py (files source) size xl with Some (lines, n) => Some (output, lines, n) | None => None end)
    | _, _, _, _ => usage_error
    end).

(** [debugger.py] *)
Definition debugger_cli (files : string -> list string) (input argv : list string) :
    parse_outcome (result (option (list string * reply))) :=
  obind (parse_args debugger_parser argv) (fun m =>
    match get_str m "program", get_int m "mem_size", get_int m "xlen" with
    | Some program, Some size, Some xl => Args (debugger_main program (files program) size xl input)
    | _, _, _ => usage_error
    end).

(** [random_gen.py]: the lines printed, and the file written.  [draws] gives the
    numbers a seed draws. *)
Definition random_gen_main (draws : Z -> list Z) (argv : list string) :
    parse_outcome (result (list string * option (string * list string))) :=
  obind (parse_args random_gen_parser argv) (fun m =>
    match get_int m "seed", get_int m "n", get_int m "xlen" with
    | Some seed, Some n, Some xl =>
        let mem_size := match get_int m "mem_size" with
          | Some k => k
          | None => if get_bool m "mmu" then (if xl =? 64 then 16384 else 8192) else 128
          end in
        Args (let! (text, info) := gen_program n 32 mem_size (get_str m "interrupt") (get_bool m "mmu") xl (draws seed) in
              let note := match info with
                | Some (after, cause) =>
                    ["# interrupt scheduled after instruction " ++ show_dec after ++ ", cause=" ++ show_0x8 cause]
                | None => []
                end in
              match get_str m "output" with
              | Some (String c path) => Ok (note, Some (String c path, text))
              | _ => Ok ((note ++ text ++ [""])%list, None)
              end)
    | _, _, _ => usage_error
    end).

(** The parameters of the core. *)
Definition core_args (m : namespace) : option core :=
  match get_int m "hazard_strategy", get_int m "pipeline_profile", get_int m "branch_predictor",
        get_int m "cache_mode", get_int m "mem_latency_i", get_int m "mem_latency_d" with
  | Some hs, Some pp, Some bp, Some cm, Some li, Some ld => Some (mkCore hs pp bp cm li ld)
  | _, _, _, _, _, _ => None
  end.

(** [run_random_tests.py] *)
Definition run_random_main (run_at : core -> Z -> option string -> bool -> Z -> Z -> string -> Z -> result verdict)
    (argv : list string) : parse_outcome (result (list (Z * verdict) * Z)) :=
  obind (parse_args run_random_parser argv) (fun m =>
    match core_args m, get_int m "n_instrs", get_int m "seed_start", get_int m "count", get_int m "xlen" with
    | Some cfg, Some n, Some seed, Some count, Some xl =>
        let interrupt := get_str m "interrupt" in
        let mmu := get_bool m "mmu" in
        Args (cross_check (run_at cfg n interrupt mmu xl) (get_int m "mem_size") interrupt mmu xl seed count)
    | _, _, _, _, _ => usage_error
    end).

(** [bench_runner.py]: the axis that is compared. *)
Definition bench_axis (m : namespace) : option axis :=
  if get_bool m "compare_strategies" then Some Strategy
  else if get_bool m "compare_profiles" then Some Profile
  else if get_bool m "compare_predictors" then Some Predictor
  else if get_bool m "compare_cache" then Some Cache
  else if get_bool m "compare_latency" then Some Latency
  else None.

(** [bench_runner.py]; [programs] gives the [bench_*.s] files of a directory, sorted. *)
Definition bench_runner_main (simulate : string -> list string -> sim) (fuel : nat) (template init_file_rel out_path : string)
    (programs : string -> list (string * list string)) (argv : list string) :
    parse_outcome (result (list (Z * list (string * (bench + bench_failure))) * list (string * option Z) * Z)) :=
  obind (parse_args bench_parser argv) (fun m =>
    match core_args m, get_str m "programs_dir" with
    | Some cfg, Some dir =>
        Args (bench_main simulate fuel template init_file_rel out_path (programs dir) (bench_axis m) cfg)
    | _, _ => usage_error
    end).

(** [elf2mem.py]: the two files it writes. *)
Definition elf2mem_main (run_tool : list string -> proc) (tmp_path : string) (argv : list string) :
    parse_outcome (result (string * list string * (string * list string))) :=
  obind (parse_args elf2mem_parser argv) (fun m =>
    match get_str m "elf", get_str m "objcopy", get_str m "imem_sections", get_str m "imem_out", get_str m "dmem_out",
          get_int m "imem_size", get_int m "dmem_size" with
    | Some elf, Some objcopy, Some sections, Some imem_out, Some dmem_out, Some isz, Some dsz =>
        Args (let! (imem, dmem) := elf2mem run_tool tmp_path elf objcopy sections isz dsz in
              Ok (imem_out, imem, (dmem_out, dmem)))
    | _, _, _, _, _, _, _ => usage_error
    end).

(** [gen_dtb.py]: the file it writes. *)
Definition gen_dtb_main (argv : list string) : parse_outcome (result (string * list Z)) :=
  obind (parse_args gen_dtb_parser argv) (fun m =>
    match get_str m "out", get_int m "mem_size", get_int m "timebase_freq", get_int m "uart_clock_freq", get_str m "bootargs" with
    | Some out, Some size, Some tb, Some uc, Some bootargs =>
        Args (let! blob := gen_dtb size tb uc bootargs (get_int m "initrd_start") (get_int m "initrd_end") in Ok (out, blob))
    | _, _, _, _, _ => usage_error
    end).

(** [gen_trace.py]: the file it writes. *)
Definition trace_main (files : string -> list string) (argv : list string) : parse_outcome (result (string * string)) :=
  obind (parse_args trace_parser argv) (fun m =>
    match get_str m "csv_path", get_str m "output", get_int m "xlen" with
    | Some csv, Some output, Some xl => Args (let! json := trace_json xl (files csv) in Ok (output, json))
    | _, _, _ => usage_error
    end).

(** [read_dump.py]: the lines it prints. *)
Definition read_dump_main (files : string -> list string) (argv : list string) : parse_outcome (result (list string)) :=
  obind (parse_args read_dump_parser argv) (fun m =>
    match get_str m "state_out", get_int m "count" with
    | Some f, Some count =>
        Args (read_dump (files f) (get_ints m "u8") (get_ints m "i8") (get_ints m "u16") (get_ints m "u32") count)
    | _, _ => usage_error
    end).

(** ** Command lines of one tool for another *)

Definition asm_argv (source out : string) (size xl : Z) : list string :=
  [source; "-o"; out; "--size"; show_dec size; "--xlen"; show_dec xl].
Definition elf2mem_argv (elf imem_out dmem_out : string) (size : Z) (objcopy : string) : list string :=
  [elf; "--imem-out"; imem_out; "--dmem-out"; dmem_out; "--imem-size"; show_dec size; "--dmem-size"; show_dec size;
   "--objcopy"; objcopy].
Definition elf2mem_sections_argv (elf imem_out dmem_out : string) (size : Z) (sections objcopy : string) : list string :=
  [elf; "--imem-out"; imem_out; "--dmem-out"; dmem_out; "--imem-size"; show_dec size; "--dmem-size"; show_dec size;
   "--imem-sections"; sections; "--objcopy"; objcopy].
Definition gen_dtb_argv (out : string) (size : Z) : list string := ["-o"; out; "--mem-size"; show_dec size].
Definition gen_dtb_linux_argv (out : string) (size : Z) (bootargs : string) (initrd_end : Z) : list string :=
  ["-o"; out; "--mem-size"; show_dec size; "--bootargs"; bootargs; "--initrd-start"; show_dec INITRD_ADDR;
   "--initrd-end"; show_dec initrd_end].
Definition trace_argv (csv out : string) : list string := [csv; "-o"; out].

(** ** The tools understand each other *)

(** A file name that cannot be taken for an option. *)
Definition plain (s : string) : Prop := String.prefix "-" s = false.

Ltac piece :=
  split_and!;
  try lazymatch goal with
  | |- show_dec _ <> _ => apply (dec_is_value []); reflexivity
  | |- parse_optional _ (show_dec _) = _ => apply dec_is_value; reflexivity
  | |- parse_optional _ _ = _ => apply plain_is_value; (assumption || reflexivity)
  | |- exists a, _ => eexists; split; reflexivity
  | |- ?s <> "--" => first [discriminate | apply (plain_is_value []); assumption]
  | |- _ = _ => reflexivity
  end.
Ltac attr :=
  first [erewrite use_given by (reflexivity || (apply dec_value; done) || (apply str_value; done))
       | erewrite use_bare by (reflexivity || (apply str_value; done))]; cbn [obind use_all].
(** Follows a command line written as pieces. *)
Ltac follow us :=
  match goal with |- context [parse_args ?p ?argv] => change argv with (concat (map words_of us));
    rewrite (parse_pieces p us); [| repeat (constructor; [piece|]); constructor | by intros ? [= <-]] end;
  cbn [use_all]; repeat attr; reflexivity.

Lemma asm_argv_read files source out size xl :
  plain source -> plain out ->
  asm_main files (asm_argv source out size xl) =
  Args (match asm_py (files source) size xl with Some (lines, n) => Some (out, lines, n) | None => None end).
Proof.
  intros Hs Ho. unfold asm_main.
  follow [Bare source; Given "-o" out; Given "--size" (show_dec size); Given "--xlen" (show_dec xl)].
Qed.

Section Calls.
Context (run_tool : list string -> proc) (tmp_path : string) (files : string -> list string).

Definition two_files {A B : Type} (a : string) (b : string) (r : result (A * B)) : result (string * A * (string * B)) :=
  let! (x, y) := r in Ok (a, x, (b, y)).

Lemma elf2mem_argv_read elf imem dmem size objcopy :
  plain elf -> plain imem -> plain dmem -> plain objcopy ->
  elf2mem_main run_tool tmp_path (elf2mem_argv elf imem dmem size objcopy) =
  Args (two_files imem dmem (elf2mem run_tool tmp_path elf objcopy ".text.init,.text" size size)).
Proof.
  intros He Hi Hd Ho. unfold elf2mem_main.
  follow [Bare elf; Given "--imem-out" imem; Given "--dmem-out" dmem; Given "--imem-size" (show_dec size);
          Given "--dmem-size" (show_dec size); Given "--objcopy" objcopy].
Qed.

Lemma elf2mem_sections_argv_read elf imem dmem size sections objcopy :
  plain elf -> plain imem -> plain dmem -> plain sections -> plain objcopy ->
  elf2mem_main run_tool tmp_path (elf2mem_sections_argv elf imem dmem size sections objcopy) =
  Args (two_files imem dmem (elf2mem run_tool tmp_path elf objcopy sections size size)).
Proof.
  intros He Hi Hd Hs Ho. unfold elf2mem_main.
  follow [Bare elf; Given "--imem-out" imem; Given "--dmem-out" dmem; Given "--imem-size" (show_dec size);
          Given "--dmem-size" (show_dec size); Given "--imem-sections" sections; Given "--objcopy" objcopy].
Qed.

Definition one_file {A : Type} (a : string) (r : result A) : result (string * A) := let! x := r in Ok (a, x).

Lemma gen_dtb_argv_read out size :
  plain out ->
  gen_dtb_main (gen_dtb_argv out size) =
  Args (one_file out (gen_dtb size TIMEBASE_FREQ UART_CLOCK_FREQ DEFAULT_BOOTARGS None None)).
Proof. intros Ho. unfold gen_dtb_main. follow [Given "-o" out; Given "--mem-size" (show_dec size)]. Qed.

Lemma gen_dtb_linux_argv_read out size bootargs initrd_end :
  plain out -> plain bootargs ->
  gen_dtb_main (gen_dtb_linux_argv out size bootargs initrd_end) =
  Args (one_file out (gen_dtb size TIMEBASE_FREQ UART_CLOCK_FREQ bootargs (Some INITRD_ADDR) (Some initrd_end))).
Proof.
  intros Ho Hb. unfold gen_dtb_main.
  follow [Given "-o" out; Given "--mem-size" (show_dec size); Given "--bootargs" bootargs;
          Given "--initrd-start" (show_dec INITRD_ADDR); Given "--initrd-end" (show_dec initrd_end)].
Qed.

Lemma trace_argv_read csv out :
  plain csv -> plain out -> trace_main files (trace_argv csv out) = Args (one_file out (trace_json 32 (files csv))).
Proof. intros Hc Ho. unfold trace_main. follow [Bare csv; Given "-o" out]. Qed.
End Calls.

(** C25: the command lines the tools write for one another are read as they are
    meant, whatever the numbers (negative ones included) and whatever the names
    that do not start with a dash: [asm.py] gets the source, output, size and
    width of the debugger and the two runners; [elf2mem.py] the files, sizes and
    sections of the three builders, the default sections included; [gen_dtb.py] the
    memory size, boot arguments and initramfs of the two image builders, the latter
    through [int(s, 0)], and its defaults elsewhere; [gen_trace.py] the table of the
    viewer, at its default width. *)
Theorem tool_calls_understood run_tool tmp_path files path out out' sections objcopy bootargs size xl initrd_end :
  plain path -> plain out -> plain out' -> plain sections -> plain objcopy -> plain bootargs ->
  asm_main files (asm_argv path out size xl) =
    Args (match asm_py (files path) size xl with Some (lines, n) => Some (out, lines, n) | None => None end) /\
  elf2mem_main run_tool tmp_path (elf2mem_argv path out out' size objcopy) =
    Args (two_files out out' (elf2mem run_tool tmp_path path objcopy ".text.init,.text" size size)) /\
  elf2mem_main run_tool tmp_path (elf2mem_sections_argv path out out' size sections objcopy) =
    Args (two_files out out' (elf2mem run_tool tmp_path path objcopy sections size size)) /\
  gen_dtb_main (gen_dtb_argv out size) =
    Args (one_file out (gen_dtb size TIMEBASE_FREQ UART_CLOCK_FREQ DEFAULT_BOOTARGS None None)) /\
  gen_dtb_main (gen_dtb_linux_argv out size bootargs initrd_end) =
    Args (one_file out (gen_dtb size TIMEBASE_FREQ UART_CLOCK_FREQ bootargs (Some INITRD_ADDR) (Some initrd_end))) /\
  trace_main files (trace_argv path out) = Args (one_file out (trace_json 32 (files path))).
Proof.
  intros. split_and!.
  - by apply asm_argv_read.
  - by apply elf2mem_argv_read.
  - by apply elf2mem_sections_argv_read.
  - by apply gen_dtb_argv_read.
  - by apply gen_dtb_linux_argv_read.
  - by apply trace_argv_read.
Qed.

(** The assembler on one line, and the device tree of the Linux image. *)
Lemma tool_calls_understood_witness :
  asm_main (fun _ => ["addi x1,x0,3"]) ["prog.s"; "-o"; "prog.mem"; "--size"; "4"; "--xlen"; "32"] =
    Args (Some ("prog.mem", ["10010011"; "00000000"; "00110000"; "00000000"], 1)) /\
  gen_dtb_main (gen_dtb_linux_argv "prog.mem" 4 LINUX_BOOTARGS 0x1000010) =
    Args (one_file "prog.mem" (gen_dtb 4 1000000 1843200 LINUX_BOOTARGS (Some 0x1000000) (Some 0x1000010))).
Proof.
  destruct (tool_calls_understood (fun _ => mkProc 0 "" []) "" (fun _ => ["addi x1,x0,3"]) "prog.s" "prog.mem" "d.mem"
    ".text.boot" "objcopy" LINUX_BOOTARGS 4 32 0x1000010) as (A & _ & _ & _ & D & _); try reflexivity.
  split; [exact A | exact D].
Defined.

(** ** What an accepted command line gives *)

Ltac well_formed_parser :=
  split; [apply (bool_decide_unpack _); by vm_compute | repeat (apply Forall_cons; split; [by intros [=]|]); apply Forall_nil_2].

Lemma run_random_well_formed : well_formed run_random_parser.
Proof. well_formed_parser. Qed.
Lemma bench_well_formed : well_formed bench_parser.
Proof. well_formed_parser. Qed.

(** An option of type [int] holds an integer, and one of its choices if it has any. *)
Lemma int_attr p argv m a d :
  well_formed p -> parse_args p argv = Args m -> a ∈ p -> action a = Store -> nargs a = One -> arg_ty a = TInt ->
  dflt a = VInt d ->
  exists z, get_int m (dest a) = Some z /\ (forall cs, choices a = Some cs -> VInt z ∈ VInt d :: cs).
Proof.
  intros W P Ha A N T D. destruct (proj1 (accepted_conforms p argv m W P) a Ha ltac:(by rewrite A)) as (v & L & H).
  unfold get_int. rewrite L. destruct H as [[_ ->]|H].
  - rewrite D. exists d. split; [done|]. intros. by left.
  - unfold admissible in H. rewrite A in H. destruct H as [strs M]. unfold matched_value in M. rewrite N in M.
    destruct strs as [|s [|]]; try done. unfold one_value, convert in M. rewrite T in M.
    destruct (py_int10 s) as [z|]; [|done]. destruct (choices a) as [cs|].
    + destruct (bool_decide_reflect (VInt z ∈ cs)); [|done]. injection M as <-. exists z. split; [done|].
      intros ? [= <-]. by right.
    + injection M as <-. exists z. by split.
Qed.

Lemma str_attr p argv m a s cs :
  well_formed p -> parse_args p argv = Args m -> a ∈ p -> action a = Store -> nargs a = One -> arg_ty a = TStr ->
  dflt a = VNone -> choices a = Some cs -> get_str m (dest a) = Some s -> VStr s ∈ cs.
Proof.
  intros W P Ha A N T D C G. destruct (proj1 (accepted_conforms p argv m W P) a Ha ltac:(by rewrite A)) as (v & L & H).
  unfold get_str in G. rewrite L in G. destruct H as [[_ ->]|H]; [by rewrite D in G|].
  unfold admissible in H. rewrite A in H. destruct H as [strs M]. unfold matched_value in M. rewrite N in M.
  destruct strs as [|t [|]]; try done. unfold one_value, convert in M. rewrite T, C in M.
  destruct (bool_decide_reflect (VStr t ∈ cs)); [|done]. injection M as <-. by injection G as <-.
Qed.

(** An option without a type or choices, and with a default, holds a string. *)
Lemma name_attr p argv m a d :
  well_formed p -> parse_args p argv = Args m -> a ∈ p -> action a = Store -> nargs a = One -> arg_ty a = TStr ->
  choices a = None -> dflt a = VStr d -> exists s, get_str m (dest a) = Some s.
Proof.
  intros W P Ha A N T C D. destruct (proj1 (accepted_conforms p argv m W P) a Ha ltac:(by rewrite A)) as (v & L & H).
  unfold get_str. rewrite L. destruct H as [[_ ->]|H]; [rewrite D; by exists d|].
  unfold admissible in H. rewrite A in H. destruct H as [strs M]. unfold matched_value in M. rewrite N in M.
  destruct strs as [|s [|]]; try done. unfold one_value, convert in M. rewrite T, C in M. injection M as <-. by exists s.
Qed.

Lemma flag_attr (m : namespace) a : dflt a = VBool false -> get_bool m (dest a) = true -> m !! dest a <> Some (dflt a).
Proof. intros D G E. unfold get_bool in G. by rewrite E, D in G. Qed.

(** The parameters of the core are always there, and within their choices. *)
Definition core_ok (c : core) : Prop :=
  hazard_strategy c ∈ [0; 1] /\ pipeline_profile c ∈ [0; 1] /\ branch_predictor c ∈ [0; 1] /\ cache_mode c ∈ [0; 1].

(** A member of a list that is written out. *)
Ltac member := apply (bool_decide_unpack _); by vm_compute.

Lemma zero_one_in z : VInt z ∈ VInt 0 :: zero_one -> z ∈ [0; 1].
Proof. unfold zero_one. rewrite !elem_of_cons, !elem_of_nil. intros [[=]|[[=]|[[=]|[]]]]; subst; tauto. Qed.

Lemma core_args_ok p argv m :
  well_formed p -> parse_args p argv = Args m ->
  (forall a, a ∈ [opt_choices ["--hazard-strategy"] TInt zero_one (VInt 0); opt_choices ["--pipeline-profile"] TInt zero_one (VInt 0);
     opt_choices ["--branch-predictor"] TInt zero_one (VInt 0); opt_choices ["--cache-mode"] TInt zero_one (VInt 0);
     opt ["--mem-latency-i"] TInt (VInt 0); opt ["--mem-latency-d"] TInt (VInt 0)] -> a ∈ p) ->
  exists cfg, core_args m = Some cfg /\ core_ok cfg.
Proof.
  intros W P I.
  assert (forall names, opt_choices names TInt zero_one (VInt 0) ∈ p ->
    exists z, get_int m (dest_of names) = Some z /\ z ∈ [0; 1]) as C.
  { intros names Hn. destruct (int_attr p argv m _ 0 W P Hn eq_refl eq_refl eq_refl eq_refl) as (z & G & Z).
    exists z. split; [exact G|]. apply zero_one_in, Z. reflexivity. }
  assert (forall names, opt names TInt (VInt 0) ∈ p -> exists z, get_int m (dest_of names) = Some z) as L.
  { intros names Hn. destruct (int_attr p argv m _ 0 W P Hn eq_refl eq_refl eq_refl eq_refl) as (z & G & _). by exists z. }
  destruct (C ["--hazard-strategy"]) as (hs & E1 & K1); [apply I; member|].
  destruct (C ["--pipeline-profile"]) as (pp & E2 & K2); [apply I; member|].
  destruct (C ["--branch-predictor"]) as (bp & E3 & K3); [apply I; member|].
  destruct (C ["--cache-mode"]) as (cm & E4 & K4); [apply I; member|].
  destruct (L ["--mem-latency-i"]) as (li & E5); [apply I; member|].
  destruct (L ["--mem-latency-d"]) as (ld & E6); [apply I; member|].
  exists (mkCore hs pp bp cm li ld). unfold core_args.
  change "hazard_strategy" with (dest_of ["--hazard-strategy"]). change "pipeline_profile" with (dest_of ["--pipeline-profile"]).
  change "branch_predictor" with (dest_of ["--branch-predictor"]). change "cache_mode" with (dest_of ["--cache-mode"]).
  change "mem_latency_i" with (dest_of ["--mem-latency-i"]). change "mem_latency_d" with (dest_of ["--mem-latency-d"]).
  rewrite E1, E2, E3, E4, E5, E6. by split.
Qed.

Definition axis_flag (x : axis) : string :=
  match x with
  | Strategy => "--compare-strategies"
  | Profile => "--compare-profiles"
  | Predictor => "--compare-predictors"
  | Cache => "--compare-cache"
  | Latency => "--compare-latency"
  end.

Lemma one_axis argv m x y :
  parse_args bench_parser argv = Args m ->
  get_bool m (dest_of [axis_flag x]) = true -> get_bool m (dest_of [axis_flag y]) = true -> x = y.
Proof.
  intros P Gx Gy. destruct (accepted_conforms bench_parser argv m bench_well_formed P) as [_ X].
  assert (forall z, opt_exclusive [axis_flag z] ∈ bench_parser) as I by (intros []; member).
  specialize (X _ _ (I x) (I y) eq_refl eq_refl ltac:(done) ltac:(done)
    (flag_attr m (opt_exclusive [axis_flag x]) eq_refl Gx) (flag_attr m (opt_exclusive [axis_flag y]) eq_refl Gy)).
  by destruct x, y.
Qed.

Lemma bench_axis_flag argv m x :
  parse_args bench_parser argv = Args m -> (get_bool m (dest_of [axis_flag x]) = true <-> bench_axis m = Some x).
Proof.
  intros P. pose proof (fun y => one_axis argv m x y P) as O. unfold bench_axis.
  change "compare_strategies" with (dest_of [axis_flag Strategy]). change "compare_profiles" with (dest_of [axis_flag Profile]).
  change "compare_predictors" with (dest_of [axis_flag Predictor]). change "compare_cache" with (dest_of [axis_flag Cache]).
  change "compare_latency" with (dest_of [axis_flag Latency]). split.
  - intros G. repeat match goal with |- context [get_bool m (dest_of [axis_flag ?y])] =>
      destruct (get_bool m (dest_of [axis_flag y])) eqn:?; [f_equal; symmetry; by apply O|] end.
    destruct x; congruence.
  - repeat case_match; intros [= <-]; done.
Qed.

(** C28: what the parsers accept is what the programs behind them are written for.
    An accepted command line of the random tests always gives a run of the
    cross-check, at width 32 or 64, with the switches of the core 0 or 1 and an
    interrupt source the generator knows; one of the benchmark runner always gives a
    run of it, with such switches, on the programs of a directory, and names at
    most one axis, and the run compares along exactly that one. *)
Theorem accepted_options run_at simulate fuel template init_file_rel out_path programs argv m :
  (parse_args run_random_parser argv = Args m ->
   exists cfg n seed count xl,
     run_random_main run_at argv =
       Args (cross_check (run_at cfg n (get_str m "interrupt") (get_bool m "mmu") xl) (get_int m "mem_size")
               (get_str m "interrupt") (get_bool m "mmu") xl seed count) /\
     core_ok cfg /\ (xl = 32 \/ xl = 64) /\
     (forall i, get_str m "interrupt" = Some i -> i ∈ ["timer"; "uart"; "msi"; "both"])) /\
  (parse_args bench_parser argv = Args m ->
   (exists cfg dir,
      bench_runner_main simulate fuel template init_file_rel out_path programs argv =
        Args (bench_main simulate fuel template init_file_rel out_path (programs dir) (bench_axis m) cfg) /\
      core_ok cfg) /\
   forall x, get_bool m (dest_of [axis_flag x]) = true <-> bench_axis m = Some x).
Proof.
  split; intros P.
  - pose proof run_random_well_formed as W.
    destruct (core_args_ok run_random_parser argv m W P) as (cfg & Ec & Kc).
    { intros a Ha. repeat (apply elem_of_cons in Ha as [->|Ha]; [member|]). by apply elem_of_nil in Ha. }
    assert (forall a d, a ∈ run_random_parser -> action a = Store -> nargs a = One -> arg_ty a = TInt -> dflt a = VInt d ->
      exists z, get_int m (dest a) = Some z /\ (forall cs, choices a = Some cs -> VInt z ∈ VInt d :: cs)) as A
      by (intros; by apply (int_attr run_random_parser argv)).
    destruct (A (opt ["--n-instrs"] TInt (VInt 16)) 16) as (n & En & _); try reflexivity; [member|].
    destruct (A (opt ["--seed-start"] TInt (VInt 1)) 1) as (seed & Es & _); try reflexivity; [member|].
    destruct (A (opt ["--count"] TInt (VInt 30)) 30) as (count & Ek & _); try reflexivity; [member|].
    destruct (A (opt_choices ["--xlen"] TInt xlens (VInt 32)) 32) as (xl & Ex & Kx); try reflexivity; [member|].
    exists cfg, n, seed, count, xl. split_and!.
    + unfold run_random_main. rewrite P. cbn [obind]. rewrite Ec. change "n_instrs" with (dest_of ["--n-instrs"]).
      change "seed_start" with (dest_of ["--seed-start"]). change "count" with (dest_of ["--count"]). change "xlen" with (dest_of ["--xlen"]).
      cbn [dest opt opt_choices] in En, Es, Ek, Ex. by rewrite En, Es, Ek, Ex.
    + exact Kc.
    + specialize (Kx xlens eq_refl). unfold xlens in Kx. rewrite !elem_of_cons, elem_of_nil in Kx. destruct Kx as [[=]|[[=]|[[=]|[]]]]; tauto.
    + intros i G. assert (VStr i ∈ interrupts) as H.
      { apply (str_attr run_random_parser argv m (opt_choices ["--interrupt"] TStr interrupts VNone) i interrupts W P); try reflexivity;
          [member | exact G]. }
      unfold interrupts in H. rewrite !elem_of_cons, elem_of_nil in H. rewrite !elem_of_cons.
      destruct H as [[=]|[[=]|[[=]|[[=]|[]]]]]; tauto.
  - split; [|by intros x; apply (bench_axis_flag argv)].
    destruct (core_args_ok bench_parser argv m bench_well_formed P) as (cfg & Ec & Kc).
    { intros a Ha. repeat (apply elem_of_cons in Ha as [->|Ha]; [member|]). by apply elem_of_nil in Ha. }
    destruct (name_attr bench_parser argv m (opt ["--programs-dir"] TStr (VStr "sim/benchmarks")) "sim/benchmarks" bench_well_formed P)
      as (dir & Ed); try reflexivity; [member|].
    exists cfg, dir. split; [|done]. unfold bench_runner_main. rewrite P. cbn [obind]. rewrite Ec.
    change "programs_dir" with (dest_of ["--programs-dir"]). cbn [dest opt] in Ed. by rewrite Ed.
Qed.

(** Twice the same option is no conflict; two axes are. *)
Definition random_line : list string := ["--xlen"; "64"; "--interrupt=uart"; "--count"; "-1"].
Definition bench_line : list string := ["--compare-c"; "--compare-cache"; "--hazard-strategy"; "1"].
Definition parsed (o : parse_outcome namespace) : namespace := match o with Args m => m | _ => ∅ end.
Lemma parsed_args o : match o with Args _ => true | _ => false end = true -> o = Args (parsed o).
Proof. by destruct o. Qed.

Lemma accepted_options_witness :
  (exists cfg seed count xl,
     run_random_main (fun _ _ _ _ _ _ _ _ => Ok Pass) random_line =
       Args (cross_check (fun _ _ _ => Ok Pass) None (Some "uart") false xl seed count) /\
     core_ok cfg /\ (xl = 32 \/ xl = 64)) /\
  bench_axis (parsed (parse_args bench_parser bench_line)) = Some Cache /\
  parse_args bench_parser ["--compare-cache"; "--compare-latency"] = Exit 2.
Proof.
  assert (parse_args run_random_parser random_line = Args (parsed (parse_args run_random_parser random_line))) as P
    by (apply parsed_args; vm_compute; reflexivity).
  assert (parse_args bench_parser bench_line = Args (parsed (parse_args bench_parser bench_line))) as Q
    by (apply parsed_args; vm_compute; reflexivity).
  assert (get_str (parsed (parse_args run_random_parser random_line)) "interrupt" = Some "uart") as I by (vm_compute; reflexivity).
  assert (get_bool (parsed (parse_args run_random_parser random_line)) "mmu" = false) as M by (vm_compute; reflexivity).
  assert (get_int (parsed (parse_args run_random_parser random_line)) "mem_size" = None) as N by (vm_compute; reflexivity).
  assert (get_bool (parsed (parse_args bench_parser bench_line)) (dest_of [axis_flag Cache]) = true) as B by (vm_compute; reflexivity).
  split_and!; [| |vm_compute; reflexivity].
  - destruct (accepted_options (fun _ _ _ _ _ _ _ _ => Ok Pass) (fun _ _ => CompileError) 0%nat "" "" "" (fun _ => []) random_line (parsed (parse_args run_random_parser random_line))) as [R _].
    destruct (R P) as (cfg & n & seed & count & xl & E & K & X & _). rewrite I, M, N in E.
    exists cfg, seed, count, xl. split_and!; [exact E | exact K | exact X].
  - destruct (accepted_options (fun _ _ _ _ _ _ _ _ => Ok Pass) (fun _ _ => CompileError) 0%nat "" "" "" (fun _ => []) bench_line (parsed (parse_args bench_parser bench_line))) as [_ A].
    apply (proj2 (A Q) Cache). exact B.
Defined.
