(* ===== verification/KernelBoot.v ===== *)
(** * The simulation model of a kernel boot

    [src/sim/tools/build_kernel_boot.py]: the two commands that turn the core and the
    images of [build_linux_boot.py] into a program.  The machine is a POSIX one;
    the commands, the contents of a directory and the environment are parameters. *)

From Stdlib Require Import Ascii String.
From S2P Require Import Prelude PyStr Asm Disasm PyText PosixPath Argparse CommandLine DebugSession.
Open Scope string_scope.
Open Scope Z_scope.

Definition OSS_CAD_BIN : string := "C:\oss-cad-suite\oss-cad-suite\bin".
Definition OSS_CAD_VERILATOR_ROOT : string := "C:\oss-cad-suite\oss-cad-suite\share\verilator".
Definition backslash : ascii := chr 92.
Definition quoted (s : string) : string := String (chr 34) (s ++ String (chr 34) "").

Record boot_args : Type := mkBoot {
  imem : string;
  dmem : string;
  boot_mem_size : Z;
  zero_init_limit_override : Z;
  clks_per_bit : Z;
  verilator_bin : string;
  verilator_root : string;
  gxx : string;
  boot_out : string;
  obj_dir : string
}.

Section KernelBoot.
(** Where the process runs and the script is; the environment; the exit status of a
    command, in a directory and an environment; the names in a directory. *)
Context (cwd file : string) (environ : gmap string string)
  (exec : list string -> string -> gmap string string -> Z) (listdir : string -> result (list string)).

Definition HERE : string := dirname (abspath cwd file).
Definition REPO_ROOT : string := normpath (os_join (os_join HERE "..") "..").
Definition DESIGN_DIR : string := os_join REPO_ROOT "design".
Definition VERILATOR_DIR : string := os_join (os_join REPO_ROOT "sim") "verilator".

Definition run_command (cmd : list string) (dir : string) (env : gmap string string) : result unit :=
  if exec cmd dir env =? 0 then Ok tt else Err RuntimeError.

Definition kernel_boot_parser : parser := ArgumentParser
  [opt_required ["--imem"] TStr;
   opt_required ["--dmem"] TStr;
   opt_required ["--mem-size"] TInt;
   opt ["--zero-init-limit-override"] TInt (VInt 0);
   opt ["--clks-per-bit"] TInt (VInt 4);
   opt ["--verilator-bin"] TStr (VStr (os_join OSS_CAD_BIN "verilator_bin.exe"));
   opt ["--verilator-root"] TStr (VStr OSS_CAD_VERILATOR_ROOT);
   opt ["--gxx"] TStr (VStr "C:\Users\poorn\mingw64\mingw64\bin\g++.exe");
   opt ["--out"] TStr (VStr (os_join VERILATOR_DIR "vboot.exe"));
   opt ["--obj-dir"] TStr (VStr (os_join VERILATOR_DIR "obj_dir_boot"))].

Definition slashes (p : string) : string := py_replace (String backslash "") "/" 0 p.

Definition WARNINGS : list string :=
  ["-Wno-WIDTHEXPAND"; "-Wno-WIDTHTRUNC"; "-Wno-LATCH"; "-Wno-UNUSEDSIGNAL";
   "-Wno-BLKSEQ"; "-Wno-UNUSEDPARAM"; "-Wno-VARHIDDEN"; "-Wno-DECLFILENAME";
   "-Wno-PINMISSING"; "-Wno-CASEINCOMPLETE"; "-Wno-UNOPTFLAT"; "-Wno-UNSIGNED"].

Definition verilate_cmd (args : boot_args) (imem_rel dmem_rel : string) : list string :=
  (verilator_bin args :: ["-Wall"; "-Wno-fatal"] ++ WARNINGS ++
   ["--cc"; ("-I" ++ slashes DESIGN_DIR)%string;
    "-GXLEN=64";
    ("-GMEM_SIZE_BYTES=" ++ show_dec (boot_mem_size args))%string;
    ("-GINIT_FILE=" ++ quoted imem_rel)%string;
    ("-GDATA_INIT_FILE=" ++ quoted dmem_rel)%string;
    ("-GUART_CLKS_PER_BIT=" ++ show_dec (clks_per_bit args))%string;
    ("-GZERO_INIT_LIMIT_OVERRIDE=" ++ show_dec (zero_init_limit_override args))%string;
    "--top-module"; "PIPELINED";
    slashes (os_join DESIGN_DIR "riscvpipeline.v");
    "--Mdir"; slashes (obj_dir args)])%list.

Definition boot_env (args : boot_args) : gmap string string :=
  <["PATH" := OSS_CAD_BIN ++ ":" ++ default "" (environ !! "PATH")]> (<["VERILATOR_ROOT" := verilator_root args]> environ).

(** The C++ files Verilator wrote. *)
Definition obj_cpps (names : list string) : list string :=
  List.filter (fun f => String.prefix "VPIPELINED" f && ends_with ".cpp" f) names.

Definition gxx_cmd (args : boot_args) (cpps : list string) : list string :=
  let include := os_join (verilator_root args) "include" in
  ([gxx args; "-O2"; "-std=c++17"; "-static-libgcc"; "-static-libstdc++"; "-static";
    "-I"; obj_dir args; "-I"; include; "-I"; os_join include "vltstd";
    os_join VERILATOR_DIR "sim_main.cpp"] ++
   map (os_join (obj_dir args)) cpps ++
   [os_join include "verilated.cpp"; os_join include "verilated_threads.cpp"; "-lpsapi"; "-o"; boot_out args])%list.

(** The commands run. *)
Definition kernel_boot (args : boot_args) : result (list (list string)) :=
  let! imem_rel := relpath cwd (abspath cwd (imem args)) REPO_ROOT in
  let! dmem_rel := relpath cwd (abspath cwd (dmem args)) REPO_ROOT in
  let verilate := verilate_cmd args (slashes imem_rel) (slashes dmem_rel) in
  let env := boot_env args in
  let! _ := run_command verilate REPO_ROOT env in
  let! names := listdir (abspath cwd (obj_dir args)) in
  let compile := gxx_cmd args (obj_cpps names) in
  let! _ := run_command compile REPO_ROOT env in
  Ok [verilate; compile].

Definition boot_args_of (m : namespace) : option boot_args :=
  match get_str m "imem", get_str m "dmem", get_int m "mem_size", get_int m "zero_init_limit_override",
        get_int m "clks_per_bit", get_str m "verilator_bin", get_str m "verilator_root", get_str m "gxx",
        get_str m "out", get_str m "obj_dir" with
  | Some i, Some d, Some ms, Some z, Some c, Some vb, Some vr, Some g, Some o, Some od => Some (mkBoot i d ms z c vb vr g o od)
  | _, _, _, _, _, _, _, _, _, _ => None
  end.
Definition kernel_boot_main (argv : list string) : parse_outcome (result (list (list string))) :=
  obind (parse_args kernel_boot_parser argv) (fun m =>
    match boot_args_of m with Some args => Args (kernel_boot args) | None => usage_error end).
End KernelBoot.

(** ** Which files the commands are about *)

Lemma repo_root_abs cwd file : rooted cwd file -> exists ds, Forall real ds /\ REPO_ROOT cwd file = abs ds.
Proof.
  intros H. destruct (abspath_real cwd file H) as (cs & F & E). unfold REPO_ROOT, HERE. rewrite E.
  assert (Forall part [".."]) as D by by apply Forall_singleton.
  assert (exists ds, Forall real ds /\ dirname (abs cs) = abs ds) as (ds & Fd & ->).
  { destruct (decide (cs = [])) as [->|N]; [by exists []|]. destruct (exists_last N) as (ds & c & ->).
    apply Forall_app in F as [Fd [Fc _]%Forall_cons]. exists ds. split; [done|]. apply dirname_abs; [by apply real_part | by destruct Fc]. }
  apply real_part in Fd. change ".." with (join "/" [".."]).
  assert (Forall part (ds ++ [".."])) as Fd1 by by apply Forall_app.
  assert (Forall part ((ds ++ [".."]) ++ [".."])) as Fd2 by by apply Forall_app.
  rewrite !os_join_abs, normpath_abs by done. eexists. split; [|reflexivity].
  by apply norm_comps_real, part_no_slash.
Qed.

(** The name written on the command line. *)
Lemma relative_name cwd file p :
  rooted cwd file -> rooted cwd p -> no_char backslash (abspath cwd p) = true ->
  exists r, relpath cwd (abspath cwd p) (REPO_ROOT cwd file) = Ok r /\ slashes r = r /\
    abspath (REPO_ROOT cwd file) r = abspath cwd p.
Proof.
  intros Hf Hp B. destruct (repo_root_abs cwd file Hf) as (ds & Fd & E). rewrite E.
  assert (rooted cwd (abs ds)) as Hr by (unfold rooted, given_path; rewrite is_abs_abs; by apply leading_abs, real_part).
  destruct (relpath_total cwd p (abs ds) Hp Hr) as (r & R & C). exists r. split_and!; [done| |].
  - apply py_replace_absent. by apply C.
  - pose proof (relpath_resolves cwd p (abs ds) r Hp Hr R) as A. by rewrite abspath_abs in A.
Qed.


(** Started in the directory above the repository. *)
Definition demo_boot : boot_args := mkBoot "out/imem.mem" "/tmp/dmem.mem" 67108864 0 4 "verilator" "/usr/share/verilator" "g++" "v" "/o".


(** An object directory given by a relative name: Verilator writes to it from the
    repository's directory, and its files are looked for from where the tool was
    started. *)
Lemma relative_obj_dir_differs :
  abspath (REPO_ROOT "/w" "repo/sim/tools/build_kernel_boot.py") "obj" = "/w/repo/obj" /\ abspath "/w" "obj" = "/w/obj".
Proof. by split; vm_compute. Qed.
